(** * vibe-coder-3d: asset scripts

    A shallow embedding of

      - [scripts/blender/convert-low-poly.py]   (module [LowPoly]),
      - [scripts/apply-shaded-texture.py]       (module [ShadedTexture]),
      - [rust/engine/scripts/generate_lod_performance_scene.py]
                                                (module [LodScene]),
      - [scripts/fix-origin-bottom.py]          (module [FixOrigin]),
      - [scripts/blender_prepare_tpose.py]      (module [Tpose]).

    A script is a value of [script]: the lines it prints and the calls
    it makes into the host, in order, and the way it ends.  The scene of
    the host is a record of what the scripts read and write in it, and
    what the host answers is a record [host] that a run takes as input.

    Python strings are byte strings here; case mapping and white space
    are those of the ASCII range, and paths are POSIX paths.  The
    builtins [int] and [float] on argument tokens are parameters of the
    scripts: a [ValueError] is [None].  Floats are binary64. *)

From Stdlib Require Import ZArith QArith Qround String Ascii List Bool Lia.
From Stdlib Require Import Floats.PrimFloat Floats.SpecFloat Floats.FloatOps.
From Stdlib Require Import Numbers.Cyclic.Int63.Uint63.
From Stdlib Require Import Numbers.DecimalString.
From stdpp Require Import base list.

Set Warnings "-inexact-float,-register-all".
Import ListNotations.

Local Open Scope string_scope.
Local Open Scope list_scope.
Local Open Scope Z_scope.

(** ** Python's [str] and [os.path] helpers *)

Module Py.

(** [c.isupper()] for an ASCII letter. *)
Definition is_upper (c : ascii) : bool :=
  let n := nat_of_ascii c in (65 <=? n)%nat && (n <=? 90)%nat.

Definition lower_char (c : ascii) : ascii :=
  if is_upper c then ascii_of_nat (nat_of_ascii c + 32) else c.

(** [s.lower()] *)
Fixpoint lower (s : string) : string :=
  match s with
  | EmptyString => EmptyString
  | String c s' => String (lower_char c) (lower s')
  end.

Definition upper_char (c : ascii) : ascii :=
  let n := nat_of_ascii c in
  if (97 <=? n)%nat && (n <=? 122)%nat then ascii_of_nat (n - 32) else c.

(** [s.upper()] *)
Fixpoint upper (s : string) : string :=
  match s with
  | EmptyString => EmptyString
  | String c s' => String (upper_char c) (upper s')
  end.

(** [c.isspace()]: tab, line feed, vertical tab, form feed, carriage
    return, the four separators 0x1c-0x1f and the space. *)
Definition is_space (c : ascii) : bool :=
  let n := nat_of_ascii c in
  ((9 <=? n)%nat && (n <=? 13)%nat) || ((28 <=? n)%nat && (n <=? 32)%nat).

Fixpoint lstrip (s : string) : string :=
  match s with
  | EmptyString => EmptyString
  | String c s' => if is_space c then lstrip s' else s
  end.

Fixpoint rstrip (s : string) : string :=
  match s with
  | EmptyString => EmptyString
  | String c s' =>
      let r := rstrip s' in
      if is_space c && (r =? EmptyString)%string then EmptyString
      else String c r
  end.

(** [s.strip()] *)
Definition strip (s : string) : string := rstrip (lstrip s).

(** [s.endswith(suf)]: [suf] is [s] or a suffix of the tail of [s]. *)
Fixpoint endswith (s suf : string) : bool :=
  (s =? suf)%string ||
  match s with
  | EmptyString => false
  | String _ s' => endswith s' suf
  end.

(** [s.rfind(c)] for a one-character needle: the last index of [c],
    or -1. *)
Fixpoint rfind_from (c : ascii) (s : string) (i : Z) (last : Z) : Z :=
  match s with
  | EmptyString => last
  | String d s' =>
      rfind_from c s' (i + 1) (if Ascii.eqb d c then i else last)
  end.

Definition rfind (c : ascii) (s : string) : Z := rfind_from c s 0 (-1).

(** [s[i:j]] for [0 <= i]. *)
Definition slice (s : string) (i j : Z) : string :=
  substring (Z.to_nat i) (Z.to_nat (j - i)) s.

Definition slice_from (s : string) (i : Z) : string :=
  substring (Z.to_nat i) (String.length s - Z.to_nat i) s.

Fixpoint all_dots (s : string) : bool :=
  match s with
  | EmptyString => true
  | String c s' => Ascii.eqb c "." && all_dots s'
  end.

(** [os.path.splitext] of [posixpath]: [genericpath._splitext] with
    separator [/] and extension separator [.].  The extension starts
    at the last dot of the last path component, unless that component
    has only dots before it. *)
Definition splitext (p : string) : string * string :=
  let sepIndex := rfind "/" p in
  let dotIndex := rfind "." p in
  if sepIndex <? dotIndex then
    if all_dots (slice p (sepIndex + 1) dotIndex) then (p, EmptyString)
    else (slice p 0 dotIndex, slice_from p dotIndex)
  else (p, EmptyString).

(** [x in l] and [l.index(x)] on a list of strings. *)
Definition contains (x : string) (l : list string) : bool :=
  existsb (String.eqb x) l.

Fixpoint index (x : string) (l : list string) : option nat :=
  match l with
  | [] => None
  | y :: l' => if (y =? x)%string then Some 0%nat
               else option_map S (index x l')
  end.

(** [str(n)] of an integer. *)
Definition str_of_Z (n : Z) : string :=
  NilZero.string_of_int (Z.to_int n).

(** [int(s)] on ASCII text: surrounding white space, an optional sign,
    and decimal digits that single underscores may separate. *)
Definition digit_of (c : ascii) : option Z :=
  let n := nat_of_ascii c in
  if (48 <=? n)%nat && (n <=? 57)%nat then Some (Z.of_nat (n - 48)) else None.

Fixpoint digits_value (s : string) (acc : Z) (after_digit : bool) : option Z :=
  match s with
  | EmptyString => if after_digit then Some acc else None
  | String c s' =>
      match digit_of c with
      | Some d => digits_value s' (10 * acc + d) true
      | None =>
          if Ascii.eqb c "_" && after_digit then digits_value s' acc false
          else None
      end
  end.

Definition int_ascii (s : string) : option Z :=
  match strip s with
  | String "+" r => digits_value r 0 false
  | String "-" r => Z.opp <$> digits_value r 0 false
  | r => digits_value r 0 false
  end.

(** [float(s)] on a short plain decimal [digits.digits] with an optional
    sign: at most 15 digits, so that the quotient of the digits by the
    power of ten is the nearest binary64 value.  Every other token is
    refused. *)
Fixpoint plain_digits (s : string) (acc : Z) : option (Z * string) :=
  match s with
  | EmptyString => Some (acc, EmptyString)
  | String c s' =>
      match digit_of c with
      | Some d => plain_digits s' (10 * acc + d)
      | None => if Ascii.eqb c "." then Some (acc, s') else None
      end
  end.

Definition all_digits (s : string) : bool :=
  match digits_value s 0 false with
  | Some _ => negb (existsb (Ascii.eqb "_") (list_ascii_of_string s))
  | None => false
  end.

Definition unsigned_decimal (s : string) : option float :=
  match plain_digits s 0 with
  | Some (whole, frac) =>
      let digits := (String.length s - 1)%nat in
      if ((frac =? EmptyString)%string || all_digits frac)
         && (1 <=? digits)%nat && (digits <=? 15)%nat
         && existsb (Ascii.eqb ".") (list_ascii_of_string s)
      then
        match digits_value frac 0 true with
        | Some f =>
            let k := Z.of_nat (String.length frac) in
            Some (PrimFloat.div
                    (PrimFloat.of_uint63 (Uint63.of_Z (whole * 10 ^ k + f)))
                    (PrimFloat.of_uint63 (Uint63.of_Z (10 ^ k))))
        | None => None
        end
      else if all_digits s && (String.length s <=? 15)%nat then
        Some (PrimFloat.of_uint63 (Uint63.of_Z whole))
      else None
  | None => None
  end.

Definition float_decimal (s : string) : option float :=
  match strip s with
  | String "+" r => unsigned_decimal r
  | String "-" r => PrimFloat.opp <$> unsigned_decimal r
  | r => unsigned_decimal r
  end.

(** *** [repr(x)] of a float

    The shortest decimal that rounds to [x], and among the decimals of
    that length the nearest to [x], laid out as Python does: with an
    exponent when the decimal point falls more than 16 places behind or
    4 places before the first digit. *)

(** The exact value of a finite float. *)
Definition exact (x : float) : option Q :=
  match Prim2SF x with
  | S754_zero _ => Some 0%Q
  | S754_finite sign m e =>
      let v := (inject_Z (Z.pos m) * Qpower 2 e)%Q in
      Some (if sign then Qopp v else v)
  | S754_infinity _ | S754_nan => None
  end.

Definition mantissa_even (x : float) : bool :=
  match Prim2SF x with
  | S754_finite _ m _ => Z.even (Z.pos m)
  | _ => true
  end.

(** The decimal exponent [p] of a positive rational:
    [10^(p-1) <= a < 10^p]. *)
Fixpoint decimal_exponent (fuel : nat) (a : Q) (p : Z) : Z :=
  match fuel with
  | O => p
  | S fuel =>
      if Qle_bool (Qpower 10 p) a then decimal_exponent fuel a (p + 1)
      else if Qle_bool (Qpower 10 (p - 1)) a then p
      else decimal_exponent fuel a (p - 1)
  end.

(** [d] rounds to the float whose rounding interval is [lo, hi]; the
    ends belong to it when the mantissa is even. *)
Definition between (closed : bool) (lo hi d : Q) : bool :=
  if closed then Qle_bool lo d && Qle_bool d hi
  else negb (Qle_bool d lo) && negb (Qle_bool hi d).

(** The shortest decimal [d * 10^k] in the rounding interval of [a],
    from [n] digits on. *)
Fixpoint shortest (todo : nat) (n : Z) (closed : bool) (lo hi a : Q) (p : Z) : Z * Z :=
  let k := p - n in
  let unit := Qpower 10 k in
  let d0 := Qfloor (a / unit) in
  let v0 := (inject_Z d0 * unit)%Q in
  let v1 := (inject_Z (d0 + 1) * unit)%Q in
  let ok0 := between closed lo hi v0 in
  let ok1 := between closed lo hi v1 in
  let nearer0 := Qle_bool (a - v0) (v1 - a) in
  match todo with
  | O => (d0, k)
  | S todo =>
      if ok0 && (negb ok1 || nearer0) then (d0, k)
      else if ok1 then (d0 + 1, k)
      else shortest todo (n + 1) closed lo hi a p
  end.

Fixpoint strip_zeros (fuel : nat) (d k : Z) : Z * Z :=
  match fuel with
  | O => (d, k)
  | S fuel =>
      if (d mod 10 =? 0) && negb (d =? 0) then strip_zeros fuel (d / 10) (k + 1)
      else (d, k)
  end.

Fixpoint zeros (n : nat) : string :=
  match n with
  | O => EmptyString
  | S n => String "0" (zeros n)
  end.

(** The digits of a positive float and the place of its decimal point,
    as text. *)
Definition layout (digits : string) (decpt : Z) : string :=
  let n := Z.of_nat (String.length digits) in
  if (decpt <=? -4) || (16 <? decpt) then
    let e := decpt - 1 in
    let mantissa := match digits with
                    | String c EmptyString => String c EmptyString
                    | String c rest => String c ("." ++ rest)
                    | EmptyString => EmptyString
                    end in
    (mantissa ++ "e" ++ (if (e <? 0)%Z then "-" else "+")
       ++ (if (Z.abs e <? 10)%Z then "0" else "") ++ str_of_Z (Z.abs e))%string
  else if decpt <=? 0 then ("0." ++ zeros (Z.to_nat (- decpt)) ++ digits)%string
  else if n <=? decpt then (digits ++ zeros (Z.to_nat (decpt - n)) ++ ".0")%string
  else (substring 0 (Z.to_nat decpt) digits ++ "."
        ++ substring (Z.to_nat decpt) (Z.to_nat (n - decpt)) digits)%string.

Definition float_repr (x : float) : string :=
  match Prim2SF x with
  | S754_nan => "nan"
  | S754_infinity sign => if sign then "-inf" else "inf"
  | S754_zero sign => if sign then "-0.0" else "0.0"
  | S754_finite sign _ _ =>
      let ax := PrimFloat.abs x in
      match exact ax, exact (PrimFloat.next_down ax) with
      | Some a, Some below =>
          let above := match exact (PrimFloat.next_up ax) with
                       | Some v => v
                       | None => (a + (a - below))%Q
                       end in
          let lo := ((below + a) / 2)%Q in
          let hi := ((a + above) / 2)%Q in
          let p := decimal_exponent 800 a 1 in
          let '(d, k) := shortest 17 1 (mantissa_even ax) lo hi a p in
          let '(d, k) := strip_zeros 20 d k in
          let digits := str_of_Z d in
          let decpt := Z.of_nat (String.length digits) + k in
          ((if sign then "-" else "") ++ layout digits decpt)%string
      | _, _ => "nan"
      end
  end.

End Py.

(** ** Script runs: console output, host calls, exits *)

(** The pieces of an f-string before formatting. *)
Inductive piece :=
| Str (s : string)
| Int (n : Z)
| Num (n : nat)
| Flag (b : bool)
| Flt (x : float)             (* [{x}] *)
| Fixed (digits : nat) (x : float).  (* [{x:.2f}], [{x:.1f}] *)

(** The export settings handed to [bpy.ops.export_scene.gltf]. *)
Record gltf_settings := {
  gs_filepath : string;
  gs_export_format : string;
  gs_use_selection : bool;
  gs_draco_enable : bool;
  gs_draco_level : Z;
  gs_draco_position_quantization : Z;
  gs_draco_normal_quantization : Z;
  gs_draco_texcoord_quantization : Z;
  gs_draco_color_quantization : Z;
  gs_export_tangents : bool;
  gs_export_materials : bool;
  gs_export_colors : bool;
  gs_export_cameras : bool;
  gs_export_lights : bool;
  gs_export_extras : bool;
  gs_export_yup : bool;
  gs_export_image_format : option string;
  gs_export_jpeg_quality : option Z
}.

(** Calls into the host application and the operating system that the
    scripts make for their effect.  The selection of single objects and
    the changes of mode around an operator are not recorded. *)
Inductive host_call :=
| SelectAll (action : string)
| DeleteObjects
| ImportFbx (filepath : string)
| ImportGltf (filepath : string)
| RemoveDoubles (object : string)
| Decimate (object : string) (ratio : float)
| Smooth (object : string) (iterations : Z)
| AutoSmooth (object : string)
| SetCursor (x y z : float)
| OriginToCursor (object : string)
| SetLocationZero (object : string)
| ExportGltf (settings : gltf_settings)
| ExportGltfBasic (filepath : string)
| ExportFbx (filepath : string)
| ExportGltfAs (filepath : string) (export_format : string)
| Subprocess (argv : list string)
| WriteText (filepath : string) (text : string).

Inductive event :=
| Printed (line : list piece)
| Call (c : host_call).

(** How a script stops before its last statement. *)
Inductive stop :=
| SysExit (code : Z)
| Uncaught (exception : string).

Inductive result (A : Type) :=
| Ok (a : A)
| Stopped (s : stop).
Arguments Ok {A} a.
Arguments Stopped {A} s.

(** A script fragment: the events it produced, in order, and its value
    or the way it stopped. *)
Definition script (A : Type) : Type := list event * result A.

#[global] Instance script_ret : MRet script := fun A a => ([], Ok a).

#[global] Instance script_bind : MBind script := fun A B f m =>
  match m with
  | (evs, Ok a) => let '(evs', r) := f a in (evs ++ evs', r)
  | (evs, Stopped s) => (evs, Stopped s)
  end.

Definition emit (e : event) : script unit := ([e], Ok tt).
Definition print (line : list piece) : script unit := emit (Printed line).
Definition call (c : host_call) : script unit := emit (Call c).
Definition sys_exit {A} (code : Z) : script A := ([], Stopped (SysExit code)).
Definition raise {A} (exception : string) : script A :=
  ([], Stopped (Uncaught exception)).

(** [l[i]], with its [IndexError]. *)
Definition getitem (l : list string) (i : nat) : script string :=
  match l !! i with
  | Some x => mret x
  | None => raise "IndexError"
  end.

(** The process exit code of a finished run. *)
Definition exit_code {A} (r : script A) : option Z :=
  match snd r with
  | Ok _ => Some 0
  | Stopped (SysExit c) => Some c
  | Stopped (Uncaught _) => None
  end.

Definition events {A} (r : script A) : list event := fst r.

(** The files a run wrote through an exporter. *)
Definition is_export (e : event) : bool :=
  match e with
  | Call (ExportGltf _) | Call (ExportGltfBasic _) | Call (ExportFbx _)
  | Call (ExportGltfAs _ _) => true
  | _ => false
  end.

Definition exports {A} (r : script A) : list event :=
  List.filter is_export (events r).

(** [argv[argv.index("--") + 1:]] *)
Definition script_args (argv : list string) : list string :=
  match Py.index "--" argv with
  | Some i => drop (i + 1) argv
  | None => []
  end.

(** The token that follows a flag: the repeated pattern
    [if flag in args: idx = args.index(flag); if idx + 1 < len(args): args[idx + 1]]. *)
Definition flag_token (flag : string) (args : list string) : option string :=
  if Py.contains flag args then
    match Py.index flag args with
    | Some idx => if (idx + 1 <? length args)%nat then args !! (idx + 1)%nat else None
    | None => None
    end
  else None.

(** [if path:] for a path that is [None] or a string: set and not empty. *)
Definition truthy_path (p : option string) : option string :=
  match p with
  | Some s => if (s =? "")%string then None else Some s
  | None => None
  end.

(** ** The host scene, as far as the scripts read and write it *)

Definition rgba : Type := float * float * float * float.
Definition vec3 : Type := float * float * float.

(** An image datablock of [bpy.data.images]; an image is identified by
    its position in the store. *)
Record image := {
  img_name : string;
  has_data : bool;
  width : Z;
  height : Z;
  file_format : string
}.

(** A shader node: its type, the image of an image-texture node, the
    colour of a diffuse node, and for every output socket the types of
    the nodes its links lead to. *)
Record node := {
  node_type : string;
  node_image : option nat;
  node_color : option rgba;
  node_outputs : list (list string)
}.

Record material := {
  mat_name : string;
  use_nodes : bool;
  nodes : list node
}.

(** A scene object; [slots] are the materials of its mesh data, as
    positions in [bpy.data.materials]. *)
Record object := {
  obj_name : string;
  obj_type : string;
  parent_type : option string;
  slots : list nat;
  vertices : Z;
  bound_box : list vec3
}.

Record scene := {
  objects : list object;
  materials : list material;
  images : list image;
  actions : list string
}.

Definition set_slots (v : list nat) (o : object) : object :=
  {| obj_name := obj_name o; obj_type := obj_type o;
     parent_type := parent_type o; slots := v;
     vertices := vertices o; bound_box := bound_box o |}.

Definition set_objects (v : list object) (sc : scene) : scene :=
  {| objects := v; materials := materials sc; images := images sc;
     actions := actions sc |}.

Definition set_materials (v : list material) (sc : scene) : scene :=
  {| objects := objects sc; materials := v; images := images sc;
     actions := actions sc |}.

Definition set_images (v : list image) (sc : scene) : scene :=
  {| objects := objects sc; materials := materials sc; images := v;
     actions := actions sc |}.

Definition set_actions (v : list string) (sc : scene) : scene :=
  {| objects := objects sc; materials := materials sc; images := images sc;
     actions := v |}.

(** [img.scale(w, h)] *)
Definition scale (w h : Z) (img : image) : image :=
  {| img_name := img_name img; has_data := has_data img;
     width := w; height := h; file_format := file_format img |}.

Definition set_file_format (v : string) (img : image) : image :=
  {| img_name := img_name img; has_data := has_data img;
     width := width img; height := height img; file_format := v |}.

Definition is_mesh (o : object) : bool := (obj_type o =? "MESH")%string.
Definition is_armature (o : object) : bool := (obj_type o =? "ARMATURE")%string.

(** [obj.data.materials.clear(); obj.data.materials.append(mat)] for
    every [obj] of [meshes]. *)
Definition assign_material (mat : nat) (meshes : list nat) (objs : list object) : list object :=
  fold_left (fun objs i => alter (set_slots [mat]) i objs) meshes objs.

Definition output_node : node :=
  {| node_type := "OUTPUT_MATERIAL"; node_image := None;
     node_color := None; node_outputs := [] |}.

(** The material with an image texture on a principled shader, which
    both scripts build the same way; the loaded image is the only one
    left in the store. *)
Definition image_texture_material : material :=
  {| mat_name := "ImageTextureMaterial"; use_nodes := true;
     nodes := [ output_node;
                {| node_type := "BSDF_PRINCIPLED"; node_image := None;
                   node_color := None;
                   node_outputs := [["OUTPUT_MATERIAL"]] |};
                {| node_type := "TEX_IMAGE"; node_image := Some 0%nat;
                   node_color := None;
                   node_outputs := [["BSDF_PRINCIPLED"]; []] |} ] |}.

(** A flat diffuse material of the given name and colour. *)
Definition diffuse_material (name : string) (color : rgba) : material :=
  {| mat_name := name; use_nodes := true;
     nodes := [ output_node;
                {| node_type := "BSDF_DIFFUSE"; node_image := None;
                   node_color := Some color;
                   node_outputs := [["OUTPUT_MATERIAL"]] |} ] |}.

(** What the host and the operating system answer.  An importer or a
    process launch that raises is [None]; the other host calls of the
    scripts are taken to succeed. *)
Record host := {
  import_fbx : string -> option scene;
  import_gltf : string -> option scene;
  load_image : string -> image + string;
  decimated : object -> float -> object;
  gltf_type_error : option string;
  script_dir : string;
  script_exists : string -> bool;
  blender_path : option string;
  run_process : list string -> option (Z * string * string);
  exported_exists : string -> bool;
  exported_size : string -> Z;
  final_exists : string -> bool;
  final_size : string -> Z
}.

(** [float(n)] for an integer below 2^63 in absolute value. *)
Definition float_of_Z (n : Z) : float :=
  if n <? 0 then PrimFloat.opp (PrimFloat.of_uint63 (Uint63.of_Z (- n)))
  else PrimFloat.of_uint63 (Uint63.of_Z n).

(** [os.path.join(a, b)] of [posixpath] for a relative [b]. *)
Definition path_join (a b : string) : string :=
  if (a =? "")%string || Py.endswith a "/" then (a ++ b)%string
  else (a ++ "/" ++ b)%string.

(** ** convert-low-poly.py *)

Module LowPoly.

(** The module-level variables the argument handling sets. *)
Record config := {
  input_path : string;
  output_path : string;
  proceed_with_glb : bool;
  ratio : float;
  texture_size : Z;
  normal_map_size : option Z;
  remove_textures : bool;
  fix_origin : bool;
  keep_original_textures : bool;
  texture_format : string;
  texture_quality : Z;
  use_webp_flag : bool;
  apply_texture_path : option string
}.

Definition set_ratio (v : float) (c : config) : config :=
  {| input_path := input_path c; output_path := output_path c;
     proceed_with_glb := proceed_with_glb c; ratio := v;
     texture_size := texture_size c; normal_map_size := normal_map_size c;
     remove_textures := remove_textures c; fix_origin := fix_origin c;
     keep_original_textures := keep_original_textures c;
     texture_format := texture_format c; texture_quality := texture_quality c;
     use_webp_flag := use_webp_flag c;
     apply_texture_path := apply_texture_path c |}.

Definition set_texture_size (v : Z) (c : config) : config :=
  {| input_path := input_path c; output_path := output_path c;
     proceed_with_glb := proceed_with_glb c; ratio := ratio c;
     texture_size := v; normal_map_size := normal_map_size c;
     remove_textures := remove_textures c; fix_origin := fix_origin c;
     keep_original_textures := keep_original_textures c;
     texture_format := texture_format c; texture_quality := texture_quality c;
     use_webp_flag := use_webp_flag c;
     apply_texture_path := apply_texture_path c |}.

Definition set_normal_map_size (v : option Z) (c : config) : config :=
  {| input_path := input_path c; output_path := output_path c;
     proceed_with_glb := proceed_with_glb c; ratio := ratio c;
     texture_size := texture_size c; normal_map_size := v;
     remove_textures := remove_textures c; fix_origin := fix_origin c;
     keep_original_textures := keep_original_textures c;
     texture_format := texture_format c; texture_quality := texture_quality c;
     use_webp_flag := use_webp_flag c;
     apply_texture_path := apply_texture_path c |}.

Definition set_remove_textures (v : bool) (c : config) : config :=
  {| input_path := input_path c; output_path := output_path c;
     proceed_with_glb := proceed_with_glb c; ratio := ratio c;
     texture_size := texture_size c; normal_map_size := normal_map_size c;
     remove_textures := v; fix_origin := fix_origin c;
     keep_original_textures := keep_original_textures c;
     texture_format := texture_format c; texture_quality := texture_quality c;
     use_webp_flag := use_webp_flag c;
     apply_texture_path := apply_texture_path c |}.

Definition set_fix_origin (v : bool) (c : config) : config :=
  {| input_path := input_path c; output_path := output_path c;
     proceed_with_glb := proceed_with_glb c; ratio := ratio c;
     texture_size := texture_size c; normal_map_size := normal_map_size c;
     remove_textures := remove_textures c; fix_origin := v;
     keep_original_textures := keep_original_textures c;
     texture_format := texture_format c; texture_quality := texture_quality c;
     use_webp_flag := use_webp_flag c;
     apply_texture_path := apply_texture_path c |}.

Definition set_keep_original_textures (v : bool) (c : config) : config :=
  {| input_path := input_path c; output_path := output_path c;
     proceed_with_glb := proceed_with_glb c; ratio := ratio c;
     texture_size := texture_size c; normal_map_size := normal_map_size c;
     remove_textures := remove_textures c; fix_origin := fix_origin c;
     keep_original_textures := v;
     texture_format := texture_format c; texture_quality := texture_quality c;
     use_webp_flag := use_webp_flag c;
     apply_texture_path := apply_texture_path c |}.

Definition set_texture_format (v : string) (c : config) : config :=
  {| input_path := input_path c; output_path := output_path c;
     proceed_with_glb := proceed_with_glb c; ratio := ratio c;
     texture_size := texture_size c; normal_map_size := normal_map_size c;
     remove_textures := remove_textures c; fix_origin := fix_origin c;
     keep_original_textures := keep_original_textures c;
     texture_format := v; texture_quality := texture_quality c;
     use_webp_flag := use_webp_flag c;
     apply_texture_path := apply_texture_path c |}.

Definition set_texture_quality (v : Z) (c : config) : config :=
  {| input_path := input_path c; output_path := output_path c;
     proceed_with_glb := proceed_with_glb c; ratio := ratio c;
     texture_size := texture_size c; normal_map_size := normal_map_size c;
     remove_textures := remove_textures c; fix_origin := fix_origin c;
     keep_original_textures := keep_original_textures c;
     texture_format := texture_format c; texture_quality := v;
     use_webp_flag := use_webp_flag c;
     apply_texture_path := apply_texture_path c |}.

Definition set_apply_texture_path (v : option string) (c : config) : config :=
  {| input_path := input_path c; output_path := output_path c;
     proceed_with_glb := proceed_with_glb c; ratio := ratio c;
     texture_size := texture_size c; normal_map_size := normal_map_size c;
     remove_textures := remove_textures c; fix_origin := fix_origin c;
     keep_original_textures := keep_original_textures c;
     texture_format := texture_format c; texture_quality := texture_quality c;
     use_webp_flag := use_webp_flag c;
     apply_texture_path := v |}.

(** Lines 10-24: the usage text printed when [--] is missing. *)
Definition usage : list string := [
  "Usage: blender --background --python convert-low-poly.py -- <input_path> <output_path> [options]";
  "Options:";
  "  --ratio <value>            : Decimation ratio (0.01-1.0, default: 0.15)";
  "  --texture-size <pixels>    : Resize textures to this resolution (default: 512)";
  "  --normal-map-size <pixels> : Separate size for normal maps (default: same as texture-size)";
  "  --keep-original-textures   : Don't resize any textures (preserves texture quality)";
  "  --remove-textures          : Remove all textures (smallest file size)";
  "  --fix-origin               : Fix model origin to bottom center (default: true)";
  "  --quality <1-5>            : Preset quality level (1=smallest, 5=highest quality)";
  "  --texture-format <format>  : Preferred texture format (png, jpeg) (default: png)";
  "  --texture-quality <0-100>  : JPEG quality when using JPEG format (default: 90)";
  "  --apply-texture <image_path> : Apply the specified image as a texture to all meshes";
  "  --webp                     : Automatically convert textures to WebP after export" ].

Fixpoint print_all (lines : list string) : script unit :=
  match lines with
  | [] => mret tt
  | l :: rest => print [Str l];; print_all rest
  end.

Section Parse.

(** Python's [int(s)] and [float(s)]; [None] is a [ValueError]. *)
Variable py_int : string -> option Z.
Variable py_float : string -> option float.

(** Lines 26-47: positional arguments, [--glb] and the defaults. *)
Definition defaults (args : list string) : script config :=
  input_path ← getitem args 0;
  output_path ← getitem args 1;
  let proceed_with_glb := Py.contains "--glb" args in
  output_path ←
    (if proceed_with_glb then
       if negb (Py.endswith (Py.lower output_path) ".glb") then
         let output_path := (fst (Py.splitext output_path) ++ ".glb")%string in
         print [Str "[INFO] Corrected output path to: "; Str output_path];;
         mret output_path
       else mret output_path
     else mret output_path);
  mret {| input_path := input_path; output_path := output_path;
          proceed_with_glb := proceed_with_glb;
          ratio := 0.15; texture_size := 512; normal_map_size := None;
          remove_textures := false; fix_origin := true;
          keep_original_textures := false;
          texture_format := "PNG"; texture_quality := 90;
          use_webp_flag := Py.contains "--webp" args;
          apply_texture_path := None |}.

(** Lines 49-55. *)
Definition webp_settings (c : config) : script config :=
  if use_webp_flag c then
    print [Str "[INFO] --webp flag detected: will export as JPEG (low quality/size) and post-process to WebP"];;
    mret (set_texture_size 32 (set_texture_quality 30 (set_texture_format "JPEG" c)))
  else mret c.

(** Lines 63-85: the [if]/[elif] chain on the preset level. *)
Definition quality_preset (quality : Z) (c : config) : config :=
  if quality =? 1 then
    set_texture_quality 75 (set_texture_format "JPEG"
      (set_texture_size 256 (set_ratio 0.05 c)))
  else if quality =? 2 then
    set_texture_quality 85 (set_texture_format "JPEG"
      (set_texture_size 512 (set_ratio 0.1 c)))
  else if quality =? 3 then
    set_texture_format "PNG" (set_texture_size 1024 (set_ratio 0.15 c))
  else if quality =? 4 then
    set_texture_format "PNG" (set_texture_size 2048 (set_ratio 0.25 c))
  else if quality =? 5 then
    set_keep_original_textures true (set_texture_format "PNG"
      (set_texture_size 4096 (set_ratio 0.4 c)))
  else c.

(** Lines 57-88. *)
Definition parse_quality (args : list string) (c : config) : script config :=
  match flag_token "--quality" args with
  | Some tok =>
      match py_int tok with
      | Some quality =>
          let c := quality_preset quality c in
          print [Str "[INFO] Using quality preset "; Int quality];;
          mret c
      | None =>
          print [Str "Invalid quality value: "; Str tok; Str ", using defaults"];;
          mret c
      end
  | None => mret c
  end.

(** Lines 91-98. *)
Definition parse_ratio (args : list string) (c : config) : script config :=
  match flag_token "--ratio" args with
  | Some tok =>
      match py_float tok with
      | Some v => mret (set_ratio v c)
      | None => print [Str "Invalid ratio value: "; Str tok];; sys_exit 1
      end
  | None => mret c
  end.

(** Lines 100-106. *)
Definition parse_texture_size (args : list string) (c : config) : script config :=
  match flag_token "--texture-size" args with
  | Some tok =>
      match py_int tok with
      | Some v => mret (set_texture_size v c)
      | None => print [Str "Invalid texture size: "; Str tok];; mret c
      end
  | None => mret c
  end.

(** Lines 108-114. *)
Definition parse_normal_map_size (args : list string) (c : config) : script config :=
  match flag_token "--normal-map-size" args with
  | Some tok =>
      match py_int tok with
      | Some v => mret (set_normal_map_size (Some v) c)
      | None => print [Str "Invalid normal map size: "; Str tok];; mret c
      end
  | None => mret c
  end.

(** Lines 116-123. *)
Definition parse_texture_format (args : list string) (c : config) : script config :=
  match flag_token "--texture-format" args with
  | Some tok =>
      let fmt := Py.upper tok in
      if Py.contains fmt ["PNG"; "JPEG"] then mret (set_texture_format fmt c)
      else
        print [Str "Invalid texture format: "; Str tok; Str ", using "; Str (texture_format c)];;
        mret c
  | None => mret c
  end.

(** Lines 130-133. *)
Definition clamp_quality (v : Z) : Z :=
  if v <? 0 then 0 else if v >? 100 then 100 else v.

(** Lines 125-135. *)
Definition parse_texture_quality (args : list string) (c : config) : script config :=
  match flag_token "--texture-quality" args with
  | Some tok =>
      match py_int tok with
      | Some v => mret (set_texture_quality (clamp_quality v) c)
      | None => print [Str "Invalid texture quality: "; Str tok];; mret c
      end
  | None => mret c
  end.

(** Lines 137-145. *)
Definition parse_switches (args : list string) (c : config) : config :=
  let c := if Py.contains "--remove-textures" args
           then set_keep_original_textures false (set_remove_textures true c)
           else c in
  let c := if Py.contains "--keep-original-textures" args
           then set_keep_original_textures true c else c in
  if Py.contains "--no-fix-origin" args then set_fix_origin false c else c.

(** Lines 147-153. *)
Definition parse_apply_texture (args : list string) (c : config) : script config :=
  match flag_token "--apply-texture" args with
  | Some path =>
      print [Str "[INFO] Will apply texture: "; Str path];;
      mret (set_apply_texture_path (Some path) c)
  | None => mret c
  end.

(** Lines 155-157. *)
Definition resolve_normal_map_size (c : config) : config :=
  match normal_map_size c with
  | None => set_normal_map_size (Some (texture_size c)) c
  | Some _ => c
  end.

(** The normal-map size the later stages read. *)
Definition effective_normal_map_size (c : config) : Z :=
  match normal_map_size c with
  | Some v => v
  | None => texture_size c
  end.

(** Lines 159-172. *)
Definition report_config (c : config) : script unit :=
  print [Str "[INFO] Input: "; Str (input_path c)];;
  print [Str "[INFO] Output: "; Str (output_path c)];;
  print [Str "[INFO] Decimation ratio: "; Flt (ratio c)];;
  (if remove_textures c then print [Str "[INFO] Textures: Removed"]
   else if keep_original_textures c then
     print [Str "[INFO] Textures: Keeping originals (best quality)"]
   else
     print [Str "[INFO] Texture size: "; Int (texture_size c); Str "px"];;
     print [Str "[INFO] Normal map size: "; Int (effective_normal_map_size c); Str "px"];;
     print [Str "[INFO] Texture format: "; Str (texture_format c)];;
     (if (texture_format c =? "JPEG")%string then
        print [Str "[INFO] JPEG quality: "; Int (texture_quality c)]
      else mret tt));;
  print [Str "[INFO] Fix origin: "; Flag (fix_origin c)].

(** Lines 26-172: the argument list after [--] to the configuration. *)
Definition parse_args (args : list string) : script config :=
  c ← defaults args;
  c ← webp_settings c;
  c ← parse_quality args c;
  c ← parse_ratio args c;
  c ← parse_texture_size args c;
  c ← parse_normal_map_size args c;
  c ← parse_texture_format args c;
  c ← parse_texture_quality args c;
  let c := parse_switches args c in
  c ← parse_apply_texture args c;
  let c := resolve_normal_map_size c in
  report_config c;;
  mret c.

End Parse.

Section Process.

Variable h : host.

(** Lines 174-186: clean the scene and import by extension. *)
Definition import_model (c : config) : script scene :=
  call (SelectAll "SELECT");;
  call DeleteObjects;;
  let ext := Py.lower (snd (Py.splitext (input_path c))) in
  if (ext =? ".fbx")%string then
    call (ImportFbx (input_path c));;
    match import_fbx h (input_path c) with
    | Some sc => mret sc
    | None => raise "RuntimeError"
    end
  else if Py.contains ext [".glb"; ".gltf"] then
    call (ImportGltf (input_path c));;
    match import_gltf h (input_path c) with
    | Some sc => mret sc
    | None => raise "RuntimeError"
    end
  else
    print [Str "Unsupported file extension: "; Str ext];;
    sys_exit 1.

(** Lines 188-192. *)
Definition remove_animations (sc : scene) : script scene :=
  print [Str "[INFO] Removed all animations"];;
  mret (set_actions [] sc).

(** Lines 194-202: the last armature, and the positions of the meshes
    among the scene objects. *)
Definition find_armature (objs : list object) : option object :=
  fold_left (fun arm o => if is_armature o then Some o else arm) objs None.

Fixpoint find_meshes_from (i : nat) (objs : list object) : list nat :=
  match objs with
  | [] => []
  | o :: rest =>
      if is_armature o then find_meshes_from (i + 1) rest
      else if is_mesh o then i :: find_meshes_from (i + 1) rest
      else find_meshes_from (i + 1) rest
  end.

Definition find_meshes (objs : list object) : list nat :=
  find_meshes_from 0 objs.

(** Lines 204-207. *)
Definition report_found (armature : option object) (meshes : list nat) : script unit :=
  match armature with
  | Some a => print [Str "[INFO] Found armature: "; Str (obj_name a)]
  | None => mret tt
  end;;
  match meshes with
  | [] => mret tt
  | _ => print [Str "[INFO] Found "; Num (length meshes); Str " mesh objects"]
  end.

(** Lines 304-319: the flat light-gray diffuse material. *)
Definition simple_material : material :=
  diffuse_material "SimpleMaterial" (0.8, 0.8, 0.8, 1.0)%float.

(** Lines 210-245. *)
Definition apply_texture (c : config) (path : string) (meshes : list nat) (sc : scene) : script scene :=
  match load_image h path with
  | inr e => print [Str "[ERROR] Could not load image: "; Str e];; sys_exit 1
  | inl img =>
      let tex_mat := length (materials sc) in
      let sc := set_materials (materials sc ++ [image_texture_material]) sc in
      let sc := set_images [img] sc in
      let sc := set_objects (assign_material tex_mat meshes (objects sc)) sc in
      print [Str "[INFO] Applied image texture material to all meshes"];;
      (if negb (proceed_with_glb c) then
         print [Str "[WARNING] For FBX export, the texture file must be present alongside the FBX for it to show in other viewers."]
       else mret tt);;
      mret sc
  end.

(** Lines 259-268, for one image-texture node: one entry in
    [normal_maps] for every output socket with a link to a normal-map
    node (the [break] leaves the inner loop only), or else one entry in
    [regular_textures]. *)
Definition links_normal_map (links : list string) : bool :=
  existsb (fun t => (t =? "NORMAL_MAP")%string) links.

Definition classify_node (n : node) (acc : list nat * list nat) : list nat * list nat :=
  let '(normal_maps, regular_textures) := acc in
  match node_image n with
  | Some img =>
      if (node_type n =? "TEX_IMAGE")%string then
        let hits := List.filter links_normal_map (node_outputs n) in
        match hits with
        | [] => (normal_maps, regular_textures ++ [img])
        | _ => (normal_maps ++ map (fun _ => img) hits, regular_textures)
        end
      else acc
  | None => acc
  end.

(** Lines 251-268: the first pass over all materials. *)
Definition classify (mats : list material) : list nat * list nat :=
  fold_left
    (fun acc mat =>
       if use_nodes mat then fold_left (fun acc n => classify_node n acc) (nodes mat) acc
       else acc)
    mats ([], []).

(** The guard of lines 272-275 (and 283-286, 293-295): the image has
    pixels and exceeds the target in width or in height. *)
Definition needs_resize (target : Z) (img : image) : bool :=
  has_data img && (width img >? 0) && (height img >? 0) &&
  negb ((width img <=? target) && (height img <=? target)).

(** Lines 277-279. *)
Definition resize_normal_map (target : Z) (img : image) : image :=
  if needs_resize target img then set_file_format "PNG" (scale target target img)
  else img.

(** Lines 287-288 and 296-297. *)
Definition resize_texture (target : Z) (img : image) : image :=
  if needs_resize target img then scale target target img else img.

(** One of the three resize loops: [label] is the word of its message,
    [resize] its effect on an image that exceeds [target]. *)
Fixpoint resize_loop (label : string) (resize : Z -> image -> image)
    (target : Z) (ids : list nat) (imgs : list image) : script (list image) :=
  match ids with
  | [] => mret imgs
  | i :: rest =>
      match imgs !! i with
      | Some img =>
          if needs_resize target img then
            print [Str "[INFO] Resizing "; Str label; Str " "; Str (img_name img);
                   Str " from "; Int (width img); Str "x"; Int (height img);
                   Str " to "; Int target; Str "x"; Int target];;
            resize_loop label resize target rest (<[i := resize target img]> imgs)
          else resize_loop label resize target rest imgs
      | None => resize_loop label resize target rest imgs
      end
  end.

Definition mem (i : nat) (l : list nat) : bool := existsb (Nat.eqb i) l.

(** Lines 290-292: the images in neither list. *)
Definition unprocessed (normal_maps regular_textures : list nat) (imgs : list image) : list nat :=
  List.filter (fun i => negb (mem i normal_maps) && negb (mem i regular_textures))
    (seq 0 (length imgs)).

(** Lines 250-299: classify the textures and resize them. *)
Definition process_textures (c : config) (sc : scene) : script scene :=
  let '(normal_maps, regular_textures) := classify (materials sc) in
  let normal_map_size := effective_normal_map_size c in
  imgs ← resize_loop "normal map" resize_normal_map normal_map_size normal_maps (images sc);
  imgs ← resize_loop "texture" resize_texture (texture_size c) regular_textures imgs;
  imgs ← resize_loop "other texture" resize_texture (texture_size c)
           (unprocessed normal_maps regular_textures imgs) imgs;
  print [Str "[INFO] Processed "; Num (length normal_maps); Str " normal maps at ";
         Int normal_map_size; Str "px and "; Num (length regular_textures);
         Str " regular textures at "; Int (texture_size c); Str "px"];;
  mret (set_images imgs sc).

(** Lines 303-330: drop every image and give all meshes the flat gray
    material. *)
Definition strip_textures (meshes : list nat) (sc : scene) : script scene :=
  let simple_mat := length (materials sc) in
  let sc := set_materials (materials sc ++ [simple_material]) sc in
  let sc := set_images [] sc in
  let sc := set_objects (assign_material simple_mat meshes (objects sc)) sc in
  print [Str "[INFO] Removed all textures and simplified materials"];;
  mret sc.

(** Lines 209-330: the texture stage. *)
Definition texture_stage (c : config) (meshes : list nat) (sc : scene) : script scene :=
  match truthy_path (apply_texture_path c) with
  | Some path => apply_texture c path meshes sc
  | None =>
      if negb (remove_textures c) then
        if negb (keep_original_textures c) then process_textures c sc
        else
          print [Str "[INFO] Keeping all original textures at full resolution"];;
          mret sc
      else strip_textures meshes sc
  end.

(** Lines 333-361: clean up, decimate and smooth one mesh after the
    other; the host gives the object that results. *)
Fixpoint decimate_meshes (c : config) (meshes : list nat) (objs : list object) : script (list object) :=
  match meshes with
  | [] => mret objs
  | i :: rest =>
      match objs !! i with
      | Some obj =>
          call (RemoveDoubles (obj_name obj));;
          call (Decimate (obj_name obj) (ratio c));;
          call (Smooth (obj_name obj) 1);;
          call (AutoSmooth (obj_name obj));;
          let obj := decimated h obj (ratio c) in
          print [Str "[INFO] Reduced "; Str (obj_name obj); Str " to "; Int (vertices obj); Str " vertices"];;
          decimate_meshes c rest (<[i := obj]> objs)
      | None => decimate_meshes c rest objs
      end
  end.

(** [max(meshes, key=...)]: the first object with the most vertices. *)
Fixpoint max_by_vertices (best : object) (rest : list object) : object :=
  match rest with
  | [] => best
  | o :: rest => max_by_vertices (if vertices o >? vertices best then o else best) rest
  end.

(** [min(xs)] and [max(xs)] on floats. *)
Definition float_min (x : float) (xs : list float) : float :=
  fold_left (fun m y => if PrimFloat.ltb y m then y else m) xs x.

Definition float_max (x : float) (xs : list float) : float :=
  fold_left (fun m y => if PrimFloat.ltb m y then y else m) xs x.

(** Lines 371-379: the bottom centre of a bounding box. *)
Definition bottom_center (bbox : list vec3) : option vec3 :=
  match bbox with
  | [] => None
  | (x, y, z) :: rest =>
      let xs := map (fun v => fst (fst v)) rest in
      let ys := map (fun v => snd (fst v)) rest in
      let zs := map (fun v => snd v) rest in
      Some ((float_min x xs + float_max x xs) / 2,
            (float_min y ys + float_max y ys) / 2,
            float_min z zs)%float
  end.

Fixpoint origin_to_cursor (objs : list object) : script unit :=
  match objs with
  | [] => mret tt
  | obj :: rest =>
      call (SelectAll "DESELECT");;
      call (OriginToCursor (obj_name obj));;
      (match parent_type obj with
       | Some t =>
           if (t =? "ARMATURE")%string then mret tt
           else call (SetLocationZero (obj_name obj))
       | None => call (SetLocationZero (obj_name obj))
       end);;
      origin_to_cursor rest
  end.

(** Lines 364-406. *)
Definition fix_model_origin (c : config) (armature : option object) (meshes : list object) : script unit :=
  match meshes with
  | [] => mret tt
  | first :: others =>
      if fix_origin c then
        let main_mesh := max_by_vertices first others in
        match bottom_center (bound_box main_mesh) with
        | None => raise "ValueError"
        | Some (center_x, center_y, min_z) =>
            call (SetCursor center_x center_y min_z);;
            print [Str "[DEBUG] Cursor set to bottom center at: "; Flt center_x; Str ", ";
                   Flt center_y; Str ", "; Flt min_z];;
            (match armature with
             | Some a =>
                 print [Str "[INFO] Setting armature origin to cursor (bottom center)"];;
                 call (SelectAll "DESELECT");;
                 call (OriginToCursor (obj_name a));;
                 call (SetLocationZero (obj_name a));;
                 print [Str "[INFO] Armature moved to world origin (0,0,0)"]
             | None => mret tt
             end);;
            origin_to_cursor meshes;;
            print [Str "[INFO] Origins set to bottom center and aligned to world origin"]
        end
      else mret tt
  end.

(** Lines 415-442. *)
Definition export_settings (c : config) : gltf_settings :=
  {| gs_filepath := output_path c;
     gs_export_format := "GLB";
     gs_use_selection := true;
     gs_draco_enable := true;
     gs_draco_level := 7;
     gs_draco_position_quantization := 14;
     gs_draco_normal_quantization := 10;
     gs_draco_texcoord_quantization := 12;
     gs_draco_color_quantization := 10;
     gs_export_tangents := true;
     gs_export_materials := true;
     gs_export_colors := true;
     gs_export_cameras := false;
     gs_export_lights := false;
     gs_export_extras := false;
     gs_export_yup := true;
     gs_export_image_format :=
       Some (if keep_original_textures c then "AUTO"
             else if (texture_format c =? "JPEG")%string then "JPEG" else "AUTO");
     gs_export_jpeg_quality :=
       if keep_original_textures c then Some 100
       else if (texture_format c =? "JPEG")%string then Some (texture_quality c)
       else None |}.

(** Lines 468-474: the script beside this one, and the command that
    runs it on the exported file. *)
Definition fix_origin_script : string :=
  path_join (script_dir h) "fix-origin-bottom.py".

Definition fix_origin_argv (c : config) : list string :=
  let blender := match blender_path h with Some b => b | None => "blender" end in
  [blender; "--background"; "--python"; fix_origin_script; "--";
   output_path c; output_path c].

(** Lines 467-481: the origin fix as a child process. *)
Definition run_fix_origin (c : config) : script unit :=
  if script_exists h fix_origin_script then
    print [Str "[INFO] Running fix-origin-bottom.py on "; Str (output_path c)];;
    call (Subprocess (fix_origin_argv c));;
    match run_process h (fix_origin_argv c) with
    | None => raise "OSError"
    | Some (returncode, stdout, stderr) =>
        print [Str stdout];;
        if negb (returncode =? 0) then
          print [Str "[ERROR] fix-origin-bottom.py failed: "; Str stderr]
        else print [Str "[INFO] Origin fix complete for "; Str (output_path c)]
    end
  else print [Str "[WARNING] fix-origin-bottom.py not found, skipping origin fix."].

(** Lines 487-489: the command of the WebP conversion. *)
Definition webp_argv (c : config) : list string :=
  ["npx"; "gltf-transform"; "webp"; output_path c; output_path c].

(** Lines 483-496: the conversion of the textures to WebP. *)
Definition run_webp (c : config) : script unit :=
  if (Py.lower (texture_format c) =? "webp")%string || use_webp_flag c then
    print [Str "[INFO] Converting textures to WebP using gltf-transform..."];;
    call (Subprocess (webp_argv c));;
    match run_process h (webp_argv c) with
    | None => print [Str "[ERROR] Failed to run gltf-transform webp: "; Str "OSError"]
    | Some (returncode, stdout, stderr) =>
        print [Str stdout];;
        if negb (returncode =? 0) then
          print [Str "[ERROR] gltf-transform webp failed: "; Str stderr]
        else print [Str "[INFO] WebP texture conversion complete for "; Str (output_path c)]
    end
  else mret tt.

(** Lines 409-507: the GLB branch of the export. *)
Definition export_glb (c : config) : script unit :=
  print [Str "[INFO] --glb flag present. Exporting as GLB."];;
  call (SelectAll "SELECT");;
  match gltf_type_error h with
  | None => call (ExportGltf (export_settings c))
  | Some e =>
      print [Str "[WARNING] Using simplified export settings: "; Str e];;
      call (ExportGltfBasic (output_path c))
  end;;
  print [Str "[INFO] Exported optimized low-poly model to: "; Str (output_path c)];;
  let size_bytes_before_webp :=
    if exported_exists h (output_path c) then Some (exported_size h (output_path c))
    else None in
  let size_kb_before_webp :=
    (float_of_Z (default 0%Z size_bytes_before_webp) / 1024)%float in
  match size_bytes_before_webp with
  | Some b => print [Str "[INFO] File size before WebP: "; Fixed 2 size_kb_before_webp;
                     Str " KB ("; Int b; Str " bytes)"]
  | None => mret tt
  end;;
  run_fix_origin c;;
  run_webp c;;
  if final_exists h (output_path c) then
    let size_bytes_final := final_size h (output_path c) in
    let size_kb_final := (float_of_Z size_bytes_final / 1024)%float in
    print [Str "[INFO] Final file size: "; Fixed 2 size_kb_final; Str " KB (";
           Int size_bytes_final; Str " bytes)"];;
    match size_bytes_before_webp with
    | Some b =>
        if negb (b =? 0) && (size_bytes_final <? b) then
          let reduction := (float_of_Z (100 * (b - size_bytes_final)) / float_of_Z b)%float in
          print [Str "[SUMMARY] Size reduction: "; Fixed 2 size_kb_before_webp; Str " KB → ";
                 Fixed 2 size_kb_final; Str " KB (↓"; Fixed 1 reduction; Str "%)"]
        else if negb (b =? 0) then
          print [Str "[SUMMARY] No size reduction after WebP conversion."]
        else mret tt
    | None => mret tt
    end
  else mret tt.

(** Lines 508-518: the FBX branch of the export. *)
Definition export_fbx (c : config) : script unit :=
  print [Str "[INFO] --glb flag not present. Exporting as FBX only."];;
  print [Str "[DEBUG] Output path: '"; Str (output_path c); Str "'"];;
  let output_path_clean := Py.lower (Py.strip (output_path c)) in
  if Py.endswith output_path_clean ".fbx" then
    call (ExportFbx (output_path c));;
    print [Str "[INFO] Exported as FBX: "; Str (output_path c)]
  else
    print [Str "[ERROR] Output path must end with .fbx if --glb is not specified."];;
    sys_exit 1.

(** Lines 408-518. *)
Definition export_model (c : config) : script unit :=
  if proceed_with_glb c then export_glb c else export_fbx c.

(** The meshes of [ids], as they are in [objs]. *)
Definition lookup_all (ids : list nat) (objs : list object) : list object :=
  omap (fun i => objs !! i) ids.

(** Lines 174-518: everything after the argument handling. *)
Definition process (c : config) : script unit :=
  sc ← import_model c;
  sc ← remove_animations sc;
  let armature := find_armature (objects sc) in
  let meshes := find_meshes (objects sc) in
  report_found armature meshes;;
  sc ← texture_stage c meshes sc;
  objs ← decimate_meshes c meshes (objects sc);
  fix_model_origin c armature (lookup_all meshes objs);;
  export_model c.

End Process.

(** The whole script, from [sys.argv]. *)
Definition main (py_int : string -> option Z) (py_float : string -> option float)
    (h : host) (argv : list string) : script unit :=
  if negb (Py.contains "--" argv) then
    print_all usage;;
    sys_exit 1
  else
    let args := script_args argv in
    c ← parse_args py_int py_float args;
    process h c.

End LowPoly.


(** ** apply-shaded-texture.py *)

Module ShadedTexture.

Record config := {
  input_path : string;
  output_path : string;
  color : rgba;
  image_path : option string
}.

(** Lines 8-11. *)
Definition usage : list string := [
  "Usage: blender --background --python apply-shaded-texture.py -- <input_path> <output_path> [--color <r> <g> <b> <a>] [--image <image_path>]";
  "  --color <r> <g> <b> <a> : Diffuse RGBA color (0-1, default: 0.8 0.8 0.8 1.0)" ].

Section Run.

Variable py_float : string -> option float.
Variable h : host.

(** Line 23: the four tokens after [--color] as floats; any exception
    ([IndexError], [ValueError]) is [None]. *)
Definition color_tokens (args : list string) (idx : nat) : option rgba :=
  t1 ← args !! (idx + 1)%nat; r ← py_float t1;
  t2 ← args !! (idx + 2)%nat; g ← py_float t2;
  t3 ← args !! (idx + 3)%nat; b ← py_float t3;
  t4 ← args !! (idx + 4)%nat; a ← py_float t4;
  Some (r, g, b, a).

(** Lines 13-37. *)
Definition parse_args (args : list string) : script config :=
  input_path ← getitem args 0;
  output_path ← getitem args 1;
  let color := (0.8, 0.8, 0.8, 1.0)%float in
  color ←
    (if Py.contains "--color" args then
       match Py.index "--color" args with
       | Some idx =>
           match color_tokens args idx with
           | Some v => mret v
           | None => print [Str "[WARNING] Invalid color values, using default."];; mret color
           end
       | None => mret color
       end
     else mret color);
  image_path ←
    (match flag_token "--image" args with
     | Some path => print [Str "[INFO] Using image texture: "; Str path];; mret (Some path)
     | None => mret None
     end);
  print [Str "[INFO] Input: "; Str input_path];;
  print [Str "[INFO] Output: "; Str output_path];;
  (match truthy_path image_path with
   | Some path => print [Str "[INFO] Texture image: "; Str path]
   | None =>
       let '(r, g, b, a) := color in
       print [Str "[INFO] Diffuse color: ("; Flt r; Str ", "; Flt g; Str ", "; Flt b; Str ", "; Flt a; Str ")"]
   end);;
  mret {| input_path := input_path; output_path := output_path;
          color := color; image_path := image_path |}.

(** Lines 39-51. *)
Definition import_model (c : config) : script scene :=
  call (SelectAll "SELECT");;
  call DeleteObjects;;
  let ext := Py.lower (snd (Py.splitext (input_path c))) in
  if (ext =? ".fbx")%string then
    call (ImportFbx (input_path c));;
    match import_fbx h (input_path c) with
    | Some sc => mret sc
    | None => raise "RuntimeError"
    end
  else if Py.contains ext [".glb"; ".gltf"] then
    call (ImportGltf (input_path c));;
    match import_gltf h (input_path c) with
    | Some sc => mret sc
    | None => raise "RuntimeError"
    end
  else
    print [Str "Unsupported file extension: "; Str ext];;
    sys_exit 1.

(** Line 54: the positions of the mesh objects. *)
Fixpoint find_meshes_from (i : nat) (objs : list object) : list nat :=
  match objs with
  | [] => []
  | o :: rest =>
      if is_mesh o then i :: find_meshes_from (i + 1) rest
      else find_meshes_from (i + 1) rest
  end.

(** Lines 57-109. *)
Definition assign_materials (c : config) (meshes : list nat) (sc : scene) : script scene :=
  match truthy_path (image_path c) with
  | Some path =>
      match load_image h path with
      | inr e => print [Str "[ERROR] Could not load image: "; Str e];; sys_exit 1
      | inl img =>
          let tex_mat := length (materials sc) in
          let sc := set_materials (materials sc ++ [image_texture_material]) sc in
          let sc := set_images [img] sc in
          let sc := set_objects (assign_material tex_mat meshes (objects sc)) sc in
          print [Str "[INFO] Applied image texture material to all meshes"];;
          mret sc
      end
  | None =>
      let shaded_mat := length (materials sc) in
      let sc := set_materials
                  (materials sc ++ [diffuse_material "ShadedMaterial" (color c)]) sc in
      let sc := set_images [] sc in
      let sc := set_objects (assign_material shaded_mat meshes (objects sc)) sc in
      print [Str "[INFO] Applied shaded material to all meshes"];;
      mret sc
  end.

(** Lines 111-120. *)
Definition export_model (c : config) : script unit :=
  let out := Py.lower (output_path c) in
  if Py.endswith out ".fbx" then
    call (ExportFbx (output_path c));;
    print [Str "[INFO] Exported as FBX: "; Str (output_path c)]
  else if Py.endswith out ".glb" || Py.endswith out ".gltf" then
    call (ExportGltfAs (output_path c) (if Py.endswith out ".glb" then "GLB" else "GLTF"));;
    print [Str "[INFO] Exported as GLB/GLTF: "; Str (output_path c)]
  else
    print [Str "[ERROR] Unsupported export format: "; Str (output_path c)];;
    sys_exit 1.

(** The whole script, from [sys.argv]. *)
Definition main (argv : list string) : script unit :=
  if negb (Py.contains "--" argv) then
    print [Str (nth 0 usage "")];;
    print [Str (nth 1 usage "")];;
    sys_exit 1
  else
    let args := script_args argv in
    c ← parse_args args;
    sc ← import_model c;
    let meshes := find_meshes_from 0 (objects sc) in
    print [Str "[INFO] Found "; Num (length meshes); Str " mesh objects"];;
    _ ← assign_materials c meshes sc;
    export_model c.

End Run.

End ShadedTexture.


(** ** generate_lod_performance_scene.py *)

Module LodScene.

(** The Python values the generator builds: [None], integers, floats,
    strings, lists, and dictionaries with string keys in insertion
    order. *)
Inductive pyval :=
| PNone
| PInt (n : Z)
| PFloat (x : float)
| PStr (s : string)
| PList (items : list pyval)
| PDict (fields : list (string * pyval)).

(** [int(x)] of a float: truncation toward zero; [None] for an infinity
    or a NaN, on which Python raises. *)
Definition int_of_float (x : float) : option Z :=
  match Prim2SF x with
  | S754_zero _ => Some 0
  | S754_finite sign m e =>
      let v := if e >=? 0 then Z.pos m * 2 ^ e else Z.pos m / 2 ^ (- e) in
      Some (if sign then - v else v)
  | S754_infinity _ | S754_nan => None
  end.

(** Line 43: [int(math.sqrt(1000)) + 1]. *)
Definition grid_size : Z :=
  match int_of_float (PrimFloat.sqrt (float_of_Z 1000)) with
  | Some r => r + 1
  | None => 0
  end.

(** Lines 27-39. *)
Definition camera : pyval :=
  PDict [ ("id", PInt 0);
          ("name", PStr "camera");
          ("components", PDict [
             ("Camera", PDict [
                ("position", PList [PInt 0; PInt 5; PInt 30]);
                ("rotation", PList [PInt 0; PInt 0; PInt 0; PInt 1]);
                ("fov", PInt 60);
                ("near", PFloat 0.1);
                ("far", PInt 1000) ]) ]) ].

(** Lines 50-77: the entity of grid cell [(x, z)] with identifier
    [entity_id]. *)
Definition grid_entity (x z entity_id : Z) : pyval :=
  let half := (float_of_Z grid_size / 2)%float in
  let pos_x := ((float_of_Z x - half) * 2.0 + float_of_Z (x mod 3) * 0.5)%float in
  let pos_z := ((float_of_Z z - half) * 2.0 + float_of_Z (z mod 3) * 0.5)%float in
  let pos_y := (float_of_Z ((x + z) mod 3) * 0.5)%float in
  let model := Py.str_of_Z (entity_id mod 10) in
  PDict [ ("id", PInt entity_id);
          ("name", PStr ("lod_entity_" ++ Py.str_of_Z entity_id));
          ("components", PDict [
             ("Transform", PDict [
                ("position", PList [PFloat pos_x; PFloat pos_y; PFloat pos_z]);
                ("rotation", PList [PInt 0; PInt 0; PInt 0; PInt 1]);
                ("scale", PList [PInt 1; PInt 1; PInt 1]) ]);
             ("MeshRenderer", PDict [
                ("mesh_path", PStr ("models/performance_obj_" ++ model ++ ".glb"));
                ("material_path", PStr "materials/default.json") ]);
             ("LODComponent", PDict [
                ("path", PStr ("models/performance_obj_" ++ model ++ ".glb"));
                ("high_quality_path",
                   PStr ("models/lod/performance_obj_" ++ model ++ "_high.glb"));
                ("low_quality_path",
                   PStr ("models/lod/performance_obj_" ++ model ++ "_low.glb"));
                ("distance_thresholds",
                   PList [PInt (5 + entity_id mod 5); PInt (15 + entity_id mod 10)]);
                ("quality_override", PNone);
                ("current_quality", PStr "Original") ]) ]) ].

(** The loop state: the next identifier and the entities appended so
    far. *)
Definition loop_state : Type := Z * list pyval.

(** [range(n)] *)
Definition range (n : Z) : list Z := map Z.of_nat (seq 0 (Z.to_nat n)).

(** Lines 46-80: the inner loop over [z], left by [break] once the
    identifier exceeds 1000. *)
Fixpoint inner_loop (x : Z) (zs : list Z) (st : loop_state) : loop_state :=
  match zs with
  | [] => st
  | z :: rest =>
      let '(entity_id, entities) := st in
      if entity_id >? 1000 then st
      else inner_loop x rest (entity_id + 1, entities ++ [grid_entity x z entity_id])
  end.

(** Lines 45-83: the outer loop over [x], with its own [break]. *)
Fixpoint outer_loop (xs : list Z) (st : loop_state) : loop_state :=
  match xs with
  | [] => st
  | x :: rest =>
      let st := inner_loop x (range grid_size) st in
      if fst st >? 1000 then st else outer_loop rest st
  end.

(** Lines 9-85. *)
Definition generate_performance_scene : pyval :=
  let entities := [camera] in
  let '(_, entities) := outer_loop (range grid_size) (1, entities) in
  PDict [ ("name", PStr "testlod-performance");
          ("version", PStr "1.0");
          ("entities", PList entities);
          ("metadata", PDict [
             ("description", PStr "LOD performance test scene with 1000+ entities");
             ("test_cases", PList [
                PStr "LOD calculation performance with many entities";
                PStr "Memory usage patterns";
                PStr "Batch processing efficiency";
                PStr "Thread safety under load" ]);
             ("entity_count", PInt 1000) ]) ].

(** [d[key]] and [list(d.keys())] *)
Definition field (key : string) (v : pyval) : option pyval :=
  match v with
  | PDict fields => snd <$> List.find (fun kv => (fst kv =? key)%string) fields
  | _ => None
  end.

Definition keys (v : pyval) : list string :=
  match v with
  | PDict fields => map fst fields
  | _ => []
  end.

Definition items (v : pyval) : list pyval :=
  match v with
  | PList l => l
  | _ => []
  end.

(** [scene["entities"]] *)
Definition entities (scene : pyval) : list pyval :=
  match field "entities" scene with
  | Some v => items v
  | None => []
  end.

(** [e["id"]] of an entity. *)
Definition entity_id (e : pyval) : option Z :=
  match field "id" e with
  | Some (PInt n) => Some n
  | _ => None
  end.

(** *** [json.dump(scene, f, indent=2)] *)

(** The quotation mark and the reverse solidus. *)
Definition quote : ascii := ascii_of_nat 34.
Definition backslash : ascii := ascii_of_nat 92.

Definition hex_digit (n : N) : ascii :=
  nth (N.to_nat n) (list_ascii_of_string "0123456789abcdef") "0"%char.

(** [json.encoder.py_encode_basestring_ascii]: what is not between the
    space and the tilde, the quote and the backslash are escaped. *)
Definition escape_char (c : ascii) : string :=
  let n := N_of_ascii c in
  if Ascii.eqb c quote then String backslash (String quote EmptyString)
  else if Ascii.eqb c backslash then String backslash (String backslash EmptyString)
  else if (n =? 8)%N then String backslash "b"
  else if (n =? 12)%N then String backslash "f"
  else if (n =? 10)%N then String backslash "n"
  else if (n =? 13)%N then String backslash "r"
  else if (n =? 9)%N then String backslash "t"
  else if (32 <=? n)%N && (n <=? 126)%N then String c EmptyString
  else String backslash
         (String "u" (String "0" (String "0"
            (String (hex_digit (n / 16)) (String (hex_digit (n mod 16)) EmptyString))))).

Fixpoint escape (s : string) : string :=
  match s with
  | EmptyString => EmptyString
  | String c s' => (escape_char c ++ escape s')%string
  end.

Definition encode_string (s : string) : string :=
  String quote (escape s ++ String quote EmptyString).

(** [float.__repr__], with the names [json] gives to what is no number. *)
Definition encode_float (x : float) : string :=
  match Prim2SF x with
  | S754_nan => "NaN"
  | S754_infinity sign => if sign then "-Infinity" else "Infinity"
  | _ => Py.float_repr x
  end.

Fixpoint spaces (n : nat) : string :=
  match n with
  | O => EmptyString
  | S n => String " " (spaces n)
  end.

Definition newline_indent (level : nat) : string :=
  String (ascii_of_nat 10) (spaces (2 * level)).

Fixpoint join (sep : string) (parts : list string) : string :=
  match parts with
  | [] => EmptyString
  | [p] => p
  | p :: rest => (p ++ sep ++ join sep rest)%string
  end.

(** [json.dumps(v, indent=2)], for a value [level] containers deep: an
    item per line, two spaces further in than its container, [","]
    between items and [": "] after a key. *)
Fixpoint dumps (level : nat) (v : pyval) : string :=
  match v with
  | PNone => "null"
  | PInt n => Py.str_of_Z n
  | PFloat x => encode_float x
  | PStr s => encode_string s
  | PList items =>
      match items with
      | [] => "[]"
      | _ =>
          ("[" ++ newline_indent (level + 1)
             ++ join ("," ++ newline_indent (level + 1))
                  (map (dumps (level + 1)) items)
             ++ newline_indent level ++ "]")%string
      end
  | PDict fields =>
      match fields with
      | [] => "{}"
      | _ =>
          ("{" ++ newline_indent (level + 1)
             ++ join ("," ++ newline_indent (level + 1))
                  (map (fun kv => match kv with
                                  | (k, w) => encode_string k ++ ": " ++ dumps (level + 1) w
                                  end) fields)
             ++ newline_indent level ++ "}")%string
      end
  end.

(** The same text in front of [rest], written from its end: every
    character is built once. *)
Fixpoint escape_to (s rest : string) : string :=
  match s with
  | EmptyString => rest
  | String c s' => (escape_char c ++ escape_to s' rest)%string
  end.

Fixpoint spaces_to (n : nat) (rest : string) : string :=
  match n with
  | O => rest
  | S n => String " " (spaces_to n rest)
  end.

Definition newline_indent_to (level : nat) (rest : string) : string :=
  String (ascii_of_nat 10) (spaces_to (2 * level) rest).

Definition encode_string_to (s rest : string) : string :=
  String quote (escape_to s (String quote rest)).

Fixpoint dumps_to (level : nat) (v : pyval) (rest : string) : string :=
  match v with
  | PNone => ("null" ++ rest)%string
  | PInt n => (Py.str_of_Z n ++ rest)%string
  | PFloat x => (encode_float x ++ rest)%string
  | PStr s => encode_string_to s rest
  | PList items =>
      match items with
      | [] => ("[]" ++ rest)%string
      | first :: others =>
          String "["
            (newline_indent_to (level + 1)
               (dumps_to (level + 1) first
                  (fold_right
                     (fun item acc =>
                        String "," (newline_indent_to (level + 1)
                                      (dumps_to (level + 1) item acc)))
                     (newline_indent_to level (String "]" rest)) others)))
      end
  | PDict fields =>
      match fields with
      | [] => ("{}" ++ rest)%string
      | (k, w) :: others =>
          String "{"
            (newline_indent_to (level + 1)
               (encode_string_to k
                  (String ":" (String " "
                     (dumps_to (level + 1) w
                        (fold_right
                           (fun kv acc =>
                              match kv with
                              | (k, w) =>
                                  String "," (newline_indent_to (level + 1)
                                    (encode_string_to k
                                       (String ":" (String " "
                                          (dumps_to (level + 1) w acc)))))
                              end)
                           (newline_indent_to level (String "}" rest)) others))))))
      end
  end.

(** *** The JSON grammar (RFC 8259), as a recogniser

    Each function reads one production at the head of the text and
    gives the text that follows it, or [None]. *)

Definition is_ws (c : ascii) : bool :=
  let n := N_of_ascii c in
  (n =? 32)%N || (n =? 9)%N || (n =? 10)%N || (n =? 13)%N.

Fixpoint skip_ws (s : string) : string :=
  match s with
  | String c s' => if is_ws c then skip_ws s' else s
  | EmptyString => s
  end.

Definition is_digit (c : ascii) : bool :=
  let n := N_of_ascii c in (48 <=? n)%N && (n <=? 57)%N.

Definition is_hex (c : ascii) : bool :=
  let n := N_of_ascii c in
  is_digit c || ((65 <=? n)%N && (n <=? 70)%N) || ((97 <=? n)%N && (n <=? 102)%N).

Fixpoint skip_digits (s : string) : string :=
  match s with
  | String c s' => if is_digit c then skip_digits s' else s
  | EmptyString => s
  end.

(** One digit or more. *)
Definition digits1 (s : string) : option string :=
  match s with
  | String c s' => if is_digit c then Some (skip_digits s') else None
  | EmptyString => None
  end.

(** [number = [ minus ] int [ frac ] [ exp ]] *)
Definition number (s : string) : option string :=
  let s := match s with
           | String "-" s' => s'
           | _ => s
           end in
  let after_int := match s with
                   | String "0" s' => Some s'
                   | _ => digits1 s
                   end in
  match after_int with
  | None => None
  | Some s =>
      let after_frac := match s with
                        | String "." s' => digits1 s'
                        | _ => Some s
                        end in
      match after_frac with
      | None => None
      | Some s =>
          match s with
          | String c s' =>
              if Ascii.eqb c "e" || Ascii.eqb c "E" then
                match s' with
                | String sign s'' =>
                    if Ascii.eqb sign "+" || Ascii.eqb sign "-" then digits1 s''
                    else digits1 s'
                | EmptyString => None
                end
              else Some s
          | EmptyString => Some s
          end
      end
  end.

(** The characters of a string after its opening quote, up to and with
    the closing one. *)
Fixpoint string_body (s : string) : option string :=
  match s with
  | EmptyString => None
  | String c s' =>
      if Ascii.eqb c quote then Some s'
      else if Ascii.eqb c backslash then
        match s' with
        | String e s'' =>
            if existsb (Ascii.eqb e) [quote; backslash; "/"; "b"; "f"; "n"; "r"; "t"]%char
            then string_body s''
            else if Ascii.eqb e "u" then
              match s'' with
              | String h1 (String h2 (String h3 (String h4 rest))) =>
                  if is_hex h1 && is_hex h2 && is_hex h3 && is_hex h4
                  then string_body rest else None
              | _ => None
              end
            else None
        | EmptyString => None
        end
      else if (N_of_ascii c <? 32)%N then None
      else string_body s'
  end.

(** The text after a leading [word]. *)
Fixpoint literal (word s : string) : option string :=
  match word, s with
  | EmptyString, _ => Some s
  | String a word', String b s' => if Ascii.eqb a b then literal word' s' else None
  | String _ _, EmptyString => None
  end.

(** [value], [member *( "," member )] and [value *( "," value )], to a
    depth of [fuel]. *)
Fixpoint value (fuel : nat) (s : string) : option string :=
  match fuel with
  | O => None
  | S fuel =>
      match s with
      | String "{" s' =>
          match skip_ws s' with
          | String "}" rest => Some rest
          | s'' => members fuel s''
          end
      | String "[" s' =>
          match skip_ws s' with
          | String "]" rest => Some rest
          | s'' => elements fuel s''
          end
      | String "t" _ => literal "true" s
      | String "f" _ => literal "false" s
      | String "n" _ => literal "null" s
      | String c s' => if Ascii.eqb c quote then string_body s' else number s
      | EmptyString => None
      end
  end
with members (fuel : nat) (s : string) : option string :=
  match fuel with
  | O => None
  | S fuel =>
      match s with
      | String c s' =>
          if Ascii.eqb c quote then
            match string_body s' with
            | Some s =>
                match skip_ws s with
                | String ":" s =>
                    match value fuel (skip_ws s) with
                    | Some s =>
                        match skip_ws s with
                        | String "," s => members fuel (skip_ws s)
                        | String "}" rest => Some rest
                        | _ => None
                        end
                    | None => None
                    end
                | _ => None
                end
            | None => None
            end
          else None
      | EmptyString => None
      end
  end
with elements (fuel : nat) (s : string) : option string :=
  match fuel with
  | O => None
  | S fuel =>
      match value fuel s with
      | Some s =>
          match skip_ws s with
          | String "," s => elements fuel (skip_ws s)
          | String "]" rest => Some rest
          | _ => None
          end
      | None => None
      end
  end.

(** [JSON-text = ws value ws], nested less than [depth] deep and with
    fewer than [depth] members in a row. *)
Definition json_text (depth : nat) (s : string) : bool :=
  match value depth (skip_ws s) with
  | Some rest => (skip_ws rest =? EmptyString)%string
  | None => false
  end.

(** Line 91. *)
Definition output_path : string :=
  "/home/joao/projects/vibe-coder-3d/rust/game/scenes/tests/testlod-performance.json".

(** Lines 87-97: the script; [writable] tells whether the output file
    can be opened for writing. *)
Definition main (writable : bool) : script unit :=
  let scene := generate_performance_scene in
  if writable then
    call (WriteText output_path (dumps 0 scene));;
    print [Str "Generated performance test scene with "; Num (length (entities scene));
           Str " entities"];;
    print [Str "Output: "; Str output_path]
  else raise "OSError".

End LodScene.



(** ** A sample host *)

Module Sample.

Definition cube : list vec3 :=
  [ (-1, -1, 0); (-1, -1, 2); (-1, 1, 2); (-1, 1, 0);
    (1, -1, 0); (1, -1, 2); (1, 1, 2); (1, 1, 0) ]%float.

(** An armature with a skinned body and a loose prop; one material whose
    colour texture and normal map are two images, a third image that no
    node uses. *)
Definition model : scene :=
  {| objects :=
       [ {| obj_name := "Armature"; obj_type := "ARMATURE"; parent_type := None;
            slots := []; vertices := 0; bound_box := cube |};
         {| obj_name := "Body"; obj_type := "MESH"; parent_type := Some "ARMATURE";
            slots := [0%nat]; vertices := 12000; bound_box := cube |};
         {| obj_name := "Prop"; obj_type := "MESH"; parent_type := None;
            slots := [0%nat]; vertices := 300; bound_box := cube |} ];
     materials :=
       [ {| mat_name := "Skin"; use_nodes := true;
            nodes :=
              [ output_node;
                {| node_type := "BSDF_PRINCIPLED"; node_image := None;
                   node_color := None; node_outputs := [["OUTPUT_MATERIAL"]] |};
                {| node_type := "TEX_IMAGE"; node_image := Some 0%nat;
                   node_color := None; node_outputs := [["BSDF_PRINCIPLED"]; []] |};
                {| node_type := "TEX_IMAGE"; node_image := Some 1%nat;
                   node_color := None; node_outputs := [["NORMAL_MAP"]; []] |};
                {| node_type := "NORMAL_MAP"; node_image := None;
                   node_color := None; node_outputs := [["BSDF_PRINCIPLED"]] |} ] |} ];
     images :=
       [ {| img_name := "skin_color"; has_data := true; width := 2048;
            height := 2048; file_format := "JPEG" |};
         {| img_name := "skin_normal"; has_data := true; width := 2048;
            height := 1024; file_format := "JPEG" |};
         {| img_name := "icon"; has_data := true; width := 64;
            height := 64; file_format := "PNG" |} ];
     actions := ["Idle"; "Walk"] |}.

(** The same model with one image behind two texture nodes: one feeds
    the normal-map node, the other the shader's colour. *)
Definition shared_image_model : scene :=
  {| objects := objects model;
     materials :=
       [ {| mat_name := "Skin"; use_nodes := true;
            nodes :=
              [ output_node;
                {| node_type := "BSDF_PRINCIPLED"; node_image := None;
                   node_color := None; node_outputs := [["OUTPUT_MATERIAL"]] |};
                {| node_type := "TEX_IMAGE"; node_image := Some 0%nat;
                   node_color := None; node_outputs := [["NORMAL_MAP"]; []] |};
                {| node_type := "TEX_IMAGE"; node_image := Some 0%nat;
                   node_color := None; node_outputs := [["BSDF_PRINCIPLED"]; []] |};
                {| node_type := "NORMAL_MAP"; node_image := None;
                   node_color := None; node_outputs := [["BSDF_PRINCIPLED"]] |} ] |} ];
     images :=
       [ {| img_name := "detail"; has_data := true; width := 800;
            height := 800; file_format := "PNG" |} ];
     actions := [] |}.

(** A host in which every call succeeds and every file exists. *)
Definition host_of (sc : scene) : host :=
  {| import_fbx := fun _ => Some sc;
     import_gltf := fun _ => Some sc;
     load_image := fun path =>
       inl {| img_name := path; has_data := true; width := 256; height := 256;
              file_format := "PNG" |};
     decimated := fun o _ => o;
     gltf_type_error := None;
     script_dir := "scripts/blender";
     script_exists := fun _ => true;
     blender_path := None;
     run_process := fun _ => Some (0, "", "");
     exported_exists := fun _ => true;
     exported_size := fun _ => 4096;
     final_exists := fun _ => true;
     final_size := fun _ => 1024 |}.

Definition host : host := host_of model.

(** The scripts with Python's parsers on plain ASCII tokens. *)
Definition low_poly (argv : list string) : script unit :=
  LowPoly.main Py.int_ascii Py.float_decimal host argv.

Definition low_poly_args (args : list string) : script LowPoly.config :=
  LowPoly.parse_args Py.int_ascii Py.float_decimal args.

Definition shaded_texture (argv : list string) : script unit :=
  ShadedTexture.main Py.float_decimal host argv.

End Sample.

(** ** What an argument list asks for *)

Section Reading.

Variable py_int : string -> option Z.
Variable py_float : string -> option float.

(** The preset level, when [--quality] has a token that is an integer. *)
Definition preset_level (args : list string) : option Z :=
  flag_token "--quality" args ≫= py_int.

(** The values of the explicit flags, when they have a token that is
    accepted. *)
Definition explicit_ratio (args : list string) : option float :=
  flag_token "--ratio" args ≫= py_float.

Definition explicit_texture_size (args : list string) : option Z :=
  flag_token "--texture-size" args ≫= py_int.

Definition explicit_normal_map_size (args : list string) : option Z :=
  flag_token "--normal-map-size" args ≫= py_int.

Definition explicit_texture_format (args : list string) : option string :=
  tok ← flag_token "--texture-format" args;
  let fmt := Py.upper tok in
  if Py.contains fmt ["PNG"; "JPEG"] then Some fmt else None.

Definition explicit_texture_quality (args : list string) : option Z :=
  LowPoly.clamp_quality <$> (flag_token "--texture-quality" args ≫= py_int).

(** The token of [--ratio], if there is one, is a float. *)
Definition ratio_accepted (args : list string) : bool :=
  match flag_token "--ratio" args with
  | Some tok => bool_decide (is_Some (py_float tok))
  | None => true
  end.

End Reading.

(** The bundle of each preset level, as lines 63-85 assign it: ratio,
    texture size, texture format, and the texture quality of the two
    levels that set one. *)
Definition preset_bundle (level : Z) : option (float * Z * string * option Z) :=
  match level with
  | 1 => Some (0.05%float, 256, "JPEG", Some 75)
  | 2 => Some (0.1%float, 512, "JPEG", Some 85)
  | 3 => Some (0.15%float, 1024, "PNG", None)
  | 4 => Some (0.25%float, 2048, "PNG", None)
  | 5 => Some (0.4%float, 4096, "PNG", None)
  | _ => None
  end.

(** The child process of the origin fix does not fail to start: the
    script is not there, or the launch returns. *)
Definition fix_origin_returns (h : host) (c : LowPoly.config) : bool :=
  negb (script_exists h (LowPoly.fix_origin_script h))
  || bool_decide (is_Some (run_process h (LowPoly.fix_origin_argv h c))).

(** The bundle that [--quality] asks for, if its token is a level with
    a bundle. *)
Definition requested_bundle (py_int : string -> option Z) (args : list string)
    : option (float * Z * string * option Z) :=
  preset_level py_int args ≫= preset_bundle.

(** The texture quality in force before a preset: 30 under [--webp],
    90 otherwise. *)
Definition initial_texture_quality (args : list string) : Z :=
  if Py.contains "--webp" args then 30 else 90.

(** ** The argument handling as a function *)

Section Net.

Import LowPoly.

Variable py_int : string -> option Z.
Variable py_float : string -> option float.

(** The output path that line 34-37 leave. *)
Definition glb_path (args : list string) (out : string) : string :=
  if Py.contains "--glb" args && negb (Py.endswith (Py.lower out) ".glb")
  then (fst (Py.splitext out) ++ ".glb")%string else out.

(** The configuration after lines 26-47. *)
Definition initial_config (args : list string) (inp out : string) : config :=
  {| input_path := inp; output_path := glb_path args out;
     proceed_with_glb := Py.contains "--glb" args;
     ratio := 0.15; texture_size := 512; normal_map_size := None;
     remove_textures := false; fix_origin := true;
     keep_original_textures := false;
     texture_format := "PNG"; texture_quality := 90;
     use_webp_flag := Py.contains "--webp" args;
     apply_texture_path := None |}.

(** What each block of the argument handling does to the
    configuration, without its messages. *)
Definition webp_net (c : config) : config :=
  if use_webp_flag c
  then set_texture_size 32 (set_texture_quality 30 (set_texture_format "JPEG" c))
  else c.

Definition quality_net (args : list string) (c : config) : config :=
  match preset_level py_int args with
  | Some q => quality_preset q c
  | None => c
  end.

Definition ratio_net (args : list string) (c : config) : config :=
  match explicit_ratio py_float args with
  | Some v => set_ratio v c
  | None => c
  end.

Definition texture_size_net (args : list string) (c : config) : config :=
  match explicit_texture_size py_int args with
  | Some v => set_texture_size v c
  | None => c
  end.

Definition normal_map_size_net (args : list string) (c : config) : config :=
  match explicit_normal_map_size py_int args with
  | Some v => set_normal_map_size (Some v) c
  | None => c
  end.

Definition texture_format_net (args : list string) (c : config) : config :=
  match explicit_texture_format args with
  | Some v => set_texture_format v c
  | None => c
  end.

Definition texture_quality_net (args : list string) (c : config) : config :=
  match explicit_texture_quality py_int args with
  | Some v => set_texture_quality v c
  | None => c
  end.

Definition apply_texture_net (args : list string) (c : config) : config :=
  match flag_token "--apply-texture" args with
  | Some path => set_apply_texture_path (Some path) c
  | None => c
  end.

(** The configuration that a run of the argument handling returns. *)
Definition parsed (args : list string) (inp out : string) : config :=
  resolve_normal_map_size
    (apply_texture_net args
      (parse_switches args
        (texture_quality_net args
          (texture_format_net args
            (normal_map_size_net args
              (texture_size_net args
                (ratio_net args
                  (quality_net args
                    (webp_net (initial_config args inp out)))))))))).

(** The configuration after the [--webp] settings and the preset. *)
Definition staged (args : list string) (inp out : string) : config :=
  quality_net args (webp_net (initial_config args inp out)).

(** The configuration after the block of [--ratio], of
    [--texture-size], of [--normal-map-size] and of [--texture-format]. *)
Definition after_ratio (args : list string) (inp out : string) : config :=
  ratio_net args (staged args inp out).

Definition after_texture_size (args : list string) (inp out : string) : config :=
  texture_size_net args (after_ratio args inp out).

Definition after_normal_map_size (args : list string) (inp out : string) : config :=
  normal_map_size_net args (after_texture_size args inp out).

Definition after_texture_format (args : list string) (inp out : string) : config :=
  texture_format_net args (after_normal_map_size args inp out).

End Net.

(** ** Predicates on runs *)

(** A fragment that only prints: it returns, and exports nothing. *)
Definition prints_only {A} (m : script A) : Prop :=
  Forall (fun e => match e with Printed _ => True | Call _ => False end) (events m).

(** A fragment whose exports all satisfy [P] and whose [sys.exit], if
    any, has code 1. *)
Definition tame {A} (P : event -> Prop) (m : script A) : Prop :=
  Forall P (exports m) /\
  forall code, snd m = Stopped (SysExit code) -> code = 1.

(** What the GLB branch may export: the configured output path, with
    the full settings or after a [TypeError] with the basic ones. *)
Definition glb_export_of (c : LowPoly.config) (e : event) : Prop :=
  e = Call (ExportGltf (LowPoly.export_settings c)) \/
  e = Call (ExportGltfBasic (LowPoly.output_path c)).

(** An export of a GLB file to [path]. *)
Definition gltf_export_to (path : string) (e : event) : Prop :=
  (exists settings, e = Call (ExportGltf settings) /\ gs_filepath settings = path) \/
  e = Call (ExportGltfBasic path).

(** ** The options of convert-low-poly.py *)

(** The words that lines 31-153 look for in the argument list. *)
Definition option_names : list string :=
  [ "--glb"; "--webp"; "--quality"; "--ratio"; "--texture-size";
    "--normal-map-size"; "--texture-format"; "--texture-quality";
    "--remove-textures"; "--keep-original-textures"; "--no-fix-origin";
    "--apply-texture" ].

(** None of these words is among the arguments. *)
Definition no_options (args : list string) : bool :=
  forallb (fun name => negb (Py.contains name args)) option_names.

(** The texture size and format in force before a preset: 32 and
    [JPEG] under [--webp], 512 and [PNG] otherwise. *)
Definition initial_texture_size (args : list string) : Z :=
  if Py.contains "--webp" args then 32 else 512.

Definition initial_texture_format (args : list string) : string :=
  if Py.contains "--webp" args then "JPEG" else "PNG".

(** ** The calls of a run *)

(** The calls of a run into the host, in order. *)
Definition calls {A} (r : script A) : list host_call :=
  omap (fun e => match e with Call c => Some c | Printed _ => None end) (events r).

(** The calls that move the 3D cursor, an origin or an object. *)
Definition is_origin_call (c : host_call) : bool :=
  match c with
  | SetCursor _ _ _ | OriginToCursor _ | SetLocationZero _ => true
  | _ => false
  end.

(** The launch of a child process. *)
Definition is_subprocess (c : host_call) : bool :=
  match c with
  | Subprocess _ => true
  | _ => false
  end.

(** The four calls of lines 338-358 on one mesh. *)
Definition decimation_of (ratio : float) (o : object) : list host_call :=
  [ RemoveDoubles (obj_name o); Decimate (obj_name o) ratio;
    Smooth (obj_name o) 1; AutoSmooth (obj_name o) ].

(** The call that exports the model: lines 446-455 with [--glb], line
    514 without. *)
Definition export_call (h : host) (c : LowPoly.config) : host_call :=
  if LowPoly.proceed_with_glb c then
    match gltf_type_error h with
    | None => ExportGltf (LowPoly.export_settings c)
    | Some _ => ExportGltfBasic (LowPoly.output_path c)
    end
  else ExportFbx (LowPoly.output_path c).

(** [obj.parent and obj.parent.type == 'ARMATURE'] *)
Definition parent_is_armature (o : object) : bool :=
  match parent_type o with
  | Some t => (t =? "ARMATURE")%string
  | None => false
  end.

(** The calls of lines 396-404 on one mesh: its origin goes to the
    cursor, and the mesh to the world origin unless its parent is an
    armature. *)
Definition origin_calls_of (o : object) : list host_call :=
  [SelectAll "DESELECT"; OriginToCursor (obj_name o)] ++
  (if parent_is_armature o then [] else [SetLocationZero (obj_name o)]).

(** ** What the arguments of apply-shaded-texture.py ask for *)

(** The default colour of line 18. *)
Definition light_gray : rgba := (0.8, 0.8, 0.8, 1.0)%float.

(** The colour that lines 18-25 leave. *)
Definition requested_color (py_float : string -> option float) (args : list string) : rgba :=
  if Py.contains "--color" args then
    match Py.index "--color" args with
    | Some idx => default light_gray (ShadedTexture.color_tokens py_float args idx)
    | None => light_gray
    end
  else light_gray.

(** The export call of lines 112-116 for an output path with one of the
    three extensions. *)
Definition shaded_export_call (out : string) : host_call :=
  if Py.endswith (Py.lower out) ".fbx" then ExportFbx out
  else ExportGltfAs out (if Py.endswith (Py.lower out) ".glb" then "GLB" else "GLTF").

(** The output path has one of the three extensions, in any case. *)
Definition supported_output (out : string) : bool :=
  Py.endswith (Py.lower out) ".fbx" || Py.endswith (Py.lower out) ".glb"
  || Py.endswith (Py.lower out) ".gltf".

(** ** fix-origin-bottom.py *)

(** The origin fix as a script of its own; convert-low-poly.py starts
    a script of this name, from its own directory, on the file it
    exported.  The script reads and writes the parents and the
    selection of the scene objects, so a run threads the scene; an
    object is known by its position among the imported objects.  The
    operators act on the scene as Blender's do, as far as the script
    reads it back: deselection and selection, the clearing and the
    setting of parents on the selected objects, renaming, and the
    removal of an object, which leaves its children without a parent. *)
Module FixOrigin.

(** The pieces of a printed line: text, or a vector as the host prints
    it. *)
Inductive part :=
| Text (s : string)
| Vector (v : vec3).

(** The parent of an object as far as the script reads it: which object
    it is, its name and its type. *)
Record link := {
  l_obj : nat;
  l_name : string;
  l_type : string
}.

(** A scene object: the attributes the script reads, whether it is
    selected, and whether it is still in the scene ([present] is false
    once [bpy.data.objects.remove] has removed it). *)
Record obj := {
  name : string;
  type : string;
  parent : option link;
  location : vec3;
  selected : bool;
  present : bool
}.

Definition set_name (v : string) (o : obj) : obj :=
  {| name := v; type := type o; parent := parent o; location := location o;
     selected := selected o; present := present o |}.

Definition set_parent (v : option link) (o : obj) : obj :=
  {| name := name o; type := type o; parent := v; location := location o;
     selected := selected o; present := present o |}.

Definition set_selected (v : bool) (o : obj) : obj :=
  {| name := name o; type := type o; parent := parent o; location := location o;
     selected := v; present := present o |}.

Definition set_present (v : bool) (o : obj) : obj :=
  {| name := name o; type := type o; parent := parent o; location := location o;
     selected := selected o; present := v |}.

(** The scene and the active object of the view layer. *)
Record world := {
  objects : list obj;
  active : option nat
}.

Definition set_objects (v : list obj) (w : world) : world :=
  {| objects := v; active := active w |}.

Definition set_active (v : option nat) (w : world) : world :=
  {| objects := objects w; active := v |}.

(** The operators and data calls of the script.  An operator that works
    on the selection is recorded with the objects that were selected
    when it ran. *)
Inductive op :=
| SelectAll (action : string)
| DeleteSelected
| ImportFbx (filepath : string)
| ImportGltf (filepath : string)
| Rename (object : nat) (new_name : string)
| TransformApply (targets : list nat)
| ParentClear (targets : list nat)
| RemoveObject (object : nat)
| FrameSet (frame : Z)
| ParentSet (children : list nat) (new_parent : nat)
| SetCursor (x y z : float)
| OriginSet (targets : list nat)
| SetLocationZero (object : nat)
| ExportGltf (filepath : string) (export_format : string).

Inductive event :=
| Printed (line : list part)
| Call (c : op).

(** What the host answers: the objects of the scene after an import
    ([None] when the importer raises), and the bounding box of an object
    once its transforms are applied. *)
Record host := {
  import_fbx : string -> option (list obj);
  import_gltf : string -> option (list obj);
  bound_box : nat -> list vec3
}.

(** A fragment of the script: from the scene before it, the events it
    produced, and its value with the scene after it or the way it
    stopped. *)
Definition run (A : Type) : Type := world -> list event * result (A * world).

#[global] Instance run_ret : MRet run := fun A a w => ([], Ok (a, w)).

#[global] Instance run_bind : MBind run := fun A B f m w =>
  match m w with
  | (evs, Ok (a, w')) => let '(evs', r) := f a w' in (evs ++ evs', r)
  | (evs, Stopped s) => (evs, Stopped s)
  end.

Definition print (line : list part) : run unit := fun w => ([Printed line], Ok (tt, w)).
Definition call (c : op) : run unit := fun w => ([Call c], Ok (tt, w)).
Definition sys_exit {A} (code : Z) : run A := fun _ => ([], Stopped (SysExit code)).
Definition raise {A} (exception : string) : run A :=
  fun _ => ([], Stopped (Uncaught exception)).
Definition get_world : run world := fun w => ([], Ok (w, w)).
Definition modify (f : world -> world) : run unit := fun w => ([], Ok (tt, f w)).

(** [l[i]], with its [IndexError]. *)
Definition getitem (l : list string) (i : nat) : run string :=
  match l !! i with
  | Some x => mret x
  | None => raise "IndexError"
  end.

(** *** The scene *)

(** The positions of the objects of [bpy.context.scene.objects], in
    order, that satisfy [keep]. *)
Definition scene_objects (keep : obj -> bool) (w : world) : list nat :=
  List.filter
    (fun i => match objects w !! i with
              | Some o => present o && keep o
              | None => false
              end)
    (seq 0 (length (objects w))).

Definition everything (o : obj) : bool := true.
Definition has_type (t : string) (o : obj) : bool := (type o =? t)%string.

(** The object at a position of the scene. *)
Definition object_at (i : nat) : run obj := fun w =>
  match objects w !! i with
  | Some o => ([], Ok (o, w))
  | None => ([], Stopped (Uncaught "ReferenceError"))
  end.

Definition update (i : nat) (f : obj -> obj) : run unit :=
  modify (fun w => set_objects (alter f i (objects w)) w).

(** [obj.select_set(v)] and [bpy.context.view_layer.objects.active = obj] *)
Definition select_set (i : nat) (v : bool) : run unit := update i (set_selected v).
Definition make_active (i : nat) : run unit := modify (set_active (Some i)).

(** [bpy.ops.object.select_all(action=...)] with [SELECT] or [DESELECT]:
    on every object of the scene. *)
Definition select_all (action : string) : run unit :=
  call (SelectAll action);;
  modify (fun w =>
    set_objects
      (map (fun o => if present o then set_selected (action =? "SELECT")%string o else o)
         (objects w)) w).

(** The selected objects, on which an operator works. *)
Definition selection (w : world) : list nat := scene_objects selected w.

Definition mem (i : nat) (l : list nat) : bool := existsb (Nat.eqb i) l.

(** [bpy.ops.object.transform_apply(location=True, rotation=True, scale=True)] *)
Definition transform_apply : run unit :=
  w ← get_world;
  call (TransformApply (selection w)).

(** [bpy.ops.object.parent_clear(type='CLEAR_KEEP_TRANSFORM')]: every
    selected object loses its parent. *)
Definition parent_clear : run unit :=
  w ← get_world;
  let targets := selection w in
  call (ParentClear targets);;
  modify (fun w =>
    set_objects
      (imap (fun i o => if mem i targets then set_parent None o else o) (objects w)) w).

(** [bpy.ops.object.parent_set(type='ARMATURE', keep_transform=True)]:
    the active object becomes the parent of the other selected
    objects. *)
Definition parent_set : run unit :=
  w ← get_world;
  match active w with
  | None => raise "RuntimeError"
  | Some a =>
      p ← object_at a;
      let children := List.filter (fun i => negb (i =? a)%nat) (selection w) in
      call (ParentSet children a);;
      modify (fun w =>
        set_objects
          (imap (fun i o =>
                   if mem i children
                   then set_parent (Some {| l_obj := a; l_name := name p; l_type := type p |}) o
                   else o)
             (objects w)) w)
  end.

(** [obj.name = new_name], for a name that no other object has: the
    object is renamed, for its children too. *)
Definition rename (i : nat) (new_name : string) : run unit :=
  call (Rename i new_name);;
  modify (fun w =>
    set_objects
      (imap (fun j o =>
               if (j =? i)%nat then set_name new_name o
               else match parent o with
                    | Some p =>
                        if (l_obj p =? i)%nat
                        then set_parent (Some {| l_obj := i; l_name := new_name;
                                                 l_type := l_type p |}) o
                        else o
                    | None => o
                    end)
         (objects w)) w).

(** [bpy.ops.object.delete(use_global=False)]: the selected objects
    leave the scene. *)
Definition delete_selected : run unit :=
  call DeleteSelected;;
  modify (fun w =>
    set_objects
      (map (fun o => if present o && selected o
                     then set_selected false (set_present false o) else o)
         (objects w)) w).

(** [bpy.ops.object.origin_set(type='ORIGIN_CURSOR')] *)
Definition origin_set : run unit :=
  w ← get_world;
  call (OriginSet (selection w)).

(** [bpy.data.objects.remove(e, do_unlink=True)]: the object leaves the
    scene, and an object whose parent it was has no parent any more. *)
Definition remove (e : nat) : run unit :=
  call (RemoveObject e);;
  modify (fun w =>
    set_objects
      (imap (fun i o =>
               if (i =? e)%nat then set_selected false (set_present false o)
               else match parent o with
                    | Some p => if (l_obj p =? e)%nat then set_parent None o else o
                    | None => o
                    end)
         (objects w)) w).

(** *** The script *)

(** Line 10. *)
Definition usage : string :=
  "Usage: blender --background --python fix-origin-bottom.py -- <input_path> <output_path>".

(** Lines 24-34: the import by extension; the scene is then what the
    importer leaves. *)
Definition import_model (h : host) (input_path : string) : run unit :=
  let ext := Py.lower (snd (Py.splitext input_path)) in
  if (ext =? ".fbx")%string then
    print [Text "[INFO] Importing FBX..."];;
    call (ImportFbx input_path);;
    match import_fbx h input_path with
    | Some objs => modify (fun _ => {| objects := objs; active := None |})
    | None => raise "RuntimeError"
    end
  else if Py.contains ext [".glb"; ".gltf"] then
    print [Text "[INFO] Importing GLTF/GLB..."];;
    call (ImportGltf input_path);;
    match import_gltf h input_path with
    | Some objs => modify (fun _ => {| objects := objs; active := None |})
    | None => raise "RuntimeError"
    end
  else
    print [Text "Unsupported file extension: "; Text ext];;
    sys_exit 1.

(** Lines 37-38, over the positions of [bpy.context.scene.objects]. *)
Fixpoint print_objects (ids : list nat) : run unit :=
  match ids with
  | [] => mret tt
  | i :: rest =>
      w ← get_world;
      match objects w !! i with
      | Some o =>
          print [Text "  "; Text (name o); Text " ["; Text (type o); Text "] parent=";
                 Text (match parent o with Some p => l_name p | None => "None" end);
                 Text " location="; Vector (location o)];;
          print_objects rest
      | None => print_objects rest
      end
  end.

(** Lines 41-48: the first armature named [RootNode] is renamed and its
    transforms are applied; the [break] ends the loop there. *)
Fixpoint fix_root_node (ids : list nat) : run unit :=
  match ids with
  | [] => mret tt
  | i :: rest =>
      w ← get_world;
      match objects w !! i with
      | Some o =>
          if has_type "ARMATURE" o && (name o =? "RootNode")%string then
            rename i "Character_Armature";;
            select_all "DESELECT";;
            select_set i true;;
            make_active i;;
            transform_apply
          else fix_root_node rest
      | None => fix_root_node rest
      end
  end.

(** [obj.parent and obj.parent.type == t] *)
Definition parent_has_type (t : string) (o : obj) : bool :=
  match parent o with
  | Some p => (l_type p =? t)%string
  | None => false
  end.

(** Lines 51-56: meshes and armatures under an empty are unparented. *)
Fixpoint unparent_from_empties (ids : list nat) : run unit :=
  match ids with
  | [] => mret tt
  | i :: rest =>
      w ← get_world;
      match objects w !! i with
      | Some o =>
          (if (has_type "MESH" o || has_type "ARMATURE" o) && parent_has_type "EMPTY" o
           then
             make_active i;;
             select_set i true;;
             parent_clear;;
             select_set i false
           else mret tt);;
          unparent_from_empties rest
      | None => unparent_from_empties rest
      end
  end.

(** Lines 59-61. *)
Fixpoint remove_empties (empties : list nat) : run unit :=
  match empties with
  | [] => mret tt
  | e :: rest => remove e;; remove_empties rest
  end.

(** [mesh.parent != arm] for the armature at [arm]. *)
Definition parent_is_not (arm : nat) (o : obj) : bool :=
  match parent o with
  | Some p => negb (l_obj p =? arm)%nat
  | None => true
  end.

(** Lines 73-82: the mesh loses a parent that is not the armature, the
    armature any parent. *)
Definition clear_parents (mesh : nat) (arm : option nat) : run unit :=
  m ← object_at mesh;
  (if bool_decide (is_Some (parent m))
      && match arm with None => true | Some a => parent_is_not a m end then
     make_active mesh;;
     select_set mesh true;;
     parent_clear;;
     select_set mesh false
   else mret tt);;
  match arm with
  | Some a =>
      o ← object_at a;
      if bool_decide (is_Some (parent o)) then
        make_active a;;
        select_set a true;;
        parent_clear;;
        select_set a false
      else mret tt
  | None => mret tt
  end.

(** Lines 85-90: the mesh becomes a child of the armature. *)
Definition parent_to_armature (mesh : nat) (arm : option nat) : run unit :=
  m ← object_at mesh;
  match arm with
  | Some a =>
      if parent_is_not a m then
        select_all "DESELECT";;
        select_set mesh true;;
        select_set a true;;
        make_active a;;
        parent_set
      else mret tt
  | None => mret tt
  end.

(** Lines 93-103: the transforms of the armature, then of the mesh, are
    applied. *)
Definition apply_transforms (mesh : nat) (arm : option nat) : run unit :=
  (match arm with
   | Some a =>
       select_all "DESELECT";;
       select_set a true;;
       make_active a;;
       transform_apply
   | None => mret tt
   end);;
  select_all "DESELECT";;
  select_set mesh true;;
  make_active mesh;;
  transform_apply.

(** Lines 106-131: the cursor goes to the bottom centre of the mesh's
    bounding box, the origins of the armature and of the mesh to the
    cursor, and the armature, or without one the mesh, to the world
    origin. *)
Definition set_origins (h : host) (mesh : nat) (arm : option nat) : run unit :=
  match LowPoly.bottom_center (bound_box h mesh) with
  | None => raise "ValueError"
  | Some (center_x, center_y, min_z) =>
      call (SetCursor center_x center_y min_z);;
      (match arm with
       | Some a =>
           select_all "DESELECT";;
           select_set a true;;
           make_active a;;
           origin_set;;
           call (SetLocationZero a)
       | None => mret tt
       end);;
      select_all "DESELECT";;
      select_set mesh true;;
      make_active mesh;;
      origin_set;;
      match arm with
      | Some _ => mret tt
      | None => call (SetLocationZero mesh)
      end
  end.

(** Lines 134-145. *)
Definition export_scene (output_path : string) (mesh : nat) (arm : option nat) : run unit :=
  select_all "DESELECT";;
  select_set mesh true;;
  (match arm with
   | Some a => select_set a true;; make_active a
   | None => make_active mesh
   end);;
  call (ExportGltf output_path "GLB");;
  print [Text "[INFO] Exported: "; Text output_path].

(** Lines 64-145: the first mesh and the first armature of the scene,
    and the work on them. *)
Definition locate_and_fix (h : host) (output_path : string) : run unit :=
  w ← get_world;
  match scene_objects (has_type "MESH") w with
  | [] => print [Text "No mesh found!"];; sys_exit 1
  | mesh :: _ =>
      let arm := head (scene_objects (has_type "ARMATURE") w) in
      call (FrameSet 0);;
      clear_parents mesh arm;;
      parent_to_armature mesh arm;;
      apply_transforms mesh arm;;
      set_origins h mesh arm;;
      export_scene output_path mesh arm
  end.

(** Lines 19-145: everything after the argument handling. *)
Definition process (h : host) (input_path output_path : string) : run unit :=
  select_all "SELECT";;
  delete_selected;;
  print [Text "[INFO] Cleared scene"];;
  import_model h input_path;;
  print [Text "[INFO] Import complete"];;
  (w ← get_world; print_objects (scene_objects everything w));;
  (w ← get_world; fix_root_node (scene_objects everything w));;
  (w ← get_world; unparent_from_empties (scene_objects everything w));;
  (w ← get_world; remove_empties (scene_objects (has_type "EMPTY") w));;
  locate_and_fix h output_path.

(** The whole script, from [sys.argv], in a scene without objects. *)
Definition main (h : host) (argv : list string) : list event * result (unit * world) :=
  (if negb (Py.contains "--" argv) then
     print [Text usage];;
     sys_exit 1
   else
     let args := script_args argv in
     input_path ← getitem args 0;
     output_path ← getitem args 1;
     print [Text "[INFO] Input: "; Text input_path];;
     print [Text "[INFO] Output: "; Text output_path];;
     process h input_path output_path)
  {| objects := []; active := None |}.

(** The scene that the import of a path leaves, if the path has one of
    the three extensions and the importer does not raise. *)
Definition imported (h : host) (input_path : string) : option (list obj) :=
  let ext := Py.lower (snd (Py.splitext input_path)) in
  if (ext =? ".fbx")%string then import_fbx h input_path
  else if Py.contains ext [".glb"; ".gltf"] then import_gltf h input_path
  else None.

(** The exports of a run, the moves of an object to the world origin,
    the exit code and the scene the run ends with. *)
Definition is_export (e : event) : bool :=
  match e with
  | Call (ExportGltf _ _) => true
  | _ => false
  end.

Definition is_move (e : event) : bool :=
  match e with
  | Call (SetLocationZero _) => true
  | _ => false
  end.

Definition exports (r : list event * result (unit * world)) : list event :=
  List.filter is_export (fst r).

Definition moves (r : list event * result (unit * world)) : list event :=
  List.filter is_move (fst r).

Definition exit_code (r : list event * result (unit * world)) : option Z :=
  match snd r with
  | Ok _ => Some 0
  | Stopped (SysExit c) => Some c
  | Stopped (Uncaught _) => None
  end.

Definition final_world (r : list event * result (unit * world)) : option world :=
  match snd r with
  | Ok (_, w) => Some w
  | Stopped _ => None
  end.

End FixOrigin.

(** A scene as an importer can leave it: an empty at the root with an
    armature, a mesh and a light under it, everything selected; and a
    host that answers every import with given objects. *)
Module FixSample.

Import FixOrigin.

Definition under_root : option link :=
  Some {| l_obj := 0; l_name := "RootNode"; l_type := "EMPTY" |}.

Definition ob (n t : string) (p : option link) : obj :=
  {| name := n; type := t; parent := p; location := (0, 0, 0)%float;
     selected := true; present := true |}.

Definition character : list obj :=
  [ ob "RootNode" "EMPTY" None;
    ob "Armature" "ARMATURE" under_root;
    ob "Body" "MESH" under_root;
    ob "Lamp" "LIGHT" under_root ].

Definition lights : list obj := [ ob "Lamp" "LIGHT" None ].

Definition host_of (objs : list obj) : host :=
  {| import_fbx := fun _ => Some objs;
     import_gltf := fun _ => Some objs;
     bound_box := fun _ => Sample.cube |}.

Definition argv : list string := ["blender"; "--background"; "--"; "in.fbx"; "out.glb"].

End FixSample.

(** *** Scenes and runs of fix-origin-bottom.py *)

(** The parent of the object at a position of a scene: which object it
    is, if any. *)
Definition parent_of (w : FixOrigin.world) (i : nat) : option (option nat) :=
  (fun o => FixOrigin.l_obj <$> FixOrigin.parent o) <$> FixOrigin.objects w !! i.

Section FixOriginPredicates.

Import FixOrigin.

(** [Phi] holds of the events and the result of [m] from [w]. *)
Definition holds {A} (m : run A) (w : world)
    (Phi : list event -> result (A * world) -> Prop) : Prop :=
  Phi (fst (m w)) (snd (m w)).

(** The exports and the moves to the world origin among the events of a
    fragment. *)
Definition marks (evs : list event) : list event :=
  List.filter (fun e => is_export e || is_move e) evs.

(** [w'] has the objects of [w] with their types, and the same objects
    in the scene except for empties that have left it. *)
Definition keeps (w w' : world) : Prop :=
  length (objects w') = length (objects w) /\
  forall i o, objects w !! i = Some o ->
    exists o', objects w' !! i = Some o' /\ type o' = type o /\
               (present o' = present o \/ type o = "EMPTY" /\ present o' = false).

(** [w'] has the parents of [w]. *)
Definition same_parents (w w' : world) : Prop :=
  forall i, parent <$> objects w' !! i = parent <$> objects w !! i.

(** [w'] keeps the objects of [w] and their parents. *)
Definition calmly (w w' : world) : Prop := keeps w w' /\ same_parents w w'.

(** A fragment returns from [w] with the marks [ms], in a scene that
    stands in the relation [R] to [w]. *)
Definition does (R : world -> world -> Prop) (ms : list event) {A} (m : run A)
    (w : world) : Prop :=
  holds m w (fun evs r => exists a w', r = Ok (a, w') /\ marks evs = ms /\ R w w').

(** A property of the events and the result of a run that silent events
    before it do not change. *)
Definition insensitive {A} (Phi : list event -> result (A * world) -> Prop) : Prop :=
  forall evs evs' r, marks evs = [] -> Phi evs' r -> Phi (evs ++ evs') r.

(** The object at [i] is in the scene and has the type [t]. *)
Definition typed (w : world) (i : nat) (t : string) : Prop :=
  exists o, objects w !! i = Some o /\ present o = true /\ type o = t.

(** Every parent of [w'] is the one of [w], or none. *)
Definition loosens (w w' : world) : Prop :=
  forall j, parent_of w' j = parent_of w j \/ parent_of w' j = Some None.

(** The mesh has no parent or the armature, an armature no parent. *)
Definition cleared (mesh : nat) (arm : option nat) (w : world) : Prop :=
  (parent_of w mesh = Some None \/ (is_Some arm /\ parent_of w mesh = Some arm)) /\
  forall a, arm = Some a -> parent_of w a = Some None.

(** The mesh has the armature as its parent, if there is one, and none
    otherwise; an armature has no parent. *)
Definition rigged (mesh : nat) (arm : option nat) (w : world) : Prop :=
  parent_of w mesh = Some arm /\
  forall a, arm = Some a -> parent_of w a = Some None.

End FixOriginPredicates.

(** ** Which nodes the texture pass classifies *)

(** A node with a link from one of its output sockets to a normal-map
    node. *)
Definition feeds_normal_map (n : node) : bool :=
  existsb LowPoly.links_normal_map (node_outputs n).

(** [n] is an image-texture node with the image [j], in a material of
    [mats] that uses nodes. *)
Definition texture_node (mats : list material) (j : nat) (n : node) : Prop :=
  exists mat, In mat mats /\ use_nodes mat = true /\ In n (nodes mat) /\
              node_type n = "TEX_IMAGE" /\ node_image n = Some j.

(** ** Reading a JSON document

    What a reader of RFC 8259 text finds in a document: the same
    grammar as the recogniser of [LodScene], production by production,
    with the value that each production denotes.  A number is kept as it
    is written.  A string is decoded; strings are byte strings here, so
    an escape [\uXXXX] above 255 has no value and the reader gives up
    on it. *)

Module Json.

Import LodScene.

Inductive json :=
| JNull
| JTrue
| JFalse
| JNumber (text : string)
| JString (s : string)
| JArray (items : list json)
| JObject (members : list (string * json)).

(** The digits at the head of a text, and what follows them. *)
Fixpoint read_digits (s : string) : string * string :=
  match s with
  | String c s' =>
      if is_digit c then let '(d, rest) := read_digits s' in (String c d, rest)
      else (EmptyString, s)
  | EmptyString => (EmptyString, s)
  end.

(** One digit or more. *)
Definition read_digits1 (s : string) : option (string * string) :=
  match s with
  | String c s' =>
      if is_digit c then let '(d, rest) := read_digits s' in Some (String c d, rest)
      else None
  | EmptyString => None
  end.

(** [text] in front of what a reader found. *)
Definition after (text : string) (r : option (string * string)) : option (string * string) :=
  match r with
  | Some (t, rest) => Some ((text ++ t)%string, rest)
  | None => None
  end.

(** [number = [ minus ] int [ frac ] [ exp ]], as written. *)
Definition read_number (s : string) : option (string * string) :=
  let '(minus, s) := match s with
                     | String "-" s' => ("-", s')
                     | _ => (EmptyString, s)
                     end in
  let int := match s with
             | String "0" s' => Some ("0", s')
             | _ => read_digits1 s
             end in
  match int with
  | None => None
  | Some (int, s) =>
      let frac := match s with
                  | String "." s' => after "." (read_digits1 s')
                  | _ => Some (EmptyString, s)
                  end in
      match frac with
      | None => None
      | Some (frac, s) =>
          let mantissa := (minus ++ int ++ frac)%string in
          match s with
          | String c s' =>
              if Ascii.eqb c "e" || Ascii.eqb c "E" then
                match s' with
                | String sign s'' =>
                    if Ascii.eqb sign "+" || Ascii.eqb sign "-"
                    then after (mantissa ++ String c (String sign EmptyString))
                           (read_digits1 s'')
                    else after (mantissa ++ String c EmptyString) (read_digits1 s')
                | EmptyString => None
                end
              else Some (mantissa, s)
          | EmptyString => Some (mantissa, s)
          end
      end
  end.

(** The character that a two-character escape stands for. *)
Definition unescape (e : ascii) : option ascii :=
  if Ascii.eqb e quote then Some quote
  else if Ascii.eqb e backslash then Some backslash
  else if Ascii.eqb e "/" then Some "/"%char
  else if Ascii.eqb e "b" then Some (ascii_of_nat 8)
  else if Ascii.eqb e "f" then Some (ascii_of_nat 12)
  else if Ascii.eqb e "n" then Some (ascii_of_nat 10)
  else if Ascii.eqb e "r" then Some (ascii_of_nat 13)
  else if Ascii.eqb e "t" then Some (ascii_of_nat 9)
  else None.

(** The value of a hexadecimal digit. *)
Definition hex_value (c : ascii) : option N :=
  let n := N_of_ascii c in
  if is_digit c then Some (n - 48)%N
  else if (65 <=? n)%N && (n <=? 70)%N then Some (n - 55)%N
  else if (97 <=? n)%N && (n <=? 102)%N then Some (n - 87)%N
  else None.

(** The byte that [\uXXXX] stands for, up to 255. *)
Definition unescape_u (h1 h2 h3 h4 : ascii) : option ascii :=
  match hex_value h1, hex_value h2, hex_value h3, hex_value h4 with
  | Some a, Some b, Some c, Some d =>
      if (a =? 0)%N && (b =? 0)%N then Some (ascii_of_N (16 * c + d)) else None
  | _, _, _, _ => None
  end.

(** [c] in front of the string a reader found. *)
Definition with_char (c : ascii) (r : option (string * string)) : option (string * string) :=
  match r with
  | Some (t, rest) => Some (String c t, rest)
  | None => None
  end.

(** The characters of a string after its opening quote, decoded, up to
    the closing quote. *)
Fixpoint read_string_body (s : string) : option (string * string) :=
  match s with
  | EmptyString => None
  | String c s' =>
      if Ascii.eqb c quote then Some (EmptyString, s')
      else if Ascii.eqb c backslash then
        match s' with
        | String e s'' =>
            match unescape e with
            | Some ch => with_char ch (read_string_body s'')
            | None =>
                if Ascii.eqb e "u" then
                  match s'' with
                  | String h1 (String h2 (String h3 (String h4 rest))) =>
                      match unescape_u h1 h2 h3 h4 with
                      | Some ch => with_char ch (read_string_body rest)
                      | None => None
                      end
                  | _ => None
                  end
                else None
            end
        | EmptyString => None
        end
      else if (N_of_ascii c <? 32)%N then None
      else with_char c (read_string_body s')
  end.

(** [value], [member *( "," member )] and [value *( "," value )], to a
    depth of [fuel]. *)
Fixpoint read_value (fuel : nat) (s : string) : option (json * string) :=
  match fuel with
  | O => None
  | S fuel =>
      match s with
      | String "{" s' =>
          match skip_ws s' with
          | String "}" rest => Some (JObject [], rest)
          | s'' =>
              match read_members fuel s'' with
              | Some (ms, rest) => Some (JObject ms, rest)
              | None => None
              end
          end
      | String "[" s' =>
          match skip_ws s' with
          | String "]" rest => Some (JArray [], rest)
          | s'' =>
              match read_elements fuel s'' with
              | Some (vs, rest) => Some (JArray vs, rest)
              | None => None
              end
          end
      | String "t" _ =>
          match literal "true" s with Some rest => Some (JTrue, rest) | None => None end
      | String "f" _ =>
          match literal "false" s with Some rest => Some (JFalse, rest) | None => None end
      | String "n" _ =>
          match literal "null" s with Some rest => Some (JNull, rest) | None => None end
      | String c s' =>
          if Ascii.eqb c quote then
            match read_string_body s' with
            | Some (t, rest) => Some (JString t, rest)
            | None => None
            end
          else
            match read_number s with
            | Some (t, rest) => Some (JNumber t, rest)
            | None => None
            end
      | EmptyString => None
      end
  end
with read_members (fuel : nat) (s : string) : option (list (string * json) * string) :=
  match fuel with
  | O => None
  | S fuel =>
      match s with
      | String c s' =>
          if Ascii.eqb c quote then
            match read_string_body s' with
            | Some (k, s) =>
                match skip_ws s with
                | String ":" s =>
                    match read_value fuel (skip_ws s) with
                    | Some (v, s) =>
                        match skip_ws s with
                        | String "," s =>
                            match read_members fuel (skip_ws s) with
                            | Some (ms, rest) => Some ((k, v) :: ms, rest)
                            | None => None
                            end
                        | String "}" rest => Some ([(k, v)], rest)
                        | _ => None
                        end
                    | None => None
                    end
                | _ => None
                end
            | None => None
            end
          else None
      | EmptyString => None
      end
  end
with read_elements (fuel : nat) (s : string) : option (list json * string) :=
  match fuel with
  | O => None
  | S fuel =>
      match read_value fuel s with
      | Some (v, s) =>
          match skip_ws s with
          | String "," s =>
              match read_elements fuel (skip_ws s) with
              | Some (vs, rest) => Some (v :: vs, rest)
              | None => None
              end
          | String "]" rest => Some ([v], rest)
          | _ => None
          end
      | None => None
      end
  end.

(** [JSON-text = ws value ws]: the value of a document, nested less than
    [depth] deep and with fewer than [depth] members in a row. *)
Definition read (depth : nat) (s : string) : option json :=
  match read_value depth (skip_ws s) with
  | Some (v, rest) => if (skip_ws rest =? EmptyString)%string then Some v else None
  | None => None
  end.

(** The names of the members of an object, in the order of the
    document; the value of a member; the items of an array. *)
Definition member_names (v : json) : list string :=
  match v with
  | JObject ms => map fst ms
  | _ => []
  end.

Definition member (name : string) (v : json) : option json :=
  match v with
  | JObject ms => snd <$> List.find (fun m => (fst m =? name)%string) ms
  | _ => None
  end.

Definition array_items (v : json) : list json :=
  match v with
  | JArray vs => vs
  | _ => []
  end.

(** The [id] members of the items of the [entities] member. *)
Definition entity_ids (doc : json) : list (option json) :=
  match member "entities" doc with
  | Some v => map (member "id") (array_items v)
  | None => []
  end.

End Json.

(** ** blender_prepare_tpose.py *)

(** The fourth script that imports a model and exports it: the steps of
    fix-origin-bottom.py with a report after each, and a
    [RuntimeError] where that script calls [sys.exit]; the message of
    the exception is not recorded.  The scene, the operators and the
    runs are those of [FixOrigin].  What the script reads back from the
    host only to print it (a location, a world matrix, the cursor) is an
    answer of the host at the line that reads it. *)
Module Tpose.

Import FixOrigin.

Record host := {
  import_fbx : string -> option (list obj);
  import_gltf : string -> option (list obj);
  (** [obj.location] and the text of [obj.matrix_world], read at a line
      from the object at a position *)
  location_at : nat -> nat -> vec3;
  matrix_world_at : nat -> nat -> string;
  (** [obj.matrix_world @ Vector((0,0,0))] *)
  origin_world_at : nat -> nat -> vec3;
  (** [bpy.context.scene.cursor.location] *)
  cursor_location_at : nat -> vec3;
  (** [obj.bound_box] *)
  bound_box_at : nat -> nat -> list vec3
}.

Definition newline : string := String (ascii_of_nat 10) EmptyString.

(** [str(b)], [str(x)] and [str(xs)] for a bool, a float and a list of
    floats. *)
Definition bool_text (b : bool) : string := if b then "True" else "False".
Definition float_text (x : float) : string := Py.float_repr x.
Definition floats_text (xs : list float) : string :=
  ("[" ++ String.concat ", " (map Py.float_repr xs) ++ "]")%string.

(** [obj.parent.name if obj.parent else None] *)
Definition parent_name (o : obj) : string :=
  match parent o with
  | Some p => l_name p
  | None => "None"
  end.

(** [{obj.location}, matrix_world=\n{obj.matrix_world}] and its
    variants: the location and the matrix of an object at a line. *)
Definition seen_location (h : host) (line i : nat) : part := Vector (location_at h line i).
Definition seen_matrix (h : host) (line i : nat) : part := Text (matrix_world_at h line i).

(** Lines 26-34. *)
Definition import_model (h : host) (input_path : string) : run unit :=
  let ext := Py.lower (snd (Py.splitext input_path)) in
  if (ext =? ".fbx")%string then
    print [Text "[INFO] Importing FBX..."];;
    call (ImportFbx input_path);;
    match import_fbx h input_path with
    | Some objs => modify (fun _ => {| objects := objs; active := None |})
    | None => raise "RuntimeError"
    end
  else if Py.contains ext [".glb"; ".gltf"] then
    print [Text "[INFO] Importing GLTF/GLB..."];;
    call (ImportGltf input_path);;
    match import_gltf h input_path with
    | Some objs => modify (fun _ => {| objects := objs; active := None |})
    | None => raise "RuntimeError"
    end
  else raise "RuntimeError".

(** Lines 44-62: the first armature named [RootNode]. *)
Fixpoint fix_root_node (h : host) (ids : list nat) : run unit :=
  match ids with
  | [] => mret tt
  | i :: rest =>
      w ← get_world;
      match objects w !! i with
      | Some o =>
          if has_type "ARMATURE" o && (name o =? "RootNode")%string then
            print [Text "[INFO] Found armature named 'RootNode' at location ";
                   seen_location h 47 i; Text " with matrix_world="; Text newline;
                   seen_matrix h 47 i];;
            rename i "Character_Armature";;
            print [Text "[INFO] Renamed 'RootNode' armature to 'Character_Armature'"];;
            select_all "DESELECT";;
            select_set i true;;
            make_active i;;
            transform_apply;;
            print [Text "[INFO] Applied transforms to armature, new location: ";
                   seen_location h 60 i; Text ", matrix_world="; Text newline; seen_matrix h 60 i]
          else fix_root_node h rest
      | None => fix_root_node h rest
      end
  end.

(** Lines 65-71. *)
Fixpoint unparent_from_empties (ids : list nat) : run unit :=
  match ids with
  | [] => mret tt
  | i :: rest =>
      w ← get_world;
      match objects w !! i with
      | Some o =>
          (if (has_type "MESH" o || has_type "ARMATURE" o) && parent_has_type "EMPTY" o
           then
             print [Text "[INFO] Found "; Text (name o); Text " under EMPTY parent ";
                    Text (parent_name o); Text ", unparenting..."];;
             make_active i;;
             select_set i true;;
             parent_clear;;
             select_set i false
           else mret tt);;
          unparent_from_empties rest
      | None => unparent_from_empties rest
      end
  end.

(** Lines 76-78. *)
Fixpoint remove_empties (empties : list nat) : run unit :=
  match empties with
  | [] => mret tt
  | e :: rest =>
      o ← object_at e;
      print [Text "[INFO] Removing EMPTY: "; Text (name o)];;
      remove e;;
      remove_empties rest
  end.

(** Lines 94-108: the mesh loses a parent that is not the armature, the
    armature any parent. *)
Definition clear_parents (h : host) (mesh : nat) (arm : option nat) : run unit :=
  m ← object_at mesh;
  (match parent m with
   | Some p =>
       if match arm with None => true | Some a => parent_is_not a m end then
         print [Text "[INFO] Clearing parent for mesh: "; Text (name m);
                Text " (parent was "; Text (l_name p); Text ")"];;
         make_active mesh;;
         select_set mesh true;;
         parent_clear;;
         select_set mesh false;;
         print [Text "[INFO] Cleared mesh parent. New location: "; seen_location h 100 mesh;
                Text ", matrix_world="; Text newline; seen_matrix h 100 mesh]
       else mret tt
   | None => mret tt
   end);;
  match arm with
  | Some a =>
      o ← object_at a;
      match parent o with
      | Some p =>
          print [Text "[INFO] Clearing parent for armature: "; Text (name o);
                 Text " (parent was "; Text (l_name p); Text ")"];;
          make_active a;;
          select_set a true;;
          parent_clear;;
          select_set a false;;
          print [Text "[INFO] Cleared armature parent. New location: "; seen_location h 108 a;
                 Text ", matrix_world="; Text newline; seen_matrix h 108 a]
      | None => mret tt
      end
  | None => mret tt
  end.

(** Lines 111-112. *)
Definition report_armature (h : host) (arm : option nat) : run unit :=
  match arm with
  | Some a =>
      o ← object_at a;
      print [Text "[INFO] Armature present: "; Text (name o); Text " at ";
             seen_location h 112 a; Text ". No animation stripping or baking performed."]
  | None => mret tt
  end.

(** Lines 115-121. *)
Definition unparent_mesh (h : host) (mesh : nat) (arm : option nat) : run unit :=
  m ← object_at mesh;
  match parent m with
  | Some p =>
      if match arm with None => true | Some a => parent_is_not a m end then
        print [Text "[INFO] Unparenting mesh "; Text (name m); Text " from ";
               Text (l_name p)];;
        select_all "DESELECT";;
        select_set mesh true;;
        make_active mesh;;
        parent_clear;;
        print [Text "[INFO] Mesh unparented. New location: "; seen_location h 121 mesh;
               Text ", matrix_world="; Text newline; seen_matrix h 121 mesh]
      else mret tt
  | None => mret tt
  end.

(** Lines 124-131. *)
Definition parent_to_armature (h : host) (mesh : nat) (arm : option nat) : run unit :=
  m ← object_at mesh;
  match arm with
  | Some a =>
      if parent_is_not a m then
        o ← object_at a;
        print [Text "[INFO] Parenting mesh "; Text (name m); Text " to armature ";
               Text (name o)];;
        select_all "DESELECT";;
        select_set mesh true;;
        select_set a true;;
        make_active a;;
        parent_set;;
        print [Text "[INFO] Mesh parented to armature. Mesh location: ";
               seen_location h 131 mesh; Text ", Arm location: "; seen_location h 131 a]
      else mret tt
  | None => mret tt
  end.

(** Lines 134-148. *)
Definition apply_transforms (h : host) (mesh : nat) (arm : option nat) : run unit :=
  (match arm with
   | Some a =>
       o ← object_at a;
       print [Text "[INFO] Applying transforms to armature "; Text (name o)];;
       select_all "DESELECT";;
       select_set a true;;
       make_active a;;
       transform_apply;;
       print [Text "[INFO] Armature transforms applied. New location: "; seen_location h 140 a;
              Text ", matrix_world="; Text newline; seen_matrix h 140 a]
   | None => mret tt
   end);;
  m ← object_at mesh;
  print [Text "[INFO] Applying transforms to mesh "; Text (name m)];;
  select_all "DESELECT";;
  select_set mesh true;;
  make_active mesh;;
  transform_apply;;
  print [Text "[INFO] Mesh transforms applied. New location: "; seen_location h 148 mesh;
         Text ", matrix_world="; Text newline; seen_matrix h 148 mesh].

(** Lines 151-194: the bounding box is printed, then its bottom centre
    is computed, with the [ValueError] of [min] on an empty box; the
    cursor goes there, then the origins. *)
Definition set_origins (h : host) (mesh : nat) (arm : option nat) : run unit :=
  let bbox := bound_box_at h 151 mesh in
  print [Text "[DEBUG] Bounding box X: "; Text (floats_text (map (fun v => fst (fst v)) bbox))];;
  print [Text "[DEBUG] Bounding box Y: "; Text (floats_text (map (fun v => snd (fst v)) bbox))];;
  print [Text "[DEBUG] Bounding box Z: "; Text (floats_text (map (fun v => snd v) bbox))];;
  match LowPoly.bottom_center bbox with
  | None => raise "ValueError"
  | Some (center_x, center_y, min_z) =>
      print [Text "[DEBUG] center_x: "; Text (float_text center_x);
             Text ", center_y: "; Text (float_text center_y);
             Text ", min_z: "; Text (float_text min_z)];;
      call (SetCursor center_x center_y min_z);;
      print [Text "[DEBUG] Cursor location set to: "; Vector (cursor_location_at h 165)];;
      (match arm with
       | Some a =>
           print [Text "[INFO] Setting armature origin to cursor (bottom center)"];;
           print [Text "[DEBUG] Armature location before origin set: "; seen_location h 170 a];;
           select_all "DESELECT";;
           select_set a true;;
           make_active a;;
           origin_set;;
           print [Text "[DEBUG] Armature location after origin set: "; seen_location h 175 a];;
           call (SetLocationZero a);;
           print [Text "[DEBUG] Armature location after moving to world origin: ";
                  seen_location h 177 a];;
           print [Text "[DEBUG] Armature origin in world space: ";
                  Vector (origin_world_at h 178 a)]
       | None => mret tt
       end);;
      print [Text "[DEBUG] Mesh location before origin set: "; seen_location h 182 mesh];;
      select_all "DESELECT";;
      select_set mesh true;;
      make_active mesh;;
      origin_set;;
      print [Text "[DEBUG] Mesh location after origin set: "; seen_location h 187 mesh];;
      (match arm with
       | Some _ => mret tt
       | None =>
           call (SetLocationZero mesh);;
           print [Text "[DEBUG] Mesh location after moving to world origin: ";
                  seen_location h 190 mesh]
       end);;
      print [Text "[DEBUG] Mesh origin in world space: "; Vector (origin_world_at h 192 mesh)];;
      print [Text "[INFO] Origin set at floor level."]
  end.

(** Lines 200-202, over the positions of [bpy.context.scene.objects]. *)
Fixpoint print_objects_before_export (h : host) (ids : list nat) : run unit :=
  match ids with
  | [] => mret tt
  | i :: rest =>
      w ← get_world;
      match objects w !! i with
      | Some o =>
          print [Text "  "; Text (name o); Text " ["; Text (type o); Text "] parent=";
                 Text (parent_name o); Text " location="; seen_location h 202 i;
                 Text " matrix_world="; Text newline; seen_matrix h 202 i];;
          print_objects_before_export h rest
      | None => print_objects_before_export h rest
      end
  end.

(** Lines 197-217. *)
Definition export_scene (h : host) (output_path : string) (mesh : nat) (arm : option nat)
    : run unit :=
  print [Text "[DEBUG] Exporting to: "; Text output_path];;
  print [Text "[DEBUG] Objects in scene before export:"];;
  (w ← get_world; print_objects_before_export h (scene_objects everything w));;
  select_all "DESELECT";;
  select_set mesh true;;
  (match arm with
   | Some a => select_set a true;; make_active a
   | None => make_active mesh
   end);;
  call (ExportGltf output_path "GLB");;
  print [Text "[INFO] Exported: "; Text output_path].

(** Lines 221-235: the bounding box once more, after the export. *)
Definition final_report (h : host) (mesh : nat) (arm : option nat) : run unit :=
  match bound_box_at h 221 mesh with
  | [] => raise "ValueError"
  | (x, y, z) :: rest =>
      let xs := map (fun v => fst (fst v)) rest in
      let ys := map (fun v => snd (fst v)) rest in
      let zs := map (fun v => snd v) rest in
      print [Text "[DEBUG] FINAL Bounding box X: "; Text (float_text (LowPoly.float_min x xs));
             Text " to "; Text (float_text (LowPoly.float_max x xs))];;
      print [Text "[DEBUG] FINAL Bounding box Y: "; Text (float_text (LowPoly.float_min y ys));
             Text " to "; Text (float_text (LowPoly.float_max y ys))];;
      print [Text "[DEBUG] FINAL Bounding box Z: "; Text (float_text (LowPoly.float_min z zs));
             Text " to "; Text (float_text (LowPoly.float_max z zs))];;
      print [Text "[DEBUG] FINAL Mesh origin: "; seen_location h 231 mesh];;
      print [Text "[DEBUG] FINAL Mesh lowest vertex Z: ";
             Text (float_text (LowPoly.float_min z zs))];;
      match arm with
      | Some a =>
          print [Text "[DEBUG] FINAL Armature origin: "; seen_location h 234 a];;
          print [Text "[DEBUG] FINAL Armature world matrix: "; Text newline; seen_matrix h 235 a]
      | None => mret tt
      end
  end.

(** Lines 82-235: the first mesh and the first armature of the scene,
    and the work on them. *)
Definition locate_and_fix (h : host) (output_path : string) : run unit :=
  w ← get_world;
  match scene_objects (has_type "MESH") w with
  | [] => raise "RuntimeError"
  | mesh :: _ =>
      let arm := head (scene_objects (has_type "ARMATURE") w) in
      (match arm with
       | Some a =>
           o ← object_at a;
           print [Text "[DEBUG] Found armature: "; Text (name o); Text " at ";
                  seen_location h 87 a; Text " with matrix_world="; Text newline; seen_matrix h 87 a]
       | None => mret tt
       end);;
      m ← object_at mesh;
      print [Text "[DEBUG] Found mesh: "; Text (name m); Text " at "; seen_location h 89 mesh;
             Text " with matrix_world="; Text newline; seen_matrix h 89 mesh];;
      call (FrameSet 0);;
      clear_parents h mesh arm;;
      report_armature h arm;;
      unparent_mesh h mesh arm;;
      parent_to_armature h mesh arm;;
      apply_transforms h mesh arm;;
      set_origins h mesh arm;;
      export_scene h output_path mesh arm;;
      final_report h mesh arm
  end.

(** Lines 21-235: everything after the argument handling. *)
Definition process (h : host) (input_path output_path : string) : run unit :=
  select_all "SELECT";;
  delete_selected;;
  print [Text "[INFO] Cleared scene"];;
  import_model h input_path;;
  print [Text "[INFO] Import complete"];;
  print [Text "[DEBUG] Scene after import:"];;
  (w ← get_world; print_objects (scene_objects everything w));;
  (w ← get_world; fix_root_node h (scene_objects everything w));;
  (w ← get_world; unparent_from_empties (scene_objects everything w));;
  print [Text "[INFO] Cleared parent from mesh/armature under EMPTY root."];;
  (w ← get_world;
   let empties := scene_objects (has_type "EMPTY") w in
   remove_empties empties;;
   print [Text "[INFO] Removed "; Text (Py.str_of_Z (Z.of_nat (length empties)));
          Text " empties."]);;
  locate_and_fix h output_path.

(** The whole script, from [sys.argv], in a scene without objects. *)
Definition main (h : host) (argv : list string) : list event * result (unit * world) :=
  (if negb (Py.contains "--" argv) then raise "RuntimeError"
   else
     let avg := script_args argv in
     input_path ← getitem avg 0;
     output_path ← getitem avg 1;
     let preserve_animations :=
       (2 <? length avg)%nat
       && match avg !! 2%nat with
          | Some a => (a =? "--preserve-animations")%string
          | None => false
          end in
     print [Text "[INFO] Input: "; Text input_path];;
     print [Text "[INFO] Output: "; Text output_path];;
     print [Text "[INFO] preserve_animations: "; Text (bool_text preserve_animations)];;
     process h input_path output_path)
  {| objects := []; active := None |}.

End Tpose.

(** The extension of an input path is none of the three that the
    scripts import. *)
Definition unsupported (input_path : string) : Prop :=
  Py.contains (Py.lower (snd (Py.splitext input_path))) [".fbx"; ".glb"; ".gltf"] = false.

(** A host of blender_prepare_tpose.py that answers every import with
    given objects, with every object at the world origin. *)
Module TposeSample.

Definition host_of (objs : list FixOrigin.obj) : Tpose.host :=
  {| Tpose.import_fbx := fun _ => Some objs;
     Tpose.import_gltf := fun _ => Some objs;
     Tpose.location_at := fun _ _ => (0, 0, 0)%float;
     Tpose.matrix_world_at := fun _ _ => "<Matrix 4x4>";
     Tpose.origin_world_at := fun _ _ => (0, 0, 0)%float;
     Tpose.cursor_location_at := fun _ => (0, 0, 0)%float;
     Tpose.bound_box_at := fun _ _ => Sample.cube |}.

End TposeSample.

(** * Properties *)

(** ** The Python helpers on examples *)

Example splitext_examples :
  map Py.splitext ["model.FBX"; "a/b.c/x.tar.gz"; "a/b.c/x"; "a/.hidden"; "..x.y"; "out"]
  = [("model", ".FBX"); ("a/b.c/x.tar", ".gz"); ("a/b.c/x", ""); ("a/.hidden", "");
     ("..x", ".y"); ("out", "")].
Proof. reflexivity. Qed.

Example int_ascii_examples :
  map Py.int_ascii [" 12 "; "+5"; "-0_7"; "007"; "1__0"; "_1"; "1_"; ""; "+"; "abc"; "1.0"; "- 1"]
  = [Some 12; Some 5; Some (-7); Some 7; None; None; None; None; None; None; None; None].
Proof. vm_compute. reflexivity. Qed.

Example float_decimal_examples :
  map Py.float_decimal ["0.5"; "1."; ".5"; "12"; "-0.25"; "0.15"; "."; "abc"; "1.2.3"; ""]
  = [Some 0.5; Some 1; Some 0.5; Some 12; Some (-0.25); Some 0.15; None; None; None;
     None]%float.
Proof. vm_compute. reflexivity. Qed.

Example float_repr_examples :
  map Py.float_repr
    [0.1; 0.5; 1; -31.5; 100; 1e16; 1e15; 0.0001; 0.00001; 1e22; 1e23; 5e-324;
     1.7976931348623157e308; 0.3; 2.5e-7; 123456789.125; 0.15; 9007199254740993;
     2.675; 3.141592653589793; 0.30000000000000004; -0.0]%float
  = ["0.1"; "0.5"; "1.0"; "-31.5"; "100.0"; "1e+16"; "1000000000000000.0"; "0.0001";
     "1e-05"; "1e+22"; "1e+23"; "5e-324"; "1.7976931348623157e+308"; "0.3"; "2.5e-07";
     "123456789.125"; "0.15"; "9007199254740992.0"; "2.675"; "3.141592653589793";
     "0.30000000000000004"; "-0.0"].
Proof. vm_compute. reflexivity. Qed.

Example json_text_examples :
  map (LodScene.json_text 100)
    ["{}"; " [1, 2.5e-3 ,-0, true,null ] "; "[[[[]]]]"; "-1.5E+10"; "0";
     "01"; "[1,]"; "1."; "-"; "[1 2]"; "nul"; "NaN"; "Infinity"; "true false"; "";
     "+1"; ".5"; "[1"; "[1]]"]
  = [true; true; true; true; true;
     false; false; false; false; false; false; false; false; false; false;
     false; false; false; false].
Proof. vm_compute. reflexivity. Qed.

Example dumps_example :
  LodScene.dumps 0
    (LodScene.PList [LodScene.PFloat (-31.5); LodScene.PInt 7; LodScene.PNone;
                     LodScene.PList []; LodScene.PList [LodScene.PFloat 0]])
  = "[
  -31.5,
  7,
  null,
  [],
  [
    0.0
  ]
]".
Proof. vm_compute. reflexivity. Qed.

(** ** The script monad *)

Section ScriptFacts.

Context {A B : Type}.

Lemma bind_ok (m : script A) (f : A -> script B) (a : A) :
  snd m = Ok a ->
  snd (m ≫= f) = snd (f a) /\ events (m ≫= f) = events m ++ events (f a).
Proof.
  destruct m as [evs r]; simpl; intros ->.
  unfold mbind, script_bind, events. destruct (f a); auto.
Qed.

Lemma bind_stopped (m : script A) (f : A -> script B) (s : stop) :
  snd m = Stopped s ->
  snd (m ≫= f) = Stopped s /\ events (m ≫= f) = events m.
Proof.
  destruct m as [evs r]; simpl; intros ->. auto.
Qed.

Lemma bind_snd_ok (m : script A) (f : A -> script B) (a : A) :
  snd m = Ok a -> snd (m ≫= f) = snd (f a).
Proof. intros H. apply (bind_ok m f a H). Qed.

Lemma bind_snd_stopped (m : script A) (f : A -> script B) (s : stop) :
  snd m = Stopped s -> snd (m ≫= f) = Stopped s.
Proof. intros H. apply (bind_stopped m f s H). Qed.

Lemma bind_events_ok (m : script A) (f : A -> script B) (a : A) :
  snd m = Ok a -> events (m ≫= f) = events m ++ events (f a).
Proof. intros H. apply (bind_ok m f a H). Qed.

Lemma bind_events_stopped (m : script A) (f : A -> script B) (s : stop) :
  snd m = Stopped s -> events (m ≫= f) = events m.
Proof. intros H. apply (bind_stopped m f s H). Qed.

(** The exports of a sequence are those of its parts. *)
Lemma exports_bind (m : script A) (f : A -> script B) :
  exports (m ≫= f) =
  exports m ++ match snd m with
               | Ok a => exports (f a)
               | Stopped _ => []
               end.
Proof.
  unfold exports. destruct (snd m) as [a|s] eqn:E.
  - rewrite (bind_events_ok m f a E). apply List.filter_app.
  - rewrite (bind_events_stopped m f s E). symmetry. apply app_nil_r.
Qed.

(** An event of the first part is an event of the sequence. *)
Lemma events_bind_l (m : script A) (f : A -> script B) (e : event) :
  In e (events m) -> In e (events (m ≫= f)).
Proof.
  intros H. destruct (snd m) as [a|s] eqn:E.
  - rewrite (bind_events_ok m f a E). apply in_or_app. auto.
  - rewrite (bind_events_stopped m f s E). auto.
Qed.

Lemma events_bind_r (m : script A) (f : A -> script B) (a : A) (e : event) :
  snd m = Ok a -> In e (events (f a)) -> In e (events (m ≫= f)).
Proof.
  intros E H. rewrite (bind_events_ok m f a E). apply in_or_app. auto.
Qed.

End ScriptFacts.

Lemma prints_only_exports {A} (m : script A) : prints_only m -> exports m = [].
Proof.
  unfold prints_only, exports. induction (events m) as [|e evs IH]; intros H.
  - reflexivity.
  - inversion H as [|? ? He Hevs]; subst. destruct e; [|contradiction].
    simpl. auto.
Qed.

Lemma prints_only_bind {A B} (m : script A) (f : A -> script B) :
  prints_only m -> (forall a, snd m = Ok a -> prints_only (f a)) ->
  prints_only (m ≫= f).
Proof.
  unfold prints_only. intros Hm Hf. destruct (snd m) as [a|s] eqn:E.
  - rewrite (bind_events_ok m f a E). apply Forall_app. split; auto.
  - rewrite (bind_events_stopped m f s E). auto.
Qed.

Lemma prints_only_print {A} (line : list piece) (k : script A) :
  prints_only k -> prints_only (print line;; k).
Proof.
  intros H. apply prints_only_bind.
  - repeat constructor.
  - intros _ _. exact H.
Qed.

Lemma prints_only_line (line : list piece) : prints_only (print line).
Proof. repeat constructor. Qed.

Lemma prints_only_ret {A} (a : A) : prints_only (mret a : script A).
Proof. constructor. Qed.

Lemma prints_only_exit {A} (code : Z) : prints_only (sys_exit code : script A).
Proof. constructor. Qed.

Lemma prints_only_raise {A} (e : string) : prints_only (raise e : script A).
Proof. constructor. Qed.

Create HintDb scripts.

#[local] Hint Resolve prints_only_print prints_only_ret prints_only_exit
  prints_only_raise : scripts.

Ltac prints_only_step :=
  first
    [ apply prints_only_print
    | apply prints_only_line
    | apply prints_only_ret
    | apply prints_only_exit
    | apply prints_only_raise
    | match goal with
      | |- prints_only (match ?x with _ => _ end) => destruct x
      | |- prints_only (if ?b then _ else _) => destruct b
      end ].

(** ** Strings and argument lists *)

Lemma endswith_refl (s : string) : Py.endswith s s = true.
Proof. destruct s; cbn [Py.endswith]; rewrite String.eqb_refl; reflexivity. Qed.

Lemma endswith_app (a suf : string) : Py.endswith (a ++ suf) suf = true.
Proof.
  induction a as [|c a IH].
  - apply endswith_refl.
  - change (String c a ++ suf)%string with (String c (a ++ suf)).
    cbn [Py.endswith]. rewrite IH. apply orb_true_r.
Qed.

Lemma contains_In (x : string) (l : list string) :
  Py.contains x l = true <-> In x l.
Proof.
  unfold Py.contains. rewrite existsb_exists. split.
  - intros [y [Hy E]]. apply String.eqb_eq in E. subst. exact Hy.
  - intros H. exists x. split; [exact H | apply String.eqb_refl].
Qed.

Lemma index_contains (x : string) (l : list string) :
  Py.contains x l = true -> exists i, Py.index x l = Some i /\ l !! i = Some x.
Proof.
  induction l as [|y l IH]; simpl; [discriminate|].
  destruct (String.eqb_spec y x) as [->|Hne].
  - intros _. exists 0%nat. auto.
  - rewrite (proj2 (String.eqb_neq x y)) by congruence. simpl.
    intros H. destruct (IH H) as [i [Hi Hl]]. exists (S i).
    rewrite Hi. auto.
Qed.

(** A flag's token is one of the arguments, right after the flag. *)
Lemma flag_token_spec (flag tok : string) (args : list string) :
  flag_token flag args = Some tok <->
  exists i, Py.index flag args = Some i /\ args !! (i + 1)%nat = Some tok.
Proof.
  unfold flag_token. split.
  - destruct (Py.contains flag args); [|discriminate].
    destruct (Py.index flag args) as [i|]; [|discriminate].
    destruct (i + 1 <? length args)%nat; [|discriminate].
    intros H. exists i. auto.
  - intros [i [Hi Hl]]. 
    assert (Hc : Py.contains flag args = true).
    { destruct (Py.contains flag args) eqn:E; [reflexivity|].
      exfalso. clear Hl. revert i Hi. induction args as [|y l IH]; simpl in *; [discriminate|].
      intros i. apply orb_false_elim in E. destruct E as [E1 E2].
      rewrite String.eqb_sym, E1. destruct (Py.index flag l); simpl; [|discriminate].
      intros _. eapply IH; eauto. }
    rewrite Hc, Hi.
    assert (Hlt : (i + 1 < length args)%nat) by (eapply lookup_lt_Some; eauto).
    apply Nat.ltb_lt in Hlt. rewrite Hlt. exact Hl.
Qed.

(** ** The argument handling of convert-low-poly.py *)

Section ParseFacts.

Import LowPoly.

Variable py_int : string -> option Z.
Variable py_float : string -> option float.

Local Abbreviation parse_args := (parse_args py_int py_float).
Local Abbreviation parse_quality := (parse_quality py_int).
Local Abbreviation parse_ratio := (parse_ratio py_float).
Local Abbreviation parse_texture_size := (parse_texture_size py_int).
Local Abbreviation parse_normal_map_size := (parse_normal_map_size py_int).
Local Abbreviation parse_texture_quality := (parse_texture_quality py_int).

Lemma defaults_ok args inp out :
  args !! 0%nat = Some inp -> args !! 1%nat = Some out ->
  snd (defaults args) = Ok (initial_config args inp out).
Proof.
  intros H0 H1. unfold defaults, getitem, initial_config, glb_path.
  rewrite H0, H1. simpl.
  destruct (Py.contains "--glb" args); simpl; [|reflexivity].
  destruct (Py.endswith (Py.lower out) ".glb"); reflexivity.
Qed.

Lemma defaults_stops args :
  (length args < 2)%nat -> snd (defaults args) = Stopped (Uncaught "IndexError").
Proof.
  intros H. destruct args as [|a [|b args]]; simpl in H; try lia; reflexivity.
Qed.

Lemma webp_settings_ok c : snd (webp_settings c) = Ok (webp_net c).
Proof. unfold webp_settings, webp_net. destruct (use_webp_flag c); reflexivity. Qed.

Lemma parse_quality_ok args c :
  snd (parse_quality args c) = Ok (quality_net py_int args c).
Proof.
  unfold LowPoly.parse_quality, quality_net, preset_level.
  destruct (flag_token "--quality" args) as [tok|]; simpl; [|reflexivity].
  destruct (py_int tok); reflexivity.
Qed.

Lemma parse_ratio_ok args c :
  ratio_accepted py_float args = true ->
  snd (parse_ratio args c) = Ok (ratio_net py_float args c).
Proof.
  unfold LowPoly.parse_ratio, ratio_net, explicit_ratio, ratio_accepted.
  destruct (flag_token "--ratio" args) as [tok|]; simpl; [|reflexivity].
  intros H. apply bool_decide_eq_true in H. destruct H as [v ->]. reflexivity.
Qed.

Lemma parse_ratio_stops args c tok :
  flag_token "--ratio" args = Some tok -> py_float tok = None ->
  parse_ratio args c =
  ([Printed [Str "Invalid ratio value: "; Str tok]], Stopped (SysExit 1)).
Proof.
  unfold LowPoly.parse_ratio. intros -> ->. reflexivity.
Qed.

Lemma parse_texture_size_ok args c :
  snd (parse_texture_size args c) = Ok (texture_size_net py_int args c).
Proof.
  unfold LowPoly.parse_texture_size, texture_size_net, explicit_texture_size.
  destruct (flag_token "--texture-size" args) as [tok|]; simpl; [|reflexivity].
  destruct (py_int tok); reflexivity.
Qed.

Lemma parse_normal_map_size_ok args c :
  snd (parse_normal_map_size args c) = Ok (normal_map_size_net py_int args c).
Proof.
  unfold LowPoly.parse_normal_map_size, normal_map_size_net, explicit_normal_map_size.
  destruct (flag_token "--normal-map-size" args) as [tok|]; simpl; [|reflexivity].
  destruct (py_int tok); reflexivity.
Qed.

Lemma parse_texture_format_ok args c :
  snd (parse_texture_format args c) = Ok (texture_format_net args c).
Proof.
  unfold parse_texture_format, texture_format_net, explicit_texture_format.
  destruct (flag_token "--texture-format" args) as [tok|]; [|reflexivity].
  unfold mbind, option_bind.
  destruct (Py.contains (Py.upper tok) ["PNG"; "JPEG"]); reflexivity.
Qed.

Lemma parse_texture_quality_ok args c :
  snd (parse_texture_quality args c) = Ok (texture_quality_net py_int args c).
Proof.
  unfold LowPoly.parse_texture_quality, texture_quality_net, explicit_texture_quality.
  destruct (flag_token "--texture-quality" args) as [tok|]; simpl; [|reflexivity].
  destruct (py_int tok); reflexivity.
Qed.

Lemma parse_apply_texture_ok args c :
  snd (parse_apply_texture args c) = Ok (apply_texture_net args c).
Proof.
  unfold parse_apply_texture, apply_texture_net.
  destruct (flag_token "--apply-texture" args); reflexivity.
Qed.

Lemma report_config_ok c : snd (report_config c) = Ok tt.
Proof.
  unfold report_config.
  destruct (remove_textures c), (keep_original_textures c),
    (texture_format c =? "JPEG")%string; reflexivity.
Qed.

(** With both positional arguments and a [--ratio] token that is a
    float (or none), the argument handling returns. *)
Lemma parse_args_ok args inp out :
  args !! 0%nat = Some inp -> args !! 1%nat = Some out ->
  ratio_accepted py_float args = true ->
  snd (parse_args args) = Ok (parsed py_int py_float args inp out).
Proof.
  intros H0 H1 Hr. unfold LowPoly.parse_args, parsed.
  rewrite (bind_snd_ok _ _ _ (defaults_ok args inp out H0 H1)).
  rewrite (bind_snd_ok _ _ _ (webp_settings_ok _)).
  rewrite (bind_snd_ok _ _ _ (parse_quality_ok args _)).
  rewrite (bind_snd_ok _ _ _ (parse_ratio_ok args _ Hr)).
  rewrite (bind_snd_ok _ _ _ (parse_texture_size_ok args _)).
  rewrite (bind_snd_ok _ _ _ (parse_normal_map_size_ok args _)).
  rewrite (bind_snd_ok _ _ _ (parse_texture_format_ok args _)).
  rewrite (bind_snd_ok _ _ _ (parse_texture_quality_ok args _)).
  rewrite (bind_snd_ok _ _ _ (parse_apply_texture_ok args _)).
  rewrite (bind_snd_ok _ _ _ (report_config_ok _)).
  reflexivity.
Qed.

(** The [--webp] settings and the presets leave the other variables as
    lines 26-47 set them. *)
Lemma staged_frame args inp out :
  let st := staged py_int args inp out in
  input_path st = inp /\ output_path st = glb_path args out /\
  proceed_with_glb st = Py.contains "--glb" args /\
  normal_map_size st = None /\ remove_textures st = false /\
  fix_origin st = true /\ use_webp_flag st = Py.contains "--webp" args /\
  apply_texture_path st = None.
Proof.
  unfold staged, quality_net, webp_net, quality_preset, initial_config.
  cbn [use_webp_flag].
  destruct (preset_level py_int args) as [q|], (Py.contains "--webp" args);
    repeat match goal with
           | |- context [if ?b then _ else _] => destruct b
           end;
    cbn; repeat split; reflexivity.
Qed.

(** Every variable of the returned configuration, from what the
    argument list asks for and the staged settings. *)
Lemma parsed_fields args inp out :
  let st := staged py_int args inp out in
  let size := default (texture_size st) (explicit_texture_size py_int args) in
  parsed py_int py_float args inp out =
  {| input_path := inp;
     output_path := glb_path args out;
     proceed_with_glb := Py.contains "--glb" args;
     ratio := default (ratio st) (explicit_ratio py_float args);
     texture_size := size;
     normal_map_size := Some (default size (explicit_normal_map_size py_int args));
     remove_textures := Py.contains "--remove-textures" args;
     fix_origin := negb (Py.contains "--no-fix-origin" args);
     keep_original_textures :=
       Py.contains "--keep-original-textures" args
       || (negb (Py.contains "--remove-textures" args) && keep_original_textures st);
     texture_format := default (texture_format st) (explicit_texture_format args);
     texture_quality :=
       default (texture_quality st) (explicit_texture_quality py_int args);
     use_webp_flag := Py.contains "--webp" args;
     apply_texture_path := flag_token "--apply-texture" args |}.
Proof.
  intros st size. subst size.
  destruct (staged_frame args inp out)
    as (Hin & Hout & Hglb & Hnm & Hrm & Hfix & Hwebp & Happly).
  unfold parsed. fold (staged py_int args inp out). fold st in Hin, Hout, Hglb, Hnm, Hrm, Hfix, Hwebp, Happly |- *.
  clearbody st. destruct st; cbn in Hin, Hout, Hglb, Hnm, Hrm, Hfix, Hwebp, Happly |- *. subst.
  unfold resolve_normal_map_size, apply_texture_net, parse_switches,
    texture_quality_net, texture_format_net, normal_map_size_net,
    texture_size_net, ratio_net.
  destruct (explicit_ratio py_float args), (explicit_texture_size py_int args),
    (explicit_normal_map_size py_int args), (explicit_texture_format args),
    (explicit_texture_quality py_int args), (flag_token "--apply-texture" args),
    (Py.contains "--remove-textures" args),
    (Py.contains "--keep-original-textures" args),
    (Py.contains "--no-fix-origin" args); cbn; try reflexivity.
  all: destruct keep_original_textures0; reflexivity.
Qed.

(** *** What the argument handling prints *)

Lemma getitem_prints_only l i : prints_only (getitem l i).
Proof. unfold getitem. repeat prints_only_step. Qed.

Lemma defaults_prints_only args : prints_only (defaults args).
Proof.
  unfold defaults. apply prints_only_bind; [apply getitem_prints_only|intros inp _].
  apply prints_only_bind; [apply getitem_prints_only|intros out _].
  apply prints_only_bind; [repeat prints_only_step|intros out' _].
  apply prints_only_ret.
Qed.

Lemma webp_settings_prints_only c : prints_only (webp_settings c).
Proof. unfold webp_settings. repeat prints_only_step. Qed.

Lemma parse_quality_prints_only args c : prints_only (parse_quality args c).
Proof. unfold LowPoly.parse_quality. repeat prints_only_step. Qed.

Lemma parse_ratio_prints_only args c : prints_only (parse_ratio args c).
Proof. unfold LowPoly.parse_ratio. repeat prints_only_step. Qed.

Lemma parse_texture_size_prints_only args c : prints_only (parse_texture_size args c).
Proof. unfold LowPoly.parse_texture_size. repeat prints_only_step. Qed.

Lemma parse_normal_map_size_prints_only args c :
  prints_only (parse_normal_map_size args c).
Proof. unfold LowPoly.parse_normal_map_size. repeat prints_only_step. Qed.

Lemma parse_texture_format_prints_only args c :
  prints_only (parse_texture_format args c).
Proof. unfold parse_texture_format. repeat prints_only_step. Qed.

Lemma parse_texture_quality_prints_only args c :
  prints_only (parse_texture_quality args c).
Proof. unfold LowPoly.parse_texture_quality. repeat prints_only_step. Qed.

Lemma parse_apply_texture_prints_only args c :
  prints_only (parse_apply_texture args c).
Proof. unfold parse_apply_texture. repeat prints_only_step. Qed.

Lemma report_config_prints_only c : prints_only (report_config c).
Proof.
  unfold report_config. do 3 apply prints_only_print.
  apply prints_only_bind; [|intros _ _; repeat prints_only_step].
  destruct (remove_textures c); [repeat prints_only_step|].
  destruct (keep_original_textures c); [repeat prints_only_step|].
  do 3 apply prints_only_print. repeat prints_only_step.
Qed.

(** The argument handling calls nothing in the host: it only prints. *)
Lemma parse_args_prints_only args : prints_only (parse_args args).
Proof.
  unfold LowPoly.parse_args.
  apply prints_only_bind; [apply defaults_prints_only|intros ? _].
  apply prints_only_bind; [apply webp_settings_prints_only|intros ? _].
  apply prints_only_bind; [apply parse_quality_prints_only|intros ? _].
  apply prints_only_bind; [apply parse_ratio_prints_only|intros ? _].
  apply prints_only_bind; [apply parse_texture_size_prints_only|intros ? _].
  apply prints_only_bind; [apply parse_normal_map_size_prints_only|intros ? _].
  apply prints_only_bind; [apply parse_texture_format_prints_only|intros ? _].
  apply prints_only_bind; [apply parse_texture_quality_prints_only|intros ? _].
  apply prints_only_bind; [apply parse_apply_texture_prints_only|intros ? _].
  apply prints_only_bind; [apply report_config_prints_only|intros ? _].
  apply prints_only_ret.
Qed.

(** The lines each option's block prints are lines of the run. *)
Lemma parse_args_events args inp out :
  args !! 0%nat = Some inp -> args !! 1%nat = Some out ->
  ratio_accepted py_float args = true ->
  forall e,
    In e (events (parse_quality args (webp_net (initial_config args inp out)))) \/
    In e (events (parse_texture_size args (after_ratio py_int py_float args inp out))) \/
    In e (events (parse_normal_map_size args (after_texture_size py_int py_float args inp out))) \/
    In e (events (parse_texture_format args (after_normal_map_size py_int py_float args inp out))) \/
    In e (events (parse_texture_quality args (after_texture_format py_int py_float args inp out))) ->
    In e (events (parse_args args)).
Proof.
  intros H0 H1 Hr e He. unfold LowPoly.parse_args.
  eapply events_bind_r; [apply (defaults_ok args inp out H0 H1)|].
  eapply events_bind_r; [apply webp_settings_ok|].
  destruct He as [He|He]; [apply events_bind_l; exact He|].
  eapply events_bind_r; [apply parse_quality_ok|].
  eapply events_bind_r; [apply (parse_ratio_ok _ _ Hr)|].
  destruct He as [He|He]; [apply events_bind_l; exact He|].
  eapply events_bind_r; [apply parse_texture_size_ok|].
  destruct He as [He|He]; [apply events_bind_l; exact He|].
  eapply events_bind_r; [apply parse_normal_map_size_ok|].
  destruct He as [He|He]; [apply events_bind_l; exact He|].
  eapply events_bind_r; [apply parse_texture_format_ok|].
  apply events_bind_l; exact He.
Qed.

(** A [--ratio] token that is no float ends the argument handling. *)
Lemma parse_args_ratio_stops args inp out tok :
  args !! 0%nat = Some inp -> args !! 1%nat = Some out ->
  flag_token "--ratio" args = Some tok -> py_float tok = None ->
  snd (parse_args args) = Stopped (SysExit 1) /\
  In (Printed [Str "Invalid ratio value: "; Str tok]) (events (parse_args args)).
Proof.
  intros H0 H1 Htok Hf. unfold LowPoly.parse_args.
  pose proof (parse_ratio_stops args (staged py_int args inp out) tok Htok Hf) as Hstop.
  split.
  - rewrite (bind_snd_ok _ _ _ (defaults_ok args inp out H0 H1)).
    rewrite (bind_snd_ok _ _ _ (webp_settings_ok _)).
    rewrite (bind_snd_ok _ _ _ (parse_quality_ok args _)).
    apply bind_snd_stopped. unfold staged in Hstop. rewrite Hstop. reflexivity.
  - eapply events_bind_r; [apply (defaults_ok args inp out H0 H1)|].
    eapply events_bind_r; [apply webp_settings_ok|].
    eapply events_bind_r; [apply parse_quality_ok|].
    apply events_bind_l. unfold staged in Hstop. rewrite Hstop. left. reflexivity.
Qed.

End ParseFacts.

(** *** The claims on the argument handling *)

Section ParseClaims.

Import LowPoly.

Variable py_int : string -> option Z.
Variable py_float : string -> option float.

Local Abbreviation parse_args := (LowPoly.parse_args py_int py_float).

(** A preset level from 1 to 5 has a bundle, and the staged settings
    are that bundle; the texture quality of the levels that set none is
    the one in force before. *)
Lemma staged_preset args inp out q :
  preset_level py_int args = Some q -> 1 <= q <= 5 ->
  exists r size fmt tq,
    preset_bundle q = Some (r, size, fmt, tq) /\
    ratio (staged py_int args inp out) = r /\
    texture_size (staged py_int args inp out) = size /\
    texture_format (staged py_int args inp out) = fmt /\
    texture_quality (staged py_int args inp out)
      = default (initial_texture_quality args) tq.
Proof.
  intros Hq Hrange. unfold staged, quality_net, initial_texture_quality.
  rewrite Hq. unfold webp_net, initial_config. cbn [use_webp_flag].
  assert (Hcases : q = 1 \/ q = 2 \/ q = 3 \/ q = 4 \/ q = 5) by lia.
  destruct Hcases as [->|[->|[->|[->| ->]]]];
    destruct (Py.contains "--webp" args);
    do 4 eexists; (split; [reflexivity|]); cbn; repeat split; reflexivity.
Qed.

(** C1: for a preset level from 1 to 5 given with [--quality], the ratio,
    the texture size, the texture format and the texture quality of the
    resulting configuration are those of the level's bundle (a level
    whose bundle sets no texture quality leaves the one in force), except
    that each of [--ratio], [--texture-size], [--texture-format] and
    [--texture-quality] with an accepted value replaces the value of its
    own variable and of no other: presets first, explicit flags after. *)
Theorem quality_preset_then_explicit_flags args inp out q :
  args !! 0%nat = Some inp -> args !! 1%nat = Some out ->
  ratio_accepted py_float args = true ->
  preset_level py_int args = Some q -> 1 <= q <= 5 ->
  exists r size fmt tq c,
    preset_bundle q = Some (r, size, fmt, tq) /\
    snd (parse_args args) = Ok c /\
    ratio c = default r (explicit_ratio py_float args) /\
    texture_size c = default size (explicit_texture_size py_int args) /\
    texture_format c = default fmt (explicit_texture_format args) /\
    texture_quality c =
      default (default (initial_texture_quality args) tq)
        (explicit_texture_quality py_int args).
Proof.
  intros H0 H1 Hr Hq Hrange.
  destruct (staged_preset args inp out q Hq Hrange)
    as (r & size & fmt & tq & Hb & Sr & Ss & Sf & St).
  exists r, size, fmt, tq, (parsed py_int py_float args inp out).
  split; [exact Hb|]. split; [apply parse_args_ok; assumption|].
  rewrite parsed_fields. cbn [ratio texture_size texture_format texture_quality].
  rewrite Sr, Ss, Sf, St. repeat split; reflexivity.
Qed.

(** C7: an integer given to [--texture-quality] is stored clamped to
    [0, 100]: 0 for a negative one, 100 for one above 100, and itself
    in between. *)
Theorem texture_quality_clamped args inp out tok v :
  args !! 0%nat = Some inp -> args !! 1%nat = Some out ->
  ratio_accepted py_float args = true ->
  flag_token "--texture-quality" args = Some tok -> py_int tok = Some v ->
  exists c,
    snd (parse_args args) = Ok c /\
    (v < 0 -> texture_quality c = 0) /\
    (100 < v -> texture_quality c = 100) /\
    (0 <= v <= 100 -> texture_quality c = v).
Proof.
  intros H0 H1 Hr Htok Hv.
  exists (parsed py_int py_float args inp out).
  split; [apply parse_args_ok; assumption|].
  rewrite parsed_fields. cbn [texture_quality].
  unfold explicit_texture_quality. rewrite Htok. cbn. rewrite Hv. cbn.
  unfold clamp_quality.
  destruct (Z.ltb_spec v 0); [repeat split; intros; lia|].
  destruct (Z.gtb_spec v 100); repeat split; intros; lia.
Qed.

(** C3, as the code has it: a token of [--texture-size],
    [--normal-map-size], [--texture-quality] or [--quality] that is no
    integer is reported on the console, the variable keeps the value it
    had before the option's block (the staged one; the texture size for
    the normal-map size; no preset for the level), and the argument
    handling goes on to its end. *)
Theorem invalid_integer_token_keeps_value args inp out :
  args !! 0%nat = Some inp -> args !! 1%nat = Some out ->
  ratio_accepted py_float args = true ->
  exists c,
    snd (parse_args args) = Ok c /\
    (forall tok,
        flag_token "--texture-size" args = Some tok -> py_int tok = None ->
        In (Printed [Str "Invalid texture size: "; Str tok]) (events (parse_args args)) /\
        texture_size c = texture_size (staged py_int args inp out)) /\
    (forall tok,
        flag_token "--normal-map-size" args = Some tok -> py_int tok = None ->
        In (Printed [Str "Invalid normal map size: "; Str tok]) (events (parse_args args)) /\
        normal_map_size c = Some (texture_size c)) /\
    (forall tok,
        flag_token "--texture-quality" args = Some tok -> py_int tok = None ->
        In (Printed [Str "Invalid texture quality: "; Str tok]) (events (parse_args args)) /\
        texture_quality c = texture_quality (staged py_int args inp out)) /\
    (forall tok,
        flag_token "--quality" args = Some tok -> py_int tok = None ->
        In (Printed [Str "Invalid quality value: "; Str tok; Str ", using defaults"])
          (events (parse_args args)) /\
        staged py_int args inp out = webp_net (initial_config args inp out)).
Proof.
  intros H0 H1 Hr.
  exists (parsed py_int py_float args inp out).
  split; [apply parse_args_ok; assumption|].
  pose proof (parse_args_events py_int py_float args inp out H0 H1 Hr) as Hev.
  rewrite parsed_fields. cbn [texture_size normal_map_size texture_quality].
  split; [|split; [|split]]; intros tok Htok Hint; split.
  - apply Hev. right; left. unfold LowPoly.parse_texture_size.
    rewrite Htok, Hint. left. reflexivity.
  - unfold explicit_texture_size. rewrite Htok. cbn. rewrite Hint. reflexivity.
  - apply Hev. do 2 right; left. unfold LowPoly.parse_normal_map_size.
    rewrite Htok, Hint. left. reflexivity.
  - unfold explicit_normal_map_size. rewrite Htok. cbn. rewrite Hint. reflexivity.
  - apply Hev. do 4 right. unfold LowPoly.parse_texture_quality.
    rewrite Htok, Hint. left. reflexivity.
  - unfold explicit_texture_quality. rewrite Htok. cbn. rewrite Hint. reflexivity.
  - apply Hev. left. unfold LowPoly.parse_quality.
    rewrite Htok, Hint. left. reflexivity.
  - unfold staged, quality_net, preset_level. rewrite Htok. cbn. rewrite Hint.
    reflexivity.
Qed.

Section Run.

Variable h : host.

Local Abbreviation main := (LowPoly.main py_int py_float h).

(** With [--] among the arguments the script is the argument handling
    followed by the processing. *)
Lemma main_unfold argv :
  Py.contains "--" argv = true ->
  main argv = (parse_args (script_args argv) ≫= process h).
Proof. intros H. unfold LowPoly.main. rewrite H. reflexivity. Qed.

(** C2, as the code has it: a [--ratio] token that is no float is
    reported and ends the run with exit code 1, before any call into the
    host. *)
Theorem invalid_ratio_aborts argv inp out tok :
  Py.contains "--" argv = true ->
  script_args argv !! 0%nat = Some inp -> script_args argv !! 1%nat = Some out ->
  flag_token "--ratio" (script_args argv) = Some tok -> py_float tok = None ->
  snd (main argv) = Stopped (SysExit 1) /\
  exit_code (main argv) = Some 1 /\
  In (Printed [Str "Invalid ratio value: "; Str tok]) (events (main argv)) /\
  prints_only (main argv).
Proof.
  intros Hsep H0 H1 Htok Hf. rewrite (main_unfold argv Hsep).
  destruct (parse_args_ratio_stops py_int py_float _ inp out tok H0 H1 Htok Hf)
    as [Hstop Hin].
  assert (Hsnd : snd (parse_args (script_args argv) ≫= process h) = Stopped (SysExit 1))
    by (apply bind_snd_stopped; exact Hstop).
  repeat split.
  - exact Hsnd.
  - unfold exit_code. rewrite Hsnd. reflexivity.
  - apply events_bind_l. exact Hin.
  - unfold prints_only. rewrite (bind_events_stopped _ _ _ Hstop).
    apply parse_args_prints_only.
Qed.

End Run.

End ParseClaims.

(** C1 on [--quality 2 --texture-size 128]. *)
Lemma quality_preset_then_explicit_flags_witness :
  exists r size fmt tq c,
    preset_bundle 2 = Some (r, size, fmt, tq) /\
    snd (Sample.low_poly_args ["in.glb"; "out.glb"; "--quality"; "2"; "--texture-size"; "128"])
      = Ok c /\
    LowPoly.ratio c = r /\
    LowPoly.texture_size c = 128 /\
    LowPoly.texture_format c = fmt /\
    LowPoly.texture_quality c = default 90 tq.
Proof.
  apply (quality_preset_then_explicit_flags Py.int_ascii Py.float_decimal
           ["in.glb"; "out.glb"; "--quality"; "2"; "--texture-size"; "128"]
           "in.glb" "out.glb" 2);
    [reflexivity | reflexivity | reflexivity | reflexivity | lia].
Defined.

(** C7 on [--texture-quality 250]. *)
Lemma texture_quality_clamped_witness :
  exists c,
    snd (Sample.low_poly_args ["in.glb"; "out.glb"; "--texture-quality"; "250"]) = Ok c /\
    (250 < 0 -> LowPoly.texture_quality c = 0) /\
    (100 < 250 -> LowPoly.texture_quality c = 100) /\
    (0 <= 250 <= 100 -> LowPoly.texture_quality c = 250).
Proof.
  apply (texture_quality_clamped Py.int_ascii Py.float_decimal
           ["in.glb"; "out.glb"; "--texture-quality"; "250"]
           "in.glb" "out.glb" "250" 250);
    reflexivity.
Defined.

(** C3 on [--texture-size abc]. *)
Lemma invalid_integer_token_keeps_value_witness :
  let args := ["in.fbx"; "out.fbx"; "--texture-size"; "abc"] in
  exists c,
    snd (Sample.low_poly_args args) = Ok c /\
    In (Printed [Str "Invalid texture size: "; Str "abc"]) (events (Sample.low_poly_args args)) /\
    LowPoly.texture_size c = 512.
Proof.
  intros args.
  destruct (invalid_integer_token_keeps_value Py.int_ascii Py.float_decimal
              args "in.fbx" "out.fbx" eq_refl eq_refl eq_refl)
    as (c & Hc & Hsize & _).
  exists c. split; [exact Hc|].
  destruct (Hsize "abc" eq_refl eq_refl) as [Hin Hkeep].
  split; [exact Hin|]. rewrite Hkeep. reflexivity.
Defined.

(** C2 on [--ratio abc]. *)
Lemma invalid_ratio_aborts_witness :
  let argv := ["blender"; "--"; "in.fbx"; "out.fbx"; "--ratio"; "abc"] in
  snd (Sample.low_poly argv) = Stopped (SysExit 1) /\
  exit_code (Sample.low_poly argv) = Some 1 /\
  In (Printed [Str "Invalid ratio value: "; Str "abc"]) (events (Sample.low_poly argv)) /\
  prints_only (Sample.low_poly argv).
Proof.
  intros argv.
  apply (invalid_ratio_aborts Py.int_ascii Py.float_decimal Sample.host argv
           "in.fbx" "out.fbx" "abc"); reflexivity.
Defined.

(** C2 fails as stated: [abc] is no integer, yet the run with
    [--texture-size abc] exports the model and ends with exit code 0. *)
Lemma invalid_texture_size_does_not_abort :
  let argv := ["blender"; "--"; "in.fbx"; "out.fbx"; "--texture-size"; "abc"] in
  flag_token "--texture-size" (script_args argv) = Some "abc" /\
  Py.int_ascii "abc" = None /\
  exit_code (Sample.low_poly argv) = Some 0 /\
  exports (Sample.low_poly argv) = [Call (ExportFbx "out.fbx")].
Proof. vm_compute. repeat split; reflexivity. Qed.

(** C3 fails as stated: [abc] is no float, and the run with
    [--ratio abc] stops with exit code 1 at the argument handling. *)
Lemma invalid_ratio_is_fatal :
  let argv := ["blender"; "--"; "in.fbx"; "out.fbx"; "--ratio"; "abc"] in
  flag_token "--ratio" (script_args argv) = Some "abc" /\
  Py.float_decimal "abc" = None /\
  snd (Sample.low_poly argv) = Stopped (SysExit 1) /\
  exports (Sample.low_poly argv) = [] /\
  Forall (fun e => match e with Call _ => False | Printed _ => True end)
    (events (Sample.low_poly argv)).
Proof. vm_compute. repeat split; repeat constructor. Qed.

(** ** The stages after the argument handling *)

Section Tame.

Context {A B : Type} (P : event -> Prop).

Lemma tame_bind (m : script A) (f : A -> script B) :
  tame P m -> (forall a, snd m = Ok a -> tame P (f a)) -> tame P (m ≫= f).
Proof.
  intros [Hm Hcode] Hf. split.
  - rewrite exports_bind. apply Forall_app. split; [exact Hm|].
    destruct (snd m) as [a|s] eqn:E; [apply (Hf a eq_refl)|constructor].
  - intros code. destruct (snd m) as [a|s] eqn:E.
    + rewrite (bind_snd_ok m f a E). apply (Hf a eq_refl).
    + rewrite (bind_snd_stopped m f s E). intros [= ->]. apply Hcode. reflexivity.
Qed.

Lemma tame_ret (a : A) : tame P (mret a : script A).
Proof. split; [constructor|discriminate]. Qed.

Lemma tame_exit : tame P (sys_exit 1 : script A).
Proof. split; [constructor|]. intros code [= <-]. reflexivity. Qed.

Lemma tame_raise (e : string) : tame P (raise e : script A).
Proof. split; [constructor|discriminate]. Qed.

Lemma tame_line (line : list piece) : tame P (print line).
Proof. split; [constructor|discriminate]. Qed.

Lemma tame_quiet_call (c : host_call) :
  is_export (Call c) = false -> tame P (call c).
Proof.
  intros H. split; [|discriminate].
  unfold exports, events, call, emit. cbn [fst List.filter]. rewrite H. constructor.
Qed.

(** A sequence returns only if both its parts do. *)
Lemma bind_returns (m : script A) (f : A -> script B) (b : B) :
  snd (m ≫= f) = Ok b -> exists a, snd m = Ok a /\ snd (f a) = Ok b.
Proof.
  destruct (snd m) as [a|s] eqn:E.
  - rewrite (bind_snd_ok m f a E). eauto.
  - rewrite (bind_snd_stopped m f s E). discriminate.
Qed.

End Tame.

Lemma tame_print {A} (P : event -> Prop) (line : list piece) (k : script A) :
  tame P k -> tame P (print line;; k).
Proof. intros H. apply tame_bind; [apply tame_line|intros _ _; exact H]. Qed.

Lemma tame_call {A} (P : event -> Prop) (c : host_call) (k : script A) :
  is_export (Call c) = false -> tame P k -> tame P (call c;; k).
Proof.
  intros Hc H. apply tame_bind; [apply tame_quiet_call; exact Hc|intros _ _; exact H].
Qed.

Lemma prints_only_tame {A} (P : event -> Prop) (m : script A) :
  prints_only m -> (forall code, snd m = Stopped (SysExit code) -> code = 1) ->
  tame P m.
Proof.
  intros Hp Hc. split; [|exact Hc]. rewrite (prints_only_exports m Hp). constructor.
Qed.

Ltac tame_step :=
  first
    [ apply tame_print
    | apply tame_line
    | apply tame_call; [reflexivity|]
    | apply tame_quiet_call; reflexivity
    | apply tame_ret
    | apply tame_exit
    | apply tame_raise
    | match goal with
      | |- tame _ (match ?x with _ => _ end) => destruct x
      | |- tame _ (if ?b then _ else _) => destruct b
      | |- tame _ (let '(_, _) := ?x in _) => destruct x
      end ].

Section StageFacts.

Import LowPoly.

Variable P : event -> Prop.
Variable h : host.

Lemma import_model_tame c : tame P (import_model h c).
Proof. unfold import_model. repeat tame_step. Qed.

Lemma remove_animations_tame sc : tame P (remove_animations sc).
Proof. unfold remove_animations. repeat tame_step. Qed.

Lemma report_found_tame a ms : tame P (report_found a ms).
Proof.
  unfold report_found. apply tame_bind; [|intros _ _]; repeat tame_step.
Qed.

Lemma apply_texture_tame c path ms sc : tame P (apply_texture h c path ms sc).
Proof.
  unfold apply_texture. destruct (load_image h path); [|repeat tame_step].
  apply tame_print. apply tame_bind; [|intros _ _]; repeat tame_step.
Qed.

Lemma resize_loop_tame label resize target ids imgs :
  tame P (resize_loop label resize target ids imgs).
Proof.
  revert imgs. induction ids as [|i ids IH]; intros imgs; cbn [resize_loop].
  - apply tame_ret.
  - destruct (imgs !! i) as [img|]; [|apply IH].
    destruct (needs_resize target img); [|apply IH].
    apply tame_print. apply IH.
Qed.

Lemma process_textures_tame c sc : tame P (process_textures c sc).
Proof.
  unfold process_textures. destruct (classify (materials sc)) as [nm rt].
  apply tame_bind; [apply resize_loop_tame|intros ? _].
  apply tame_bind; [apply resize_loop_tame|intros ? _].
  apply tame_bind; [apply resize_loop_tame|intros ? _].
  repeat tame_step.
Qed.

Lemma strip_textures_tame ms sc : tame P (strip_textures ms sc).
Proof. unfold strip_textures. repeat tame_step. Qed.

Lemma texture_stage_tame c ms sc : tame P (texture_stage h c ms sc).
Proof.
  unfold texture_stage. destruct (truthy_path (apply_texture_path c)).
  - apply apply_texture_tame.
  - destruct (remove_textures c); cbn [negb].
    + apply strip_textures_tame.
    + destruct (keep_original_textures c); cbn [negb].
      * repeat tame_step.
      * apply process_textures_tame.
Qed.

Lemma decimate_meshes_tame c ms objs : tame P (decimate_meshes h c ms objs).
Proof.
  revert objs. induction ms as [|i ms IH]; intros objs; cbn [decimate_meshes].
  - apply tame_ret.
  - destruct (objs !! i) as [obj|]; [|apply IH].
    do 4 (apply tame_call; [reflexivity|]). apply tame_print. apply IH.
Qed.

Lemma origin_to_cursor_tame objs : tame P (origin_to_cursor objs).
Proof.
  induction objs as [|obj objs IH]; cbn [origin_to_cursor].
  - apply tame_ret.
  - do 2 (apply tame_call; [reflexivity|]).
    apply tame_bind; [|intros _ _; exact IH].
    repeat tame_step.
Qed.

End StageFacts.

Section StageFacts2.

Import LowPoly.

Variable P : event -> Prop.
Variable h : host.

Lemma fix_model_origin_tame c a ms : tame P (fix_model_origin c a ms).
Proof.
  unfold fix_model_origin. destruct ms as [|first others]; [apply tame_ret|].
  destruct (fix_origin c); [|apply tame_ret].
  destruct (bottom_center _) as [[[x y] z]|]; [|apply tame_raise].
  apply tame_call; [reflexivity|]. apply tame_print.
  apply tame_bind; [destruct a; repeat tame_step|intros _ _].
  apply tame_bind; [apply origin_to_cursor_tame|intros _ _].
  apply tame_line.
Qed.

(** Everything before the export is tame, so the processing is as tame
    as its export. *)
Lemma process_tame c : tame P (export_model h c) -> tame P (process h c).
Proof.
  intros He. unfold process.
  apply tame_bind; [apply import_model_tame|intros sc _].
  apply tame_bind; [apply remove_animations_tame|intros sc' _].
  apply tame_bind; [apply report_found_tame|intros _ _].
  apply tame_bind; [apply texture_stage_tame|intros sc'' _].
  apply tame_bind; [apply decimate_meshes_tame|intros objs _].
  apply tame_bind; [apply fix_model_origin_tame|intros _ _].
  exact He.
Qed.

(** The processing returns only if its export does. *)
Lemma process_returns c u : snd (process h c) = Ok u -> snd (export_model h c) = Ok u.
Proof.
  unfold process. intros H.
  repeat match type of H with
         | snd (_ ≫= _) = Ok _ =>
             apply bind_returns in H; destruct H as (? & _ & H)
         end.
  exact H.
Qed.

(** Without [--glb], an output path that does not end in [.fbx] once
    stripped and lowered stops the export with exit code 1. *)
Lemma export_fbx_rejects c :
  Py.endswith (Py.lower (Py.strip (output_path c))) ".fbx" = false ->
  snd (export_fbx c) = Stopped (SysExit 1) /\ prints_only (export_fbx c).
Proof.
  intros H. unfold export_fbx. rewrite H. split; [reflexivity|].
  repeat prints_only_step.
Qed.

Lemma export_fbx_accepts c :
  Py.endswith (Py.lower (Py.strip (output_path c))) ".fbx" = true ->
  snd (export_fbx c) = Ok tt /\ exports (export_fbx c) = [Call (ExportFbx (output_path c))].
Proof. intros H. unfold export_fbx. rewrite H. split; reflexivity. Qed.

End StageFacts2.

Section StageFacts3.

Import LowPoly.

Variable h : host.

Lemma tame_export {P : event -> Prop} (c : host_call) :
  P (Call c) -> tame P (call c).
Proof.
  intros H. split; [|discriminate].
  unfold exports, events, call, emit. cbn [fst List.filter].
  destruct (is_export (Call c)); repeat constructor. exact H.
Qed.

Lemma run_fix_origin_tame P c : tame P (run_fix_origin h c).
Proof.
  unfold run_fix_origin. destruct (script_exists h _); [|apply tame_line].
  apply tame_print. apply tame_call; [reflexivity|].
  destruct (run_process h _) as [[[rc out] err]|]; [|apply tame_raise].
  apply tame_print. destruct (negb (rc =? 0)); apply tame_line.
Qed.

Lemma run_webp_tame P c : tame P (run_webp h c).
Proof.
  unfold run_webp. destruct (_ || _); [|apply tame_ret].
  apply tame_print. apply tame_call; [reflexivity|].
  destruct (run_process h _) as [[[rc out] err]|]; [|apply tame_line].
  apply tame_print. destruct (negb (rc =? 0)); apply tame_line.
Qed.

Lemma export_glb_tame c : tame (glb_export_of c) (export_glb h c).
Proof.
  unfold export_glb. apply tame_print. apply tame_call; [reflexivity|].
  apply tame_bind.
  { destruct (gltf_type_error h).
    - apply tame_print. apply tame_export. right. reflexivity.
    - apply tame_export. left. reflexivity. }
  intros _ _. apply tame_print.
  apply tame_bind; [destruct (exported_exists h _); cbn; repeat tame_step|intros _ _].
  apply tame_bind; [apply run_fix_origin_tame|intros _ _].
  apply tame_bind; [apply run_webp_tame|intros _ _].
  repeat tame_step.
Qed.


Lemma run_fix_origin_ok c :
  fix_origin_returns h c = true -> snd (run_fix_origin h c) = Ok tt.
Proof.
  unfold fix_origin_returns, run_fix_origin.
  destruct (script_exists h (fix_origin_script h)); [|reflexivity].
  cbn [negb orb]. intros H. apply bool_decide_eq_true in H.
  destruct H as [[[rc out] err] ->]. cbn.
  destruct (negb (rc =? 0)); reflexivity.
Qed.

(** Under [--webp] the GLB branch launches the conversion, whatever the
    texture settings are. *)
Lemma export_glb_runs_webp c :
  use_webp_flag c = true -> fix_origin_returns h c = true ->
  In (Call (Subprocess (webp_argv c))) (events (export_glb h c)).
Proof.
  intros Hw Hfix. unfold export_glb.
  eapply events_bind_r; [reflexivity|].
  eapply events_bind_r; [reflexivity|].
  eapply events_bind_r; [destruct (gltf_type_error h); reflexivity|].
  eapply events_bind_r; [reflexivity|].
  eapply events_bind_r; [destruct (exported_exists h _); reflexivity|].
  eapply events_bind_r; [apply run_fix_origin_ok; exact Hfix|].
  apply events_bind_l. unfold run_webp. rewrite Hw, orb_true_r.
  eapply events_bind_r; [reflexivity|]. apply events_bind_l. left. reflexivity.
Qed.

End StageFacts3.

(** ** Whole runs *)

Section RunFacts.

Import LowPoly.

Variable py_int : string -> option Z.
Variable py_float : string -> option float.
Variable h : host.

Local Abbreviation parse_args := (LowPoly.parse_args py_int py_float).
Local Abbreviation main := (LowPoly.main py_int py_float h).

(** With both positional arguments the argument handling returns the
    configuration, or stops with exit code 1 at [--ratio]. *)
Lemma parse_args_outcome args inp out :
  args !! 0%nat = Some inp -> args !! 1%nat = Some out ->
  snd (parse_args args) = Ok (parsed py_int py_float args inp out) \/
  snd (parse_args args) = Stopped (SysExit 1).
Proof.
  intros H0 H1. destruct (ratio_accepted py_float args) eqn:Hr.
  - left. apply parse_args_ok; assumption.
  - right. unfold ratio_accepted in Hr.
    destruct (flag_token "--ratio" args) as [tok|] eqn:Htok; [|discriminate].
    apply bool_decide_eq_false in Hr.
    assert (Hf : py_float tok = None).
    { destruct (py_float tok) eqn:E; [|reflexivity]. exfalso. apply Hr. eauto. }
    apply (parse_args_ratio_stops py_int py_float args inp out tok H0 H1 Htok Hf).
Qed.

Lemma parse_args_tame P args inp out :
  args !! 0%nat = Some inp -> args !! 1%nat = Some out ->
  tame P (parse_args args).
Proof.
  intros H0 H1. apply prints_only_tame; [apply parse_args_prints_only|].
  intros code Hc. destruct (parse_args_outcome args inp out H0 H1) as [E|E];
    rewrite E in Hc; congruence.
Qed.

(** A run is as tame as the export of its configuration. *)
Lemma main_tame P argv inp out :
  Py.contains "--" argv = true ->
  script_args argv !! 0%nat = Some inp -> script_args argv !! 1%nat = Some out ->
  tame P (export_model h (parsed py_int py_float (script_args argv) inp out)) ->
  tame P (main argv).
Proof.
  intros Hsep H0 H1 He. rewrite (main_unfold py_int py_float h argv Hsep).
  apply tame_bind; [apply (parse_args_tame P _ inp out H0 H1)|].
  intros c Hc. destruct (parse_args_outcome _ inp out H0 H1) as [E|E];
    rewrite E in Hc; [|discriminate].
  injection Hc as <-. apply process_tame. exact He.
Qed.

(** A run returns only if the export of its configuration does. *)
Lemma main_returns argv inp out u :
  Py.contains "--" argv = true ->
  script_args argv !! 0%nat = Some inp -> script_args argv !! 1%nat = Some out ->
  snd (main argv) = Ok u ->
  snd (export_model h (parsed py_int py_float (script_args argv) inp out)) = Ok u.
Proof.
  intros Hsep H0 H1. rewrite (main_unfold py_int py_float h argv Hsep). intros H.
  apply bind_returns in H. destruct H as (c & Hc & H).
  destruct (parse_args_outcome _ inp out H0 H1) as [E|E];
    rewrite E in Hc; [|discriminate].
  injection Hc as <-. apply process_returns in H. exact H.
Qed.

End RunFacts.

(** ** apply-shaded-texture.py *)

Section ShadedFacts.

Variable py_float : string -> option float.
Variable h : host.

Lemma shaded_parse_args_prints_only args :
  prints_only (ShadedTexture.parse_args py_float args).
Proof.
  unfold ShadedTexture.parse_args.
  apply prints_only_bind; [apply getitem_prints_only|intros inp _].
  apply prints_only_bind; [apply getitem_prints_only|intros out _].
  apply prints_only_bind; [repeat prints_only_step|intros color _].
  apply prints_only_bind; [repeat prints_only_step|intros image _].
  do 2 apply prints_only_print.
  apply prints_only_bind; [|intros _ _; apply prints_only_ret].
  destruct (truthy_path image); [apply prints_only_line|].
  destruct color as [[[r g] b] a]. apply prints_only_line.
Qed.

(** With both positional arguments the argument handling returns, and
    the input path is the first of them. *)
Lemma shaded_parse_args_ok args inp out :
  args !! 0%nat = Some inp -> args !! 1%nat = Some out ->
  exists c, snd (ShadedTexture.parse_args py_float args) = Ok c /\
            ShadedTexture.input_path c = inp /\
            ShadedTexture.output_path c = out.
Proof.
  intros H0 H1. unfold ShadedTexture.parse_args.
  assert (G0 : snd (getitem args 0) = Ok inp) by (unfold getitem; rewrite H0; reflexivity).
  assert (G1 : snd (getitem args 1) = Ok out) by (unfold getitem; rewrite H1; reflexivity).
  set (color := (if Py.contains "--color" args then _ else _) : script rgba).
  assert (Hcolor : exists v, snd color = Ok v).
  { subst color. destruct (Py.contains "--color" args); [|eexists; reflexivity].
    destruct (Py.index "--color" args); [|eexists; reflexivity].
    destruct (ShadedTexture.color_tokens py_float args n); eexists; reflexivity. }
  destruct Hcolor as [v Hv].
  rewrite (bind_snd_ok _ _ inp G0), (bind_snd_ok _ _ out G1).
  rewrite (bind_snd_ok _ _ v Hv).
  set (image := (match flag_token "--image" args with
                 | Some path => _
                 | None => _
                 end : script (option string))).
  assert (Himage : exists ip, snd image = Ok ip)
    by (subst image; destruct (flag_token "--image" args); eexists; reflexivity).
  destruct Himage as [ip Hip]. rewrite (bind_snd_ok _ _ ip Hip).
  rewrite (bind_snd_ok (print _) _ tt eq_refl).
  rewrite (bind_snd_ok (print _) _ tt eq_refl).
  match goal with
  | |- context [snd (?m ≫= _)] =>
      assert (Hreport : snd m = Ok tt)
        by (destruct (truthy_path ip); [|destruct v as [[[r g] b] a]]; reflexivity)
  end.
  rewrite (bind_snd_ok _ _ tt Hreport).
  eexists. repeat split; reflexivity.
Qed.

End ShadedFacts.

(** ** Claims on whole runs *)

Section RunClaims.

Variable py_int : string -> option Z.
Variable py_float : string -> option float.
Variable h : host.

(** The import of a path whose extension is none of the three stops
    with exit code 1 after cleaning the scene. *)
Lemma import_model_rejects c :
  let ext := Py.lower (snd (Py.splitext (LowPoly.input_path c))) in
  ext <> ".fbx" -> ext <> ".glb" -> ext <> ".gltf" ->
  snd (LowPoly.import_model h c) = Stopped (SysExit 1) /\
  exports (LowPoly.import_model h c) = [].
Proof.
  intros ext Hf Hg Ht. unfold LowPoly.import_model. fold ext.
  apply String.eqb_neq in Hf, Hg, Ht.
  unfold Py.contains, existsb. rewrite Hf, Hg, Ht. split; reflexivity.
Qed.

Lemma shaded_import_model_rejects c :
  let ext := Py.lower (snd (Py.splitext (ShadedTexture.input_path c))) in
  ext <> ".fbx" -> ext <> ".glb" -> ext <> ".gltf" ->
  snd (ShadedTexture.import_model h c) = Stopped (SysExit 1) /\
  exports (ShadedTexture.import_model h c) = [].
Proof.
  intros ext Hf Hg Ht. unfold ShadedTexture.import_model. fold ext.
  apply String.eqb_neq in Hf, Hg, Ht.
  unfold Py.contains, existsb. rewrite Hf, Hg, Ht. split; reflexivity.
Qed.

End RunClaims.

Lemma lower_app (a b : string) : Py.lower (a ++ b) = (Py.lower a ++ Py.lower b)%string.
Proof. induction a as [|c a IH]; [reflexivity|]. cbn. rewrite IH. reflexivity. Qed.

(** Under [--glb] the output path ends in [.glb], whatever its case. *)
Lemma glb_path_ends args out :
  Py.contains "--glb" args = true ->
  Py.endswith (Py.lower (glb_path args out)) ".glb" = true.
Proof.
  intros Hglb. unfold glb_path. rewrite Hglb. cbn [andb].
  destruct (Py.endswith (Py.lower out) ".glb") eqn:E; cbn [negb]; [exact E|].
  rewrite lower_app. apply endswith_app.
Qed.

Lemma glb_path_rewritten args out :
  Py.contains "--glb" args = true ->
  Py.endswith (Py.lower out) ".glb" = false ->
  glb_path args out = (fst (Py.splitext out) ++ ".glb")%string /\
  Py.endswith (glb_path args out) ".glb" = true.
Proof.
  intros Hglb E. unfold glb_path. rewrite Hglb, E. split; [reflexivity|].
  apply endswith_app.
Qed.

Lemma Forall_False_nil {X} (l : list X) : Forall (fun _ => False) l -> l = [].
Proof. destruct l; [reflexivity|]. intros H. inversion H. contradiction. Qed.

Lemma tame_impl {A} (P Q : event -> Prop) (m : script A) :
  (forall e, P e -> Q e) -> tame P m -> tame Q m.
Proof. intros HPQ [Hp Hc]. split; [|exact Hc]. eapply Forall_impl; eauto. Qed.

Section OutputClaims.

Import LowPoly.

Variable py_int : string -> option Z.
Variable py_float : string -> option float.
Variable h : host.


End OutputClaims.




Section WebpClaims.

Import LowPoly.

Variable py_int : string -> option Z.
Variable py_float : string -> option float.

Local Abbreviation parse_args := (LowPoly.parse_args py_int py_float).

(** A level without a bundle changes nothing. *)
Lemma quality_preset_no_bundle q c : preset_bundle q = None -> quality_preset q c = c.
Proof.
  intros H. unfold quality_preset.
  repeat match goal with
         | |- context [?a =? ?b] =>
             destruct (Z.eqb_spec a b) as [->|_]; [discriminate H|]
         end.
  reflexivity.
Qed.

(** The staged settings under [--webp]: the bundle asked for, over the
    forced size 32, format JPEG and quality 30. *)
Lemma staged_webp args inp out :
  Py.contains "--webp" args = true ->
  let st := staged py_int args inp out in
  match requested_bundle py_int args with
  | Some (r, size, fmt, tq) =>
      texture_size st = size /\ texture_format st = fmt /\
      texture_quality st = default 30 tq
  | None =>
      texture_size st = 32 /\ texture_format st = "JPEG" /\ texture_quality st = 30
  end.
Proof.
  intros Hw. unfold staged, quality_net, requested_bundle, webp_net, initial_config.
  cbn [use_webp_flag]. rewrite Hw.
  destruct (preset_level py_int args) as [q|]; cbn [mbind option_bind];
    [|repeat split; reflexivity].
  destruct (preset_bundle q) as [[[[r size] fmt] tq]|] eqn:Hb.
  - assert (Hcases : q = 1 \/ q = 2 \/ q = 3 \/ q = 4 \/ q = 5).
    { destruct q as [|p|p]; try discriminate Hb.
      repeat (destruct p as [p|p|]; try discriminate Hb); lia. }
    destruct Hcases as [->|[->|[->|[->| ->]]]]; injection Hb as <- <- <- <-;
      repeat split; reflexivity.
  - rewrite (quality_preset_no_bundle q _ Hb). repeat split; reflexivity.
Qed.

(** C9, as the code has it: under [--webp] the forced texture size 32
    and format JPEG give way to those of a preset bundle, the forced
    texture quality 30 only to a bundle that sets a quality (levels 1
    and 2; levels 3 to 5 leave it at 30), and each forced value to the
    accepted value of its own explicit flag; the flag itself stays set,
    and the GLB branch of the export still launches the WebP conversion
    once the origin fix has returned. *)
Theorem webp_settings_overridden args inp out :
  args !! 0%nat = Some inp -> args !! 1%nat = Some out ->
  ratio_accepted py_float args = true ->
  Py.contains "--webp" args = true ->
  exists c,
    snd (parse_args args) = Ok c /\
    use_webp_flag c = true /\
    match requested_bundle py_int args with
    | Some (_, size, fmt, tq) =>
        texture_size c = default size (explicit_texture_size py_int args) /\
        texture_format c = default fmt (explicit_texture_format args) /\
        texture_quality c =
          default (default 30 tq) (explicit_texture_quality py_int args)
    | None =>
        texture_size c = default 32 (explicit_texture_size py_int args) /\
        texture_format c = default "JPEG" (explicit_texture_format args) /\
        texture_quality c = default 30 (explicit_texture_quality py_int args)
    end /\
    forall h, fix_origin_returns h c = true ->
              In (Call (Subprocess (webp_argv c))) (events (export_glb h c)).
Proof.
  intros H0 H1 Hr Hw.
  exists (parsed py_int py_float args inp out).
  split; [apply parse_args_ok; assumption|].
  assert (Hflag : use_webp_flag (parsed py_int py_float args inp out) = true)
    by (rewrite parsed_fields; exact Hw).
  split; [exact Hflag|]. split.
  - pose proof (staged_webp args inp out Hw) as Hst. cbn zeta in Hst.
    rewrite parsed_fields. cbn [texture_size texture_format texture_quality].
    destruct (requested_bundle py_int args) as [[[[r size] fmt] tq]|];
      destruct Hst as (-> & -> & ->); repeat split; reflexivity.
  - intros h Hfix. apply export_glb_runs_webp; assumption.
Qed.

End WebpClaims.

(** C9 on [--webp --quality 1 --texture-size 64]. *)
Lemma webp_settings_overridden_witness :
  exists c,
    snd (Sample.low_poly_args
           ["in.glb"; "out.glb"; "--glb"; "--webp"; "--quality"; "1";
            "--texture-size"; "64"]) = Ok c /\
    LowPoly.use_webp_flag c = true /\
    (LowPoly.texture_size c = 64 /\ LowPoly.texture_format c = "JPEG" /\
     LowPoly.texture_quality c = 75) /\
    In (Call (Subprocess (LowPoly.webp_argv c)))
       (events (LowPoly.export_glb Sample.host c)).
Proof.
  destruct (webp_settings_overridden Py.int_ascii Py.float_decimal
              ["in.glb"; "out.glb"; "--glb"; "--webp"; "--quality"; "1";
               "--texture-size"; "64"] "in.glb" "out.glb"
              eq_refl eq_refl eq_refl eq_refl) as (c & Hc & Hw & Hfields & Hrun).
  exists c. split; [exact Hc|]. split; [exact Hw|]. split; [exact Hfields|].
  apply Hrun. unfold fix_origin_returns. apply orb_true_iff. right.
  apply bool_decide_eq_true. eexists. reflexivity.
Defined.

(** C9 fails as stated: with [--webp --quality 3] the texture quality
    stays at the forced 30, which the bundle of level 3 does not
    replace; with [--texture-format jpeg] it is the JPEG quality of the
    export, where the same arguments without [--webp] give 90. *)
Lemma webp_quality_survives_preset :
  let args := ["in.glb"; "out.glb"; "--glb"; "--webp"; "--quality"; "3";
               "--texture-format"; "jpeg"] in
  let plain := ["in.glb"; "out.glb"; "--glb"; "--quality"; "3";
                "--texture-format"; "jpeg"] in
  preset_bundle 3 = Some (0.15%float, 1024, "PNG", None) /\
  (exists c, snd (Sample.low_poly_args args) = Ok c /\
             LowPoly.texture_quality c = 30 /\
             gs_export_jpeg_quality (LowPoly.export_settings c) = Some 30) /\
  (exists c, snd (Sample.low_poly_args plain) = Ok c /\
             LowPoly.texture_quality c = 90 /\
             gs_export_jpeg_quality (LowPoly.export_settings c) = Some 90).
Proof.
  cbn zeta. split; [reflexivity|]. split; eexists; (split; [vm_compute; reflexivity|]);
    split; reflexivity.
Qed.


(** ** The texture stage *)

Section TextureFacts.

Import LowPoly.

Lemma needs_resize_scaled target img :
  needs_resize target (scale target target img) = false.
Proof.
  unfold needs_resize. cbn [width height scale].
  rewrite Z.leb_refl. cbn [andb negb]. apply andb_false_r.
Qed.

Lemma resize_texture_skip target img :
  needs_resize target img = false -> resize_texture target img = img.
Proof. unfold resize_texture. intros ->. reflexivity. Qed.

Lemma resize_normal_map_skip target img :
  needs_resize target img = false -> resize_normal_map target img = img.
Proof. unfold resize_normal_map. intros ->. reflexivity. Qed.

(** Resizing twice to the same target is resizing once. *)
Lemma resize_texture_idem target img :
  resize_texture target (resize_texture target img) = resize_texture target img.
Proof.
  destruct (needs_resize target img) eqn:E.
  - assert (H : resize_texture target img = scale target target img)
      by (unfold resize_texture; rewrite E; reflexivity).
    rewrite H. apply resize_texture_skip. apply needs_resize_scaled.
  - rewrite (resize_texture_skip target img E). apply resize_texture_skip. exact E.
Qed.

Lemma resize_normal_map_idem target img :
  resize_normal_map target (resize_normal_map target img)
  = resize_normal_map target img.
Proof.
  destruct (needs_resize target img) eqn:E.
  - assert (H : resize_normal_map target img
                = set_file_format "PNG" (scale target target img))
      by (unfold resize_normal_map; rewrite E; reflexivity).
    rewrite H. apply resize_normal_map_skip. apply (needs_resize_scaled target img).
  - rewrite (resize_normal_map_skip target img E).
    apply resize_normal_map_skip. exact E.
Qed.

(** An image within the target in width and height is left as it is. *)
Lemma within_target_no_resize target img :
  width img <= target -> height img <= target -> needs_resize target img = false.
Proof.
  intros Hw Hh. unfold needs_resize.
  apply Z.leb_le in Hw, Hh. rewrite Hw, Hh. cbn [andb negb]. apply andb_false_r.
Qed.

(** An image with pixels that exceeds the target in width or height
    needs the resize. *)
Lemma beyond_target_needs_resize target img :
  has_data img = true -> 0 < width img -> 0 < height img ->
  target < width img \/ target < height img ->
  needs_resize target img = true.
Proof.
  intros Hd Hw Hh Hover. unfold needs_resize. rewrite Hd.
  apply Z.gtb_lt in Hw, Hh. rewrite Hw, Hh. cbn [andb].
  apply negb_true_iff. apply andb_false_iff.
  destruct Hover as [H|H]; [left|right]; apply Z.leb_gt; exact H.
Qed.

Lemma mem_In i l : mem i l = true <-> In i l.
Proof.
  unfold mem. rewrite existsb_exists. split.
  - intros [j [Hj E]]. apply Nat.eqb_eq in E. subst. exact Hj.
  - intros H. exists i. split; [exact H|apply Nat.eqb_refl].
Qed.

Lemma mem_cons i j l : mem i (j :: l) = (i =? j)%nat || mem i l.
Proof. reflexivity. Qed.

Lemma mem_unprocessed j nm rt (imgs : list image) :
  mem j (unprocessed nm rt imgs)
  = (j <? length imgs)%nat && (negb (mem j nm) && negb (mem j rt)).
Proof.
  apply eq_true_iff_eq. rewrite mem_In. unfold unprocessed.
  rewrite filter_In, in_seq. split.
  - intros [[_ Hlt] Hf]. apply andb_true_iff. split; [|exact Hf].
    apply Nat.ltb_lt. exact Hlt.
  - intros H. apply andb_true_iff in H. destruct H as [Hlt Hf].
    apply Nat.ltb_lt in Hlt. split; [lia|exact Hf].
Qed.

Section Loop.

Variable label : string.
Variable resize : Z -> image -> image.
Variable target : Z.
Hypothesis resize_skip :
  forall img, needs_resize target img = false -> resize target img = img.
Hypothesis resize_idem :
  forall img, resize target (resize target img) = resize target img.

(** A resize loop returns, keeps the number of images, and resizes
    exactly the images of its list. *)
Lemma resize_loop_lookup ids : forall imgs,
  exists imgs',
    snd (resize_loop label resize target ids imgs) = Ok imgs' /\
    length imgs' = length imgs /\
    forall j, imgs' !! j
              = if mem j ids then resize target <$> imgs !! j else imgs !! j.
Proof.
  induction ids as [|i rest IH]; intros imgs; cbn [resize_loop].
  - exists imgs. repeat split; reflexivity.
  - destruct (imgs !! i) as [img|] eqn:Hi.
    + destruct (needs_resize target img) eqn:Hn.
      * destruct (IH (<[i := resize target img]> imgs)) as (imgs' & Hok & Hlen & Hlook).
        exists imgs'. rewrite (bind_snd_ok (print _) _ tt eq_refl).
        split; [exact Hok|]. split; [rewrite Hlen; apply length_insert|].
        intros j. rewrite Hlook, mem_cons.
        destruct (Nat.eqb_spec j i) as [->|Hne]; cbn [orb].
        -- rewrite list_lookup_insert_eq by (eapply lookup_lt_Some; eauto).
           rewrite Hi. cbn. rewrite resize_idem. destruct (mem i rest); reflexivity.
        -- rewrite list_lookup_insert_ne by congruence. reflexivity.
      * destruct (IH imgs) as (imgs' & Hok & Hlen & Hlook).
        exists imgs'. split; [exact Hok|]. split; [exact Hlen|].
        intros j. rewrite Hlook, mem_cons.
        destruct (Nat.eqb_spec j i) as [->|Hne]; cbn [orb]; [|reflexivity].
        rewrite Hi. cbn. rewrite (resize_skip img Hn).
        destruct (mem i rest); reflexivity.
    + destruct (IH imgs) as (imgs' & Hok & Hlen & Hlook).
      exists imgs'. split; [exact Hok|]. split; [exact Hlen|].
      intros j. rewrite Hlook, mem_cons.
      destruct (Nat.eqb_spec j i) as [->|Hne]; cbn [orb]; [|reflexivity].
      rewrite Hi. destruct (mem i rest); reflexivity.
Qed.

End Loop.

(** The texture pass on every image, by the lists it stands in. *)
Lemma process_textures_lookup c sc :
  let nm := fst (classify (materials sc)) in
  let rt := snd (classify (materials sc)) in
  let N := effective_normal_map_size c in
  let T := texture_size c in
  exists imgs',
    snd (process_textures c sc) = Ok (set_images imgs' sc) /\
    length imgs' = length (images sc) /\
    forall j img, images sc !! j = Some img ->
      imgs' !! j =
      Some (if mem j nm
            then if mem j rt then resize_texture T (resize_normal_map N img)
                 else resize_normal_map N img
            else resize_texture T img).
Proof.
  intros nm rt N T. unfold process_textures.
  destruct (classify (materials sc)) as [nm' rt'] eqn:Hc. cbn [fst snd] in nm, rt.
  fold N T.
  destruct (resize_loop_lookup "normal map" resize_normal_map N
              (resize_normal_map_skip N) (resize_normal_map_idem N) nm (images sc))
    as (imgs1 & Hok1 & Hlen1 & Hlook1).
  destruct (resize_loop_lookup "texture" resize_texture T
              (resize_texture_skip T) (resize_texture_idem T) rt imgs1)
    as (imgs2 & Hok2 & Hlen2 & Hlook2).
  destruct (resize_loop_lookup "other texture" resize_texture T
              (resize_texture_skip T) (resize_texture_idem T)
              (unprocessed nm rt imgs2) imgs2)
    as (imgs3 & Hok3 & Hlen3 & Hlook3).
  exists imgs3.
  rewrite (bind_snd_ok _ _ _ Hok1), (bind_snd_ok _ _ _ Hok2), (bind_snd_ok _ _ _ Hok3).
  split; [reflexivity|]. split; [congruence|].
  intros j img Hj.
  assert (Hlt : (j < length imgs2)%nat)
    by (rewrite Hlen2, Hlen1; eapply lookup_lt_Some; eauto).
  apply Nat.ltb_lt in Hlt.
  rewrite Hlook3, mem_unprocessed, Hlt, Hlook2, Hlook1, Hj. cbn [andb].
  destruct (mem j nm), (mem j rt); reflexivity.
Qed.

End TextureFacts.

Section Classification.

Import LowPoly.

Lemma filter_nil_existsb {X} (p : X -> bool) (l : list X) :
  List.filter p l = [] <-> existsb p l = false.
Proof.
  induction l as [|x l IH]; cbn; [tauto|].
  destruct (p x); cbn; [split; discriminate|exact IH].
Qed.

(** One node: its image goes to the list of normal maps if one of its
    outputs has a link to a normal-map node, and to the list of regular
    textures if none has. *)
Lemma classify_node_lists n nm rt j :
  (In j (fst (classify_node n (nm, rt))) <->
   In j nm \/ (node_type n = "TEX_IMAGE" /\ node_image n = Some j /\
               feeds_normal_map n = true)) /\
  (In j (snd (classify_node n (nm, rt))) <->
   In j rt \/ (node_type n = "TEX_IMAGE" /\ node_image n = Some j /\
               feeds_normal_map n = false)).
Proof.
  unfold classify_node, feeds_normal_map.
  destruct (node_image n) as [img|];
    [|cbn [fst snd]; split; (split; [auto|intros [H|(_ & H & _)]; [exact H|discriminate H]])].
  destruct (String.eqb_spec (node_type n) "TEX_IMAGE") as [Ht|Ht];
    [|cbn [fst snd]; split; (split; [auto|intros [H|(H & _)]; [exact H|contradiction]])].
  destruct (List.filter links_normal_map (node_outputs n)) as [|hit hits] eqn:Hf.
  - apply filter_nil_existsb in Hf. rewrite Hf. cbn [fst snd]. split.
    + split; [auto|intros [H|(_ & _ & H)]; [exact H|discriminate H]].
    + rewrite in_app_iff. cbn [In]. split.
      * intros [H|[->|[]]]; [left; exact H|right; auto].
      * intros [H|(_ & [= ->] & _)]; [left; exact H|right; left; reflexivity].
  - assert (He : existsb links_normal_map (node_outputs n) = true).
    { destruct (existsb links_normal_map (node_outputs n)) eqn:E; [reflexivity|].
      apply filter_nil_existsb in E. rewrite E in Hf. discriminate Hf. }
    rewrite He. cbn [fst snd]. split.
    + rewrite in_app_iff. split.
      * intros [H|H]; [left; exact H|]. right. apply in_map_iff in H.
        destruct H as (_ & -> & _). auto.
      * intros [H|(_ & [= ->] & _)]; [left; exact H|]. right. left. reflexivity.
    + split; [auto|intros [H|(_ & _ & H)]; [exact H|discriminate H]].
Qed.

Lemma classify_nodes_lists ns : forall nm rt j,
  let acc := fold_left (fun acc n => classify_node n acc) ns (nm, rt) in
  (In j (fst acc) <->
   In j nm \/ exists n, In n ns /\ node_type n = "TEX_IMAGE" /\ node_image n = Some j /\
                        feeds_normal_map n = true) /\
  (In j (snd acc) <->
   In j rt \/ exists n, In n ns /\ node_type n = "TEX_IMAGE" /\ node_image n = Some j /\
                        feeds_normal_map n = false).
Proof.
  induction ns as [|n ns IH]; intros nm rt j; cbn [fold_left].
  - cbn [fst snd]. split; (split; [auto|intros [H|(n & [] & _)]; exact H]).
  - destruct (classify_node n (nm, rt)) as [nm1 rt1] eqn:E.
    pose proof (classify_node_lists n nm rt j) as [H1 H2]. rewrite E in H1, H2.
    cbn [fst snd] in H1, H2.
    specialize (IH nm1 rt1 j). cbv zeta in IH |- *. destruct IH as [I1 I2].
    rewrite I1, I2, H1, H2. cbn [In]. split; split.
    + intros [[H|H]|(n' & Hin & H)]; [left; exact H|right; exists n; auto|].
      right. exists n'. auto.
    + intros [H|(n' & [<-|Hin] & H)]; [left; left; exact H|left; right; exact H|].
      right. exists n'. auto.
    + intros [[H|H]|(n' & Hin & H)]; [left; exact H|right; exists n; auto|].
      right. exists n'. auto.
    + intros [H|(n' & [<-|Hin] & H)]; [left; left; exact H|left; right; exact H|].
      right. exists n'. auto.
Qed.

Lemma classify_from mats : forall nm rt j,
  let acc :=
    fold_left
      (fun acc mat =>
         if use_nodes mat then fold_left (fun acc n => classify_node n acc) (nodes mat) acc
         else acc)
      mats (nm, rt) in
  (In j (fst acc) <->
   In j nm \/ exists n, texture_node mats j n /\ feeds_normal_map n = true) /\
  (In j (snd acc) <->
   In j rt \/ exists n, texture_node mats j n /\ feeds_normal_map n = false).
Proof.
  induction mats as [|mat mats IH]; intros nm rt j; cbn [fold_left].
  - cbn [fst snd]. split;
      (split; [auto|intros [H|(n & (mat & [] & _) & _)]; exact H]).
  - set (acc1 := if use_nodes mat
                 then fold_left (fun acc n => classify_node n acc) (nodes mat) (nm, rt)
                 else (nm, rt)).
    assert (H1 :
      (In j (fst acc1) <->
       In j nm \/ (use_nodes mat = true /\
                   exists n, In n (nodes mat) /\ node_type n = "TEX_IMAGE" /\
                             node_image n = Some j /\ feeds_normal_map n = true)) /\
      (In j (snd acc1) <->
       In j rt \/ (use_nodes mat = true /\
                   exists n, In n (nodes mat) /\ node_type n = "TEX_IMAGE" /\
                             node_image n = Some j /\ feeds_normal_map n = false))).
    { subst acc1. destruct (use_nodes mat).
      - pose proof (classify_nodes_lists (nodes mat) nm rt j) as [A B]. cbv zeta in A, B.
        rewrite A, B. split; (split; [intros [H|H]; auto|intros [H|[_ H]]; auto]).
      - cbn [fst snd]. split; (split; [auto|intros [H|[H _]]; [exact H|discriminate H]]). }
    destruct acc1 as [nm1 rt1]. cbn [fst snd] in H1. destruct H1 as [A B].
    specialize (IH nm1 rt1 j). cbv zeta in IH |- *. destruct IH as [I1 I2].
    rewrite I1, I2, A, B. unfold texture_node. cbn [In]. split; split.
    + intros [[H|(Hu & n & Hin & Ht & Hi & Hf)]|(n & (m & Hm & H) & Hf)].
      * left. exact H.
      * right. exists n. split; [exists mat; auto|exact Hf].
      * right. exists n. split; [exists m; auto|exact Hf].
    + intros [H|(n & (m & [<-|Hm] & Hu & Hin & Ht & Hi) & Hf)].
      * left. left. exact H.
      * left. right. split; [exact Hu|]. exists n. auto.
      * right. exists n. split; [exists m; auto|exact Hf].
    + intros [[H|(Hu & n & Hin & Ht & Hi & Hf)]|(n & (m & Hm & H) & Hf)].
      * left. exact H.
      * right. exists n. split; [exists mat; auto|exact Hf].
      * right. exists n. split; [exists m; auto|exact Hf].
    + intros [H|(n & (m & [<-|Hm] & Hu & Hin & Ht & Hi) & Hf)].
      * left. left. exact H.
      * left. right. split; [exact Hu|]. exists n. auto.
      * right. exists n. split; [exists m; auto|exact Hf].
Qed.

(** The two lists of the first pass: an image is in the list of normal
    maps when an image-texture node that uses it has a link to a
    normal-map node, and in the list of regular textures when an
    image-texture node that uses it has none. *)
Lemma classify_lists mats j :
  (In j (fst (classify mats)) <->
   exists n, texture_node mats j n /\ feeds_normal_map n = true) /\
  (In j (snd (classify mats)) <->
   exists n, texture_node mats j n /\ feeds_normal_map n = false).
Proof.
  pose proof (classify_from mats [] [] j) as [A B]. cbv zeta in A, B.
  unfold classify. rewrite A, B. cbn [In]. split; (split; [intros [[]|H]; exact H|auto]).
Qed.

End Classification.

Section TextureClaims.

Import LowPoly.


End TextureClaims.



Section RemoveClaims.

Import LowPoly.

Variable py_int : string -> option Z.
Variable py_float : string -> option float.

Local Abbreviation parse_args := (LowPoly.parse_args py_int py_float).

(** Giving one material to the meshes of a list. *)
Lemma assign_material_lookup mat meshes : forall objs i,
  assign_material mat meshes objs !! i
  = if mem i meshes then set_slots [mat] <$> objs !! i else objs !! i.
Proof.
  unfold assign_material.
  induction meshes as [|m ms IH]; intros objs i; cbn [fold_left].
  - reflexivity.
  - rewrite IH, mem_cons. destruct (Nat.eqb_spec i m) as [->|Hne]; cbn [orb].
    + rewrite list_lookup_alter_eq. destruct (objs !! m) as [o|]; cbn;
        destruct (mem m ms); reflexivity.
    + rewrite list_lookup_alter_ne by congruence. reflexivity.
Qed.

Lemma assign_material_length mat meshes : forall objs,
  length (assign_material mat meshes objs) = length objs.
Proof.
  unfold assign_material.
  induction meshes as [|m ms IH]; intros objs; cbn [fold_left]; [reflexivity|].
  rewrite IH. apply length_alter.
Qed.

Lemma is_mesh_not_armature o : is_mesh o = true -> is_armature o = false.
Proof.
  unfold is_mesh, is_armature. intros H. apply String.eqb_eq in H. rewrite H.
  reflexivity.
Qed.

(** The meshes found are the mesh objects of the scene. *)
Lemma find_meshes_from_mem objs : forall k i o,
  objs !! i = Some o -> is_mesh o = true ->
  mem (k + i)%nat (find_meshes_from k objs) = true.
Proof.
  induction objs as [|o' objs IH]; intros k i o Hi Hm; [discriminate|].
  cbn [find_meshes_from]. destruct i as [|i].
  - injection Hi as ->. rewrite (is_mesh_not_armature o Hm), Hm.
    rewrite Nat.add_0_r, mem_cons, Nat.eqb_refl. reflexivity.
  - cbn in Hi. pose proof (IH (k + 1)%nat i o Hi Hm) as H.
    replace (k + 1 + i)%nat with (k + S i)%nat in H by lia.
    destruct (is_armature o'); [exact H|].
    destruct (is_mesh o'); [|exact H].
    rewrite mem_cons, H. apply orb_true_r.
Qed.

Lemma find_meshes_from_mesh objs : forall k i,
  mem i (find_meshes_from k objs) = true ->
  exists o, objs !! (i - k)%nat = Some o /\ is_mesh o = true /\ (k <= i)%nat.
Proof.
  induction objs as [|o' objs IH]; intros k i H; [discriminate|].
  cbn [find_meshes_from] in H.
  assert (Hrest : mem i (find_meshes_from (k + 1) objs) = true ->
                  exists o, (o' :: objs) !! (i - k)%nat = Some o /\
                            is_mesh o = true /\ (k <= i)%nat).
  { intros Hr. destruct (IH _ _ Hr) as (o & Ho & Hm & Hle). exists o.
    replace (i - k)%nat with (S (i - (k + 1)))%nat by lia.
    repeat split; [exact Ho|exact Hm|lia]. }
  destruct (is_armature o'); [auto|].
  destruct (is_mesh o') eqn:Hm; [|auto].
  rewrite mem_cons in H. apply orb_true_iff in H. destruct H as [H|H]; [|auto].
  apply Nat.eqb_eq in H. subst i. exists o'. rewrite Nat.sub_diag.
  repeat split; [exact Hm|lia].
Qed.


End RemoveClaims.



(** ** The generated scene *)

Section JsonReader.

Import LodScene Json.

Lemma read_digits_skip s : snd (read_digits s) = skip_digits s.
Proof.
  induction s as [|c s IH]; [reflexivity|]. cbn [read_digits skip_digits].
  destruct (is_digit c); [|reflexivity].
  destruct (read_digits s) as [d rest]. exact IH.
Qed.

Lemma read_digits1_digits1 s t rest :
  read_digits1 s = Some (t, rest) -> digits1 s = Some rest.
Proof.
  unfold read_digits1, digits1. destruct s as [|c s]; [discriminate|].
  destruct (is_digit c); [|discriminate].
  pose proof (read_digits_skip s) as H. destruct (read_digits s) as [d r].
  cbn [snd] in H. intros [= _ <-]. rewrite H. reflexivity.
Qed.

Lemma after_Some text r t rest :
  after text r = Some (t, rest) -> exists t', r = Some (t', rest).
Proof. destruct r as [[t' rest']|]; [|discriminate]. intros [= _ <-]. eauto. Qed.

Lemma read_number_number s t rest :
  read_number s = Some (t, rest) -> number s = Some rest.
Proof.
  unfold read_number, number.
  set (s1 := match s with String "-" s' => s' | _ => s end).
  assert (E1 : (let '(minus, s) := match s with
                                    | String "-" s' => ("-", s')
                                    | _ => (EmptyString, s)
                                    end in s) = s1).
  { subst s1. destruct s as [|c s']; [reflexivity|].
    destruct c as [[] [] [] [] [] [] [] []]; reflexivity. }
  destruct (match s with String "-" s' => ("-", s') | _ => (EmptyString, s) end)
    as [minus s1'] eqn:Es. cbn beta iota in E1. subst s1'.
  set (int := match s1 with String "0" s' => Some ("0", s') | _ => read_digits1 s1 end).
  set (after_int := match s1 with String "0" s' => Some s' | _ => digits1 s1 end).
  assert (E2 : forall i r, int = Some (i, r) -> after_int = Some r).
  { subst int after_int. intros i r. destruct s1 as [|c s']; [discriminate|].
    destruct c as [[] [] [] [] [] [] [] []];
      try (intros [= _ <-]; reflexivity); apply read_digits1_digits1. }
  destruct int as [[i s2]|]; [|discriminate]. rewrite (E2 i s2 eq_refl).
  set (frac := match s2 with
               | String "." s' => after "." (read_digits1 s')
               | _ => Some (EmptyString, s2)
               end).
  set (after_frac := match s2 with String "." s' => digits1 s' | _ => Some s2 end).
  assert (E3 : forall f r, frac = Some (f, r) -> after_frac = Some r).
  { subst frac after_frac. intros f r. destruct s2 as [|c s']; [intros [= _ <-]; reflexivity|].
    destruct c as [[] [] [] [] [] [] [] []];
      try (intros [= _ <-]; reflexivity).
    intros H. apply after_Some in H. destruct H as [t' H].
    apply (read_digits1_digits1 _ _ _ H). }
  destruct frac as [[f s3]|]; [|discriminate]. rewrite (E3 f s3 eq_refl).
  destruct s3 as [|c s']; [intros [= _ <-]; reflexivity|].
  destruct (Ascii.eqb c "e" || Ascii.eqb c "E"); [|intros [= _ <-]; reflexivity].
  destruct s' as [|sign s'']; [discriminate|].
  destruct (Ascii.eqb sign "+" || Ascii.eqb sign "-");
    intros H; apply after_Some in H; destruct H as [t' H];
    apply (read_digits1_digits1 _ _ _ H).
Qed.

Lemma unescape_simple e ch :
  unescape e = Some ch ->
  existsb (Ascii.eqb e) [quote; backslash; "/"; "b"; "f"; "n"; "r"; "t"]%char = true.
Proof.
  unfold unescape. cbn [existsb].
  repeat (destruct (Ascii.eqb e _); [intros _; rewrite ?orb_true_r; reflexivity|]).
  discriminate.
Qed.

Lemma hex_value_is_hex c n : hex_value c = Some n -> is_hex c = true.
Proof.
  unfold hex_value, is_hex. cbv zeta. destruct (is_digit c); [reflexivity|].
  cbn [orb]. destruct (_ && _); [reflexivity|]. cbn [orb].
  destruct (_ && _); [reflexivity|discriminate].
Qed.

Lemma unescape_u_hex h1 h2 h3 h4 ch :
  unescape_u h1 h2 h3 h4 = Some ch ->
  is_hex h1 && is_hex h2 && is_hex h3 && is_hex h4 = true.
Proof.
  unfold unescape_u.
  destruct (hex_value h1) as [a|] eqn:E1; [|discriminate].
  destruct (hex_value h2) as [b|] eqn:E2; [|discriminate].
  destruct (hex_value h3) as [c|] eqn:E3; [|discriminate].
  destruct (hex_value h4) as [d|] eqn:E4; [|discriminate]. intros _.
  rewrite (hex_value_is_hex _ _ E1), (hex_value_is_hex _ _ E2),
    (hex_value_is_hex _ _ E3), (hex_value_is_hex _ _ E4). reflexivity.
Qed.

Lemma with_char_Some c r t rest :
  with_char c r = Some (t, rest) -> exists t', r = Some (t', rest).
Proof. destruct r as [[t' rest']|]; [|discriminate]. intros [= _ <-]. eauto. Qed.

Lemma read_string_body_string_body n : forall s t rest,
  (String.length s <= n)%nat ->
  read_string_body s = Some (t, rest) -> string_body s = Some rest.
Proof.
  induction n as [|n IH]; intros s t rest Hlen.
  - destruct s; [discriminate|cbn in Hlen; lia].
  - destruct s as [|c s']; [discriminate|]. cbn [String.length] in Hlen.
    cbn [read_string_body string_body].
    destruct (Ascii.eqb c quote); [intros [= _ <-]; reflexivity|].
    destruct (Ascii.eqb c backslash).
    + destruct s' as [|e s'']; [discriminate|]. cbn [String.length] in Hlen.
      destruct (unescape e) as [ch|] eqn:Eu.
      * rewrite (unescape_simple e ch Eu). intros H. apply with_char_Some in H.
        destruct H as [t' H]. apply (IH s'' t' rest); [lia|exact H].
      * destruct (Ascii.eqb_spec e "u") as [->|Hne]; [|discriminate].
        change (existsb (Ascii.eqb "u")
                  [quote; backslash; "/"; "b"; "f"; "n"; "r"; "t"]%char) with false.
        cbv iota.
        destruct s'' as [|h1 [|h2 [|h3 [|h4 r]]]]; try discriminate.
        destruct (unescape_u h1 h2 h3 h4) as [ch|] eqn:Eh; [|discriminate].
        rewrite (unescape_u_hex _ _ _ _ _ Eh). intros H. apply with_char_Some in H.
        destruct H as [t' H]. apply (IH r t' rest); [cbn [String.length] in Hlen; lia|exact H].
    + destruct (N_of_ascii c <? 32)%N; [discriminate|].
      intros H. apply with_char_Some in H. destruct H as [t' H].
      apply (IH s' t' rest); [lia|exact H].
Qed.

Lemma read_string_body_agrees s t rest :
  read_string_body s = Some (t, rest) -> string_body s = Some rest.
Proof. apply (read_string_body_string_body (String.length s)). lia. Qed.

(** The reader accepts only what the recogniser accepts, and leaves
    the same text behind. *)
Lemma read_agrees fuel :
  (forall s v rest, read_value fuel s = Some (v, rest) -> value fuel s = Some rest) /\
  (forall s ms rest, read_members fuel s = Some (ms, rest) -> members fuel s = Some rest) /\
  (forall s vs rest, read_elements fuel s = Some (vs, rest) -> elements fuel s = Some rest).
Proof.
  induction fuel as [|fuel (IHv & IHm & IHe)];
    [repeat split; intros; discriminate|].
  split; [|split].
  - intros s v rest. cbn [read_value value].
    destruct s as [|c s']; [discriminate|].
    destruct c as [[] [] [] [] [] [] [] []];
      first
        [ solve [ change (Ascii.eqb _ quote) with false; cbv iota;
                  destruct (read_number _) as [[t r]|] eqn:E; [|discriminate];
                  intros [= _ <-]; apply (read_number_number _ _ _ E) ]
        | solve [ change (Ascii.eqb _ quote) with true; cbv iota;
                  destruct (read_string_body s') as [[t r]|] eqn:E; [|discriminate];
                  intros [= _ <-]; apply (read_string_body_agrees _ _ _ E) ]
        | solve [ destruct (literal _ _) as [r|]; [|discriminate];
                  intros [= _ <-]; reflexivity ]
        | idtac ].
    all: destruct (skip_ws s') as [|c2 s2] eqn:Ews;
      [|destruct c2 as [[] [] [] [] [] [] [] []]];
      first
        [ solve [ destruct (read_members fuel _) as [[ms r]|] eqn:E; [|discriminate];
                  intros [= _ <-]; apply (IHm _ _ _ E) ]
        | solve [ destruct (read_elements fuel _) as [[vs r]|] eqn:E; [|discriminate];
                  intros [= _ <-]; apply (IHe _ _ _ E) ]
        | solve [ intros [= _ <-]; reflexivity ] ].
  - intros s ms rest. cbn [read_members members].
    destruct s as [|c s']; [discriminate|].
    destruct (Ascii.eqb c quote); [|discriminate].
    destruct (read_string_body s') as [[k s1]|] eqn:Ek; [|discriminate].
    rewrite (read_string_body_agrees _ _ _ Ek).
    destruct (skip_ws s1) as [|c1 s2]; [discriminate|].
    destruct c1 as [[] [] [] [] [] [] [] []]; try discriminate.
    destruct (read_value fuel (skip_ws s2)) as [[v s3]|] eqn:Ev; [|discriminate].
    rewrite (IHv _ _ _ Ev).
    destruct (skip_ws s3) as [|c3 s4]; [discriminate|].
    destruct c3 as [[] [] [] [] [] [] [] []]; try discriminate;
      first
        [ solve [ destruct (read_members fuel (skip_ws s4)) as [[ms' r]|] eqn:Em;
                  [|discriminate]; intros [= _ <-]; apply (IHm _ _ _ Em) ]
        | solve [ intros [= _ <-]; reflexivity ] ].
  - intros s vs rest. cbn [read_elements elements].
    destruct (read_value fuel s) as [[v s1]|] eqn:Ev; [|discriminate].
    rewrite (IHv _ _ _ Ev).
    destruct (skip_ws s1) as [|c1 s2]; [discriminate|].
    destruct c1 as [[] [] [] [] [] [] [] []]; try discriminate;
      first
        [ solve [ destruct (read_elements fuel (skip_ws s2)) as [[vs' r]|] eqn:Ee;
                  [|discriminate]; intros [= _ <-]; apply (IHe _ _ _ Ee) ]
        | solve [ intros [= _ <-]; reflexivity ] ].
Qed.

(** A document that the reader reads is JSON text. *)
Lemma read_json_text depth s doc : read depth s = Some doc -> json_text depth s = true.
Proof.
  unfold read, json_text.
  destruct (read_value depth (skip_ws s)) as [[v rest]|] eqn:E; [|discriminate].
  rewrite (proj1 (read_agrees depth) _ _ _ E).
  destruct (skip_ws rest =? "")%string; [reflexivity|discriminate].
Qed.

Lemma fmap_pair_Some {X Y Z'} (f : X -> Y) (g : X -> Z') (o : option X) (a : Y) (b : Z') :
  (fun x => (f x, g x)) <$> o = Some (a, b) ->
  exists x, o = Some x /\ f x = a /\ g x = b.
Proof. destruct o as [x|]; [|discriminate]. intros [= <- <-]. exists x. auto. Qed.

End JsonReader.

Section SceneFacts.

Import LodScene.

(** Induction on a value, with the property for the items of a list and
    the values of a dictionary. *)
Lemma pyval_nested_ind (P : pyval -> Prop) :
  P PNone -> (forall n, P (PInt n)) -> (forall x, P (PFloat x)) ->
  (forall s, P (PStr s)) ->
  (forall items, Forall P items -> P (PList items)) ->
  (forall fields, Forall (fun kv => P (snd kv)) fields -> P (PDict fields)) ->
  forall v, P v.
Proof.
  intros HNone HInt HFloat HStr HList HDict.
  fix IH 1. intros [ | n | x | s | items | fields ].
  - exact HNone.
  - apply HInt.
  - apply HFloat.
  - apply HStr.
  - apply HList. induction items as [|v items IHitems]; constructor; [apply IH|exact IHitems].
  - apply HDict. induction fields as [|[k v] fields IHfields]; constructor;
      [apply IH|exact IHfields].
Qed.

Lemma append_assoc (a b c : string) : ((a ++ b) ++ c = a ++ (b ++ c))%string.
Proof. induction a as [|x a IH]; [reflexivity|]. cbn. rewrite IH. reflexivity. Qed.

Lemma append_nil_r (a : string) : (a ++ "")%string = a.
Proof. induction a as [|x a IH]; [reflexivity|]. cbn. rewrite IH. reflexivity. Qed.

Lemma escape_to_spec s rest : escape_to s rest = (escape s ++ rest)%string.
Proof.
  induction s as [|c s IH]; [reflexivity|]. cbn [escape_to escape].
  rewrite IH, append_assoc. reflexivity.
Qed.

Lemma encode_string_to_spec s rest :
  encode_string_to s rest = (encode_string s ++ rest)%string.
Proof.
  unfold encode_string_to, encode_string. rewrite escape_to_spec. cbn.
  rewrite append_assoc. reflexivity.
Qed.

Lemma spaces_to_spec n rest : spaces_to n rest = (spaces n ++ rest)%string.
Proof. induction n as [|n IH]; [reflexivity|]. cbn. rewrite IH. reflexivity. Qed.

Lemma newline_indent_to_spec level rest :
  newline_indent_to level rest = (newline_indent level ++ rest)%string.
Proof. unfold newline_indent_to, newline_indent. rewrite spaces_to_spec. reflexivity. Qed.

(** Joining the parts after the first, each behind a separator. *)
Lemma join_cons sep first others :
  join sep (first :: others)
  = (first ++ fold_right (fun part acc => sep ++ part ++ acc) "" others)%string.
Proof.
  revert first. induction others as [|p others IH]; intros first.
  - cbn. rewrite append_nil_r. reflexivity.
  - change (join sep (first :: p :: others))
      with (first ++ sep ++ join sep (p :: others))%string.
    rewrite IH. reflexivity.
Qed.

(** The text written from its end is the text of [dumps] in front of
    the rest. *)
Lemma dumps_to_spec v : forall level rest,
  dumps_to level v rest = (dumps level v ++ rest)%string.
Proof.
  induction v as [ | n | x | s | items IH | fields IH ] using pyval_nested_ind;
    intros level rest; try reflexivity.
  - apply encode_string_to_spec.
  - destruct items as [|first others]; [reflexivity|].
    cbn [dumps_to dumps]. inversion IH as [|? ? Hfirst Hothers]; subst.
    change (map (dumps (level + 1)) (first :: others))
      with (dumps (level + 1) first :: map (dumps (level + 1)) others).
    rewrite join_cons, newline_indent_to_spec, Hfirst.
    cbn [append]. f_equal. rewrite !append_assoc. f_equal. f_equal.
    clear Hfirst IH. induction others as [|item others IHo].
    + cbn [fold_right map]. rewrite newline_indent_to_spec. reflexivity.
    + inversion Hothers as [|? ? Hitem Hrest]; subst.
      cbn [fold_right map]. rewrite newline_indent_to_spec, Hitem, (IHo Hrest).
      cbn [append]. f_equal. rewrite !append_assoc. reflexivity.
  - destruct fields as [|[k w] others]; [reflexivity|].
    cbn [dumps_to dumps]. inversion IH as [|? ? Hfirst Hothers]; subst.
    cbn [snd] in Hfirst.
    change (map ?f ((k, w) :: others)) with (f (k, w) :: map f others).
    cbn beta iota.
    rewrite join_cons, newline_indent_to_spec, encode_string_to_spec, Hfirst.
    cbn [append]. f_equal. rewrite !append_assoc. f_equal. f_equal. cbn [append].
    f_equal. f_equal. f_equal.
    clear Hfirst IH. induction others as [|[k' w'] others IHo].
    + cbn [fold_right map]. rewrite newline_indent_to_spec. reflexivity.
    + inversion Hothers as [|? ? Hitem Hrest]; subst. cbn [snd] in Hitem.
      cbn [fold_right map]. rewrite newline_indent_to_spec, encode_string_to_spec,
        Hitem, (IHo Hrest).
      cbn [append]. f_equal. rewrite !append_assoc. cbn [append]. reflexivity.
Qed.

Lemma dumps_to_nil v : dumps_to 0 v "" = dumps 0 v.
Proof. rewrite dumps_to_spec. apply append_nil_r. Qed.

Lemma entity_id_grid_entity x z n : entity_id (grid_entity x z n) = Some n.
Proof. reflexivity. Qed.

(** The inner loop appends entities with consecutive identifiers and
    never counts past 1001. *)
Lemma inner_loop_ids x zs : forall n es,
  let st := inner_loop x zs (n, es) in
  n <= fst st /\ (n <= 1001 -> fst st <= 1001) /\
  map entity_id (snd st) = map entity_id es ++ map Some (seqZ n (fst st - n)).
Proof.
  induction zs as [|z zs IH]; intros n es; cbn [inner_loop].
  - cbn. rewrite Z.sub_diag, app_nil_r. repeat split; lia.
  - destruct (Z.gtb_spec n 1000) as [Hgt|Hle].
    + cbn. rewrite Z.sub_diag, app_nil_r. repeat split; lia.
    + specialize (IH (n + 1) (es ++ [grid_entity x z n])). cbv zeta in IH |- *.
      destruct IH as (Hmono & Hbound & Hids).
      split; [lia|]. split; [intros _; apply Hbound; lia|].
      rewrite Hids, map_app. cbn [map]. rewrite entity_id_grid_entity.
      rewrite <- app_assoc. f_equal. cbn [app].
      rewrite (seqZ_cons n) by lia. cbn [map].
      f_equal. f_equal. f_equal; lia.
Qed.

Lemma outer_loop_ids xs : forall n es,
  let st := outer_loop xs (n, es) in
  n <= fst st /\ (n <= 1001 -> fst st <= 1001) /\
  map entity_id (snd st) = map entity_id es ++ map Some (seqZ n (fst st - n)).
Proof.
  induction xs as [|x xs IH]; intros n es; cbn [outer_loop].
  - cbn. rewrite Z.sub_diag, app_nil_r. repeat split; lia.
  - pose proof (inner_loop_ids x (range grid_size) n es) as Hin. cbn zeta in Hin.
    destruct (inner_loop x (range grid_size) (n, es)) as [n1 es1].
    cbn [fst snd] in Hin |- *. destruct Hin as (Hmono & Hbound & Hids).
    destruct (Z.gtb_spec n1 1000) as [Hgt|Hle].
    + cbn [fst snd]. repeat split; assumption.
    + specialize (IH n1 es1). cbn zeta in IH. destruct IH as (Hmono' & Hbound' & Hids').
      split; [lia|]. split; [intros ?; apply Hbound'; lia|].
      rewrite Hids', Hids, <- app_assoc, <- map_app. f_equal. f_equal.
      replace (fst (outer_loop xs (n1, es1)) - n)
        with ((n1 - n) + (fst (outer_loop xs (n1, es1)) - n1)) by lia.
      rewrite seqZ_app by lia. f_equal. f_equal. lia.
Qed.

Lemma map_cons_inv {X Y} (f : X -> Y) (a : X) (l : list X) (r : list Y) :
  map f (a :: l) = map f [a] ++ r -> map f l = r.
Proof. cbn. intros H. injection H as H. exact H. Qed.

Lemma NoDup_map_Some {X} (l : list X) : NoDup l -> NoDup (map Some l).
Proof.
  induction 1 as [|x l Hx Hl IH]; cbn; constructor; [|exact IH].
  rewrite list_elem_of_In, in_map_iff. intros (y & [= ->] & Hy).
  apply Hx, list_elem_of_In, Hy.
Qed.


End SceneFacts.

(** * Further properties *)

(** ** More on the argument handling of convert-low-poly.py *)

Section ParseMore.

Import LowPoly.

Variable py_int : string -> option Z.
Variable py_float : string -> option float.

Local Abbreviation parse_args := (LowPoly.parse_args py_int py_float).

(** The argument handling returns a configuration only with both
    positional arguments and an accepted [--ratio], and then the
    configuration is the one of [parsed]. *)
Lemma parse_args_returns args c :
  snd (parse_args args) = Ok c ->
  exists inp out,
    args !! 0%nat = Some inp /\ args !! 1%nat = Some out /\
    ratio_accepted py_float args = true /\
    c = parsed py_int py_float args inp out.
Proof.
  intros H.
  destruct (args !! 0%nat) as [inp|] eqn:H0; cycle 1.
  { exfalso. unfold LowPoly.parse_args in H.
    rewrite (bind_snd_stopped _ _ (Uncaught "IndexError")) in H; [discriminate|].
    apply defaults_stops. apply lookup_ge_None in H0. lia. }
  destruct (args !! 1%nat) as [out|] eqn:H1; cycle 1.
  { exfalso. unfold LowPoly.parse_args in H.
    rewrite (bind_snd_stopped _ _ (Uncaught "IndexError")) in H; [discriminate|].
    apply defaults_stops. apply lookup_ge_None in H1. lia. }
  exists inp, out. split; [reflexivity|]. split; [reflexivity|].
  destruct (ratio_accepted py_float args) eqn:Hr.
  - split; [reflexivity|].
    rewrite (parse_args_ok py_int py_float args inp out H0 H1 Hr) in H. congruence.
  - exfalso. unfold ratio_accepted in Hr.
    destruct (flag_token "--ratio" args) as [tok|] eqn:Htok; [|discriminate].
    apply bool_decide_eq_false in Hr.
    assert (Hf : py_float tok = None).
    { destruct (py_float tok) eqn:E; [|reflexivity]. exfalso. apply Hr. eauto. }
    destruct (parse_args_ratio_stops py_int py_float args inp out tok H0 H1 Htok Hf)
      as [Hs _].
    rewrite Hs in H. discriminate.
Qed.

(** The texture format after the [--webp] settings and the preset. *)
Lemma staged_texture_format args inp out :
  let f := texture_format (staged py_int args inp out) in
  f = "PNG" \/ f = "JPEG".
Proof.
  unfold staged, quality_net, webp_net, quality_preset, initial_config.
  cbn [use_webp_flag].
  destruct (preset_level py_int args) as [q|], (Py.contains "--webp" args);
    repeat match goal with
           | |- context [if ?b then _ else _] => destruct b
           end;
    cbn; auto.
Qed.

(** The texture quality after the [--webp] settings and the preset. *)
Lemma staged_texture_quality args inp out :
  In (texture_quality (staged py_int args inp out)) [90; 30; 75; 85].
Proof.
  unfold staged, quality_net, webp_net, quality_preset, initial_config.
  cbn [use_webp_flag].
  destruct (preset_level py_int args) as [q|], (Py.contains "--webp" args);
    repeat match goal with
           | |- context [if ?b then _ else _] => destruct b
           end;
    cbn; auto.
Qed.

Lemma clamp_quality_range v : 0 <= clamp_quality v <= 100.
Proof.
  unfold clamp_quality.
  destruct (Z.ltb_spec v 0); [lia|]. destruct (Z.gtb_spec v 100); lia.
Qed.

(** The texture format that the argument handling ends with. *)
Lemma parsed_texture_format args inp out :
  let f := texture_format (parsed py_int py_float args inp out) in
  f = "PNG" \/ f = "JPEG".
Proof.
  cbn zeta. rewrite parsed_fields. cbn [texture_format].
  destruct (explicit_texture_format args) as [f|] eqn:E; cbn [default];
    [|apply staged_texture_format].
  unfold explicit_texture_format in E.
  destruct (flag_token "--texture-format" args) as [tok|]; [|discriminate].
  unfold mbind, option_bind in E.
  destruct (Py.contains (Py.upper tok) ["PNG"; "JPEG"]) eqn:Hc; [|discriminate].
  injection E as <-.
  apply contains_In in Hc. destruct Hc as [Hc|[Hc|[]]]; auto.
Qed.

(** X1: whatever the arguments are, a configuration that the argument
    handling returns has the texture format [PNG] or [JPEG]: the token
    of [--texture-format] is taken in upper case and any other word is
    refused with a message, and the presets and [--webp] set one of the
    two. *)
Theorem texture_format_png_or_jpeg args c :
  snd (parse_args args) = Ok c ->
  (texture_format c = "PNG" \/ texture_format c = "JPEG") /\
  forall tok,
    flag_token "--texture-format" args = Some tok ->
    Py.contains (Py.upper tok) ["PNG"; "JPEG"] = false ->
    In (Printed [Str "Invalid texture format: "; Str tok; Str ", using ";
                 Str (texture_format c)])
       (events (parse_args args)).
Proof.
  intros H. destruct (parse_args_returns args c H) as (inp & out & H0 & H1 & Hr & ->).
  split; [apply parsed_texture_format|].
  intros tok Htok Hbad.
  apply (parse_args_events py_int py_float args inp out H0 H1 Hr).
  do 3 right. left.
  unfold parse_texture_format. rewrite Htok, Hbad.
  assert (Hsame : texture_format (parsed py_int py_float args inp out)
                  = texture_format (after_normal_map_size py_int py_float args inp out)).
  { rewrite parsed_fields. cbn [texture_format].
    unfold explicit_texture_format. rewrite Htok. unfold mbind, option_bind.
    rewrite Hbad. cbn [default].
    unfold after_normal_map_size, after_texture_size, after_ratio,
      normal_map_size_net, texture_size_net, ratio_net.
    destruct (explicit_normal_map_size py_int args), (explicit_texture_size py_int args),
      (explicit_ratio py_float args); reflexivity. }
  rewrite Hsame. left. reflexivity.
Qed.

(** X2: whatever the arguments are, the texture quality of a returned
    configuration lies in [0, 100]: the default, the [--webp] setting
    and the presets are in that range, and an explicit value is clamped
    to it. *)
Theorem texture_quality_in_range args c :
  snd (parse_args args) = Ok c -> 0 <= texture_quality c <= 100.
Proof.
  intros H. destruct (parse_args_returns args c H) as (inp & out & _ & _ & _ & ->).
  rewrite parsed_fields. cbn [texture_quality].
  unfold explicit_texture_quality.
  destruct (flag_token "--texture-quality" args ≫= py_int) as [v|]; cbn.
  - apply clamp_quality_range.
  - pose proof (staged_texture_quality args inp out) as Hq. cbn [In] in Hq.
    destruct Hq as [<-|[<-|[<-|[<-|[]]]]]; lia.
Qed.

End ParseMore.

(** X1 on a run that asks for the format [webp]: the word is refused
    and the format stays [PNG]. *)
Lemma texture_format_png_or_jpeg_witness :
  let args := ["in.glb"; "out.glb"; "--glb"; "--texture-format"; "webp"] in
  exists c,
    snd (Sample.low_poly_args args) = Ok c /\
    (LowPoly.texture_format c = "PNG" \/ LowPoly.texture_format c = "JPEG") /\
    In (Printed [Str "Invalid texture format: "; Str "webp"; Str ", using "; Str "PNG"])
       (events (Sample.low_poly_args args)).
Proof.
  cbn zeta.
  set (args := ["in.glb"; "out.glb"; "--glb"; "--texture-format"; "webp"]).
  set (c := parsed Py.int_ascii Py.float_decimal args "in.glb" "out.glb").
  assert (Hc : snd (LowPoly.parse_args Py.int_ascii Py.float_decimal args) = Ok c)
    by (apply parse_args_ok; reflexivity).
  destruct (texture_format_png_or_jpeg Py.int_ascii Py.float_decimal args c Hc)
    as [Hfmt Hmsg].
  exists c. split; [exact Hc|]. split; [exact Hfmt|].
  apply (Hmsg "webp"); reflexivity.
Defined.

(** X2 on a run that asks for the quality 250. *)
Lemma texture_quality_in_range_witness :
  let args := ["in.glb"; "out.glb"; "--glb"; "--texture-quality"; "250"] in
  exists c,
    snd (Sample.low_poly_args args) = Ok c /\
    0 <= LowPoly.texture_quality c <= 100.
Proof.
  cbn zeta. eexists. split; [vm_compute; reflexivity|].
  apply (texture_quality_in_range Py.int_ascii Py.float_decimal
           ["in.glb"; "out.glb"; "--glb"; "--texture-quality"; "250"]).
  vm_compute. reflexivity.
Defined.

Section ParseMore2.

Import LowPoly.

Variable py_int : string -> option Z.
Variable py_float : string -> option float.

Local Abbreviation parse_args := (LowPoly.parse_args py_int py_float).

Lemma flag_token_absent flag args :
  Py.contains flag args = false -> flag_token flag args = None.
Proof. unfold flag_token. intros ->. reflexivity. Qed.

(** X3: with the two paths and none of the options, the configuration
    is the default one (ratio 0.15, textures and normal maps at 512
    pixels, [PNG], quality 90, origin fix on, textures neither removed
    nor kept, FBX output to the path as given), and the run reports
    exactly these settings. *)
Theorem defaults_without_options inp out rest :
  no_options (inp :: out :: rest) = true ->
  parse_args (inp :: out :: rest) =
  ([ Printed [Str "[INFO] Input: "; Str inp];
     Printed [Str "[INFO] Output: "; Str out];
     Printed [Str "[INFO] Decimation ratio: "; Flt 0.15];
     Printed [Str "[INFO] Texture size: "; Int 512; Str "px"];
     Printed [Str "[INFO] Normal map size: "; Int 512; Str "px"];
     Printed [Str "[INFO] Texture format: "; Str "PNG"];
     Printed [Str "[INFO] Fix origin: "; Flag true] ],
   Ok {| input_path := inp; output_path := out; proceed_with_glb := false;
         ratio := 0.15; texture_size := 512; normal_map_size := Some 512;
         remove_textures := false; fix_origin := true;
         keep_original_textures := false;
         texture_format := "PNG"; texture_quality := 90;
         use_webp_flag := false; apply_texture_path := None |}).
Proof.
  intros H. unfold no_options, option_names in H. cbn [forallb] in H.
  repeat (apply andb_prop in H; destruct H as [?%negb_true_iff H]).
  unfold LowPoly.parse_args, defaults, webp_settings, LowPoly.parse_quality,
    LowPoly.parse_ratio, LowPoly.parse_texture_size, LowPoly.parse_normal_map_size,
    parse_texture_format, LowPoly.parse_texture_quality, parse_switches,
    parse_apply_texture.
  repeat match goal with
         | E : Py.contains ?f _ = false |- _ =>
             rewrite ?(flag_token_absent f _ E); rewrite ?E; clear E
         end.
  reflexivity.
Qed.

(** X4: a level given with [--quality] that is none of 1 to 5 is
    announced like a preset and changes nothing: ratio, texture size,
    format and quality are the explicit values or else those in force
    before the preset, and textures are kept only if
    [--keep-original-textures] asks for it. *)
Theorem preset_out_of_range_changes_nothing args inp out q :
  args !! 0%nat = Some inp -> args !! 1%nat = Some out ->
  ratio_accepted py_float args = true ->
  preset_level py_int args = Some q -> ~ 1 <= q <= 5 ->
  exists c,
    snd (parse_args args) = Ok c /\
    In (Printed [Str "[INFO] Using quality preset "; Int q]) (events (parse_args args)) /\
    ratio c = default 0.15%float (explicit_ratio py_float args) /\
    texture_size c = default (initial_texture_size args) (explicit_texture_size py_int args) /\
    texture_format c
    = default (initial_texture_format args) (explicit_texture_format args) /\
    texture_quality c
    = default (initial_texture_quality args) (explicit_texture_quality py_int args) /\
    keep_original_textures c = Py.contains "--keep-original-textures" args.
Proof.
  intros H0 H1 Hr Hq Hrange.
  exists (parsed py_int py_float args inp out).
  split; [apply parse_args_ok; assumption|].
  split.
  { apply (parse_args_events py_int py_float args inp out H0 H1 Hr). left.
    unfold LowPoly.parse_quality. unfold preset_level in Hq.
    destruct (flag_token "--quality" args) as [tok|]; [|discriminate].
    cbn in Hq. rewrite Hq. left. reflexivity. }
  assert (Hst : staged py_int args inp out = webp_net (initial_config args inp out)).
  { unfold staged, quality_net. rewrite Hq. unfold quality_preset.
    destruct (Z.eqb_spec q 1); [lia|]. destruct (Z.eqb_spec q 2); [lia|].
    destruct (Z.eqb_spec q 3); [lia|]. destruct (Z.eqb_spec q 4); [lia|].
    destruct (Z.eqb_spec q 5); [lia|]. reflexivity. }
  rewrite parsed_fields. cbn [ratio texture_size texture_format texture_quality
                              keep_original_textures].
  rewrite Hst. unfold webp_net, initial_config, initial_texture_size,
    initial_texture_format, initial_texture_quality. cbn [use_webp_flag].
  destruct (Py.contains "--webp" args); cbn;
    repeat split; try reflexivity;
    destruct (Py.contains "--keep-original-textures" args),
      (Py.contains "--remove-textures" args); reflexivity.
Qed.

(** X5: the normal-map size of a returned configuration is the accepted
    value of [--normal-map-size], or else the texture size the run ends
    up with, after [--webp], the preset and [--texture-size]. *)
Theorem normal_map_size_follows_texture_size args c :
  snd (parse_args args) = Ok c ->
  normal_map_size c
  = Some (default (texture_size c) (explicit_normal_map_size py_int args)) /\
  effective_normal_map_size c
  = default (texture_size c) (explicit_normal_map_size py_int args).
Proof.
  intros H. destruct (parse_args_returns py_int py_float args c H)
    as (inp & out & _ & _ & _ & ->).
  rewrite parsed_fields. unfold effective_normal_map_size.
  cbn [normal_map_size texture_size]. split; reflexivity.
Qed.

End ParseMore2.

(** X6: an option's value is the argument right after the first
    occurrence of its name: a later occurrence is not looked at, a name
    in the last place has no value, and neither has a name that does not
    occur. *)
Theorem first_occurrence_gives_the_value flag before :
  ~ In flag before ->
  (forall tok rest, flag_token flag (before ++ flag :: tok :: rest) = Some tok) /\
  flag_token flag (before ++ [flag]) = None /\
  flag_token flag before = None.
Proof.
  intros Hnot.
  assert (Hidx : forall rest, Py.index flag (before ++ flag :: rest) = Some (length before)).
  { intros rest. induction before as [|x l IH]; cbn.
    - rewrite String.eqb_refl. reflexivity.
    - destruct (String.eqb_spec x flag) as [->|Hne]; [exfalso; apply Hnot; left; reflexivity|].
      rewrite IH; [reflexivity|]. intros Hin. apply Hnot. right. exact Hin. }
  split; [|split].
  - intros tok rest. apply flag_token_spec. exists (length before).
    split; [apply Hidx|].
    rewrite lookup_app_r by lia.
    replace (length before + 1 - length before)%nat with 1%nat by lia. reflexivity.
  - destruct (flag_token flag (before ++ [flag])) as [tok|] eqn:E; [|reflexivity].
    apply flag_token_spec in E. destruct E as (i & Hi & Hl).
    rewrite Hidx in Hi. injection Hi as <-.
    apply lookup_lt_Some in Hl. rewrite length_app in Hl. cbn in Hl. lia.
  - apply flag_token_absent.
    destruct (Py.contains flag before) eqn:E; [|reflexivity].
    apply contains_In in E. contradiction.
Qed.

(** X3 on two paths alone. *)
Lemma defaults_without_options_witness :
  snd (Sample.low_poly_args ["model.fbx"; "low.fbx"])
  = Ok {| LowPoly.input_path := "model.fbx"; LowPoly.output_path := "low.fbx";
          LowPoly.proceed_with_glb := false;
          LowPoly.ratio := 0.15; LowPoly.texture_size := 512;
          LowPoly.normal_map_size := Some 512;
          LowPoly.remove_textures := false; LowPoly.fix_origin := true;
          LowPoly.keep_original_textures := false;
          LowPoly.texture_format := "PNG"; LowPoly.texture_quality := 90;
          LowPoly.use_webp_flag := false; LowPoly.apply_texture_path := None |}.
Proof.
  unfold Sample.low_poly_args.
  rewrite (defaults_without_options Py.int_ascii Py.float_decimal
             "model.fbx" "low.fbx" [] eq_refl).
  reflexivity.
Defined.

(** X4 on the level 9. *)
Lemma preset_out_of_range_changes_nothing_witness :
  let args := ["in.glb"; "out.glb"; "--glb"; "--quality"; "9"] in
  exists c,
    snd (Sample.low_poly_args args) = Ok c /\
    In (Printed [Str "[INFO] Using quality preset "; Int 9])
       (events (Sample.low_poly_args args)) /\
    LowPoly.texture_size c = 512 /\ LowPoly.texture_format c = "PNG".
Proof.
  cbn zeta.
  destruct (preset_out_of_range_changes_nothing Py.int_ascii Py.float_decimal
              ["in.glb"; "out.glb"; "--glb"; "--quality"; "9"] "in.glb" "out.glb" 9
              eq_refl eq_refl eq_refl eq_refl ltac:(lia))
    as (c & Hc & Hev & _ & Hs & Hf & _).
  exists c. split; [exact Hc|]. split; [exact Hev|]. split; [exact Hs|exact Hf].
Defined.

(** X5 under [--webp]: normal maps follow the texture size 32. *)
Lemma normal_map_size_follows_texture_size_witness :
  let args := ["in.glb"; "out.glb"; "--glb"; "--webp"] in
  exists c,
    snd (Sample.low_poly_args args) = Ok c /\
    LowPoly.normal_map_size c = Some 32.
Proof.
  cbn zeta. eexists. split; [vm_compute; reflexivity|].
  apply (normal_map_size_follows_texture_size Py.int_ascii Py.float_decimal
             ["in.glb"; "out.glb"; "--glb"; "--webp"]).
  vm_compute. reflexivity.
Defined.

(** X6 on an argument list that names [--texture-size] twice. *)
Lemma first_occurrence_gives_the_value_witness :
  flag_token "--texture-size"
    ["in.glb"; "out.glb"; "--texture-size"; "256"; "--texture-size"; "1024"]
  = Some "256".
Proof.
  apply (first_occurrence_gives_the_value "--texture-size" ["in.glb"; "out.glb"]).
  intros [H|[H|[]]]; discriminate H.
Defined.

(** ** How the runs of the two converters end *)

Section Endings.

Variable py_int : string -> option Z.
Variable py_float : string -> option float.
Variable h : host.

Lemma getitem_tame P l i : tame P (getitem l i).
Proof. unfold getitem. destruct (l !! i); [apply tame_ret|apply tame_raise]. Qed.

Lemma low_poly_main_tame argv : tame (fun _ => True) (LowPoly.main py_int py_float h argv).
Proof.
  destruct (Py.contains "--" argv) eqn:Hsep; cycle 1.
  { unfold LowPoly.main. rewrite Hsep. cbn [negb].
    apply tame_bind; [|intros _ _; apply tame_exit].
    induction LowPoly.usage as [|l ls IH]; cbn [LowPoly.print_all];
      [apply tame_ret|apply tame_print; exact IH]. }
  destruct (script_args argv !! 0%nat) as [inp|] eqn:H0,
           (script_args argv !! 1%nat) as [out|] eqn:H1.
  1: { apply (main_tame py_int py_float h _ argv inp out Hsep H0 H1).
       unfold LowPoly.export_model. destruct (LowPoly.proceed_with_glb _).
       - eapply tame_impl; [|apply export_glb_tame]. intros; exact I.
       - unfold LowPoly.export_fbx. repeat tame_step.
         apply tame_bind; [apply tame_export; exact I|intros _ _; apply tame_line]. }
  all: rewrite (main_unfold py_int py_float h argv Hsep);
    apply prints_only_tame;
    [ apply prints_only_bind; [apply parse_args_prints_only|];
      intros c Hc; exfalso;
      unfold LowPoly.parse_args in Hc;
      rewrite (bind_snd_stopped _ _ (Uncaught "IndexError")) in Hc; [discriminate|];
      apply defaults_stops
    | intros code Hc;
      rewrite (bind_snd_stopped _ _ (Uncaught "IndexError")) in Hc; [discriminate|];
      unfold LowPoly.parse_args;
      apply bind_snd_stopped; apply defaults_stops ].
  all: try (apply lookup_ge_None in H1; lia).
  all: try (apply lookup_ge_None in H0; lia).
Qed.

Lemma shaded_main_tame argv : tame (fun _ => True) (ShadedTexture.main py_float h argv).
Proof.
  unfold ShadedTexture.main. destruct (Py.contains "--" argv); cbn [negb];
    [|repeat tame_step].
  apply tame_bind.
  { unfold ShadedTexture.parse_args.
    apply tame_bind; [apply getitem_tame|intros inp _].
    apply tame_bind; [apply getitem_tame|intros out _].
    apply tame_bind; [repeat tame_step|intros color _].
    apply tame_bind; [repeat tame_step|intros image _].
    do 2 apply tame_print.
    apply tame_bind; [|intros _ _; apply tame_ret].
    destruct (truthy_path image); [apply tame_line|].
    destruct color as [[[r g] b] a]. apply tame_line. }
  intros c _. apply tame_bind.
  { unfold ShadedTexture.import_model. repeat tame_step. }
  intros sc _. apply tame_print. apply tame_bind.
  { unfold ShadedTexture.assign_materials. repeat tame_step. }
  intros _ _. unfold ShadedTexture.export_model.
  destruct (Py.endswith _ ".fbx").
  { apply tame_bind; [apply tame_export; exact I|intros _ _; apply tame_line]. }
  destruct (_ || _); [|repeat tame_step].
  apply tame_bind; [apply tame_export; exact I|intros _ _; apply tame_line].
Qed.

(** X7: whatever the arguments and the answers of the host are, a run
    of convert-low-poly.py or of apply-shaded-texture.py that ends with
    an exit code ends with 0 or 1: [sys.exit] is never reached with
    another code. *)
Theorem exit_code_is_zero_or_one argv code :
  exit_code (LowPoly.main py_int py_float h argv) = Some code \/
  exit_code (ShadedTexture.main py_float h argv) = Some code ->
  code = 0 \/ code = 1.
Proof.
  intros [H|H]; unfold exit_code in H.
  - destruct (snd (LowPoly.main py_int py_float h argv)) as [u|[k|e]] eqn:E;
      [injection H as <-; auto| |discriminate].
    injection H as <-. right. apply (proj2 (low_poly_main_tame argv)). exact E.
  - destruct (snd (ShadedTexture.main py_float h argv)) as [u|[k|e]] eqn:E;
      [injection H as <-; auto| |discriminate].
    injection H as <-. right. apply (proj2 (shaded_main_tame argv)). exact E.
Qed.

(** X8: after [--], both scripts read the input and the output path
    without a check: with fewer than two arguments there the run ends
    in an uncaught [IndexError] before it prints anything or calls the
    host; the usage text and exit code 1 are for a missing [--] only. *)
Theorem missing_paths_raise_index_error argv :
  Py.contains "--" argv = true -> (length (script_args argv) < 2)%nat ->
  LowPoly.main py_int py_float h argv = ([], Stopped (Uncaught "IndexError")) /\
  ShadedTexture.main py_float h argv = ([], Stopped (Uncaught "IndexError")).
Proof.
  intros Hsep Hlen. unfold LowPoly.main, ShadedTexture.main. rewrite Hsep. cbn [negb].
  destruct (script_args argv) as [|a [|b rest]]; cbn in Hlen; try lia;
    split; reflexivity.
Qed.

End Endings.

(** X7 on a run that stops at an output path without [.fbx]. *)
Lemma exit_code_is_zero_or_one_witness :
  exit_code (Sample.low_poly ["blender"; "--"; "in.glb"; "out.obj"]) = Some 1 /\
  (1 = 0 \/ 1 = 1).
Proof.
  split; [vm_compute; reflexivity|].
  apply (exit_code_is_zero_or_one Py.int_ascii Py.float_decimal Sample.host
           ["blender"; "--"; "in.glb"; "out.obj"] 1).
  left. vm_compute. reflexivity.
Defined.

(** X8 on a command line with the input path alone. *)
Lemma missing_paths_raise_index_error_witness :
  Sample.low_poly ["blender"; "--"; "in.glb"] = ([], Stopped (Uncaught "IndexError")) /\
  Sample.shaded_texture ["blender"; "--"; "in.glb"]
  = ([], Stopped (Uncaught "IndexError")).
Proof.
  apply (missing_paths_raise_index_error Py.int_ascii Py.float_decimal Sample.host
           ["blender"; "--"; "in.glb"]).
  - reflexivity.
  - cbn. lia.
Defined.

(** ** The calls of a run *)

Section CallFacts.

Context {A B : Type}.

Lemma calls_bind (m : script A) (f : A -> script B) :
  calls (m ≫= f) =
  calls m ++ match snd m with
             | Ok a => calls (f a)
             | Stopped _ => []
             end.
Proof.
  unfold calls. destruct (snd m) as [a|s] eqn:E.
  - rewrite (bind_events_ok m f a E). apply omap_app.
  - rewrite (bind_events_stopped m f s E). symmetry. apply app_nil_r.
Qed.

Lemma calls_bind_ok (m : script A) (f : A -> script B) (a : A) :
  snd m = Ok a -> calls (m ≫= f) = calls m ++ calls (f a).
Proof. intros E. rewrite calls_bind, E. reflexivity. Qed.

Lemma calls_prints_only (m : script A) : prints_only m -> calls m = [].
Proof.
  unfold prints_only, calls. induction (events m) as [|e evs IH]; intros H.
  - reflexivity.
  - inversion H as [|? ? He Hevs]; subst. destruct e; [|contradiction].
    cbn. auto.
Qed.

Lemma calls_forall_bind (Q : host_call -> Prop) (m : script A) (f : A -> script B) :
  Forall Q (calls m) -> (forall a, snd m = Ok a -> Forall Q (calls (f a))) ->
  Forall Q (calls (m ≫= f)).
Proof.
  intros Hm Hf. rewrite calls_bind. apply Forall_app. split; [exact Hm|].
  destruct (snd m) as [a|s]; [apply Hf; reflexivity|constructor].
Qed.

End CallFacts.

Lemma calls_print {A} (line : list piece) (k : script A) :
  calls (print line;; k) = calls k.
Proof. rewrite calls_bind. reflexivity. Qed.

Lemma calls_call {A} (c : host_call) (k : script A) :
  calls (call c;; k) = c :: calls k.
Proof. rewrite calls_bind. reflexivity. Qed.


Section Decimation.

Import LowPoly.

Variable h : host.

End Decimation.

Section Decimation.

Import LowPoly.

Variable h : host.

Lemma is_armature_not_mesh o : is_armature o = true -> is_mesh o = false.
Proof.
  unfold is_mesh, is_armature. intros H. apply String.eqb_eq in H. rewrite H.
  reflexivity.
Qed.

(** The decimation loop on the meshes of a scene, behind a prefix
    [before] of objects that the search has passed. *)
Lemma decimate_meshes_from c objs : forall before,
  let dec := fun o => if is_mesh o then decimated h o (ratio c) else o in
  snd (decimate_meshes h c (find_meshes_from (length before) objs) (before ++ objs))
  = Ok (before ++ map dec objs) /\
  calls (decimate_meshes h c (find_meshes_from (length before) objs) (before ++ objs))
  = flat_map (decimation_of (ratio c)) (List.filter is_mesh objs).
Proof.
  cbn zeta. induction objs as [|o objs IH]; intros before.
  - cbn. rewrite app_nil_r. split; reflexivity.
  - assert (Hnext : forall o', 
              (before ++ o' :: objs = (before ++ [o']) ++ objs) /\
              (length before + 1)%nat = length (before ++ [o'])).
    { intros o'. rewrite <- app_assoc, length_app. split; reflexivity. }
    cbn [find_meshes_from map List.filter].
    destruct (is_armature o) eqn:Ha.
    { rewrite (is_armature_not_mesh o Ha).
      destruct (Hnext o) as [-> ->]. destruct (IH (before ++ [o])) as [Hs Hc].
      rewrite Hs, Hc, <- app_assoc. split; reflexivity. }
    destruct (is_mesh o) eqn:Hm.
    + cbn [decimate_meshes flat_map].
      assert (Hlook : (before ++ o :: objs) !! length before = Some o).
      { rewrite lookup_app_r by lia. rewrite Nat.sub_diag. reflexivity. }
      rewrite Hlook.
      assert (Hins : <[length before := decimated h o (ratio c)]> (before ++ o :: objs)
                     = before ++ decimated h o (ratio c) :: objs).
      { rewrite insert_app_r_alt by lia. rewrite Nat.sub_diag. reflexivity. }
      rewrite Hins.
      destruct (Hnext (decimated h o (ratio c))) as [-> ->].
      destruct (IH (before ++ [decimated h o (ratio c)])) as [Hs Hc].
      split.
      * do 4 rewrite (bind_snd_ok (call _) _ tt eq_refl).
        rewrite (bind_snd_ok (print _) _ tt eq_refl).
        rewrite Hs, <- app_assoc. reflexivity.
      * do 4 rewrite calls_call. rewrite calls_print, Hc. reflexivity.
    + destruct (Hnext o) as [-> ->]. destruct (IH (before ++ [o])) as [Hs Hc].
      rewrite Hs, Hc, <- app_assoc. split; reflexivity.
Qed.

(** X9: the decimation stage works on every mesh object of the scene
    once, in scene order, with the four calls merge, decimate at the
    configured ratio, smooth once, auto-smooth; it returns the scene
    objects with every mesh as the host left it and every other object
    as it was. *)
Theorem every_mesh_is_decimated_once c objs :
  snd (decimate_meshes h c (find_meshes objs) objs)
  = Ok (map (fun o => if is_mesh o then decimated h o (ratio c) else o) objs) /\
  calls (decimate_meshes h c (find_meshes objs) objs)
  = flat_map (decimation_of (ratio c)) (List.filter is_mesh objs).
Proof. apply (decimate_meshes_from c objs []). Qed.

End Decimation.

(** ** Which calls a run of convert-low-poly.py makes *)

Lemma calls_forall_print {A} (Q : host_call -> Prop) (line : list piece) (k : script A) :
  Forall Q (calls k) -> Forall Q (calls (print line;; k)).
Proof. rewrite calls_print. auto. Qed.

Lemma calls_forall_call {A} (Q : host_call -> Prop) (c : host_call) (k : script A) :
  Q c -> Forall Q (calls k) -> Forall Q (calls (call c;; k)).
Proof. rewrite calls_call. constructor; assumption. Qed.

Lemma calls_forall_one (Q : host_call -> Prop) (c : host_call) :
  Q c -> Forall Q (calls (call c)).
Proof. intros H. repeat constructor. exact H. Qed.

Lemma calls_forall_prints_only {A} (Q : host_call -> Prop) (m : script A) :
  prints_only m -> Forall Q (calls m).
Proof. intros H. rewrite (calls_prints_only m H). constructor. Qed.

Section StagePrints.

Import LowPoly.

Variable h : host.

Lemma remove_animations_prints_only sc : prints_only (remove_animations sc).
Proof. unfold remove_animations. repeat prints_only_step. Qed.

Lemma report_found_prints_only a ms : prints_only (report_found a ms).
Proof.
  unfold report_found. apply prints_only_bind; [|intros _ _]; repeat prints_only_step.
Qed.

Lemma resize_loop_prints_only label resize target ids : forall imgs,
  prints_only (resize_loop label resize target ids imgs).
Proof.
  induction ids as [|i rest IH]; intros imgs; cbn [resize_loop].
  - apply prints_only_ret.
  - destruct (imgs !! i) as [img|]; [|apply IH].
    destruct (needs_resize target img); [|apply IH].
    apply prints_only_print. apply IH.
Qed.

(** The texture stage reads and writes the scene; it calls no operator
    of the host. *)
Lemma texture_stage_prints_only c ms sc : prints_only (texture_stage h c ms sc).
Proof.
  unfold texture_stage. destruct (truthy_path _) as [path|].
  - unfold apply_texture. destruct (load_image h path); [|repeat prints_only_step].
    apply prints_only_print. apply prints_only_bind; [|intros _ _; apply prints_only_ret].
    repeat prints_only_step.
  - destruct (negb (remove_textures c)); cycle 1.
    { unfold strip_textures. repeat prints_only_step. }
    destruct (negb (keep_original_textures c)); [|repeat prints_only_step].
    unfold process_textures. destruct (classify _) as [nm rt].
    apply prints_only_bind; [apply resize_loop_prints_only|intros ? _].
    apply prints_only_bind; [apply resize_loop_prints_only|intros ? _].
    apply prints_only_bind; [apply resize_loop_prints_only|intros ? _].
    repeat prints_only_step.
Qed.

End StagePrints.

Section RunCalls.

Import LowPoly.

Variable py_int : string -> option Z.
Variable py_float : string -> option float.
Variable h : host.
Variable Q : host_call -> Prop.

(** [Q] holds of every call that is no origin call, no child process and
    no export. *)
Hypothesis Q_scene :
  forall x, is_origin_call x = false -> is_subprocess x = false ->
            is_export (Call x) = false -> Q x.

Lemma import_model_calls c : Forall Q (calls (import_model h c)).
Proof.
  unfold import_model.
  apply calls_forall_call; [apply Q_scene; reflexivity|].
  apply calls_forall_call; [apply Q_scene; reflexivity|].
  destruct (_ =? ".fbx")%string.
  { apply calls_forall_call; [apply Q_scene; reflexivity|].
    apply calls_forall_prints_only. repeat prints_only_step. }
  destruct (Py.contains _ _).
  { apply calls_forall_call; [apply Q_scene; reflexivity|].
    apply calls_forall_prints_only. repeat prints_only_step. }
  apply calls_forall_prints_only. repeat prints_only_step.
Qed.

Lemma decimate_meshes_calls c ms : forall objs,
  Forall Q (calls (decimate_meshes h c ms objs)).
Proof.
  induction ms as [|i rest IH]; intros objs; cbn [decimate_meshes].
  - constructor.
  - destruct (objs !! i) as [o|]; [|apply IH].
    do 4 (apply calls_forall_call; [apply Q_scene; reflexivity|]).
    apply calls_forall_print. apply IH.
Qed.

(** The calls of the processing are as [Q] wants them if those of the
    origin fix and of the export are. *)
Lemma process_calls c :
  (forall a ms, Forall Q (calls (fix_model_origin c a ms))) ->
  Forall Q (calls (export_model h c)) ->
  Forall Q (calls (process h c)).
Proof.
  intros Horigin Hexport. unfold process.
  apply calls_forall_bind; [apply import_model_calls|intros sc _].
  apply calls_forall_bind;
    [apply calls_forall_prints_only, remove_animations_prints_only|intros sc1 _].
  apply calls_forall_bind;
    [apply calls_forall_prints_only, report_found_prints_only|intros _ _].
  apply calls_forall_bind;
    [apply calls_forall_prints_only, texture_stage_prints_only|intros sc2 _].
  apply calls_forall_bind; [apply decimate_meshes_calls|intros objs _].
  apply calls_forall_bind; [apply Horigin|intros _ _].
  exact Hexport.
Qed.

Lemma print_all_prints_only lines : prints_only (print_all lines).
Proof.
  induction lines as [|l ls IH]; cbn [print_all];
    [apply prints_only_ret|apply prints_only_print; exact IH].
Qed.

Lemma main_calls argv :
  (forall c, snd (LowPoly.parse_args py_int py_float (script_args argv)) = Ok c ->
             (forall a ms, Forall Q (calls (fix_model_origin c a ms))) /\
             Forall Q (calls (export_model h c))) ->
  Forall Q (calls (LowPoly.main py_int py_float h argv)).
Proof.
  intros H. unfold LowPoly.main. destruct (Py.contains "--" argv); cbn [negb].
  - apply calls_forall_bind;
      [apply calls_forall_prints_only, parse_args_prints_only|intros c Hc].
    destruct (H c Hc) as [Ho He]. apply process_calls; assumption.
  - apply calls_forall_prints_only.
    apply prints_only_bind; [apply print_all_prints_only|intros _ _].
    apply prints_only_exit.
Qed.

End RunCalls.

Section OriginCalls.

Import LowPoly.

Lemma origin_to_cursor_calls objs :
  Forall (fun x => is_subprocess x = false /\ is_export (Call x) = false)
    (calls (origin_to_cursor objs)).
Proof.
  induction objs as [|o rest IH]; cbn [origin_to_cursor]; [constructor|].
  do 2 (apply calls_forall_call; [split; reflexivity|]).
  apply calls_forall_bind; [|intros _ _; exact IH].
  destruct (parent_type o) as [t|]; [destruct (t =? "ARMATURE")%string|];
    repeat constructor.
Qed.

(** The origin fix launches no process and exports nothing. *)
Lemma fix_model_origin_calls c a ms :
  Forall (fun x => is_subprocess x = false /\ is_export (Call x) = false)
    (calls (fix_model_origin c a ms)).
Proof.
  unfold fix_model_origin. destruct ms as [|first others]; [constructor|].
  destruct (fix_origin c); [|constructor].
  destruct (bottom_center _) as [[[cx cy] mz]|]; [|constructor].
  apply calls_forall_call; [split; reflexivity|]. apply calls_forall_print.
  apply calls_forall_bind; [|intros _ _].
  { destruct a as [a|]; [|constructor].
    apply calls_forall_print.
    do 3 (apply calls_forall_call; [split; reflexivity|]).
    apply calls_forall_prints_only, prints_only_line. }
  apply calls_forall_bind; [apply origin_to_cursor_calls|intros _ _].
  apply calls_forall_prints_only, prints_only_line.
Qed.

End OriginCalls.

(** ** What a run exports *)

Lemma exports_print {A} (line : list piece) (k : script A) :
  exports (print line;; k) = exports k.
Proof. rewrite exports_bind. reflexivity. Qed.

Lemma exports_call {A} (c : host_call) (k : script A) :
  exports (call c;; k) = (if is_export (Call c) then [Call c] else []) ++ exports k.
Proof. rewrite exports_bind. reflexivity. Qed.

Lemma tame_no_exports {A} (m : script A) : tame (fun _ => False) m -> exports m = [].
Proof. intros [H _]. apply Forall_False_nil. exact H. Qed.

Lemma calls_bind_returns {A B} (m : script A) (f : A -> script B) (b : B) :
  snd (m ≫= f) = Ok b ->
  exists a, snd m = Ok a /\ snd (f a) = Ok b /\
            calls (m ≫= f) = calls m ++ calls (f a) /\
            exports (m ≫= f) = exports m ++ exports (f a).
Proof.
  intros H. destruct (bind_returns m f b H) as (a & Ha & Hb).
  exists a. split; [exact Ha|]. split; [exact Hb|].
  rewrite calls_bind, exports_bind, Ha. split; reflexivity.
Qed.

Section ExportCalls.

Import LowPoly.

Variable h : host.

Lemma run_fix_origin_calls c :
  Forall (fun x => x = Subprocess (fix_origin_argv h c)) (calls (run_fix_origin h c)).
Proof.
  unfold run_fix_origin. destruct (script_exists h _); [|constructor].
  apply calls_forall_print. apply calls_forall_call; [reflexivity|].
  apply calls_forall_prints_only. repeat prints_only_step.
Qed.

Lemma run_webp_calls c :
  Forall (fun x => x = Subprocess (webp_argv c)) (calls (run_webp h c)).
Proof.
  unfold run_webp. destruct (_ || _); [|constructor].
  apply calls_forall_print. apply calls_forall_call; [reflexivity|].
  apply calls_forall_prints_only. repeat prints_only_step.
Qed.

(** The GLB branch exports once, whatever happens after the export. *)
Lemma export_glb_exports c :
  proceed_with_glb c = true ->
  exports (export_glb h c) = [Call (export_call h c)].
Proof.
  intros Hglb. unfold export_glb, export_call. rewrite Hglb.
  rewrite exports_print, exports_call. cbn [is_export app].
  match goal with
  | |- exports (?m ≫= ?f) = _ =>
      rewrite (exports_bind m f);
      assert (Hm : snd m = Ok tt /\ exports m = [Call (match gltf_type_error h with
                                       | None => ExportGltf (export_settings c)
                                       | Some _ => ExportGltfBasic (output_path c)
                                       end)])
        by (destruct (gltf_type_error h); split; reflexivity);
      destruct Hm as [Hs He]; rewrite Hs, He
  end.
  rewrite tame_no_exports; [reflexivity|].
  apply tame_print.
  apply tame_bind; [destruct (exported_exists h _); cbn; repeat tame_step|intros _ _].
  apply tame_bind; [apply run_fix_origin_tame|intros _ _].
  apply tame_bind; [apply run_webp_tame|intros _ _].
  repeat tame_step.
Qed.

(** The export stage exports once, or not at all when it refuses the
    output path. *)
Lemma export_model_exports c :
  (exports (export_model h c) = [Call (export_call h c)] \/
   exports (export_model h c) = [] /\ snd (export_model h c) = Stopped (SysExit 1)).
Proof.
  unfold export_model. destruct (proceed_with_glb c) eqn:Hglb.
  - left. apply export_glb_exports. exact Hglb.
  - unfold export_fbx, export_call. rewrite Hglb.
    destruct (Py.endswith _ ".fbx"); [left|right; split]; reflexivity.
Qed.

(** The stages before the export export nothing. *)
Lemma process_exports c :
  exists reached : bool,
    exports (process h c) = (if reached then exports (export_model h c) else []) /\
    (forall u, snd (process h c) = Ok u -> reached = true).
Proof.
  unfold process.
  repeat match goal with
  | |- context [exports (?m ≫= ?f)] =>
      rewrite (exports_bind m f);
      let E := fresh "E" in
      destruct (snd m) as [?|?] eqn:E;
      [ rewrite (tame_no_exports m)
      | exists false; rewrite (tame_no_exports m);
        [ split; [reflexivity|]; intros u Hu;
          repeat match type of Hu with
                 | snd (_ ≫= _) = Ok _ =>
                     apply bind_returns in Hu; destruct Hu as (? & ? & Hu)
                 end; congruence
        | ] ]
  end.
  all: try (exists true; split; [reflexivity|auto]).
  all: first [ apply import_model_tame | apply remove_animations_tame
             | apply report_found_tame | apply texture_stage_tame
             | apply decimate_meshes_tame | apply fix_model_origin_tame ].
Qed.

End ExportCalls.

Section RunExports.

Import LowPoly.

Variable py_int : string -> option Z.
Variable py_float : string -> option float.
Variable h : host.

Local Abbreviation parse_args := (LowPoly.parse_args py_int py_float).
Local Abbreviation main := (LowPoly.main py_int py_float h).

Lemma main_exports argv :
  exports (main argv) = [] \/
  exists c, snd (parse_args (script_args argv)) = Ok c /\
            exports (main argv) = exports (process h c).
Proof.
  unfold LowPoly.main. destruct (Py.contains "--" argv); cbn [negb].
  - rewrite exports_bind.
    rewrite (prints_only_exports _ (parse_args_prints_only py_int py_float _)).
    destruct (snd (parse_args (script_args argv))) as [c|s]; [|left; reflexivity].
    right. exists c. split; reflexivity.
  - left. apply prints_only_exports.
    apply prints_only_bind; [apply print_all_prints_only|intros _ _].
    apply prints_only_exit.
Qed.

(** X10: a run of convert-low-poly.py exports at most once, whatever
    the arguments and the host; a run that goes through to its end has
    exported exactly once, with the export call of its configuration:
    the GLB exporter with the full settings (the basic ones after a
    [TypeError]) under [--glb], the FBX exporter otherwise. *)
Theorem a_run_exports_once argv :
  (length (exports (main argv)) <= 1)%nat /\
  (forall u, snd (main argv) = Ok u ->
     exists c, snd (parse_args (script_args argv)) = Ok c /\
               exports (main argv) = [Call (export_call h c)]).
Proof.
  split.
  - destruct (main_exports argv) as [->|(c & _ & ->)]; [cbn; lia|].
    destruct (process_exports h c) as ([|] & -> & _); [|cbn; lia].
    destruct (export_model_exports h c) as [->|[-> _]]; cbn; lia.
  - intros u Hu. destruct (main_exports argv) as [He|(c & Hc & He)].
    + exfalso. unfold LowPoly.main in Hu, He.
      destruct (Py.contains "--" argv); cbn [negb] in Hu, He.
      * apply bind_returns in Hu. destruct Hu as (c & Hc & Hp).
        rewrite exports_bind, Hc in He.
        apply app_eq_nil in He. destruct He as [_ He].
        destruct (process_exports h c) as (reached & Hex & Hreached).
        rewrite (Hreached u Hp) in Hex. rewrite Hex in He.
        apply process_returns in Hp.
        destruct (export_model_exports h c) as [H1|[_ H1]]; congruence.
      * apply bind_returns in Hu. destruct Hu as (? & _ & Hu). discriminate Hu.
    + exists c. split; [exact Hc|]. rewrite He.
      assert (Hp : snd (process h c) = Ok u).
      { unfold LowPoly.main in Hu. destruct (Py.contains "--" argv); cbn [negb] in Hu.
        - apply bind_returns in Hu. destruct Hu as (c' & Hc' & Hp). congruence.
        - apply bind_returns in Hu. destruct Hu as (? & _ & Hu). discriminate Hu. }
      destruct (process_exports h c) as (reached & Hex & Hreached).
      rewrite (Hreached u Hp) in Hex. rewrite Hex.
      apply process_returns in Hp.
      destruct (export_model_exports h c) as [H1|[_ H1]]; congruence.
Qed.

End RunExports.

(** X10 on a run that goes through under [--glb]. *)
Lemma a_run_exports_once_witness :
  let argv := ["blender"; "--"; "in.glb"; "out.glb"; "--glb"] in
  snd (Sample.low_poly argv) = Ok tt /\
  exists c, snd (Sample.low_poly_args (script_args argv)) = Ok c /\
            exports (Sample.low_poly argv) = [Call (export_call Sample.host c)].
Proof.
  cbn zeta.
  assert (H : snd (Sample.low_poly ["blender"; "--"; "in.glb"; "out.glb"; "--glb"]) = Ok tt)
    by (vm_compute; reflexivity).
  split; [exact H|].
  apply (proj2 (a_run_exports_once Py.int_ascii Py.float_decimal Sample.host
                  ["blender"; "--"; "in.glb"; "out.glb"; "--glb"]) tt H).
Defined.

(** ** The child processes of a run *)

Section RunSubprocesses.

Import LowPoly.

Variable py_int : string -> option Z.
Variable py_float : string -> option float.
Variable h : host.

Local Abbreviation parse_args := (LowPoly.parse_args py_int py_float).
Local Abbreviation main := (LowPoly.main py_int py_float h).

Lemma export_fbx_calls c :
  Forall (fun x => x = ExportFbx (output_path c)) (calls (export_fbx c)).
Proof.
  unfold export_fbx. do 2 apply calls_forall_print.
  destruct (Py.endswith _ ".fbx").
  - apply calls_forall_call; [reflexivity|].
    apply calls_forall_prints_only, prints_only_line.
  - apply calls_forall_prints_only. repeat prints_only_step.
Qed.

(** The calls of the GLB branch: the selection, the export, and those
    of the two child processes. *)
Lemma export_glb_calls (Q : host_call -> Prop) c :
  Q (SelectAll "SELECT") -> (forall x, is_export (Call x) = true -> Q x) ->
  Forall Q (calls (run_fix_origin h c)) -> Forall Q (calls (run_webp h c)) ->
  Forall Q (calls (export_glb h c)).
Proof.
  intros Hsel Hexp Hfix Hwebp.
  unfold export_glb. apply calls_forall_print.
  apply calls_forall_call; [exact Hsel|].
  apply calls_forall_bind; [|intros _ _].
  { destruct (gltf_type_error h); [apply calls_forall_print|];
      apply calls_forall_one; apply Hexp; reflexivity. }
  apply calls_forall_print.
  apply calls_forall_bind; [|intros _ _].
  { apply calls_forall_prints_only. destruct (exported_exists h _); cbn;
      repeat prints_only_step. }
  apply calls_forall_bind; [exact Hfix|intros _ _].
  apply calls_forall_bind; [exact Hwebp|intros _ _].
  apply calls_forall_prints_only. repeat prints_only_step.
Qed.

Lemma lower_not_webp fmt :
  fmt = "PNG" \/ fmt = "JPEG" -> (Py.lower fmt =? "webp")%string = false.
Proof. intros [->| ->]; reflexivity. Qed.

(** X11: the WebP conversion is launched only in a run with both
    [--webp] and [--glb]: without [--glb] the export launches no
    process, and without [--webp] the test of the texture format for
    [webp] never holds, since no format that the argument handling
    accepts is [webp]. *)
Theorem webp_conversion_needs_both_flags argv c :
  snd (parse_args (script_args argv)) = Ok c ->
  In (Subprocess (webp_argv c)) (calls (main argv)) ->
  Py.contains "--webp" (script_args argv) = true /\
  Py.contains "--glb" (script_args argv) = true.
Proof.
  intros Hc Hin.
  destruct (Py.contains "--webp" (script_args argv)
            && Py.contains "--glb" (script_args argv)) eqn:Hboth;
    [apply andb_prop in Hboth; exact Hboth|].
  exfalso.
  assert (Hnone : Forall (fun x => x <> Subprocess (webp_argv c)) (calls (main argv))).
  { apply main_calls.
    { intros x _ Hs _ ->. discriminate Hs. }
    intros c' Hc'. assert (c' = c) by congruence. subst c'. split.
    { intros a ms. eapply Forall_impl; [apply fix_model_origin_calls|].
      cbn. intros x [Hs _] ->. discriminate Hs. }
    destruct (parse_args_returns py_int py_float _ c Hc)
      as (inp & out & _ & _ & _ & Hparsed).
    pose proof (parsed_texture_format py_int py_float (script_args argv) inp out) as Hfmt.
    cbn zeta in Hfmt. rewrite <- Hparsed in Hfmt.
    assert (Hglb : proceed_with_glb c = Py.contains "--glb" (script_args argv))
      by (rewrite Hparsed, parsed_fields; reflexivity).
    assert (Hwebp : use_webp_flag c = Py.contains "--webp" (script_args argv))
      by (rewrite Hparsed, parsed_fields; reflexivity).
    unfold export_model. destruct (proceed_with_glb c).
    - apply export_glb_calls.
      + discriminate.
      + intros x Hx ->. discriminate Hx.
      + eapply Forall_impl; [apply run_fix_origin_calls|].
        cbn. intros x -> [=].
      + unfold run_webp. rewrite (lower_not_webp _ Hfmt), Hwebp.
        rewrite <- Hglb, andb_true_r in Hboth. rewrite Hboth. constructor.
    - eapply Forall_impl; [apply export_fbx_calls|]. cbn. intros x ->. discriminate. }
  rewrite Forall_forall in Hnone. apply (Hnone _ (proj2 (list_elem_of_In _ _) Hin)).
  reflexivity.
Qed.

(** X12: [--no-fix-origin] turns off the origin fix of lines 364-406
    only: the run makes no call that moves the cursor, an origin or an
    object, but under [--glb] the export still launches
    fix-origin-bottom.py on the exported file whenever that script is
    there. *)
Theorem no_fix_origin_is_for_the_inline_fix_only argv c :
  snd (parse_args (script_args argv)) = Ok c ->
  Py.contains "--no-fix-origin" (script_args argv) = true ->
  fix_origin c = false /\
  Forall (fun x => is_origin_call x = false) (calls (main argv)) /\
  (Py.contains "--glb" (script_args argv) = true ->
   script_exists h (fix_origin_script h) = true ->
   In (Subprocess (fix_origin_argv h c)) (calls (export_model h c)) /\
   forall u, snd (main argv) = Ok u ->
             In (Subprocess (fix_origin_argv h c)) (calls (main argv))).
Proof.
  intros Hc Hflag.
  destruct (parse_args_returns py_int py_float _ c Hc)
    as (inp & out & _ & _ & _ & Hparsed).
  assert (Hfix : fix_origin c = false)
    by (rewrite Hparsed, parsed_fields; cbn [fix_origin]; rewrite Hflag; reflexivity).
  assert (Hglb : proceed_with_glb c = Py.contains "--glb" (script_args argv))
    by (rewrite Hparsed, parsed_fields; reflexivity).
  split; [exact Hfix|]. split.
  - apply main_calls.
    { intros x Hx _ _. exact Hx. }
    intros c' Hc'. assert (c' = c) by congruence. subst c'. split.
    + intros a ms. unfold fix_model_origin. rewrite Hfix.
      destruct ms; constructor.
    + unfold export_model. destruct (proceed_with_glb c).
      * apply export_glb_calls.
        -- reflexivity.
        -- intros x Hx. destruct x; try discriminate Hx; reflexivity.
        -- eapply Forall_impl; [apply run_fix_origin_calls|]. cbn. intros x ->. reflexivity.
        -- eapply Forall_impl; [apply run_webp_calls|]. cbn. intros x ->. reflexivity.
      * eapply Forall_impl; [apply export_fbx_calls|]. cbn. intros x ->. reflexivity.
  - intros Hg Hscript.
    assert (Hexport : In (Subprocess (fix_origin_argv h c)) (calls (export_model h c))).
    { unfold export_model. rewrite Hglb, Hg. unfold export_glb.
      rewrite calls_print, calls_call. right.
      match goal with
      | |- In _ (calls (?m ≫= ?f)) =>
          rewrite (calls_bind_ok m f tt) by (destruct (gltf_type_error h); reflexivity)
      end.
      apply in_or_app. right. rewrite calls_print.
      match goal with
      | |- In _ (calls (?m ≫= ?f)) =>
          rewrite (calls_bind_ok m f tt) by (destruct (exported_exists h _); reflexivity)
      end.
      apply in_or_app. right.
      rewrite calls_bind. apply in_or_app. left.
      unfold run_fix_origin. rewrite Hscript. rewrite calls_print, calls_call.
      left. reflexivity. }
    split; [exact Hexport|].
    intros u Hu. unfold LowPoly.main in Hu |- *.
    destruct (Py.contains "--" argv); cbn [negb] in Hu |- *; cycle 1.
    { apply bind_returns in Hu. destruct Hu as (? & _ & Hu). discriminate Hu. }
    rewrite (calls_bind_ok _ _ c Hc). apply in_or_app. right.
    rewrite (bind_snd_ok _ _ c Hc) in Hu.
    unfold process in Hu |- *.
    repeat match type of Hu with
           | snd (?m ≫= ?f) = Ok _ =>
               let a := fresh "a" in
               let Ha := fresh "Ha" in
               destruct (bind_returns m f _ Hu) as (a & Ha & Hu');
               rewrite (calls_bind_ok m f a Ha);
               apply in_or_app; right;
               clear Hu; rename Hu' into Hu
           end.
    exact Hexport.
Qed.

End RunSubprocesses.

(** X11 on a run with both flags. *)
Lemma webp_conversion_needs_both_flags_witness :
  let argv := ["blender"; "--"; "in.glb"; "out.glb"; "--glb"; "--webp"] in
  In (Subprocess ["npx"; "gltf-transform"; "webp"; "out.glb"; "out.glb"])
     (calls (Sample.low_poly argv)) /\
  Py.contains "--webp" (script_args argv) = true /\
  Py.contains "--glb" (script_args argv) = true.
Proof.
  cbn zeta.
  set (argv := ["blender"; "--"; "in.glb"; "out.glb"; "--glb"; "--webp"]).
  set (c := parsed Py.int_ascii Py.float_decimal (script_args argv) "in.glb" "out.glb").
  assert (Hc : snd (LowPoly.parse_args Py.int_ascii Py.float_decimal (script_args argv))
               = Ok c)
    by (apply parse_args_ok; reflexivity).
  assert (Hin : In (Subprocess (LowPoly.webp_argv c)) (calls (Sample.low_poly argv)))
    by (vm_compute; repeat ((left; reflexivity) || right)).
  split; [exact Hin|].
  exact (webp_conversion_needs_both_flags Py.int_ascii Py.float_decimal Sample.host
           argv c Hc Hin).
Defined.

(** X12 on a run under [--glb]. *)
Lemma no_fix_origin_is_for_the_inline_fix_only_witness :
  let argv := ["blender"; "--"; "in.glb"; "out.glb"; "--glb"; "--no-fix-origin"] in
  Forall (fun x => is_origin_call x = false) (calls (Sample.low_poly argv)) /\
  In (Subprocess ["blender"; "--background"; "--python";
                  "scripts/blender/fix-origin-bottom.py"; "--"; "out.glb"; "out.glb"])
     (calls (Sample.low_poly argv)).
Proof.
  cbn zeta.
  set (argv := ["blender"; "--"; "in.glb"; "out.glb"; "--glb"; "--no-fix-origin"]).
  set (c := parsed Py.int_ascii Py.float_decimal (script_args argv) "in.glb" "out.glb").
  assert (Hc : snd (LowPoly.parse_args Py.int_ascii Py.float_decimal (script_args argv))
               = Ok c)
    by (apply parse_args_ok; reflexivity).
  destruct (no_fix_origin_is_for_the_inline_fix_only Py.int_ascii Py.float_decimal
              Sample.host argv c Hc eq_refl) as (_ & Hnone & Hrun).
  split; [exact Hnone|].
  apply (proj2 (Hrun eq_refl eq_refl) tt). vm_compute. reflexivity.
Defined.

(** ** More on the texture stage *)

Section TextureMore.

Import LowPoly.

Variable py_int : string -> option Z.
Variable py_float : string -> option float.

Local Abbreviation parse_args := (LowPoly.parse_args py_int py_float).

(** The objects after one material has been given to the meshes of a
    scene. *)
Lemma assign_material_meshes mat objs i o :
  objs !! i = Some o ->
  assign_material mat (find_meshes objs) objs !! i
  = Some (if is_mesh o then set_slots [mat] o else o).
Proof.
  intros Hi. rewrite assign_material_lookup, Hi. cbn [fmap option_fmap option_map].
  destruct (is_mesh o) eqn:Hm.
  - unfold find_meshes.
    pose proof (find_meshes_from_mem objs 0 i o Hi Hm) as Hmem.
    rewrite Nat.add_0_l in Hmem. rewrite Hmem. reflexivity.
  - destruct (mem i (find_meshes objs)) eqn:Hmem; [|reflexivity].
    unfold find_meshes in Hmem.
    destruct (find_meshes_from_mesh _ _ _ Hmem) as (o' & Ho' & Hm' & _).
    rewrite Nat.sub_0_r in Ho'. congruence.
Qed.

(** X13: a texture given with [--apply-texture] (a path that is not
    empty) decides the texture stage alone, whatever
    [--remove-textures] and [--keep-original-textures] say.  If the
    host loads the image, it becomes the only image of the scene and
    every mesh gets the new image-texture material as its only
    material, other objects being left as they are; if not, the run
    reports the error and ends with exit code 1. *)
Theorem apply_texture_decides_the_texture_stage args c path :
  snd (parse_args args) = Ok c ->
  flag_token "--apply-texture" args = Some path -> path <> "" ->
  forall h sc,
    match load_image h path with
    | inl img =>
        exists sc',
          snd (texture_stage h c (find_meshes (objects sc)) sc) = Ok sc' /\
          images sc' = [img] /\
          materials sc' = materials sc ++ [image_texture_material] /\
          forall i o, objects sc !! i = Some o ->
            objects sc' !! i
            = Some (if is_mesh o then set_slots [length (materials sc)] o else o)
    | inr e =>
        texture_stage h c (find_meshes (objects sc)) sc
        = ([Printed [Str "[ERROR] Could not load image: "; Str e]], Stopped (SysExit 1))
    end.
Proof.
  intros Hc Htok Hne h sc.
  destruct (parse_args_returns py_int py_float args c Hc)
    as (inp & out & _ & _ & _ & Hparsed).
  assert (Hpath : truthy_path (apply_texture_path c) = Some path).
  { rewrite Hparsed, parsed_fields. cbn [apply_texture_path]. rewrite Htok.
    unfold truthy_path. destruct (String.eqb_spec path ""); [contradiction|reflexivity]. }
  unfold texture_stage. rewrite Hpath. unfold apply_texture.
  destruct (load_image h path) as [img|e]; [|reflexivity].
  eexists. split.
  { rewrite (bind_snd_ok (print _) _ tt eq_refl).
    match goal with
    | |- snd (?m ≫= ?f) = _ =>
        rewrite (bind_snd_ok m f tt) by (destruct (negb (proceed_with_glb c)); reflexivity)
    end.
    reflexivity. }
  cbn [images materials objects set_objects set_images set_materials].
  split; [reflexivity|]. split; [reflexivity|].
  intros i o Hi. apply assign_material_meshes. exact Hi.
Qed.

(** X14: the preset level 5 and [--keep-original-textures] keep the
    textures unless [--remove-textures] or a texture to apply is given:
    the texture stage leaves the scene as it is, whatever texture size,
    format and quality the run has, and the GLB export takes the image
    format [AUTO] with JPEG quality 100. *)
Theorem kept_textures_are_left_alone args c :
  snd (parse_args args) = Ok c ->
  preset_level py_int args = Some 5 \/ Py.contains "--keep-original-textures" args = true ->
  Py.contains "--remove-textures" args = false ->
  truthy_path (flag_token "--apply-texture" args) = None ->
  (forall h meshes sc,
     texture_stage h c meshes sc
     = ([Printed [Str "[INFO] Keeping all original textures at full resolution"]], Ok sc)) /\
  gs_export_image_format (export_settings c) = Some "AUTO" /\
  gs_export_jpeg_quality (export_settings c) = Some 100.
Proof.
  intros Hc Hkeep Hrm Hpath.
  destruct (parse_args_returns py_int py_float args c Hc)
    as (inp & out & _ & _ & _ & Hparsed).
  assert (Hk : keep_original_textures c = true).
  { rewrite Hparsed, parsed_fields. cbn [keep_original_textures]. rewrite Hrm.
    destruct Hkeep as [Hq|Hflag]; [|rewrite Hflag; reflexivity].
    unfold staged, quality_net. rewrite Hq.
    destruct (Py.contains "--keep-original-textures" args); reflexivity. }
  assert (Hr : remove_textures c = false)
    by (rewrite Hparsed, parsed_fields; exact Hrm).
  assert (Hp : truthy_path (apply_texture_path c) = None)
    by (rewrite Hparsed, parsed_fields; exact Hpath).
  split; [|unfold export_settings; cbn; rewrite Hk; split; reflexivity].
  intros h meshes sc. unfold texture_stage. rewrite Hp, Hr, Hk. reflexivity.
Qed.

End TextureMore.

(** X13 on the sample model, with the flags for removing and keeping
    textures given as well. *)
Lemma apply_texture_decides_the_texture_stage_witness :
  let args := ["in.glb"; "out.glb"; "--glb"; "--apply-texture"; "wood.png";
               "--remove-textures"; "--keep-original-textures"] in
  exists c sc',
    snd (Sample.low_poly_args args) = Ok c /\
    snd (LowPoly.texture_stage Sample.host c
           (LowPoly.find_meshes (objects Sample.model)) Sample.model) = Ok sc' /\
    (img_name <$> images sc') = ["wood.png"] /\
    (slots <$> objects sc' !! 1%nat) = Some [1%nat].
Proof.
  cbn zeta.
  set (args := ["in.glb"; "out.glb"; "--glb"; "--apply-texture"; "wood.png";
                "--remove-textures"; "--keep-original-textures"]).
  set (c := parsed Py.int_ascii Py.float_decimal args "in.glb" "out.glb").
  assert (Hc : snd (LowPoly.parse_args Py.int_ascii Py.float_decimal args) = Ok c)
    by (apply parse_args_ok; reflexivity).
  pose proof (apply_texture_decides_the_texture_stage Py.int_ascii Py.float_decimal
                args c "wood.png" Hc eq_refl ltac:(discriminate)
                Sample.host Sample.model) as H.
  cbn [load_image Sample.host Sample.host_of] in H.
  destruct H as (sc' & Hok & Himgs & _ & Hobjs).
  exists c, sc'. split; [exact Hc|]. split; [exact Hok|]. split.
  - rewrite Himgs. reflexivity.
  - rewrite (Hobjs 1%nat _ eq_refl). reflexivity.
Defined.

(** X14 on the preset level 5 with an explicit texture size. *)
Lemma kept_textures_are_left_alone_witness :
  let args := ["in.glb"; "out.glb"; "--glb"; "--quality"; "5"; "--texture-size"; "64"] in
  exists c,
    snd (Sample.low_poly_args args) = Ok c /\
    LowPoly.texture_size c = 64 /\
    snd (LowPoly.texture_stage Sample.host c [1%nat; 2%nat] Sample.model)
    = Ok Sample.model.
Proof.
  cbn zeta.
  set (args := ["in.glb"; "out.glb"; "--glb"; "--quality"; "5"; "--texture-size"; "64"]).
  set (c := parsed Py.int_ascii Py.float_decimal args "in.glb" "out.glb").
  assert (Hc : snd (LowPoly.parse_args Py.int_ascii Py.float_decimal args) = Ok c)
    by (apply parse_args_ok; reflexivity).
  destruct (kept_textures_are_left_alone Py.int_ascii Py.float_decimal args c Hc
              (or_introl eq_refl) eq_refl eq_refl) as (Hstage & _).
  exists c. split; [exact Hc|]. split; [reflexivity|].
  rewrite Hstage. reflexivity.
Defined.

(** ** The texture pass settles *)

Section TexturePass.

Import LowPoly.

Lemma needs_resize_false target img :
  needs_resize target img = false ->
  has_data img = true -> 0 < width img -> 0 < height img ->
  width img <= target /\ height img <= target.
Proof.
  unfold needs_resize. intros H Hd Hw Hh. rewrite Hd in H.
  apply Z.gtb_lt in Hw, Hh. rewrite Hw, Hh in H. cbn [andb] in H.
  apply negb_false_iff, andb_prop in H. destruct H as [H1 H2].
  apply Z.leb_le in H1, H2. auto.
Qed.

Lemma resize_texture_settled target img :
  needs_resize target (resize_texture target img) = false.
Proof.
  unfold resize_texture. destruct (needs_resize target img) eqn:E;
    [apply needs_resize_scaled|exact E].
Qed.

Lemma resize_normal_map_settled target img :
  needs_resize target (resize_normal_map target img) = false.
Proof.
  unfold resize_normal_map. destruct (needs_resize target img) eqn:E;
    [apply (needs_resize_scaled target img)|exact E].
Qed.

(** An image within one target stays within it when it is resized to
    another. *)
Lemma resize_texture_keeps_settled N T img :
  needs_resize N img = false -> needs_resize N (resize_texture T img) = false.
Proof.
  intros HN. unfold resize_texture. destruct (needs_resize T img) eqn:HT; [|exact HN].
  unfold needs_resize in *. cbn [has_data width height scale].
  destruct (has_data img); [|reflexivity]. cbn [andb] in *.
  destruct (Z.gtb_spec (width img) 0); [|discriminate HT].
  destruct (Z.gtb_spec (height img) 0); [|discriminate HT].
  cbn [andb] in *. apply negb_true_iff in HT. apply negb_false_iff in HN.
  apply andb_prop in HN. destruct HN as [H1 H2]. apply Z.leb_le in H1, H2.
  destruct (Z.gtb_spec T 0); [|reflexivity]. cbn [andb].
  apply negb_false_iff. rewrite andb_diag. apply Z.leb_le.
  apply andb_false_iff in HT. destruct HT as [HT|HT]; apply Z.leb_gt in HT; lia.
Qed.

(** A resize loop over images that need no resizing prints nothing and
    changes nothing. *)
Lemma resize_loop_settled label resize target ids imgs :
  (forall i img, In i ids -> imgs !! i = Some img -> needs_resize target img = false) ->
  resize_loop label resize target ids imgs = ([], Ok imgs).
Proof.
  induction ids as [|i rest IH]; intros H; cbn [resize_loop]; [reflexivity|].
  assert (Hrest : resize_loop label resize target rest imgs = ([], Ok imgs)).
  { apply IH. intros j img Hj. apply H. right. exact Hj. }
  destruct (imgs !! i) as [img|] eqn:Hi; [|exact Hrest].
  rewrite (H i img (or_introl eq_refl) Hi). exact Hrest.
Qed.


End TexturePass.

(** ** The objects a run works on *)

Section Objects.

Import LowPoly.

Lemma find_meshes_from_objects objs : forall before,
  lookup_all (find_meshes_from (length before) objs) (before ++ objs)
  = List.filter is_mesh objs /\
  ShadedTexture.find_meshes_from (length before) objs
  = find_meshes_from (length before) objs /\
  Forall (fun i => (length before <= i < length before + length objs)%nat)
    (find_meshes_from (length before) objs) /\
  NoDup (find_meshes_from (length before) objs).
Proof.
  induction objs as [|o objs IH]; intros before.
  - cbn. repeat split; constructor.
  - assert (Hnext :
      (before ++ o :: objs = (before ++ [o]) ++ objs) /\
      (length before + 1)%nat = length (before ++ [o])).
    { rewrite <- app_assoc, length_app. split; reflexivity. }
    destruct Hnext as [Happ Hlen].
    destruct (IH (before ++ [o])) as (Hl & Hs & Hr & Hn).
    rewrite <- Hlen in Hl, Hs, Hr, Hn. rewrite <- Happ in Hl.
    assert (Hr' : Forall (fun i => (length before <= i
                                    < length before + length (o :: objs))%nat)
                    (find_meshes_from (length before + 1) objs)).
    { eapply Forall_impl; [exact Hr|]. cbn. intros i Hi. lia. }
    cbn [find_meshes_from ShadedTexture.find_meshes_from List.filter].
    destruct (is_armature o) eqn:Ha.
    { rewrite (is_armature_not_mesh o Ha). repeat split; assumption. }
    destruct (is_mesh o) eqn:Hm; [|repeat split; assumption].
    split; [|split; [|split]].
    + unfold lookup_all in *. cbn [omap list_omap].
      rewrite lookup_app_r by lia. rewrite Nat.sub_diag. cbn. rewrite Hl. reflexivity.
    + rewrite Hs. reflexivity.
    + constructor; [cbn; lia|exact Hr'].
    + constructor; [|exact Hn]. intros Hin.
      rewrite Forall_forall in Hr. specialize (Hr _ Hin). lia.
Qed.

(** X16: both converters work on the objects of type [MESH], each once
    and in scene order: the positions that either script's search
    returns are the same, they are distinct, and the objects at these
    positions are the mesh objects of the scene. *)
Theorem meshes_are_the_mesh_objects objs :
  lookup_all (find_meshes objs) objs = List.filter is_mesh objs /\
  ShadedTexture.find_meshes_from 0 objs = find_meshes objs /\
  NoDup (find_meshes objs).
Proof.
  destruct (find_meshes_from_objects objs []) as (Hl & Hs & _ & Hn).
  repeat split; assumption.
Qed.

Lemma find_armature_from objs : forall arm,
  fold_left (fun arm o => if is_armature o then Some o else arm) objs arm
  = match List.last (map Some (List.filter is_armature objs)) None with
    | Some a => Some a
    | None => arm
    end.
Proof.
  induction objs as [|o objs IH]; intros arm; [reflexivity|].
  cbn [fold_left List.filter]. rewrite IH.
  destruct (is_armature o); [|reflexivity].
  cbn [map]. destruct (List.filter is_armature objs) as [|a l] eqn:E; [reflexivity|].
  cbn [map]. change (List.last (Some o :: Some a :: map Some l) None)
    with (List.last (Some a :: map Some l) None).
  assert (H : exists b, List.last (Some a :: map Some l) None = Some b).
  { clear. revert a. induction l as [|x l IH]; intros a; [eexists; reflexivity|].
    cbn [map]. change (List.last (Some a :: Some x :: map Some l) None)
      with (List.last (Some x :: map Some l) None). apply IH. }
  destruct H as [b ->]. reflexivity.
Qed.

(** X17: the armature that convert-low-poly.py reports and moves is the
    last object of type [ARMATURE] in scene order; an earlier armature
    is forgotten, and without one there is none. *)
Theorem the_last_armature_is_used objs :
  find_armature objs = List.last (map Some (List.filter is_armature objs)) None /\
  (forall before a after,
     objs = before ++ a :: after -> is_armature a = true ->
     Forall (fun o => is_armature o = false) after ->
     find_armature objs = Some a).
Proof.
  assert (H : find_armature objs
              = List.last (map Some (List.filter is_armature objs)) None).
  { unfold find_armature. rewrite find_armature_from.
    destruct (List.last _ None); reflexivity. }
  split; [exact H|].
  intros before a after -> Ha Hafter. rewrite H. clear H.
  rewrite List.filter_app. cbn [List.filter]. rewrite Ha.
  assert (Hnone : List.filter is_armature after = []).
  { induction Hafter as [|o l Ho _ IH]; [reflexivity|].
    cbn [List.filter]. rewrite Ho. exact IH. }
  rewrite Hnone, map_app. cbn [map]. apply last_last.
Qed.

(** The search for the main mesh, from a candidate [best]. *)
Lemma max_by_vertices_spec rest : forall best,
  let r := max_by_vertices best rest in
  vertices best <= vertices r /\
  Forall (fun o => vertices o <= vertices r) rest /\
  (r = best \/
   exists before after,
     rest = before ++ r :: after /\ vertices best < vertices r /\
     Forall (fun o => vertices o < vertices r) before).
Proof.
  cbn zeta. induction rest as [|o rest IH]; intros best; cbn [max_by_vertices].
  - split; [lia|]. split; [constructor|]. left. reflexivity.
  - destruct (Z.gtb_spec (vertices o) (vertices best)) as [Hgt|Hle].
    + destruct (IH o) as (H1 & H2 & H3). remember (max_by_vertices o rest) as r.
      split; [lia|]. split; [constructor; [exact H1|exact H2]|].
      right. destruct H3 as [Heq|(before & after & Hsplit & Hlt & Hb)].
      * exists [], rest. rewrite Heq. repeat split; [lia|constructor].
      * exists (o :: before), after. split; [cbn; f_equal; exact Hsplit|].
        split; [lia|]. constructor; [exact Hlt|exact Hb].
    + destruct (IH best) as (H1 & H2 & H3). remember (max_by_vertices best rest) as r.
      split; [exact H1|]. split; [constructor; [lia|exact H2]|].
      destruct H3 as [Heq|(before & after & Hsplit & Hlt & Hb)]; [left; exact Heq|].
      right. exists (o :: before), after. split; [cbn; f_equal; exact Hsplit|].
      split; [exact Hlt|]. constructor; [lia|exact Hb].
Qed.

(** X18: the mesh that gives the bounding box of the origin fix is a
    mesh with the most vertices, and among those the first in scene
    order: every mesh before it has fewer vertices, none has more. *)
Theorem main_mesh_has_the_most_vertices first others :
  exists before after,
    first :: others = before ++ max_by_vertices first others :: after /\
    Forall (fun o => vertices o < vertices (max_by_vertices first others)) before /\
    Forall (fun o => vertices o <= vertices (max_by_vertices first others)) after.
Proof.
  destruct (max_by_vertices_spec others first) as (H1 & H2 & H3).
  remember (max_by_vertices first others) as r.
  destruct H3 as [Heq|(before & after & Hsplit & Hlt & Hb)].
  - exists [], others. split; [rewrite Heq; reflexivity|].
    split; [constructor|exact H2].
  - exists (first :: before), after. split; [cbn; f_equal; exact Hsplit|].
    split; [constructor; [exact Hlt|exact Hb]|].
    rewrite Hsplit in H2. apply Forall_app in H2. destruct H2 as [_ H2].
    inversion H2; assumption.
Qed.

End Objects.

(** X17 on a scene with two armatures. *)
Lemma the_last_armature_is_used_witness :
  let rig name := {| obj_name := name; obj_type := "ARMATURE"; parent_type := None;
                     slots := []; vertices := 0; bound_box := [] |} in
  LowPoly.find_armature (rig "A" :: objects Sample.model ++ [rig "B"]) = Some (rig "B").
Proof.
  cbn zeta.
  apply (proj2 (the_last_armature_is_used _)
           ({| obj_name := "A"; obj_type := "ARMATURE"; parent_type := None;
               slots := []; vertices := 0; bound_box := [] |} :: objects Sample.model)
           _ []); [reflexivity|reflexivity|constructor].
Defined.

(** ** The origin fix of convert-low-poly.py *)

Section OriginFix.

Import LowPoly.

Lemma origin_to_cursor_is objs :
  snd (origin_to_cursor objs) = Ok tt /\
  calls (origin_to_cursor objs) = flat_map origin_calls_of objs.
Proof.
  induction objs as [|o rest [IHs IHc]]; [split; reflexivity|].
  cbn [origin_to_cursor flat_map]. unfold origin_calls_of at 1.
  assert (Hmove :
    let m := match parent_type o with
             | Some t => if (t =? "ARMATURE")%string then mret tt
                         else call (SetLocationZero (obj_name o))
             | None => call (SetLocationZero (obj_name o))
             end in
    snd m = Ok tt /\
    calls m = if parent_is_armature o then [] else [SetLocationZero (obj_name o)]).
  { cbn zeta. unfold parent_is_armature. destruct (parent_type o) as [t|].
    - destruct (t =? "ARMATURE")%string; split; reflexivity.
    - split; reflexivity. }
  cbn zeta in Hmove. destruct Hmove as [Hs Hc]. split.
  - do 2 rewrite (bind_snd_ok (call _) _ tt eq_refl).
    rewrite (bind_snd_ok _ _ tt Hs). exact IHs.
  - do 2 rewrite calls_call. rewrite (calls_bind_ok _ _ tt Hs), Hc, IHc.
    reflexivity.
Qed.

(** X19: the origin fix, when it is on and the scene has a mesh, puts
    the cursor at the bottom centre of the main mesh's bounding box,
    then moves the origin of the armature, if there is one, to the
    cursor and the armature to the world origin, then the origin of
    every mesh in scene order; a mesh goes to the world origin unless
    its parent is an armature.  Without a mesh it does nothing, armature
    or not. *)
Theorem origin_fix_calls c armature meshes :
  fix_origin c = true ->
  calls (fix_model_origin c armature meshes) =
  match meshes with
  | [] => []
  | first :: others =>
      match bottom_center (bound_box (max_by_vertices first others)) with
      | Some (x, y, z) =>
          SetCursor x y z ::
          match armature with
          | Some a => [SelectAll "DESELECT"; OriginToCursor (obj_name a);
                       SetLocationZero (obj_name a)]
          | None => []
          end ++ flat_map origin_calls_of meshes
      | None => []
      end
  end.
Proof.
  intros Hfix. unfold fix_model_origin. destruct meshes as [|first others]; [reflexivity|].
  rewrite Hfix. destruct (bottom_center _) as [[[x y] z]|]; [|reflexivity].
  rewrite calls_call, calls_print. f_equal.
  destruct (origin_to_cursor_is (first :: others)) as [Hs Hc].
  match goal with
  | |- calls (?m ≫= ?f) = _ =>
      rewrite (calls_bind_ok m f tt) by (destruct armature; reflexivity)
  end.
  f_equal; [destruct armature; reflexivity|].
  rewrite (calls_bind_ok _ _ tt Hs), Hc. apply app_nil_r.
Qed.

End OriginFix.

(** X19 on the sample model: the body is skinned and stays, the prop
    goes to the world origin. *)
Lemma origin_fix_calls_witness :
  exists c,
    snd (Sample.low_poly_args ["in.glb"; "out.glb"; "--glb"]) = Ok c /\
    calls (LowPoly.fix_model_origin c
             (LowPoly.find_armature (objects Sample.model))
             (LowPoly.lookup_all (LowPoly.find_meshes (objects Sample.model))
                (objects Sample.model)))
    = [ SetCursor 0 0 0;
        SelectAll "DESELECT"; OriginToCursor "Armature"; SetLocationZero "Armature";
        SelectAll "DESELECT"; OriginToCursor "Body";
        SelectAll "DESELECT"; OriginToCursor "Prop"; SetLocationZero "Prop" ].
Proof.
  exists (parsed Py.int_ascii Py.float_decimal ["in.glb"; "out.glb"; "--glb"]
            "in.glb" "out.glb").
  split; [apply parse_args_ok; reflexivity|].
  rewrite origin_fix_calls by reflexivity.
  vm_compute. reflexivity.
Defined.

(** ** More on apply-shaded-texture.py *)

Lemma index_first flag before rest :
  ~ In flag before -> Py.index flag (before ++ flag :: rest) = Some (length before).
Proof.
  intros Hnot. induction before as [|x l IH]; cbn.
  - rewrite String.eqb_refl. reflexivity.
  - destruct (String.eqb_spec x flag) as [->|Hne]; [exfalso; apply Hnot; left; reflexivity|].
    rewrite IH; [reflexivity|]. intros Hin. apply Hnot. right. exact Hin.
Qed.

Lemma index_Some_contains flag args idx :
  Py.index flag args = Some idx -> Py.contains flag args = true.
Proof.
  intros H. apply contains_In. revert idx H.
  induction args as [|y l IH]; intros idx; cbn [Py.index]; [discriminate|].
  destruct (String.eqb_spec y flag) as [->|Hne]; [left; reflexivity|].
  destruct (Py.index flag l) as [i|]; [|discriminate].
  intros _. right. apply (IH i). reflexivity.
Qed.

Section ShadedMore.

Variable py_float : string -> option float.
Variable h : host.

Local Abbreviation parse_args := (ShadedTexture.parse_args py_float).
Local Abbreviation main := (ShadedTexture.main py_float h).

(** The configuration that the argument handling returns, and the
    warning about the colour. *)
Lemma shaded_parse_args_fields args inp out :
  args !! 0%nat = Some inp -> args !! 1%nat = Some out ->
  snd (parse_args args)
  = Ok {| ShadedTexture.input_path := inp; ShadedTexture.output_path := out;
          ShadedTexture.color := requested_color py_float args;
          ShadedTexture.image_path := flag_token "--image" args |} /\
  (forall idx, Py.index "--color" args = Some idx ->
     ShadedTexture.color_tokens py_float args idx = None ->
     In (Printed [Str "[WARNING] Invalid color values, using default."])
        (events (parse_args args))).
Proof.
  intros H0 H1. unfold ShadedTexture.parse_args.
  assert (G0 : snd (getitem args 0) = Ok inp) by (unfold getitem; rewrite H0; reflexivity).
  assert (G1 : snd (getitem args 1) = Ok out) by (unfold getitem; rewrite H1; reflexivity).
  set (color := (if Py.contains "--color" args then _ else _) : script rgba).
  assert (Hcolor : snd color = Ok (requested_color py_float args)).
  { subst color. unfold requested_color.
    destruct (Py.contains "--color" args); [|reflexivity].
    destruct (Py.index "--color" args); [|reflexivity].
    destruct (ShadedTexture.color_tokens py_float args n); reflexivity. }
  set (image := (match flag_token "--image" args with
                 | Some path => _
                 | None => _
                 end : script (option string))).
  assert (Himage : snd image = Ok (flag_token "--image" args))
    by (subst image; destruct (flag_token "--image" args); reflexivity).
  split.
  - rewrite (bind_snd_ok _ _ inp G0), (bind_snd_ok _ _ out G1).
    rewrite (bind_snd_ok _ _ _ Hcolor), (bind_snd_ok _ _ _ Himage).
    rewrite (bind_snd_ok (print _) _ tt eq_refl).
    rewrite (bind_snd_ok (print _) _ tt eq_refl).
    match goal with
    | |- snd (?m ≫= ?f) = _ =>
        rewrite (bind_snd_ok m f tt)
          by (destruct (truthy_path (flag_token "--image" args));
              [|destruct (requested_color py_float args) as [[[r g] b] a]]; reflexivity)
    end.
    reflexivity.
  - intros idx Hidx Hnone.
    eapply events_bind_r; [exact G0|]. eapply events_bind_r; [exact G1|].
    apply events_bind_l. subst color.
    assert (Hc : Py.contains "--color" args = true)
      by (apply (index_Some_contains _ _ idx Hidx)).
    rewrite Hc, Hidx, Hnone. left. reflexivity.
Qed.

(** X20: the colour of apply-shaded-texture.py is the four arguments
    after the first [--color], read as floats without a range check;
    with fewer than four arguments there, or one that is no float, the
    run warns, keeps the default light gray and goes on. *)
Theorem color_is_four_floats_or_the_default before tokens inp out :
  let args := before ++ "--color" :: tokens in
  let warning := Printed [Str "[WARNING] Invalid color values, using default."] in
  ~ In "--color" before ->
  args !! 0%nat = Some inp -> args !! 1%nat = Some out ->
  exists c,
    snd (parse_args args) = Ok c /\
    match tokens with
    | t1 :: t2 :: t3 :: t4 :: _ =>
        match py_float t1, py_float t2, py_float t3, py_float t4 with
        | Some r, Some g, Some b, Some a => ShadedTexture.color c = (r, g, b, a)
        | _, _, _, _ =>
            ShadedTexture.color c = light_gray /\ In warning (events (parse_args args))
        end
    | _ => ShadedTexture.color c = light_gray /\ In warning (events (parse_args args))
    end.
Proof.
  intros args warning Hnot H0 H1.
  destruct (shaded_parse_args_fields args inp out H0 H1) as [Hok Hwarn].
  eexists. split; [exact Hok|]. cbn [ShadedTexture.color].
  assert (Hidx : Py.index "--color" args = Some (length before))
    by (apply index_first; exact Hnot).
  assert (Hc : Py.contains "--color" args = true).
  { apply contains_In. subst args. apply in_or_app. right. left. reflexivity. }
  assert (Hlook : forall k, args !! (length before + S k)%nat = tokens !! k).
  { intros k. subst args. rewrite lookup_app_r by lia.
    replace (length before + S k - length before)%nat with (S k) by lia. reflexivity. }
  unfold requested_color. rewrite Hc, Hidx.
  specialize (Hwarn _ Hidx). revert Hwarn.
  unfold ShadedTexture.color_tokens.
  rewrite (Hlook 0%nat), (Hlook 1%nat), (Hlook 2%nat), (Hlook 3%nat).
  destruct tokens as [|t1 [|t2 [|t3 [|t4 rest]]]]; cbn;
    repeat match goal with
           | |- context [py_float ?t] => destruct (py_float t); cbn
           end;
    intros Hwarn;
    first [reflexivity | split; [reflexivity|apply Hwarn; reflexivity]].
Qed.

End ShadedMore.

Section ShadedRuns.

Variable py_float : string -> option float.
Variable h : host.

Local Abbreviation parse_args := (ShadedTexture.parse_args py_float).
Local Abbreviation main := (ShadedTexture.main py_float h).

Lemma shaded_import_model_tame P c : tame P (ShadedTexture.import_model h c).
Proof. unfold ShadedTexture.import_model. repeat tame_step. Qed.

Lemma shaded_assign_materials_tame P c ms sc :
  tame P (ShadedTexture.assign_materials h c ms sc).
Proof. unfold ShadedTexture.assign_materials. repeat tame_step. Qed.

(** The export of apply-shaded-texture.py, by the output path. *)
Lemma shaded_export_model_is c :
  let out := ShadedTexture.output_path c in
  if supported_output out then
    snd (ShadedTexture.export_model c) = Ok tt /\
    exports (ShadedTexture.export_model c) = [Call (shaded_export_call out)]
  else
    snd (ShadedTexture.export_model c) = Stopped (SysExit 1) /\
    exports (ShadedTexture.export_model c) = [].
Proof.
  cbn zeta. unfold supported_output, shaded_export_call, ShadedTexture.export_model.
  destruct (Py.endswith _ ".fbx"); cbn [orb]; [split; reflexivity|].
  destruct (Py.endswith _ ".glb"); cbn [orb]; [split; reflexivity|].
  destruct (Py.endswith _ ".gltf"); split; reflexivity.
Qed.

(** A run with both paths exports what its export stage exports, if it
    gets there. *)
Lemma shaded_main_exports argv inp out :
  Py.contains "--" argv = true ->
  script_args argv !! 0%nat = Some inp -> script_args argv !! 1%nat = Some out ->
  exists (c : ShadedTexture.config) (reached : bool),
    ShadedTexture.output_path c = out /\
    exports (main argv)
    = (if reached then exports (ShadedTexture.export_model c) else []) /\
    (forall u, snd (main argv) = Ok u ->
       reached = true /\ snd (ShadedTexture.export_model c) = Ok u).
Proof.
  intros Hsep H0 H1. unfold ShadedTexture.main. rewrite Hsep. cbn [negb].
  destruct (shaded_parse_args_fields py_float (script_args argv) inp out H0 H1)
    as [Hc _].
  exists {| ShadedTexture.input_path := inp; ShadedTexture.output_path := out;
            ShadedTexture.color := requested_color py_float (script_args argv);
            ShadedTexture.image_path := flag_token "--image" (script_args argv) |}.
  rewrite exports_bind, Hc.
  rewrite (prints_only_exports _ (shaded_parse_args_prints_only py_float _)).
  rewrite (bind_snd_ok _ _ _ Hc). cbn [app].
  match goal with
  | |- context [exports (?m ≫= ?f)] =>
      rewrite (exports_bind m f), (tame_no_exports m (shaded_import_model_tame _ _));
      destruct (snd m) as [sc|s] eqn:Hi;
      [rewrite (bind_snd_ok m f sc Hi)
      |exists false; rewrite (bind_snd_stopped m f s Hi);
       split; [reflexivity|split; [reflexivity|discriminate]]]
  end.
  rewrite exports_print. rewrite (bind_snd_ok (print _) _ tt eq_refl). cbn [app].
  match goal with
  | |- context [exports (?m ≫= ?f)] =>
      rewrite (exports_bind m f), (tame_no_exports m (shaded_assign_materials_tame _ _ _ _));
      destruct (snd m) as [sc'|s] eqn:Ha;
      [rewrite (bind_snd_ok m f sc' Ha)
      |exists false; rewrite (bind_snd_stopped m f s Ha);
       split; [reflexivity|split; [reflexivity|discriminate]]]
  end.
  exists true. split; [reflexivity|]. split; [reflexivity|]. auto.
Qed.

(** X21: apply-shaded-texture.py looks at the extension of the output
    path last, in lower case.  A run that goes through has exported
    exactly once: with the FBX exporter for [.fbx], with the glTF
    exporter in the format [GLB] for [.glb] and [GLTF] for [.gltf].
    With any other output path no run goes through and none exports a
    file. *)
Theorem shaded_output_extension_decides argv inp out :
  Py.contains "--" argv = true ->
  script_args argv !! 0%nat = Some inp -> script_args argv !! 1%nat = Some out ->
  (forall u, snd (main argv) = Ok u ->
     supported_output out = true /\
     exports (main argv) = [Call (shaded_export_call out)]) /\
  (supported_output out = false ->
     exports (main argv) = [] /\ forall u, snd (main argv) <> Ok u).
Proof.
  intros Hsep H0 H1.
  destruct (shaded_main_exports argv inp out Hsep H0 H1)
    as (c & reached & Hout & Hex & Hret).
  pose proof (shaded_export_model_is c) as Hexport. cbn zeta in Hexport.
  rewrite Hout in Hexport. split.
  - intros u Hu. destruct (Hret u Hu) as [-> Hs]. rewrite Hex.
    destruct (supported_output out); destruct Hexport as [Hs' He]; [|congruence].
    split; [reflexivity|exact He].
  - intros Hbad. rewrite Hbad in Hexport. destruct Hexport as [Hs He]. split.
    + rewrite Hex, He. destruct reached; reflexivity.
    + intros u Hu. destruct (Hret u Hu) as [_ Hs']. congruence.
Qed.

(** X22: the material stage of apply-shaded-texture.py leaves one
    material on every mesh and no image but the one it loads.  With an
    image (a path that is not empty) the material is the image-texture
    material and the colour is not looked at; without one it is a
    diffuse material of the requested colour and every image is
    removed.  Objects that are no meshes stay as they are. *)
Theorem shaded_material_on_every_mesh args inp out sc :
  args !! 0%nat = Some inp -> args !! 1%nat = Some out ->
  exists c,
    snd (parse_args args) = Ok c /\
    match truthy_path (flag_token "--image" args) with
    | Some path =>
        match load_image h path with
        | inl img =>
            exists sc',
              snd (ShadedTexture.assign_materials h c
                     (ShadedTexture.find_meshes_from 0 (objects sc)) sc) = Ok sc' /\
              images sc' = [img] /\
              materials sc' = materials sc ++ [image_texture_material] /\
              forall i o, objects sc !! i = Some o ->
                objects sc' !! i
                = Some (if is_mesh o then set_slots [length (materials sc)] o else o)
        | inr e =>
            snd (ShadedTexture.assign_materials h c
                   (ShadedTexture.find_meshes_from 0 (objects sc)) sc)
            = Stopped (SysExit 1)
        end
    | None =>
        exists sc',
          snd (ShadedTexture.assign_materials h c
                 (ShadedTexture.find_meshes_from 0 (objects sc)) sc) = Ok sc' /\
          images sc' = [] /\
          materials sc'
          = materials sc
            ++ [diffuse_material "ShadedMaterial" (requested_color py_float args)] /\
          forall i o, objects sc !! i = Some o ->
            objects sc' !! i
            = Some (if is_mesh o then set_slots [length (materials sc)] o else o)
    end.
Proof.
  intros H0 H1.
  destruct (shaded_parse_args_fields py_float args inp out H0 H1) as [Hc _].
  eexists. split; [exact Hc|].
  destruct (find_meshes_from_objects (objects sc) []) as (_ & Hsame & _).
  cbn [length] in Hsame. rewrite Hsame. fold (LowPoly.find_meshes (objects sc)).
  unfold ShadedTexture.assign_materials. cbn [ShadedTexture.image_path ShadedTexture.color].
  destruct (truthy_path (flag_token "--image" args)) as [path|].
  - destruct (load_image h path) as [img|e]; [|reflexivity].
    eexists. split; [reflexivity|].
    cbn [images materials objects set_objects set_images set_materials].
    split; [reflexivity|]. split; [reflexivity|].
    intros i o Hi. apply assign_material_meshes. exact Hi.
  - eexists. split; [reflexivity|].
    cbn [images materials objects set_objects set_images set_materials].
    split; [reflexivity|]. split; [reflexivity|].
    intros i o Hi. apply assign_material_meshes. exact Hi.
Qed.

End ShadedRuns.

(** X20 on a colour with three numbers only, and on one with four. *)
Lemma color_is_four_floats_or_the_default_witness :
  (exists c,
     snd (ShadedTexture.parse_args Py.float_decimal
            ["in.glb"; "out.glb"; "--color"; "1"; "0"; "0"]) = Ok c /\
     ShadedTexture.color c = light_gray) /\
  (exists c,
     snd (ShadedTexture.parse_args Py.float_decimal
            ["in.glb"; "out.glb"; "--color"; "1"; "0.5"; "0"; "2"]) = Ok c /\
     ShadedTexture.color c = (1, 0.5, 0, 2)%float).
Proof.
  split.
  - destruct (color_is_four_floats_or_the_default Py.float_decimal
                ["in.glb"; "out.glb"] ["1"; "0"; "0"] "in.glb" "out.glb")
      as (c & Hc & Hcolor & _);
      [intros [H|[H|[]]]; discriminate H|reflexivity|reflexivity|].
    exists c. split; [exact Hc|exact Hcolor].
  - destruct (color_is_four_floats_or_the_default Py.float_decimal
                ["in.glb"; "out.glb"] ["1"; "0.5"; "0"; "2"] "in.glb" "out.glb")
      as (c & Hc & Hcolor);
      [intros [H|[H|[]]]; discriminate H|reflexivity|reflexivity|].
    exists c. split; [exact Hc|]. exact Hcolor.
Defined.

(** X21 on a run to a [.gltf] file. *)
Lemma shaded_output_extension_decides_witness :
  let argv := ["blender"; "--"; "in.fbx"; "Out.GLTF"] in
  snd (Sample.shaded_texture argv) = Ok tt /\
  exports (Sample.shaded_texture argv) = [Call (ExportGltfAs "Out.GLTF" "GLTF")].
Proof.
  cbn zeta.
  assert (H : snd (Sample.shaded_texture ["blender"; "--"; "in.fbx"; "Out.GLTF"]) = Ok tt)
    by (vm_compute; reflexivity).
  split; [exact H|].
  destruct (shaded_output_extension_decides Py.float_decimal Sample.host
              ["blender"; "--"; "in.fbx"; "Out.GLTF"] "in.fbx" "Out.GLTF"
              eq_refl eq_refl eq_refl) as [Hret _].
  destruct (Hret tt H) as [_ He]. exact He.
Defined.

(** X22 on the sample model with a colour. *)
Lemma shaded_material_on_every_mesh_witness :
  let args := ["in.glb"; "out.glb"; "--color"; "1"; "0"; "0"; "1"] in
  exists c sc',
    snd (ShadedTexture.parse_args Py.float_decimal args) = Ok c /\
    snd (ShadedTexture.assign_materials Sample.host c
           (ShadedTexture.find_meshes_from 0 (objects Sample.model)) Sample.model)
    = Ok sc' /\
    images sc' = [] /\
    materials sc' !! 1%nat = Some (diffuse_material "ShadedMaterial" (1, 0, 0, 1)%float) /\
    (slots <$> objects sc' !! 2%nat) = Some [1%nat].
Proof.
  cbn zeta.
  destruct (shaded_material_on_every_mesh Py.float_decimal Sample.host
              ["in.glb"; "out.glb"; "--color"; "1"; "0"; "0"; "1"] "in.glb" "out.glb"
              Sample.model eq_refl eq_refl) as (c & Hc & Hm).
  cbn [truthy_path] in Hm.
  change (flag_token "--image" ["in.glb"; "out.glb"; "--color"; "1"; "0"; "0"; "1"])
    with (@None string) in Hm.
  destruct Hm as (sc' & Hok & Himgs & Hmats & Hobjs).
  exists c, sc'. split; [exact Hc|]. split; [exact Hok|]. split; [exact Himgs|].
  split.
  - rewrite Hmats. vm_compute. reflexivity.
  - rewrite (Hobjs 2%nat _ eq_refl). reflexivity.
Defined.

(** ** More on the generated scene *)

Section SceneMore.

Import LodScene.

(** X23: from any state, the inner loop of the generator appends one
    entity for each cell of its row, in order and with consecutive
    identifiers, and leaves the row at the cell where the identifier
    would pass 1000: with the identifier [id] it takes the first
    [min (len(zs), 1001 - id)] cells, and none once [id] is above
    1000. *)
Theorem inner_loop_appends_consecutive x zs entity_id entities :
  let k := Nat.min (length zs) (Z.to_nat (1001 - entity_id)) in
  inner_loop x zs (entity_id, entities)
  = (entity_id + Z.of_nat k,
     entities
     ++ imap (fun j z => grid_entity x z (entity_id + Z.of_nat j)) (take k zs)).
Proof.
  revert entity_id entities.
  induction zs as [|z rest IH]; intros entity_id entities; cbn [inner_loop length].
  - cbn. rewrite Z.add_0_r, app_nil_r. reflexivity.
  - destruct (entity_id >? 1000) eqn:E.
    + apply Z.gtb_lt in E.
      replace (Z.to_nat (1001 - entity_id)) with 0%nat by lia.
      rewrite Nat.min_0_r. cbn. rewrite Z.add_0_r, app_nil_r. reflexivity.
    + assert (Hle : entity_id <= 1000)
        by (destruct (Z.gtb_spec entity_id 1000); [discriminate E|lia]).
      rewrite IH. cbv zeta.
      replace (Z.to_nat (1001 - entity_id))
        with (S (Z.to_nat (1001 - (entity_id + 1)))) by lia.
      rewrite <- Nat.succ_min_distr. cbn [take imap].
      rewrite <- app_assoc. cbn [app]. f_equal; [lia|].
      f_equal. rewrite Z.add_0_r. f_equal.
      apply imap_ext. intros j z' _. cbn. f_equal. lia.
Qed.

(** X24: whatever its cell and identifier, a grid entity has the two
    distance thresholds [5 + id mod 5] and [15 + id mod 10]: the first
    lies in [5, 9], the second in [15, 24], so the first is always the
    smaller, and the model of its mesh is one of the ten with the index
    [id mod 10]. *)
Theorem lod_thresholds_are_ordered x z n :
  exists lod mesh near far,
    (field "components" (grid_entity x z n) ≫= field "LODComponent") = Some lod /\
    (field "components" (grid_entity x z n) ≫= field "MeshRenderer") = Some mesh /\
    field "distance_thresholds" lod = Some (PList [PInt near; PInt far]) /\
    5 <= near <= 9 /\ 15 <= far <= 24 /\ near < far /\
    field "path" lod = field "mesh_path" mesh /\
    field "mesh_path" mesh
    = Some (PStr ("models/performance_obj_" ++ Py.str_of_Z (n mod 10) ++ ".glb")) /\
    0 <= n mod 10 <= 9.
Proof.
  do 2 eexists. exists (5 + n mod 5), (15 + n mod 10).
  split; [reflexivity|]. split; [reflexivity|]. split; [reflexivity|].
  pose proof (Z.mod_pos_bound n 5 ltac:(lia)).
  pose proof (Z.mod_pos_bound n 10 ltac:(lia)).
  repeat split; try lia; reflexivity.
Qed.

End SceneMore.

(** ** fix-origin-bottom.py *)

(** *** Reasoning on runs *)

Section FixOriginRuns.

Import FixOrigin.

Lemma holds_bind {A B} (m : run A) (f : A -> run B) w Phi :
  holds m w (fun evs r =>
    match r with
    | Ok (a, w1) => holds (f a) w1 (fun evs' r' => Phi (evs ++ evs') r')
    | Stopped s => Phi evs (Stopped s)
    end) ->
  holds (m ≫= f) w Phi.
Proof.
  unfold holds, mbind, run_bind. destruct (m w) as [evs [[a w1]|s]]; cbn [fst snd].
  - destruct (f a w1) as [evs' r']. auto.
  - auto.
Qed.

Lemma holds_impl {A} (m : run A) w (Phi Psi : list event -> result (A * world) -> Prop) :
  holds m w Phi -> (forall evs r, Phi evs r -> Psi evs r) -> holds m w Psi.
Proof. unfold holds. auto. Qed.

Lemma marks_app evs evs' : marks (evs ++ evs') = marks evs ++ marks evs'.
Proof. apply List.filter_app. Qed.

Lemma filter_marks (p : event -> bool) evs :
  (forall e, p e = true -> is_export e || is_move e = true) ->
  List.filter p evs = List.filter p (marks evs).
Proof.
  intros Hp. unfold marks. induction evs as [|e evs IH]; [reflexivity|].
  cbn [List.filter]. destruct (p e) eqn:E.
  - rewrite (Hp e E). cbn [List.filter]. rewrite E, IH. reflexivity.
  - destruct (is_export e || is_move e); cbn [List.filter]; rewrite ?E; exact IH.
Qed.

Lemma exports_marks evs : List.filter is_export evs = List.filter is_export (marks evs).
Proof. apply filter_marks. intros e ->. reflexivity. Qed.

Lemma moves_marks evs : List.filter is_move evs = List.filter is_move (marks evs).
Proof. apply filter_marks. intros e ->. apply orb_true_r. Qed.

Lemma keeps_refl w : keeps w w.
Proof. split; [reflexivity|]. intros i o H. exists o. auto. Qed.

Lemma keeps_trans w1 w2 w3 : keeps w1 w2 -> keeps w2 w3 -> keeps w1 w3.
Proof.
  intros [L1 H1] [L2 H2]. split; [congruence|].
  intros i o Hi. destruct (H1 i o Hi) as (o2 & Hi2 & T2 & P2).
  destruct (H2 i o2 Hi2) as (o3 & Hi3 & T3 & P3).
  exists o3. split; [exact Hi3|]. split; [congruence|].
  destruct P2 as [P2|[E2 P2]], P3 as [P3|[E3 P3]];
    [left; congruence|right; split; congruence..].
Qed.

(** A pointwise change of the objects that keeps types and presence. *)
Lemma keeps_imap (F : nat -> obj -> obj) w :
  (forall i o, type (F i o) = type o /\ present (F i o) = present o) ->
  keeps w (set_objects (imap F (objects w)) w).
Proof.
  intros HF. split; [apply length_imap|].
  intros i o Hi. exists (F i o). cbn [objects set_objects].
  rewrite list_lookup_imap, Hi. split; [reflexivity|].
  destruct (HF i o) as [-> ->]. auto.
Qed.

Lemma keeps_objects_eq w w' : objects w' = objects w -> keeps w w'.
Proof.
  intros E. split; [rewrite E; reflexivity|].
  intros i o Hi. exists o. rewrite E. auto.
Qed.

Lemma keeps_alter f i w :
  (forall o, type (f o) = type o /\ present (f o) = present o) ->
  keeps w (set_objects (alter f i (objects w)) w).
Proof.
  intros Hf. split; [apply length_alter|].
  intros j o Hj. cbn [objects set_objects].
  destruct (Nat.eq_dec i j) as [->|Hne].
  - exists (f o). rewrite list_lookup_alter_eq, Hj. split; [reflexivity|].
    destruct (Hf o) as [-> ->]. auto.
  - exists o. rewrite list_lookup_alter_ne by exact Hne. auto.
Qed.

Lemma calmly_refl w : calmly w w.
Proof. split; [apply keeps_refl|intros i; reflexivity]. Qed.

Lemma calmly_trans w1 w2 w3 : calmly w1 w2 -> calmly w2 w3 -> calmly w1 w3.
Proof.
  intros [K1 P1] [K2 P2]. split; [eapply keeps_trans; eassumption|].
  intros i. rewrite P2. apply P1.
Qed.

Section Does.

Variable R : world -> world -> Prop.
Hypothesis R_refl : forall w, R w w.
Hypothesis R_trans : forall w1 w2 w3, R w1 w2 -> R w2 w3 -> R w1 w3.

Lemma does_bind ms1 ms2 {A B} (m : run A) (f : A -> run B) w :
  does R ms1 m w -> (forall a w', R w w' -> does R ms2 (f a) w') ->
  does R (ms1 ++ ms2) (m ≫= f) w.
Proof.
  intros Hm Hf. apply holds_bind.
  refine (holds_impl m w
            (fun evs r => exists a w', r = Ok (a, w') /\ marks evs = ms1 /\ R w w')
            _ Hm _).
  intros evs r (a & w1 & -> & Hs & Hk).
  refine (holds_impl (f a) w1
            (fun evs r => exists b w', r = Ok (b, w') /\ marks evs = ms2 /\ R w1 w')
            _ (Hf a w1 Hk) _).
  intros evs' r' (b & w2 & -> & Hs' & Hk').
  exists b, w2. split; [reflexivity|]. split; [rewrite marks_app; congruence|].
  eapply R_trans; eassumption.
Qed.

Lemma steady_bind {A B} (m : run A) (f : A -> run B) w :
  does R [] m w -> (forall a w', R w w' -> does R [] (f a) w') ->
  does R [] (m ≫= f) w.
Proof. apply (does_bind [] []). Qed.

Lemma steady_ret {A} (a : A) w : does R [] (mret a) w.
Proof. exists a, w. split; [reflexivity|]. split; [reflexivity|apply R_refl]. Qed.

Lemma steady_print line w : does R [] (print line) w.
Proof. exists tt, w. split; [reflexivity|]. split; [reflexivity|apply R_refl]. Qed.

Lemma does_call c w :
  does R (marks [Call c]) (call c) w.
Proof. exists tt, w. split; [reflexivity|]. split; [reflexivity|apply R_refl]. Qed.

Lemma steady_get w : does R [] get_world w.
Proof. exists w, w. split; [reflexivity|]. split; [reflexivity|apply R_refl]. Qed.

Lemma steady_modify f w : R w (f w) -> does R [] (modify f) w.
Proof. intros H. exists tt, (f w). split; [reflexivity|]. split; [reflexivity|exact H]. Qed.

Lemma steady_transform_apply w : does R [] transform_apply w.
Proof.
  apply steady_bind; [apply steady_get|intros w1 w' _]. apply (does_call (TransformApply _)).
Qed.

Lemma steady_origin_set w : does R [] origin_set w.
Proof.
  apply steady_bind; [apply steady_get|intros w1 w' _]. apply (does_call (OriginSet _)).
Qed.

End Does.

Lemma does_weaken (R R' : world -> world -> Prop) ms {A} (m : run A) w :
  (forall w', R w w' -> R' w w') -> does R ms m w -> does R' ms m w.
Proof.
  intros HR Hm.
  refine (holds_impl m w
            (fun evs r => exists a w', r = Ok (a, w') /\ marks evs = ms /\ R w w')
            _ Hm _).
  intros evs r (a & w' & -> & Hs & Hk). exists a, w'. auto.
Qed.

Lemma calm_select_set i v w : does calmly [] (select_set i v) w.
Proof.
  apply steady_modify. split.
  - apply keeps_alter. intros o. split; reflexivity.
  - intros j. cbn [objects set_objects]. destruct (Nat.eq_dec i j) as [->|Hne].
    + rewrite list_lookup_alter_eq. destruct (objects w !! j); reflexivity.
    + rewrite list_lookup_alter_ne by exact Hne. reflexivity.
Qed.

Lemma calm_make_active i w : does calmly [] (make_active i) w.
Proof.
  apply steady_modify. split; [apply keeps_objects_eq; reflexivity|].
  intros j. reflexivity.
Qed.

Lemma calm_select_all action w : does calmly [] (select_all action) w.
Proof.
  apply (steady_bind calmly calmly_trans);
    [apply (does_call calmly calmly_refl (SelectAll _))|intros _ w' _].
  apply steady_modify. split.
  - split; [apply length_map|].
    intros i o Hi. cbn [objects set_objects]. rewrite list_lookup_fmap, Hi.
    cbn [fmap option_fmap option_map].
    destruct (present o) eqn:E; eexists; (split; [reflexivity|]); cbn; rewrite ?E; auto.
  - intros i. cbn [objects set_objects]. rewrite list_lookup_fmap.
    destruct (objects w' !! i) as [o|]; [|reflexivity]. cbn.
    destruct (present o); reflexivity.
Qed.

Lemma fine_parent_clear w : does keeps [] parent_clear w.
Proof.
  apply (steady_bind keeps keeps_trans); [apply (steady_get keeps keeps_refl)|intros w1 w' _].
  apply (steady_bind keeps keeps_trans);
    [apply (does_call keeps keeps_refl (ParentClear _))|intros _ w2 _].
  apply steady_modify, keeps_imap. intros i o. destruct (mem i _); split; reflexivity.
Qed.

Lemma fine_rename i new w : does keeps [] (rename i new) w.
Proof.
  apply (steady_bind keeps keeps_trans);
    [apply (does_call keeps keeps_refl (Rename _ _))|intros _ w2 _].
  apply steady_modify, keeps_imap. intros j o.
  destruct (j =? i)%nat; [split; reflexivity|].
  destruct (parent o) as [p|]; [|split; reflexivity].
  destruct (l_obj p =? i)%nat; split; reflexivity.
Qed.

Lemma fine_of_calm ms {A} (m : run A) w : does calmly ms m w -> does keeps ms m w.
Proof. apply does_weaken. intros w' [H _]. exact H. Qed.

End FixOriginRuns.

(** Steps of a fragment that is steady for [keeps], and for [calmly]. *)
Ltac fine_step :=
  first
    [ apply (steady_transform_apply keeps keeps_refl keeps_trans)
    | apply (steady_origin_set keeps keeps_refl keeps_trans)
    | apply fine_parent_clear
    | apply fine_rename
    | apply fine_of_calm, calm_select_set
    | apply fine_of_calm, calm_select_all
    | apply fine_of_calm, calm_make_active
    | apply (steady_ret keeps keeps_refl)
    | apply (steady_print keeps keeps_refl)
    | apply (steady_get keeps keeps_refl)
    | apply (steady_bind keeps keeps_trans); [|intros ? ? ?] ].

Ltac calm_step :=
  first
    [ apply (steady_transform_apply calmly calmly_refl calmly_trans)
    | apply (steady_origin_set calmly calmly_refl calmly_trans)
    | apply calm_select_set
    | apply calm_select_all
    | apply calm_make_active
    | apply (steady_ret calmly calmly_refl)
    | apply (steady_print calmly calmly_refl)
    | apply (steady_get calmly calmly_refl)
    | apply (steady_bind calmly calmly_trans); [|intros ? ? ?] ].

Section FixOriginLoops.

Import FixOrigin.

Lemma fine_print_objects ids : forall w, does keeps [] (print_objects ids) w.
Proof.
  induction ids as [|i rest IH]; intros w; cbn [print_objects]; [fine_step|].
  fine_step; [fine_step|]. destruct (objects a !! i); [|apply IH].
  fine_step; [fine_step|apply IH].
Qed.

Lemma fine_fix_root_node ids : forall w, does keeps [] (fix_root_node ids) w.
Proof.
  induction ids as [|i rest IH]; intros w; cbn [fix_root_node]; [fine_step|].
  fine_step; [fine_step|]. destruct (objects a !! i) as [o|]; [|apply IH].
  destruct (_ && _); [|apply IH]. repeat fine_step.
Qed.

Lemma fine_unparent_from_empties ids : forall w,
  does keeps [] (unparent_from_empties ids) w.
Proof.
  induction ids as [|i rest IH]; intros w; cbn [unparent_from_empties]; [fine_step|].
  fine_step; [fine_step|]. destruct (objects a !! i) as [o|]; [|apply IH].
  fine_step; [|apply IH]. destruct (_ && _); repeat fine_step.
Qed.

End FixOriginLoops.

Section FixOriginScene.

Import FixOrigin.

Lemma in_scene_objects keep w i :
  In i (scene_objects keep w) <->
  exists o, objects w !! i = Some o /\ present o = true /\ keep o = true.
Proof.
  unfold scene_objects. rewrite filter_In, in_seq. split.
  - intros [_ H]. destruct (objects w !! i) as [o|]; [|discriminate].
    apply andb_prop in H. exists o. tauto.
  - intros (o & Hi & Hp & Hk). split.
    + apply lookup_lt_Some in Hi. lia.
    + rewrite Hi, Hp, Hk. reflexivity.
Qed.

Lemma position_mem_In i l : FixOrigin.mem i l = true <-> In i l.
Proof.
  unfold FixOrigin.mem. rewrite existsb_exists. split.
  - intros [j [Hj E]]. apply Nat.eqb_eq in E. subst. exact Hj.
  - intros H. exists i. split; [exact H|apply Nat.eqb_refl].
Qed.

(** The objects of a type other than [EMPTY] stay the same under
    [keeps]. *)
Lemma keeps_scene_objects t w w' :
  keeps w w' -> t <> "EMPTY" ->
  scene_objects (has_type t) w' = scene_objects (has_type t) w.
Proof.
  intros [Hlen Hk] Ht. unfold scene_objects. rewrite Hlen.
  apply List.filter_ext_in. intros i Hi. apply in_seq in Hi.
  destruct (lookup_lt_is_Some_2 (objects w) i ltac:(lia)) as [o Ho].
  destruct (Hk i o Ho) as (o' & Ho' & Hty & Hp). rewrite Ho, Ho'.
  unfold has_type. rewrite Hty.
  destruct Hp as [->|[He Hp]]; [reflexivity|].
  rewrite Hp, He. cbn [andb].
  destruct (String.eqb_spec "EMPTY" t) as [E|_]; [congruence|].
  symmetry. apply andb_false_r.
Qed.

(** No empty comes into a scene under [keeps]. *)
Lemma keeps_no_empties w w' :
  keeps w w' -> scene_objects (has_type "EMPTY") w = [] ->
  scene_objects (has_type "EMPTY") w' = [].
Proof.
  intros [Hlen Hk] Hnone.
  destruct (scene_objects (has_type "EMPTY") w') as [|i l] eqn:E; [reflexivity|].
  exfalso.
  assert (Hin : In i (scene_objects (has_type "EMPTY") w')) by (rewrite E; left; reflexivity).
  apply in_scene_objects in Hin. destruct Hin as (o' & Ho' & Hp' & Ht').
  assert (Hlt : (i < length (objects w))%nat)
    by (rewrite <- Hlen; eapply lookup_lt_Some; eauto).
  destruct (lookup_lt_is_Some_2 _ _ Hlt) as [o Ho].
  destruct (Hk i o Ho) as (o2 & Ho2 & Hty & Hp). rewrite Ho' in Ho2. injection Ho2 as <-.
  assert (Hin : In i (scene_objects (has_type "EMPTY") w)).
  { apply in_scene_objects. exists o. split; [exact Ho|].
    unfold has_type in *. rewrite <- Hty. split; [|exact Ht'].
    destruct Hp as [Hp|[_ Hp]]; congruence. }
  rewrite Hnone in Hin. exact Hin.
Qed.

(** The removal of the objects of [ids], all of them empties: the
    objects of the scene afterwards are those that were there and are
    not in [ids]. *)
Lemma remove_empties_spec ids : forall w,
  (forall e o, In e ids -> objects w !! e = Some o -> type o = "EMPTY") ->
  holds (remove_empties ids) w (fun evs r =>
    exists w', r = Ok (tt, w') /\ marks evs = [] /\ keeps w w' /\
      forall i o', objects w' !! i = Some o' -> present o' = true -> ~ In i ids).
Proof.
  induction ids as [|e rest IH]; intros w Hty; cbn [remove_empties].
  - exists w. split; [reflexivity|]. split; [reflexivity|]. split; [apply keeps_refl|].
    intros i o' _ _ [].
  - apply holds_bind. unfold remove. apply holds_bind.
    unfold holds at 1. cbn [call fst snd]. unfold holds at 1. cbn [modify fst snd].
    set (w1 := set_objects _ w).
    assert (Hk1 : keeps w w1).
    { subst w1. split; [apply length_imap|].
      intros i o Hi. cbn [objects set_objects]. rewrite list_lookup_imap, Hi.
      cbn [fmap option_fmap option_map]. destruct (Nat.eqb_spec i e) as [->|Hne].
      - eexists. split; [reflexivity|]. split; [reflexivity|]. right.
        split; [apply (Hty e o); [left; reflexivity|exact Hi]|reflexivity].
      - destruct (parent o) as [p|]; [destruct (l_obj p =? e)%nat|];
          eexists; (split; [reflexivity|]); auto. }
    assert (Hgone : forall o', objects w1 !! e = Some o' -> present o' = false).
    { intros o' Ho'. subst w1. cbn [objects set_objects] in Ho'.
      rewrite list_lookup_imap in Ho'. destruct (objects w !! e) as [o|]; [|discriminate].
      cbn in Ho'. rewrite Nat.eqb_refl in Ho'. injection Ho' as <-. reflexivity. }
    assert (Hty1 : forall e' o, In e' rest -> objects w1 !! e' = Some o -> type o = "EMPTY").
    { intros e' o1 Hin Ho1. destruct Hk1 as [Hlen Hk1].
      assert (Hlt : (e' < length (objects w))%nat)
        by (rewrite <- Hlen; eapply lookup_lt_Some; eauto).
      destruct (lookup_lt_is_Some_2 _ _ Hlt) as [o Ho].
      destruct (Hk1 e' o Ho) as (o2 & Ho2 & Hty2 & _). rewrite Ho1 in Ho2.
      injection Ho2 as <-. rewrite Hty2. apply (Hty e' o); [right; exact Hin|exact Ho]. }
    refine (holds_impl _ w1 _ _ (IH w1 Hty1) _).
    intros evs r (w' & -> & Hm & Hk & Hrest).
    exists w'. split; [reflexivity|]. split; [exact Hm|].
    split; [eapply keeps_trans; eassumption|].
    intros i o' Ho' Hp' [<-|Hin]; [|exact (Hrest i o' Ho' Hp' Hin)].
    destruct Hk as [Hlen Hk].
    assert (Hlt : (e < length (objects w1))%nat)
      by (rewrite <- Hlen; eapply lookup_lt_Some; eauto).
    destruct (lookup_lt_is_Some_2 _ _ Hlt) as [o1 Ho1].
    destruct (Hk e o1 Ho1) as (o2 & Ho2 & _ & Hp2). rewrite Ho' in Ho2.
    injection Ho2 as <-. pose proof (Hgone o1 Ho1) as Hfalse.
    destruct Hp2 as [Hp2|[_ Hp2]]; congruence.
Qed.

(** The import of a path that the host imports. *)
Lemma import_model_imported h input_path objs w :
  imported h input_path = Some objs ->
  holds (import_model h input_path) w (fun evs r =>
    r = Ok (tt, {| objects := objs; active := None |}) /\ marks evs = []).
Proof.
  unfold imported, import_model, holds.
  destruct (_ =? ".fbx")%string.
  - intros ->. split; reflexivity.
  - destruct (Py.contains _ _); [|discriminate]. intros ->. split; reflexivity.
Qed.

End FixOriginScene.

Section FixOriginMain.

Import FixOrigin.

Lemma holds_steady_then (R : world -> world -> Prop) {A B} (m : run A) (f : A -> run B)
    w (Phi : list event -> result (B * world) -> Prop) :
  insensitive Phi -> does R [] m w ->
  (forall a w', R w w' -> holds (f a) w' Phi) ->
  holds (m ≫= f) w Phi.
Proof.
  intros HPhi Hm Hf. apply holds_bind.
  refine (holds_impl m w
            (fun evs r => exists a w', r = Ok (a, w') /\ marks evs = [] /\ R w w')
            _ Hm _).
  intros evs r (a & w1 & -> & Hs & Hk).
  refine (holds_impl (f a) w1 Phi _ (Hf a w1 Hk) _).
  intros evs' r' H. apply HPhi; assumption.
Qed.

Lemma holds_ret_bind {A B} (a : A) (f : A -> run B) w
    (Phi : list event -> result (B * world) -> Prop) :
  holds (f a) w Phi -> holds (mret a ≫= f) w Phi.
Proof.
  unfold holds, mbind, run_bind, mret, run_ret. destruct (f a w) as [evs r]. exact id.
Qed.

Lemma fine_delete_selected w : objects w = [] -> does keeps [] delete_selected w.
Proof.
  intros Hw. apply (steady_bind keeps keeps_trans);
    [apply (does_call keeps keeps_refl DeleteSelected)|intros ? w2 [Hl _]].
  apply steady_modify. apply keeps_objects_eq. cbn [objects set_objects].
  rewrite Hw in Hl. destruct (objects w2); [reflexivity|discriminate Hl].
Qed.

(** A run with both paths and an input that the host imports gets to
    the search for the mesh, silently, in a scene that keeps the
    imported objects and has no empty. *)
Lemma main_reaches h argv input_path output_path objs
    (Phi : list event -> result (unit * world) -> Prop) :
  insensitive Phi ->
  Py.contains "--" argv = true ->
  script_args argv !! 0%nat = Some input_path ->
  script_args argv !! 1%nat = Some output_path ->
  imported h input_path = Some objs ->
  (forall w, keeps {| objects := objs; active := None |} w ->
             scene_objects (has_type "EMPTY") w = [] ->
             holds (locate_and_fix h output_path) w Phi) ->
  Phi (fst (main h argv)) (snd (main h argv)).
Proof.
  intros HPhi Hsep H0 H1 Himp Hrest. unfold main. rewrite Hsep. cbn [negb].
  unfold getitem. rewrite H0, H1.
  match goal with
  | |- Phi (fst (?m ?w)) (snd (?m ?w)) => change (holds m w Phi)
  end.
  do 2 apply holds_ret_bind.
  set (wi := {| objects := []; active := None |}).
  assert (K2 : keeps wi wi) by apply keeps_refl.
  apply (holds_steady_then keeps); [exact HPhi|fine_step|intros ? w3 K3].
  apply (holds_steady_then keeps); [exact HPhi|fine_step|intros ? w4 K4].
  unfold process.
  apply (holds_steady_then keeps); [exact HPhi|fine_step|intros ? w5 K5].
  apply (holds_steady_then keeps); [exact HPhi| |intros ? w6 K6].
  { apply fine_delete_selected.
    destruct K3 as [L3 _], K4 as [L4 _], K5 as [L5 _].
    destruct (objects w5); [reflexivity|].
    cbn [length] in L5. rewrite L4, L3 in L5. discriminate L5. }
  apply (holds_steady_then keeps); [exact HPhi|fine_step|intros ? w7 K7].
  apply (holds_steady_then (fun _ w' => w' = {| objects := objs; active := None |}));
    [exact HPhi| |intros ? w0 ->].
  { refine (holds_impl _ _ _ _ (import_model_imported h input_path objs w7 Himp) _).
    intros evs r [-> Hm]. eexists tt, _. split; [reflexivity|]. split; [exact Hm|reflexivity]. }
  set (w0 := {| objects := objs; active := None |}).
  apply (holds_steady_then keeps); [exact HPhi|fine_step|intros ? wa Ka].
  apply (holds_steady_then keeps); [exact HPhi| |intros ? wb Kb].
  { fine_step; [fine_step|]. apply fine_print_objects. }
  apply (holds_steady_then keeps); [exact HPhi| |intros ? wc Kc].
  { fine_step; [fine_step|]. apply fine_fix_root_node. }
  apply (holds_steady_then keeps); [exact HPhi| |intros ? wd Kd].
  { fine_step; [fine_step|]. apply fine_unparent_from_empties. }
  assert (K : keeps w0 wd) by (repeat (eapply keeps_trans; [eassumption|]); apply keeps_refl).
  apply (holds_steady_then
           (fun w w' => keeps w w' /\ scene_objects (has_type "EMPTY") w' = []));
    [exact HPhi| |intros ? we [Ke Hnone]].
  { apply holds_bind. unfold holds at 1. cbn [get_world fst snd].
    refine (holds_impl _ _ _ _ (remove_empties_spec _ wd _) _).
    { intros e o He Ho. apply in_scene_objects in He.
      destruct He as (o' & Ho' & _ & Ht). rewrite Ho in Ho'. injection Ho' as <-.
      apply String.eqb_eq in Ht. exact Ht. }
    intros evs r (w' & -> & Hm & Hk & Hgone).
    exists tt, w'. split; [reflexivity|]. split; [exact Hm|]. split; [exact Hk|].
    destruct (scene_objects (has_type "EMPTY") w') as [|i l] eqn:E; [reflexivity|].
    exfalso.
    assert (Hin : In i (scene_objects (has_type "EMPTY") w'))
      by (rewrite E; left; reflexivity).
    apply in_scene_objects in Hin. destruct Hin as (o' & Ho' & Hp' & Ht').
    apply (Hgone i o' Ho' Hp'). apply in_scene_objects.
    destruct Hk as [Hlen Hk].
    assert (Hlt : (i < length (objects wd))%nat)
      by (rewrite <- Hlen; eapply lookup_lt_Some; eauto).
    destruct (lookup_lt_is_Some_2 _ _ Hlt) as [o Ho].
    destruct (Hk i o Ho) as (o2 & Ho2 & Hty & Hp). rewrite Ho' in Ho2.
    injection Ho2 as <-. exists o. split; [exact Ho|].
    unfold has_type in *. rewrite <- Hty. split; [|exact Ht'].
    destruct Hp as [Hp|[_ Hp]]; congruence. }
  apply Hrest; [eapply keeps_trans; eassumption|exact Hnone].
Qed.

End FixOriginMain.

Section FixOriginBlocks.

Import FixOrigin.

Lemma keeps_typed w w' i t : keeps w w' -> t <> "EMPTY" -> typed w i t -> typed w' i t.
Proof.
  intros [_ Hk] Ht (o & Ho & Hp & Hty). destruct (Hk i o Ho) as (o' & Ho' & Hty' & Hp').
  exists o'. split; [exact Ho'|]. split; [|congruence].
  destruct Hp' as [Hp'|[He _]]; congruence.
Qed.

Lemma scene_objects_typed t w i : In i (scene_objects (has_type t) w) -> typed w i t.
Proof.
  intros H. apply in_scene_objects in H. destruct H as (o & Ho & Hp & Ht).
  exists o. split; [exact Ho|]. split; [exact Hp|]. apply String.eqb_eq. exact Ht.
Qed.

Lemma calmly_parent_of w w' j : calmly w w' -> parent_of w' j = parent_of w j.
Proof.
  intros [_ H]. specialize (H j). unfold parent_of.
  destruct (objects w' !! j) as [o'|], (objects w !! j) as [o|]; cbn in *; congruence.
Qed.

Lemma parent_of_alter_selected v i l w0 j :
  parent_of (set_objects (alter (set_selected v) i l) w0) j
  = (fun o => l_obj <$> parent o) <$> l !! j.
Proof.
  unfold parent_of. cbn [objects set_objects]. destruct (Nat.eq_dec i j) as [->|Hne].
  - rewrite list_lookup_alter_eq. destruct (l !! j); reflexivity.
  - rewrite list_lookup_alter_ne by exact Hne. reflexivity.
Qed.

(** Lines 74-77 and 79-82: the object at [i] is made active and
    selected, the parents of the selection are cleared, and the object
    is deselected. *)
Lemma clear_block_eq i w :
  let w1 := set_objects (alter (set_selected true) i (objects w)) (set_active (Some i) w) in
  let targets := selection w1 in
  let w2 :=
    set_objects
      (alter (set_selected false) i
         (imap (fun j o => if mem j targets then set_parent None o else o) (objects w1)))
      w1 in
  (make_active i;; select_set i true;; parent_clear;; select_set i false) w
  = ([Call (ParentClear targets)], Ok (tt, w2)).
Proof. reflexivity. Qed.

Lemma clear_block_spec i t w :
  typed w i t ->
  does (fun w w' => keeps w w' /\ loosens w w' /\ parent_of w' i = Some None) []
    (make_active i;; select_set i true;; parent_clear;; select_set i false) w.
Proof.
  intros (o & Ho & Hp & _). unfold does, holds. rewrite clear_block_eq. cbn [fst snd].
  eexists tt, _. split; [reflexivity|]. split; [reflexivity|].
  set (w1 := set_objects (alter (set_selected true) i (objects w)) (set_active (Some i) w)).
  set (F := fun j o => if mem j (selection w1) then set_parent None o else o).
  assert (Hi1 : objects w1 !! i = Some (set_selected true o)).
  { subst w1. cbn [objects set_objects]. rewrite list_lookup_alter_eq, Ho. reflexivity. }
  assert (Hmem : mem i (selection w1) = true).
  { apply position_mem_In. apply in_scene_objects. eexists. split; [exact Hi1|]. split; [exact Hp|reflexivity]. }
  assert (K1 : keeps w w1).
  { apply (keeps_trans _ (set_active (Some i) w));
      [apply keeps_objects_eq; reflexivity|].
    apply (keeps_alter (set_selected true) i (set_active (Some i) w)).
    intros o1. split; reflexivity. }
  assert (K2 : keeps w1 (set_objects (imap F (objects w1)) w1)).
  { apply keeps_imap. intros j o1. subst F. cbn beta. destruct (mem j _); split; reflexivity. }
  split; [|split].
  - eapply keeps_trans; [exact K1|]. eapply keeps_trans; [exact K2|].
    apply (keeps_alter (set_selected false) i (set_objects (imap F (objects w1)) w1)).
    intros o1. split; reflexivity.
  - intros j. rewrite parent_of_alter_selected, list_lookup_imap.
    subst w1. cbn [objects set_objects set_active].
    pose proof (parent_of_alter_selected true i (objects w) w j) as E.
    unfold parent_of at 1 in E. cbn [objects set_objects] in E.
    destruct (alter (set_selected true) i (objects w) !! j) as [o1|] eqn:E1.
    + cbn [fmap option_fmap option_map] in *. subst F. cbn beta.
      destruct (mem j _); [right; reflexivity|left; exact E].
    + left. exact E.
  - rewrite parent_of_alter_selected, list_lookup_imap, Hi1.
    cbn [fmap option_fmap option_map]. subst F. cbn beta. rewrite Hmem. reflexivity.
Qed.

Lemma does_then (R1 R3 : world -> world -> Prop) ms1 ms2 {A B} (m : run A)
    (f : A -> run B) w :
  does R1 ms1 m w ->
  (forall a w1, R1 w w1 -> does (fun _ w2 => R3 w w2) ms2 (f a) w1) ->
  does R3 (ms1 ++ ms2) (m ≫= f) w.
Proof.
  intros Hm Hf. apply holds_bind.
  refine (holds_impl m w
            (fun evs r => exists a w', r = Ok (a, w') /\ marks evs = ms1 /\ R1 w w')
            _ Hm _).
  intros evs r (a & w1 & -> & Hs & Hk).
  refine (holds_impl (f a) w1
            (fun evs r => exists b w', r = Ok (b, w') /\ marks evs = ms2 /\ R3 w w')
            _ (Hf a w1 Hk) _).
  intros evs' r' (b & w2 & -> & Hs' & Hk').
  exists b, w2. split; [reflexivity|]. split; [rewrite marks_app; congruence|exact Hk'].
Qed.

Lemma does_object_at (R : world -> world -> Prop) ms i o {B} (f : obj -> run B) w :
  objects w !! i = Some o -> does R ms (f o) w -> does R ms (object_at i ≫= f) w.
Proof.
  intros Ho. unfold does, holds, mbind, run_bind, object_at. rewrite Ho.
  destruct (f o w) as [evs r]. exact id.
Qed.

Lemma does_get (R : world -> world -> Prop) ms {B} (f : world -> run B) w :
  does R ms (f w) w -> does R ms (get_world ≫= f) w.
Proof.
  unfold does, holds, mbind, run_bind, get_world. destruct (f w w) as [evs r]. exact id.
Qed.

Lemma does_call_then (R : world -> world -> Prop) ms c {B} (f : unit -> run B) w :
  does R ms (f tt) w -> does R (marks [Call c] ++ ms) (call c ≫= f) w.
Proof.
  unfold does, holds, mbind, run_bind, call. destruct (f tt w) as [evs r]. cbn [fst snd].
  intros (a & w' & -> & Hm & HR). exists a, w'. split; [reflexivity|].
  split; [|exact HR]. rewrite marks_app, Hm. reflexivity.
Qed.

Lemma clear_parents_spec mesh arm w :
  typed w mesh "MESH" ->
  (forall a, arm = Some a -> typed w a "ARMATURE") ->
  does (fun w w' => keeps w w' /\ cleared mesh arm w') [] (clear_parents mesh arm) w.
Proof.
  intros (m & Hm & Hpm & Htm) Harm. unfold clear_parents.
  apply (does_object_at _ _ mesh m); [exact Hm|].
  apply (does_then
           (fun w w1 => keeps w w1 /\
              (parent_of w1 mesh = Some None \/ (is_Some arm /\ parent_of w1 mesh = Some arm)))
           _ [] []).
  - destruct (_ && _) eqn:E.
    + eapply does_weaken; [|apply (clear_block_spec mesh "MESH"); exists m; auto].
      intros w' (K & _ & P). cbv beta. auto.
    + exists tt, w. split; [reflexivity|]. split; [reflexivity|].
      split; [apply keeps_refl|]. unfold parent_of. rewrite Hm.
      cbn [fmap option_fmap option_map]. apply andb_false_iff in E.
      destruct E as [E|E].
      * apply bool_decide_eq_false in E. left.
        destruct (parent m); [exfalso; apply E; eauto|reflexivity].
      * destruct arm as [a|]; [|discriminate E]. unfold parent_is_not in E.
        destruct (parent m) as [p|]; [|discriminate E]. right. split; [eauto|].
        apply negb_false_iff, Nat.eqb_eq in E. cbn. rewrite E. reflexivity.
  - intros [] w1 [K1 Q]. destruct arm as [a|].
    + assert (Ha : typed w1 a "ARMATURE")
        by (apply (keeps_typed w w1); [exact K1|discriminate|apply Harm; reflexivity]).
      destruct Ha as (o & Ho & Hpo & Hto).
      apply (does_object_at _ _ a o); [exact Ho|].
      destruct (bool_decide (is_Some (parent o))) eqn:E.
      * eapply does_weaken; [|apply (clear_block_spec a "ARMATURE"); exists o; auto].
        intros w2 (K2 & L2 & P2). cbv beta.
        split; [eapply keeps_trans; eassumption|]. split.
        -- destruct (L2 mesh) as [L|L]; [rewrite L; exact Q|left; exact L].
        -- intros a' [= <-]. exact P2.
      * exists tt, w1. split; [reflexivity|]. split; [reflexivity|].
        split; [exact K1|]. split; [exact Q|]. intros a' [= <-].
        unfold parent_of. rewrite Ho. cbn [fmap option_fmap option_map].
        apply bool_decide_eq_false in E.
        destruct (parent o); [exfalso; apply E; eauto|reflexivity].
    + exists tt, w1. split; [reflexivity|]. split; [reflexivity|].
      split; [exact K1|]. split; [exact Q|]. intros a' [=].
Qed.

Lemma run_modify_bind g {B} (f : unit -> run B) w : (modify g ≫= f) w = f tt (g w).
Proof. unfold mbind, run_bind, modify. destruct (f tt (g w)). reflexivity. Qed.

Lemma run_ret_bind {A B} (a : A) (f : A -> run B) w : (mret a ≫= f) w = f a w.
Proof. unfold mbind, run_bind, mret, run_ret. destruct (f a w). reflexivity. Qed.

Lemma run_get_bind {B} (f : world -> run B) w : (get_world ≫= f) w = f w w.
Proof. unfold mbind, run_bind, get_world. destruct (f w w). reflexivity. Qed.

Lemma run_call_bind c {B} (f : unit -> run B) w :
  (call c ≫= f) w = (Call c :: fst (f tt w), snd (f tt w)).
Proof. unfold mbind, run_bind, call. destruct (f tt w). reflexivity. Qed.

Lemma run_bind_assoc {A B C} (m : run A) (g : A -> run B) (f : B -> run C) w :
  ((m ≫= g) ≫= f) w = (m ≫= (fun a => g a ≫= f)) w.
Proof.
  unfold mbind, run_bind. destruct (m w) as [evs [[a w1]|s]]; [|reflexivity].
  destruct (g a w1) as [evs1 [[b w2]|s]]; [|reflexivity].
  destruct (f b w2) as [evs2 r]. rewrite app_assoc. reflexivity.
Qed.

(** Lines 86-90: after the deselection, the mesh and the armature are
    selected and the armature is active when the parent is set. *)
Lemma parent_block_eq mesh a w p :
  let w4 :=
    set_active (Some a)
      (set_objects
         (alter (set_selected true) a
            (alter (set_selected true) mesh
               (map (fun o => if present o then set_selected false o else o) (objects w))))
         w) in
  let children := List.filter (fun i => negb (i =? a)%nat) (selection w4) in
  objects w4 !! a = Some p ->
  (select_all "DESELECT";; select_set mesh true;; select_set a true;; make_active a;;
   parent_set) w
  = ([Call (SelectAll "DESELECT"); Call (ParentSet children a)],
     Ok (tt,
         set_objects
           (imap (fun i o =>
                    if mem i children
                    then set_parent (Some {| l_obj := a; l_name := name p; l_type := type p |}) o
                    else o)
              (objects w4)) w4)).
Proof.
  intros w4 children Hp.
  unfold select_all, select_set, update, make_active.
  rewrite run_bind_assoc, run_call_bind, !run_modify_bind.
  unfold parent_set, mbind, run_bind, get_world, object_at.
  repeat match goal with
         | |- context [set_active (Some a) ?x] =>
             progress change (set_active (Some a) x) with w4
         end.
  change (active w4) with (Some a). cbv iota beta. rewrite Hp. reflexivity.
Qed.

Lemma keeps_map (F : obj -> obj) w :
  (forall o, type (F o) = type o /\ present (F o) = present o) ->
  keeps w (set_objects (map F (objects w)) w).
Proof.
  intros HF. split; [apply length_map|].
  intros i o Hi. exists (F o). cbn [objects set_objects].
  rewrite list_lookup_fmap, Hi. split; [reflexivity|].
  destruct (HF o) as [-> ->]. auto.
Qed.

Lemma parent_block_spec mesh a w :
  typed w mesh "MESH" -> typed w a "ARMATURE" ->
  does (fun w w' => keeps w w' /\ parent_of w' mesh = Some (Some a) /\
                    parent_of w' a = parent_of w a) []
    (select_all "DESELECT";; select_set mesh true;; select_set a true;; make_active a;;
     parent_set) w.
Proof.
  intros (m & Hm & Hpm & Htm) (o & Ho & Hpo & Hto).
  assert (Hne : mesh <> a).
  { intros ->. rewrite Hm in Ho. injection Ho as <-. rewrite Htm in Hto. discriminate Hto. }
  set (D := fun o : obj => if present o then set_selected false o else o).
  set (l4 := alter (set_selected true) a (alter (set_selected true) mesh (map D (objects w)))).
  assert (Ha4 : l4 !! a = Some (set_selected true (D o))).
  { subst l4. rewrite list_lookup_alter_eq, list_lookup_alter_ne by exact Hne.
    rewrite list_lookup_fmap, Ho. reflexivity. }
  assert (Hm4 : l4 !! mesh = Some (set_selected true (D m))).
  { subst l4. rewrite list_lookup_alter_ne by (intros E; apply Hne; symmetry; exact E).
    rewrite list_lookup_alter_eq, list_lookup_fmap, Hm. reflexivity. }
  unfold does, holds.
  rewrite (parent_block_eq mesh a w (set_selected true (D o))) by exact Ha4.
  cbn [fst snd]. eexists tt, _. split; [reflexivity|]. split; [reflexivity|].
  fold D. fold l4.
  set (w4 := set_active (Some a) (set_objects l4 w)).
  set (children := List.filter (fun i => negb (i =? a)%nat) (selection w4)).
  assert (HD : forall o1, type (D o1) = type o1 /\ present (D o1) = present o1)
    by (intros o1; subst D; cbn beta; destruct (present o1) eqn:E; cbn; rewrite ?E; auto).
  assert (Hmem_m : mem mesh children = true).
  { apply position_mem_In. subst children. apply filter_In. split.
    - apply in_scene_objects. exists (set_selected true (D m)).
      split; [exact Hm4|]. split; [|reflexivity].
      cbn [present set_selected]. rewrite (proj2 (HD m)). exact Hpm.
    - apply negb_true_iff, Nat.eqb_neq. exact Hne. }
  assert (Hmem_a : mem a children = false).
  { destruct (mem a children) eqn:E; [|reflexivity]. apply position_mem_In in E.
    subst children. apply filter_In in E. destruct E as [_ E].
    rewrite Nat.eqb_refl in E. discriminate E. }
  split; [|split].
  - apply (keeps_trans _ (set_objects (map D (objects w)) w)); [apply keeps_map, HD|].
    apply (keeps_trans _ (set_objects (alter (set_selected true) mesh (map D (objects w))) w)).
    { exact (keeps_alter (set_selected true) mesh (set_objects (map D (objects w)) w)
               (fun o1 => conj eq_refl eq_refl)). }
    apply (keeps_trans _ (set_objects l4 w)).
    { exact (keeps_alter (set_selected true) a
               (set_objects (alter (set_selected true) mesh (map D (objects w))) w)
               (fun o1 => conj eq_refl eq_refl)). }
    apply (keeps_trans _ w4); [apply keeps_objects_eq; reflexivity|].
    refine (keeps_imap _ w4 _). intros i o1. destruct (mem i children); split; reflexivity.
  - unfold parent_of. cbn [objects set_objects]. rewrite list_lookup_imap.
    change (objects w4) with l4. rewrite Hm4. cbn [fmap option_fmap option_map].
    rewrite Hmem_m. reflexivity.
  - unfold parent_of. cbn [objects set_objects]. rewrite list_lookup_imap.
    change (objects w4) with l4. rewrite Ha4, Ho. cbn [fmap option_fmap option_map].
    rewrite Hmem_a. subst D. cbn beta. destruct (present o); reflexivity.
Qed.

Lemma parent_to_armature_spec mesh arm w :
  typed w mesh "MESH" ->
  (forall a, arm = Some a -> typed w a "ARMATURE") ->
  cleared mesh arm w ->
  does (fun w w' => keeps w w' /\ rigged mesh arm w') [] (parent_to_armature mesh arm) w.
Proof.
  intros Hmesh Harm [Hc Ha]. unfold parent_to_armature.
  destruct Hmesh as (m & Hm & Hpm & Htm).
  apply (does_object_at _ _ mesh m); [exact Hm|].
  destruct arm as [a|].
  - destruct (parent_is_not a m) eqn:E.
    + eapply does_weaken;
        [|apply (parent_block_spec mesh a); [exists m; auto|apply Harm; reflexivity]].
      intros w' (K & Pm & Pa). cbv beta. split; [exact K|]. split; [exact Pm|].
      intros a' [= <-]. rewrite Pa. apply Ha. reflexivity.
    + exists tt, w. split; [reflexivity|]. split; [reflexivity|].
      split; [apply keeps_refl|]. split; [|exact Ha].
      unfold parent_of. rewrite Hm. cbn [fmap option_fmap option_map].
      unfold parent_is_not in E. destruct (parent m) as [p|]; [|discriminate E].
      apply negb_false_iff, Nat.eqb_eq in E. cbn. rewrite E. reflexivity.
  - exists tt, w. split; [reflexivity|]. split; [reflexivity|].
    split; [apply keeps_refl|]. split; [|exact Ha].
    destruct Hc as [Hc|[[a Hs] _]]; [exact Hc|discriminate Hs].
Qed.

End FixOriginBlocks.

(** A first step without marks, and a last step without marks, of a
    fragment that is steady for [calmly] apart from its marks. *)
Ltac calm_quiet :=
  first [ calm_step | apply (does_call calmly calmly_refl) ].

Ltac calm_first :=
  match goal with
  | |- does calmly ?ms (_ ≫= _) _ =>
      apply (does_bind calmly calmly_trans [] ms);
      [solve [repeat calm_quiet]|intros ? ? ?]
  end.

Ltac calm_last :=
  match goal with
  | |- does calmly ?ms (_ ≫= _) _ =>
      apply (does_bind calmly calmly_trans ms []);
      [|intros ? ? ?; solve [repeat calm_quiet]]
  end.

Section FixOriginTail.

Import FixOrigin.

Lemma bottom_center_nonempty bbox :
  bbox <> [] -> exists c, LowPoly.bottom_center bbox = Some c.
Proof.
  destruct bbox as [|[[x y] z] rest]; [contradiction|]. intros _. eexists. reflexivity.
Qed.

Lemma apply_transforms_calm mesh arm w : does calmly [] (apply_transforms mesh arm) w.
Proof. unfold apply_transforms. destruct arm; repeat calm_quiet. Qed.

Lemma set_origins_calm h mesh arm w :
  bound_box h mesh <> [] ->
  does calmly [Call (SetLocationZero (default mesh arm))] (set_origins h mesh arm) w.
Proof.
  intros Hbox. unfold set_origins.
  destruct (bottom_center_nonempty _ Hbox) as [[[x y] z] ->].
  calm_first. destruct arm as [arm|]; cbn [default].
  - calm_last. do 4 calm_first. apply (does_call calmly calmly_refl (SetLocationZero arm)).
  - do 5 calm_first. apply (does_call calmly calmly_refl (SetLocationZero mesh)).
Qed.

Lemma export_scene_calm output_path mesh arm w :
  does calmly [Call (ExportGltf output_path "GLB")] (export_scene output_path mesh arm) w.
Proof.
  unfold export_scene. do 2 calm_first.
  match goal with
  | |- does calmly ?ms (_ ≫= _) _ =>
      apply (does_bind calmly calmly_trans [] ms);
      [destruct arm; repeat calm_quiet|intros ? ? ?]
  end.
  calm_last. apply (does_call calmly calmly_refl (ExportGltf _ _)).
Qed.

(** An empty bounding box stops the run at its minimum. *)
Lemma set_origins_empty h mesh arm w :
  bound_box h mesh = [] ->
  set_origins h mesh arm w = ([], Stopped (Uncaught "ValueError")).
Proof. intros E. unfold set_origins. rewrite E. reflexivity. Qed.

(** Lines 64-145 in a scene with a mesh whose bounding box has a
    corner. *)
Lemma locate_and_fix_spec h output_path w mesh rest :
  scene_objects (has_type "MESH") w = mesh :: rest ->
  bound_box h mesh <> [] ->
  let arm := head (scene_objects (has_type "ARMATURE") w) in
  does (fun w w' => keeps w w' /\ rigged mesh arm w')
    [Call (SetLocationZero (default mesh arm)); Call (ExportGltf output_path "GLB")]
    (locate_and_fix h output_path) w.
Proof.
  intros Hmesh Hbox arm. unfold locate_and_fix. apply does_get. rewrite Hmesh. fold arm.
  assert (Tm : typed w mesh "MESH")
    by (apply scene_objects_typed; rewrite Hmesh; left; reflexivity).
  assert (Ta : forall a, arm = Some a -> typed w a "ARMATURE").
  { intros a Ha. apply scene_objects_typed. subst arm.
    destruct (scene_objects (has_type "ARMATURE") w) as [|a' l]; [discriminate Ha|].
    injection Ha as ->. left. reflexivity. }
  set (ms := [Call (SetLocationZero (default mesh arm)); Call (ExportGltf output_path "GLB")]).
  refine (does_call_then _ ms (FrameSet 0) _ w _).
  apply (does_then (fun w w' => keeps w w' /\ cleared mesh arm w') _ [] ms);
    [apply clear_parents_spec; assumption|intros [] w1 [K1 C1]].
  assert (Tm1 : typed w1 mesh "MESH") by (apply (keeps_typed w w1); [exact K1|discriminate|exact Tm]).
  assert (Ta1 : forall a, arm = Some a -> typed w1 a "ARMATURE")
    by (intros a Ha; apply (keeps_typed w w1); [exact K1|discriminate|exact (Ta a Ha)]).
  apply (does_then (fun w w' => keeps w w' /\ rigged mesh arm w') _ [] ms);
    [apply parent_to_armature_spec; assumption|intros [] w2 [K2 [Rm Ra]]].
  apply (does_weaken (fun _ w' => calmly w2 w')).
  { intros w3 C. split; [eapply keeps_trans; [exact K1|]; eapply keeps_trans; [exact K2|apply C]|].
    split; [rewrite (calmly_parent_of w2 w3 mesh C); exact Rm|].
    intros a Ha. rewrite (calmly_parent_of w2 w3 a C). exact (Ra a Ha). }
  apply (does_weaken calmly); [auto|].
  apply (does_bind calmly calmly_trans [] ms);
    [apply apply_transforms_calm|intros ? ? ?].
  apply (does_bind calmly calmly_trans
           [Call (SetLocationZero (default mesh arm))] [Call (ExportGltf output_path "GLB")]);
    [apply set_origins_calm; exact Hbox|intros ? ? ?].
  apply export_scene_calm.
Qed.

End FixOriginTail.

Section FixOriginRun.

Import FixOrigin.

Lemma main_fixes h argv input_path output_path objs mesh rest :
  Py.contains "--" argv = true ->
  script_args argv !! 0%nat = Some input_path ->
  script_args argv !! 1%nat = Some output_path ->
  imported h input_path = Some objs ->
  scene_objects (has_type "MESH") {| objects := objs; active := None |} = mesh :: rest ->
  bound_box h mesh <> [] ->
  let w0 := {| objects := objs; active := None |} in
  let arm := head (scene_objects (has_type "ARMATURE") w0) in
  exists w',
    snd (main h argv) = Ok (tt, w') /\
    marks (fst (main h argv))
    = [Call (SetLocationZero (default mesh arm)); Call (ExportGltf output_path "GLB")] /\
    keeps w0 w' /\
    scene_objects (has_type "EMPTY") w' = [] /\
    rigged mesh arm w'.
Proof.
  intros Hsep H0 H1 Himp Hmesh Hbox w0 arm.
  apply (main_reaches h argv input_path output_path objs
           (fun evs r => exists w',
              r = Ok (tt, w') /\
              marks evs
              = [Call (SetLocationZero (default mesh arm)); Call (ExportGltf output_path "GLB")] /\
              keeps w0 w' /\
              scene_objects (has_type "EMPTY") w' = [] /\
              rigged mesh arm w')); try assumption.
  - intros evs evs' r Hq (w' & -> & Hm & H). exists w'. split; [reflexivity|].
    split; [rewrite marks_app, Hq; exact Hm|exact H].
  - intros w K Hnone.
    assert (Em : scene_objects (has_type "MESH") w = mesh :: rest)
      by (rewrite (keeps_scene_objects "MESH" w0 w K); [exact Hmesh|discriminate]).
    assert (Ea : head (scene_objects (has_type "ARMATURE") w) = arm)
      by (rewrite (keeps_scene_objects "ARMATURE" w0 w K); [reflexivity|discriminate]).
    pose proof (locate_and_fix_spec h output_path w mesh rest Em Hbox) as Hrun.
    cbv zeta in Hrun. rewrite Ea in Hrun.
    refine (holds_impl _ w
              (fun evs r => exists a w',
                 r = Ok (a, w') /\
                 marks evs
                 = [Call (SetLocationZero (default mesh arm));
                    Call (ExportGltf output_path "GLB")] /\
                 keeps w w' /\ rigged mesh arm w') _ Hrun _).
    intros evs r ([] & w' & -> & Hm & K' & Hr). exists w'.
    split; [reflexivity|]. split; [exact Hm|].
    split; [eapply keeps_trans; eassumption|].
    split; [exact (keeps_no_empties w w' K' Hnone)|exact Hr].
Qed.

(** X25: A run whose input path has none of the extensions [.fbx],
    [.glb] and [.gltf] (in any case) clears the scene, prints the
    extension it does not support and exits with code 1: nothing is
    imported and nothing is exported. *)
Theorem unsupported_extension_is_refused h argv input_path output_path :
  Py.contains "--" argv = true ->
  script_args argv !! 0%nat = Some input_path ->
  script_args argv !! 1%nat = Some output_path ->
  Py.contains (Py.lower (snd (Py.splitext input_path))) [".fbx"; ".glb"; ".gltf"] = false ->
  main h argv
  = ([Printed [Text "[INFO] Input: "; Text input_path];
      Printed [Text "[INFO] Output: "; Text output_path];
      Call (SelectAll "SELECT");
      Call DeleteSelected;
      Printed [Text "[INFO] Cleared scene"];
      Printed [Text "Unsupported file extension: ";
               Text (Py.lower (snd (Py.splitext input_path)))]],
     Stopped (SysExit 1)).
Proof.
  intros Hsep H0 H1 Hext. unfold main. rewrite Hsep. cbn [negb].
  unfold getitem. rewrite H0, H1, !run_ret_bind. unfold process, import_model. cbv zeta.
  set (ext := Py.lower (snd (Py.splitext input_path))) in *.
  cbn [Py.contains existsb] in Hext. apply orb_false_iff in Hext.
  destruct Hext as [Hfbx Hrest]. rewrite Hfbx. cbn [Py.contains existsb]. rewrite Hrest. reflexivity.
Qed.

(** X26: A run whose import leaves no mesh in the scene prints
    [No mesh found!] last and exits with code 1; it exports nothing and
    moves no object to the world origin. *)
Theorem no_mesh_no_export h argv input_path output_path objs :
  Py.contains "--" argv = true ->
  script_args argv !! 0%nat = Some input_path ->
  script_args argv !! 1%nat = Some output_path ->
  imported h input_path = Some objs ->
  scene_objects (has_type "MESH") {| objects := objs; active := None |} = [] ->
  exit_code (main h argv) = Some 1 /\
  last (fst (main h argv)) = Some (Printed [Text "No mesh found!"]) /\
  exports (main h argv) = [] /\
  moves (main h argv) = [].
Proof.
  intros Hsep H0 H1 Himp Hmesh.
  assert (H : snd (main h argv) = Stopped (SysExit 1) /\
              marks (fst (main h argv)) = [] /\
              last (fst (main h argv)) = Some (Printed [Text "No mesh found!"])).
  { apply (main_reaches h argv input_path output_path objs
             (fun evs r => r = Stopped (SysExit 1) /\ marks evs = [] /\
                           last evs = Some (Printed [Text "No mesh found!"])));
      try assumption.
    - intros evs evs' r Hq (-> & Hm & Hl). split; [reflexivity|].
      split; [rewrite marks_app, Hq; exact Hm|]. rewrite last_app, Hl. reflexivity.
    - intros w K _. unfold holds, locate_and_fix.
      rewrite run_get_bind.
      assert (Em : scene_objects (has_type "MESH") w = [])
        by (rewrite (keeps_scene_objects "MESH" _ w K); [exact Hmesh|discriminate]).
      rewrite Em. repeat split. }
  destruct H as (Hr & Hm & Hl). unfold exit_code, exports, moves.
  rewrite Hr, exports_marks, moves_marks, Hm. auto.
Qed.

(** X27: A run on an input that the host imports with a mesh in it,
    whose bounding box has a corner, ends well with exactly one export,
    of the output path in the GLB format, and exactly one move to the
    world origin: of the first armature of the scene if there is one,
    of the first mesh otherwise. *)
Theorem fix_origin_exports_once h argv input_path output_path objs mesh rest :
  Py.contains "--" argv = true ->
  script_args argv !! 0%nat = Some input_path ->
  script_args argv !! 1%nat = Some output_path ->
  imported h input_path = Some objs ->
  scene_objects (has_type "MESH") {| objects := objs; active := None |} = mesh :: rest ->
  bound_box h mesh <> [] ->
  exit_code (main h argv) = Some 0 /\
  exports (main h argv) = [Call (ExportGltf output_path "GLB")] /\
  moves (main h argv)
  = [Call (SetLocationZero
             (default mesh
                (head (scene_objects (has_type "ARMATURE")
                         {| objects := objs; active := None |}))))].
Proof.
  intros Hsep H0 H1 Himp Hmesh Hbox.
  destruct (main_fixes h argv input_path output_path objs mesh rest
              Hsep H0 H1 Himp Hmesh Hbox) as (w' & Hr & Hm & _).
  unfold exit_code, exports, moves. rewrite Hr, exports_marks, moves_marks, Hm. auto.
Qed.

(** X28: The scene that such a run exports has no empty; its first mesh
    is the one of the import and has the first armature as its parent,
    or no parent if the scene has no armature; that armature has no
    parent. *)
Theorem fixed_scene_hierarchy h argv input_path output_path objs mesh rest :
  Py.contains "--" argv = true ->
  script_args argv !! 0%nat = Some input_path ->
  script_args argv !! 1%nat = Some output_path ->
  imported h input_path = Some objs ->
  scene_objects (has_type "MESH") {| objects := objs; active := None |} = mesh :: rest ->
  bound_box h mesh <> [] ->
  exists w',
    final_world (main h argv) = Some w' /\
    scene_objects (has_type "EMPTY") w' = [] /\
    scene_objects (has_type "MESH") w' = mesh :: rest /\
    scene_objects (has_type "ARMATURE") w'
    = scene_objects (has_type "ARMATURE") {| objects := objs; active := None |} /\
    parent_of w' mesh = Some (head (scene_objects (has_type "ARMATURE") w')) /\
    forall a, head (scene_objects (has_type "ARMATURE") w') = Some a ->
              parent_of w' a = Some None.
Proof.
  intros Hsep H0 H1 Himp Hmesh Hbox.
  destruct (main_fixes h argv input_path output_path objs mesh rest
              Hsep H0 H1 Himp Hmesh Hbox) as (w' & Hr & _ & K & Hnone & Hm & Ha).
  exists w'. unfold final_world. rewrite Hr.
  rewrite (keeps_scene_objects "MESH" _ w' K) by discriminate.
  rewrite (keeps_scene_objects "ARMATURE" _ w' K) by discriminate.
  auto 10.
Qed.

End FixOriginRun.

(** X25 on an input path that ends in [.obj]. *)
Lemma unsupported_extension_is_refused_witness :
  FixOrigin.main (FixSample.host_of FixSample.character)
    ["blender"; "--"; "in.obj"; "out.glb"]
  = ([FixOrigin.Printed [FixOrigin.Text "[INFO] Input: "; FixOrigin.Text "in.obj"];
      FixOrigin.Printed [FixOrigin.Text "[INFO] Output: "; FixOrigin.Text "out.glb"];
      FixOrigin.Call (FixOrigin.SelectAll "SELECT");
      FixOrigin.Call FixOrigin.DeleteSelected;
      FixOrigin.Printed [FixOrigin.Text "[INFO] Cleared scene"];
      FixOrigin.Printed [FixOrigin.Text "Unsupported file extension: "; FixOrigin.Text ".obj"]],
     Stopped (SysExit 1)).
Proof.
  apply (unsupported_extension_is_refused (FixSample.host_of FixSample.character)
           ["blender"; "--"; "in.obj"; "out.glb"] "in.obj" "out.glb"); reflexivity.
Defined.

(** X26 on a scene with a light alone. *)
Lemma no_mesh_no_export_witness :
  FixOrigin.exit_code (FixOrigin.main (FixSample.host_of FixSample.lights) FixSample.argv)
  = Some 1 /\
  last (fst (FixOrigin.main (FixSample.host_of FixSample.lights) FixSample.argv))
  = Some (FixOrigin.Printed [FixOrigin.Text "No mesh found!"]) /\
  FixOrigin.exports (FixOrigin.main (FixSample.host_of FixSample.lights) FixSample.argv) = [] /\
  FixOrigin.moves (FixOrigin.main (FixSample.host_of FixSample.lights) FixSample.argv) = [].
Proof.
  apply (no_mesh_no_export (FixSample.host_of FixSample.lights) FixSample.argv
           "in.fbx" "out.glb" FixSample.lights); reflexivity.
Defined.

(** X27 on the sample character: the armature, at position 1, is moved
    to the world origin. *)
Lemma fix_origin_exports_once_witness :
  FixOrigin.exit_code (FixOrigin.main (FixSample.host_of FixSample.character) FixSample.argv)
  = Some 0 /\
  FixOrigin.exports (FixOrigin.main (FixSample.host_of FixSample.character) FixSample.argv)
  = [FixOrigin.Call (FixOrigin.ExportGltf "out.glb" "GLB")] /\
  FixOrigin.moves (FixOrigin.main (FixSample.host_of FixSample.character) FixSample.argv)
  = [FixOrigin.Call (FixOrigin.SetLocationZero 1)].
Proof.
  apply (fix_origin_exports_once (FixSample.host_of FixSample.character) FixSample.argv
           "in.fbx" "out.glb" FixSample.character 2%nat []);
    first [reflexivity|discriminate].
Defined.

(** X28 on the sample character: the mesh, at position 2, ends under
    the armature, at position 1. *)
Lemma fixed_scene_hierarchy_witness :
  exists w',
    FixOrigin.final_world
      (FixOrigin.main (FixSample.host_of FixSample.character) FixSample.argv) = Some w' /\
    FixOrigin.scene_objects (FixOrigin.has_type "EMPTY") w' = [] /\
    FixOrigin.scene_objects (FixOrigin.has_type "MESH") w' = [2%nat] /\
    FixOrigin.scene_objects (FixOrigin.has_type "ARMATURE") w' = [1%nat] /\
    parent_of w' 2 = Some (head (FixOrigin.scene_objects (FixOrigin.has_type "ARMATURE") w')) /\
    forall a, head (FixOrigin.scene_objects (FixOrigin.has_type "ARMATURE") w') = Some a ->
              parent_of w' a = Some None.
Proof.
  apply (fixed_scene_hierarchy (FixSample.host_of FixSample.character) FixSample.argv
           "in.fbx" "out.glb" FixSample.character 2%nat []);
    first [reflexivity|discriminate].
Defined.

Section OriginFixChild.

Variable h : host.
Variable fh : FixOrigin.host.

Lemma length_string_app (a b : string) :
  String.length (a ++ b) = (String.length a + String.length b)%nat.
Proof. induction a as [|ch a IH]; cbn; [reflexivity|]. rewrite IH. reflexivity. Qed.

Lemma fix_origin_script_not_separator : LowPoly.fix_origin_script h <> "--".
Proof.
  intros E. apply (f_equal String.length) in E. revert E.
  unfold LowPoly.fix_origin_script, path_join.
  destruct (_ || _); rewrite !length_string_app; cbn; lia.
Qed.

(** The command line of the child process has the separator and the
    output path twice behind it. *)
Lemma fix_origin_argv_args c :
  blender_path h <> Some "--" ->
  Py.contains "--" (LowPoly.fix_origin_argv h c) = true /\
  script_args (LowPoly.fix_origin_argv h c)
  = [LowPoly.output_path c; LowPoly.output_path c].
Proof.
  intros Hb. unfold LowPoly.fix_origin_argv.
  set (blender := match blender_path h with Some b => b | None => "blender" end).
  assert (Eb : (blender =? "--")%string = false).
  { apply String.eqb_neq. subst blender. destruct (blender_path h) as [b|].
    - intros ->. apply Hb. reflexivity.
    - discriminate. }
  assert (Es : (LowPoly.fix_origin_script h =? "--")%string = false)
    by (apply String.eqb_neq, fix_origin_script_not_separator).
  split.
  - cbn [Py.contains existsb]. rewrite !orb_true_iff. do 4 right. left. reflexivity.
  - unfold script_args. cbn [Py.index]. rewrite Eb, Es. reflexivity.
Qed.

(** X29: The origin fix that convert-low-poly.py starts reads the file
    the parent exported and writes over it: on the parent's command
    line, when the file imports with a mesh, the child's one export goes
    to the parent's output path, in the GLB format whatever the
    extension of that path, and the child exits with code 0. *)
Theorem origin_fix_child_overwrites_the_output c objs mesh rest :
  blender_path h <> Some "--" ->
  FixOrigin.imported fh (LowPoly.output_path c) = Some objs ->
  FixOrigin.scene_objects (FixOrigin.has_type "MESH")
    {| FixOrigin.objects := objs; FixOrigin.active := None |} = mesh :: rest ->
  FixOrigin.bound_box fh mesh <> [] ->
  FixOrigin.exit_code (FixOrigin.main fh (LowPoly.fix_origin_argv h c)) = Some 0 /\
  FixOrigin.exports (FixOrigin.main fh (LowPoly.fix_origin_argv h c))
  = [FixOrigin.Call (FixOrigin.ExportGltf (LowPoly.output_path c) "GLB")].
Proof.
  intros Hb Himp Hmesh Hbox. destruct (fix_origin_argv_args c Hb) as [Hsep Hargs].
  destruct (main_fixes fh (LowPoly.fix_origin_argv h c)
              (LowPoly.output_path c) (LowPoly.output_path c) objs mesh rest)
    as (w' & Hr & Hm & _); try assumption; try (rewrite Hargs; reflexivity).
  unfold FixOrigin.exit_code, FixOrigin.exports. rewrite Hr, exports_marks, Hm. auto.
Qed.

End OriginFixChild.

(** X29 on the command line for [out.glb] and the sample character. *)
Lemma origin_fix_child_overwrites_the_output_witness :
  FixOrigin.exit_code
    (FixOrigin.main (FixSample.host_of FixSample.character)
       (LowPoly.fix_origin_argv Sample.host
          (initial_config ["in.glb"; "out.glb"] "in.glb" "out.glb"))) = Some 0 /\
  FixOrigin.exports
    (FixOrigin.main (FixSample.host_of FixSample.character)
       (LowPoly.fix_origin_argv Sample.host
          (initial_config ["in.glb"; "out.glb"] "in.glb" "out.glb")))
  = [FixOrigin.Call (FixOrigin.ExportGltf "out.glb" "GLB")].
Proof.
  apply (origin_fix_child_overwrites_the_output Sample.host
           (FixSample.host_of FixSample.character)
           (initial_config ["in.glb"; "out.glb"] "in.glb" "out.glb")
           FixSample.character 2%nat []);
    first [reflexivity|discriminate].
Defined.

(** ** An input path with an unsupported extension *)

Section UnsupportedExtension.

Variable py_int : string -> option Z.
Variable py_float : string -> option float.
Variable h : host.
Variable fh : FixOrigin.host.
Variable th : Tpose.host.

Lemma unsupported_tests input_path :
  unsupported input_path ->
  (Py.lower (snd (Py.splitext input_path)) =? ".fbx")%string = false /\
  Py.contains (Py.lower (snd (Py.splitext input_path))) [".glb"; ".gltf"] = false.
Proof.
  unfold unsupported. cbn [Py.contains existsb]. intros H.
  apply orb_false_iff in H. exact H.
Qed.

(** fix-origin-bottom.py stops at its import with [sys.exit(1)]. *)
Lemma fix_origin_stops_at_import argv input_path output_path :
  Py.contains "--" argv = true ->
  script_args argv !! 0%nat = Some input_path ->
  script_args argv !! 1%nat = Some output_path ->
  unsupported input_path ->
  FixOrigin.main fh argv
  = ([FixOrigin.Printed [FixOrigin.Text "[INFO] Input: "; FixOrigin.Text input_path];
      FixOrigin.Printed [FixOrigin.Text "[INFO] Output: "; FixOrigin.Text output_path];
      FixOrigin.Call (FixOrigin.SelectAll "SELECT");
      FixOrigin.Call FixOrigin.DeleteSelected;
      FixOrigin.Printed [FixOrigin.Text "[INFO] Cleared scene"];
      FixOrigin.Printed [FixOrigin.Text "Unsupported file extension: ";
                         FixOrigin.Text (Py.lower (snd (Py.splitext input_path)))]],
     Stopped (SysExit 1)).
Proof.
  intros Hsep H0 H1 Hext. destruct (unsupported_tests _ Hext) as [Hfbx Hrest].
  unfold FixOrigin.main. rewrite Hsep. cbn [negb].
  unfold FixOrigin.getitem. rewrite H0, H1, !run_ret_bind.
  unfold FixOrigin.process, FixOrigin.import_model. cbv zeta.
  rewrite Hfbx, Hrest. reflexivity.
Qed.

(** blender_prepare_tpose.py stops at its import with a
    [RuntimeError]. *)
Lemma prepare_tpose_stops_at_import argv input_path output_path :
  Py.contains "--" argv = true ->
  script_args argv !! 0%nat = Some input_path ->
  script_args argv !! 1%nat = Some output_path ->
  unsupported input_path ->
  exists flag,
    Tpose.main th argv
    = ([FixOrigin.Printed [FixOrigin.Text "[INFO] Input: "; FixOrigin.Text input_path];
        FixOrigin.Printed [FixOrigin.Text "[INFO] Output: "; FixOrigin.Text output_path];
        FixOrigin.Printed [FixOrigin.Text "[INFO] preserve_animations: ";
                           FixOrigin.Text (Tpose.bool_text flag)];
        FixOrigin.Call (FixOrigin.SelectAll "SELECT");
        FixOrigin.Call FixOrigin.DeleteSelected;
        FixOrigin.Printed [FixOrigin.Text "[INFO] Cleared scene"]],
       Stopped (Uncaught "RuntimeError")).
Proof.
  intros Hsep H0 H1 Hext. destruct (unsupported_tests _ Hext) as [Hfbx Hrest].
  eexists. unfold Tpose.main. rewrite Hsep. cbn [negb].
  unfold FixOrigin.getitem. rewrite H0, H1, !run_ret_bind. cbv zeta.
  unfold Tpose.process, Tpose.import_model. cbv zeta.
  rewrite Hfbx, Hrest. reflexivity.
Qed.

(** C6, as the code has it: an input path whose extension is neither
    [.fbx], [.glb] nor [.gltf] (in any case) makes convert-low-poly.py,
    apply-shaded-texture.py and fix-origin-bottom.py end with exit code
    1, and blender_prepare_tpose.py with an uncaught [RuntimeError];
    none of the four scripts calls an exporter. *)
Theorem unsupported_input_extension argv inp out :
  Py.contains "--" argv = true ->
  script_args argv !! 0%nat = Some inp -> script_args argv !! 1%nat = Some out ->
  Py.contains (Py.lower (snd (Py.splitext inp))) [".fbx"; ".glb"; ".gltf"] = false ->
  (exit_code (LowPoly.main py_int py_float h argv) = Some 1 /\
   exports (LowPoly.main py_int py_float h argv) = []) /\
  (exit_code (ShadedTexture.main py_float h argv) = Some 1 /\
   exports (ShadedTexture.main py_float h argv) = []) /\
  (FixOrigin.exit_code (FixOrigin.main fh argv) = Some 1 /\
   FixOrigin.exports (FixOrigin.main fh argv) = []) /\
  (snd (Tpose.main th argv) = Stopped (Uncaught "RuntimeError") /\
   FixOrigin.exports (Tpose.main th argv) = []).
Proof.
  intros Hsep H0 H1 Hext.
  assert (Hne : let ext := Py.lower (snd (Py.splitext inp)) in
                ext <> ".fbx" /\ ext <> ".glb" /\ ext <> ".gltf").
  { cbn zeta. unfold Py.contains, existsb in Hext.
    apply orb_false_elim in Hext. destruct Hext as [E1 Hext'].
    apply orb_false_elim in Hext'. destruct Hext' as [E2 Hext'].
    apply orb_false_elim in Hext'. destruct Hext' as [E3 _].
    apply String.eqb_neq in E1, E2, E3. repeat split; congruence. }
  destruct Hne as (Hf & Hg & Ht). split; [|split; [|split]].
  - rewrite (main_unfold py_int py_float h argv Hsep).
    pose proof (parse_args_prints_only py_int py_float (script_args argv)) as Hp.
    apply prints_only_exports in Hp.
    destruct (parse_args_outcome py_int py_float _ inp out H0 H1) as [E|E].
    + assert (Hin : LowPoly.input_path (parsed py_int py_float (script_args argv) inp out) = inp)
        by (rewrite parsed_fields; reflexivity).
      destruct (import_model_rejects h (parsed py_int py_float (script_args argv) inp out))
        as [Hs He]; try (rewrite Hin; assumption).
      assert (Hproc : snd (LowPoly.process h (parsed py_int py_float (script_args argv) inp out))
                      = Stopped (SysExit 1))
        by (unfold LowPoly.process; apply bind_snd_stopped; exact Hs).
      split.
      * unfold exit_code. rewrite (bind_snd_ok _ _ _ E), Hproc. reflexivity.
      * rewrite exports_bind, Hp, E. unfold LowPoly.process.
        rewrite exports_bind, He, Hs. reflexivity.
    + split.
      * unfold exit_code. rewrite (bind_snd_stopped _ _ _ E). reflexivity.
      * rewrite exports_bind, Hp, E. reflexivity.
  - unfold ShadedTexture.main. rewrite Hsep. cbn [negb].
    destruct (shaded_parse_args_ok py_float (script_args argv) inp out H0 H1)
      as (c & Hc & Hin & _).
    pose proof (shaded_parse_args_prints_only py_float (script_args argv)) as Hp.
    apply prints_only_exports in Hp.
    destruct (shaded_import_model_rejects h c) as [Hs He]; try (rewrite Hin; assumption).
    split.
    + unfold exit_code. rewrite (bind_snd_ok _ _ _ Hc).
      rewrite (bind_snd_stopped _ _ _ Hs). reflexivity.
    + rewrite exports_bind, Hp, Hc. rewrite exports_bind, He, Hs. reflexivity.
  - rewrite (fix_origin_stops_at_import argv inp out Hsep H0 H1 Hext).
    split; reflexivity.
  - destruct (prepare_tpose_stops_at_import argv inp out Hsep H0 H1 Hext) as [flag ->].
    split; reflexivity.
Qed.

End UnsupportedExtension.

(** C6 on the input path [model.obj]. *)
Lemma unsupported_input_extension_witness :
  let argv := ["blender"; "--"; "model.obj"; "out.glb"; "--glb"] in
  (exit_code (Sample.low_poly argv) = Some 1 /\ exports (Sample.low_poly argv) = []) /\
  (exit_code (Sample.shaded_texture argv) = Some 1 /\
   exports (Sample.shaded_texture argv) = []) /\
  (FixOrigin.exit_code (FixOrigin.main (FixSample.host_of FixSample.character) argv) = Some 1 /\
   FixOrigin.exports (FixOrigin.main (FixSample.host_of FixSample.character) argv) = []) /\
  (snd (Tpose.main (TposeSample.host_of FixSample.character) argv)
   = Stopped (Uncaught "RuntimeError") /\
   FixOrigin.exports (Tpose.main (TposeSample.host_of FixSample.character) argv) = []).
Proof.
  intros argv.
  apply (unsupported_input_extension Py.int_ascii Py.float_decimal Sample.host
           (FixSample.host_of FixSample.character)
           (TposeSample.host_of FixSample.character) argv "model.obj" "out.glb");
    reflexivity.
Defined.

(** C6 fails as stated: on the input path [model.obj],
    blender_prepare_tpose.py clears the scene and raises a
    [RuntimeError] where the other scripts call [sys.exit(1)]; the run
    has no exit code of its own. *)
Lemma prepare_tpose_raises_runtime_error :
  let argv := ["blender"; "--"; "model.obj"; "out.glb"] in
  Tpose.main (TposeSample.host_of FixSample.character) argv
  = ([FixOrigin.Printed [FixOrigin.Text "[INFO] Input: "; FixOrigin.Text "model.obj"];
      FixOrigin.Printed [FixOrigin.Text "[INFO] Output: "; FixOrigin.Text "out.glb"];
      FixOrigin.Printed [FixOrigin.Text "[INFO] preserve_animations: ";
                         FixOrigin.Text "False"];
      FixOrigin.Call (FixOrigin.SelectAll "SELECT");
      FixOrigin.Call FixOrigin.DeleteSelected;
      FixOrigin.Printed [FixOrigin.Text "[INFO] Cleared scene"]],
     Stopped (Uncaught "RuntimeError")) /\
  FixOrigin.exit_code (Tpose.main (TposeSample.host_of FixSample.character) argv) = None /\
  FixOrigin.exit_code (Tpose.main (TposeSample.host_of FixSample.character) argv) <> Some 1.
Proof. cbv zeta. split; [vm_compute; reflexivity|]. split; [reflexivity|discriminate]. Qed.
